(** * LoadFile Creator 4.1: the production pipeline, embedded and verified

    A shallow embedding of [LoadFile_Creator_4.1_Testing.py] (class
    [LoadFileCreator]).  Python values are modelled as follows.

    - [str] is [string]; one [ascii] stands for one character whose code
      point is below 256, so [chr], [lower], [repr] and [encode] are exact
      on that range and characters above it are outside the model.
    - [int] is [Z].
    - a [dict] is an insertion-ordered association list ([Dict.t]).
    - the external collaborators (Tika, PyPDF2, pdf2image, PIL, the file
      system, the per-process string [hash]) are fields of a record [Env];
      a call that raises returns [None].
    - [os.path] is [posixpath]. *)

From Stdlib Require Import ZArith List String Ascii Bool Lia Arith.
From Stdlib Require Import Permutation Sorted.
Import ListNotations.

Local Open Scope string_scope.
Local Open Scope Z_scope.

(* ================================================================== *)
(** ** Python strings *)

Module PyStr.

Definition code (c : ascii) : Z := Z.of_N (N_of_ascii c).

(** [chr(n)] on the modelled range of characters. *)
Definition chr (n : Z) : option ascii :=
  if (0 <=? n) && (n <? 256) then Some (ascii_of_N (Z.to_N n)) else None.

Definition is_digit (c : ascii) : bool := (48 <=? code c) && (code c <=? 57).

(** [str.isspace] for one character (Unicode White_Space plus the
    information separators, restricted to code points below 256). *)
Definition is_space (c : ascii) : bool :=
  let n := code c in
  ((9 <=? n) && (n <=? 13)) || ((28 <=? n) && (n <=? 32))
  || (n =? 133) || (n =? 160).

Definition len (s : string) : Z := Z.of_nat (String.length s).

Fixpoint rev_onto (s acc : string) : string :=
  match s with
  | EmptyString => acc
  | String c r => rev_onto r (String c acc)
  end.

Definition rev (s : string) : string := rev_onto s "".

Fixpoint drop (n : nat) (s : string) : string :=
  match n, s with
  | O, _ => s
  | S k, String _ r => drop k r
  | S _, EmptyString => ""
  end.

Fixpoint take (n : nat) (s : string) : string :=
  match n, s with
  | S k, String c r => String c (take k r)
  | _, _ => ""
  end.

(** A slice index as Python normalises it: negative counts from the
    end, then clamped to [0, len]. *)
Definition clamp (i n : Z) : Z :=
  let j := if i <? 0 then i + n else i in
  Z.max 0 (Z.min j n).

(** [s[i:j]] *)
Definition slice (s : string) (i j : Z) : string :=
  let n := len s in
  let a := clamp i n in
  let b := clamp j n in
  take (Z.to_nat (b - a)) (drop (Z.to_nat a) s).

(** [s[i:]] *)
Definition slice_from (s : string) (i : Z) : string :=
  drop (Z.to_nat (clamp i (len s))) s.

(** [s[-1]]; [None] is IndexError. *)
Fixpoint last_char (s : string) : option ascii :=
  match s with
  | EmptyString => None
  | String c EmptyString => Some c
  | String _ r => last_char r
  end.

Definition startswith (s p : string) : bool := String.prefix p s.

Definition endswith (s p : string) : bool := String.prefix (rev p) (rev s).

(** [s.find(sub)], [-1] when absent. *)
Fixpoint find_from (sub s : string) (i : Z) : Z :=
  if String.prefix sub s then i
  else match s with
       | EmptyString => -1
       | String _ r => find_from sub r (i + 1)
       end.

Definition find (s sub : string) : Z := find_from sub s 0.

(** [s.rfind(c)] for a one-character [c], [-1] when absent. *)
Fixpoint rfind_char_from (c : ascii) (s : string) (i best : Z) : Z :=
  match s with
  | EmptyString => best
  | String d r => rfind_char_from c r (i + 1) (if Ascii.eqb d c then i else best)
  end.

Definition rfind_char (s : string) (c : ascii) : Z := rfind_char_from c s 0 (-1).

(** [sub in s] *)
Definition contains (sub s : string) : bool := 0 <=? find s sub.

Fixpoint mem_char (c : ascii) (s : string) : bool :=
  match s with
  | EmptyString => false
  | String d r => Ascii.eqb c d || mem_char c r
  end.

(** [s.replace(old, new)] for a non-empty [old]: occurrences are taken
    left to right and do not overlap; [skip] counts the characters of a
    matched occurrence still to be passed over. *)
Fixpoint replace_go (old new : string) (skip : nat) (s : string) : string :=
  match s with
  | EmptyString => ""
  | String c r =>
      match skip with
      | S k => replace_go old new k r
      | O => if String.prefix old s
             then new ++ replace_go old new (String.length old - 1) r
             else String c (replace_go old new 0 r)
      end
  end.

Fixpoint intersperse_after (new s : string) : string :=
  match s with
  | EmptyString => ""
  | String c r => String c (new ++ intersperse_after new r)
  end.

Definition replace (s old new : string) : string :=
  match old with
  | EmptyString => new ++ intersperse_after new s
  | _ => replace_go old new 0 s
  end.

(** [s.split(sep)] for a non-empty [sep]; [cur] holds the current piece
    reversed. *)
Fixpoint split_go (sep : string) (skip : nat) (s cur : string) : list string :=
  match s with
  | EmptyString => [rev cur]
  | String c r =>
      match skip with
      | S k => split_go sep k r cur
      | O => if String.prefix sep s
             then rev cur :: split_go sep (String.length sep - 1) r ""
             else split_go sep 0 r (String c cur)
      end
  end.

(** [None] is the ValueError of an empty separator. *)
Definition split (s sep : string) : option (list string) :=
  match sep with
  | EmptyString => None
  | _ => Some (split_go sep 0 s "")
  end.

(** [sep.join(l)] *)
Definition join (sep : string) (l : list string) : string := String.concat sep l.

(** [str.lower] for one character below 256: A-Z and the Latin-1
    capitals (all of 0xC0-0xDE but the multiplication sign). *)
Definition lower_char (c : ascii) : ascii :=
  let n := code c in
  if ((65 <=? n) && (n <=? 90))
     || ((192 <=? n) && (n <=? 222) && negb (n =? 215))
  then ascii_of_N (Z.to_N (n + 32)) else c.

Fixpoint lower (s : string) : string :=
  match s with
  | EmptyString => ""
  | String c r => String (lower_char c) (lower r)
  end.

Fixpoint lstrip_chars (chars s : string) : string :=
  match s with
  | EmptyString => ""
  | String c r => if mem_char c chars then lstrip_chars chars r else s
  end.

Definition rstrip_chars (chars s : string) : string :=
  rev (lstrip_chars chars (rev s)).

(** [s.strip(chars)] *)
Definition strip_chars (s chars : string) : string :=
  rstrip_chars chars (lstrip_chars chars s).

Fixpoint lstrip_space (s : string) : string :=
  match s with
  | EmptyString => ""
  | String c r => if is_space c then lstrip_space r else s
  end.

(** [s.strip()] *)
Definition strip (s : string) : string :=
  rev (lstrip_space (rev (lstrip_space s))).

Fixpoint repeat_char (c : ascii) (n : nat) : string :=
  match n with
  | O => ""
  | S k => String c (repeat_char c k)
  end.

(** *** Integers as text *)

Definition digit_char (d : Z) : ascii := ascii_of_N (Z.to_N (48 + d)).

(** The decimal digits of a non-negative integer, most significant
    first; [fuel] bounds the number of digits. *)
Fixpoint digits_fuel (fuel : nat) (n : Z) : string :=
  match fuel with
  | O => ""
  | S f =>
      if n <? 10 then String (digit_char n) ""
      else digits_fuel f (n / 10) ++ String (digit_char (n mod 10)) ""
  end.

Definition digits (n : Z) : string := digits_fuel (S (Z.to_nat (Z.log2 n))) n.

Definition zfill (width : Z) (s : string) : string :=
  repeat_char "0" (Z.to_nat (width - len s)) ++ s.

(** [format(v, '0{width}d')]: zero padding is sign-aware, the sign comes
    first and counts towards the width. *)
Definition format_0d (width v : Z) : string :=
  if v <? 0 then String "-" (zfill (width - 1) (digits (- v)))
  else zfill width (digits v).

(** [str(v)] for an [int]. *)
Definition str_int (v : Z) : string :=
  if v <? 0 then String "-" (digits (- v)) else digits v.

(** A lower-case hexadecimal digit. *)
Definition digit_char_hex (d : Z) : ascii :=
  if d <? 10 then ascii_of_N (Z.to_N (48 + d)) else ascii_of_N (Z.to_N (87 + d)).

Definition digit_val (c : ascii) : option Z :=
  let n := code c in
  if (48 <=? n) && (n <=? 57) then Some (n - 48)
  else if (97 <=? n) && (n <=? 122) then Some (n - 87)
  else if (65 <=? n) && (n <=? 90) then Some (n - 55)
  else None.

(** The digit part of an integer literal: digits of the base, single
    underscores between them.  [prev] says that an underscore may come
    next, [seen] that a digit was read. *)
Fixpoint int_digits (base : Z) (s : string) (acc : Z) (prev seen : bool)
  : option Z :=
  match s with
  | EmptyString => if prev && seen then Some acc else None
  | String c r =>
      if Ascii.eqb c "_" then
        if prev then int_digits base r acc false seen else None
      else
        match digit_val c with
        | Some d => if d <? base then int_digits base r (base * acc + d) true true
                    else None
        | None => None
        end
  end.

Definition int_signed (s : string) (k : string -> option Z) : option Z :=
  match s with
  | String c r =>
      if Ascii.eqb c "-" then option_map Z.opp (k r)
      else if Ascii.eqb c "+" then k r
      else k s
  | EmptyString => k s
  end.

(** The white space [int] skips around a number: the ASCII white space
    and, of the Unicode spaces, those from 127 up (0x85 and 0xA0 below
    256).  The information separators 0x1C to 0x1F, which [str.strip]
    removes, are not skipped. *)
Definition is_int_space (c : ascii) : bool :=
  let n := code c in
  ((9 <=? n) && (n <=? 13)) || (n =? 32) || (n =? 133) || (n =? 160).

Fixpoint lstrip_int (s : string) : string :=
  match s with
  | EmptyString => ""
  | String c r => if is_int_space c then lstrip_int r else s
  end.

Definition strip_int (s : string) : string :=
  rev (lstrip_int (rev (lstrip_int s))).

(** [int(s)]; [None] is ValueError. *)
Definition int (s : string) : option Z :=
  int_signed (strip_int s) (fun r => int_digits 10 r 0 false false).

(** [int(s, 16)]: an optional [0x] prefix, after which an underscore may
    come first. *)
Definition int16 (s : string) : option Z :=
  int_signed (strip_int s)
    (fun r => match r with
              | String z (String x r') =>
                  if Ascii.eqb z "0" && (Ascii.eqb x "x" || Ascii.eqb x "X")
                  then int_digits 16 r' 0 true false
                  else int_digits 16 r 0 false false
              | _ => int_digits 16 r 0 false false
              end).

Fixpoint all_chars (P : ascii -> bool) (s : string) : bool :=
  match s with
  | EmptyString => true
  | String c r => P c && all_chars P r
  end.

End PyStr.

(* ================================================================== *)
(** ** Python values and dictionaries *)

(** The values that reach a record: [None], a [str], an [int], or the
    list of strings Tika returns for a repeated metadata key. *)
Inductive value : Type :=
| VNone
| VStr (s : string)
| VInt (n : Z)
| VList (l : list string).

(** Truth value of an object ([if v:], [not v]). *)
Definition truthy (v : value) : bool :=
  match v with
  | VNone => false
  | VStr s => negb (String.eqb s "")
  | VInt n => negb (n =? 0)
  | VList l => match l with [] => false | _ => true end
  end.

Definition is_none (v : value) : bool :=
  match v with VNone => true | _ => false end.

Module Dict.

(** A [dict] with [str] keys, in insertion order. *)
Definition t (V : Type) : Type := list (string * V).

Fixpoint get {V : Type} (d : t V) (k : string) : option V :=
  match d with
  | [] => None
  | (k', v) :: r => if String.eqb k' k then Some v else get r k
  end.

(** [d[k] = v]: an existing key keeps its place. *)
Fixpoint set {V : Type} (d : t V) (k : string) (v : V) : t V :=
  match d with
  | [] => [(k, v)]
  | (k', v') :: r => if String.eqb k' k then (k', v) :: r
                     else (k', v') :: set r k v
  end.

(** [d.get(k, dflt)] *)
Definition get_default {V : Type} (d : t V) (k : string) (dflt : V) : V :=
  match get d k with Some v => v | None => dflt end.

(** [d.get(k, dflt)] where [k] itself came from a [.get(_, None)]; the
    key [None] is in no dictionary of the program. *)
Definition get_opt {V : Type} (d : t V) (k : option string) (dflt : V) : V :=
  match k with Some k' => get_default d k' dflt | None => dflt end.

Definition keys {V : Type} (d : t V) : list string := map fst d.

End Dict.

(** A metadata value as Tika returns it: a string, or the list of
    strings of a repeated key. *)
Inductive mvalue : Type :=
| MStr (s : string)
| MList (l : list string).

Definition to_value (m : mvalue) : value :=
  match m with
  | MStr s => VStr s
  | MList l => VList l
  end.

Definition mtruthy (m : mvalue) : bool := truthy (to_value m).

(** [metadata.get(key, None)] and [metadata.get(key, '')] as the values
    stored in a record. *)
Definition meta_get (metadata : Dict.t mvalue) (key : option string)
    (dflt : value) : value :=
  match key with
  | Some k => match Dict.get metadata k with
              | Some m => to_value m
              | None => dflt
              end
  | None => dflt
  end.

(** [repr] of a string: single quotes unless the string has one and no
    double quote; backslash, the quote, tab, newline and return are
    escaped, other characters that are not printable are written
    [\xhh]. *)
Definition printable (n : Z) : bool :=
  (32 <=? n) && negb (n =? 127)
  && negb ((128 <=? n) && (n <=? 160)) && negb (n =? 173).

Definition repr_char (quote c : ascii) : string :=
  let n := PyStr.code c in
  if Ascii.eqb c quote || Ascii.eqb c "\" then String "\" (String c "")
  else if n =? 9 then "\t"
  else if n =? 10 then "\n"
  else if n =? 13 then "\r"
  else if printable n then String c ""
  else "\x" ++ String (PyStr.digit_char_hex (n / 16))
                     (String (PyStr.digit_char_hex (n mod 16)) "").

Fixpoint repr_body (quote : ascii) (s : string) : string :=
  match s with
  | EmptyString => ""
  | String c r => repr_char quote c ++ repr_body quote r
  end.

Definition dquote : ascii := "034"%char.

Definition repr_str (s : string) : string :=
  let quote : ascii :=
    if PyStr.mem_char "'" s && negb (PyStr.mem_char dquote s) then dquote else "'"%char in
  String quote (repr_body quote s ++ String quote "").

(** [str(v)] *)
Definition py_str (v : value) : string :=
  match v with
  | VNone => "None"
  | VStr s => s
  | VInt n => PyStr.str_int n
  | VList l => "[" ++ PyStr.join ", " (map repr_str l) ++ "]"
  end.

(* ================================================================== *)
(** ** os.path (posixpath) *)

Module Path.

(** [os.path.basename] *)
Definition basename (p : string) : string :=
  PyStr.slice_from p (PyStr.rfind_char p "/" + 1).

(** The loop of [genericpath._splitext] that skips leading dots of the
    last component: is there a character other than a dot in
    [p[i:dot]]? *)
Definition has_non_dot (p : string) (i dot : Z) : bool :=
  negb (String.eqb (PyStr.lstrip_chars "." (PyStr.slice p i dot)) "").

(** [os.path.splitext] *)
Definition splitext (p : string) : string * string :=
  let sepIndex := PyStr.rfind_char p "/" in
  let dotIndex := PyStr.rfind_char p "." in
  if (sepIndex <? dotIndex) && has_non_dot p (sepIndex + 1) dotIndex
  then (PyStr.slice p 0 dotIndex, PyStr.slice_from p dotIndex)
  else (p, "").

Definition join2 (path b : string) : string :=
  if PyStr.startswith b "/" then b
  else if String.eqb path "" || PyStr.endswith path "/" then path ++ b
  else path ++ "/" ++ b.

(** [os.path.join(a, *p)] *)
Definition join (a : string) (p : list string) : string := fold_left join2 p a.

End Path.

(* ================================================================== *)
(** ** list.sort(key=...) *)

Section Sort.
Context {A : Type} (key : A -> string).

(** [x] goes in front of the first element whose key is not smaller
    than its own, so elements of equal key keep their order. *)
Fixpoint insert_by (x : A) (l : list A) : list A :=
  match l with
  | [] => [x]
  | y :: r => if String.ltb (key y) (key x) then y :: insert_by x r
              else x :: l
  end.

(** The stable sort of Python, as the insertion sort that computes
    the same list. *)
Fixpoint sort_by (l : list A) : list A :=
  match l with
  | [] => []
  | x :: r => insert_by x (sort_by r)
  end.
End Sort.

(** [enumerate(l)] *)
Definition enumerate {A : Type} (l : list A) : list (Z * A) :=
  combine (map Z.of_nat (seq 0 (List.length l))) l.

(* ================================================================== *)
(** ** The creator object and Bates numbers *)

(** One entry of [self.opt_data]. *)
Record opt_entry : Type := {
  bates : string;
  volume : string;
  path : string;
  first_page : string;
  npages : value
}.

(** The attributes of a [LoadFileCreator] that the pipeline reads or
    writes; a record of [self.docs] is the dictionary [doc_entry]. *)
Record Creator : Type := {
  docs : list (Dict.t value);
  opt_data : list opt_entry;
  start_value : Z;
  prefix : string;
  ProductionVolume : string;
  Custodian : string;
  document_families : Dict.t Z;
  family_counter : Z
}.

(** [LoadFileCreator.__init__] *)
Definition init : Creator := {|
  docs := [];
  opt_data := [];
  start_value := 8378;
  prefix := "PL_WEATHERFORD";
  ProductionVolume := "PL_Weatherford_VOL4";
  Custodian := "";
  document_families := [];
  family_counter := 1
|}.

(** [self.opt_data.append(e)], [self.docs.append(d)] and the update of
    the family table. *)
Definition append_opt (e : opt_entry) (st : Creator) : Creator :=
  {| docs := docs st; opt_data := (opt_data st ++ [e])%list;
     start_value := start_value st; prefix := prefix st;
     ProductionVolume := ProductionVolume st; Custodian := Custodian st;
     document_families := document_families st;
     family_counter := family_counter st |}.

Definition append_doc (d : Dict.t value) (st : Creator) : Creator :=
  {| docs := (docs st ++ [d])%list; opt_data := opt_data st;
     start_value := start_value st; prefix := prefix st;
     ProductionVolume := ProductionVolume st; Custodian := Custodian st;
     document_families := document_families st;
     family_counter := family_counter st |}.

Definition new_family (key : string) (n : Z) (st : Creator) : Creator :=
  {| docs := docs st; opt_data := opt_data st;
     start_value := start_value st; prefix := prefix st;
     ProductionVolume := ProductionVolume st; Custodian := Custodian st;
     document_families := Dict.set (document_families st) key n;
     family_counter := n + 1 |}.

Definition default_ndigit : Z := 8.

(** [get_bates(prefix, value, ndigit=8)]; every call in the program
    leaves [ndigit] at its default. *)
Definition get_bates (prefix : string) (value : Z) (ndigit : Z) : string :=
  prefix ++ PyStr.format_0d ndigit value.

(** [int(base_bates.replace(self.prefix, ''))], the number the page
    expanders read back from a Bates number; [None] is ValueError. *)
Definition bates_number (prefix base_bates : string) : option Z :=
  PyStr.int (PyStr.replace base_bates prefix "").

(** The file list of [process_files]: the recursive listing, kept where
    it is a regular file not ending in [.jar], sorted by lower-cased
    base name. *)
Definition sort_key (x : string) : string := PyStr.lower (Path.basename x).

Definition collect_files (isfile : string -> bool) (listing : list string)
  : list string :=
  sort_by sort_key
    (filter (fun fname => isfile fname && negb (PyStr.endswith fname ".jar"))
            listing).

(** The loop that fills [bates_assignments]. *)
Definition bates_assignments (self : Creator) (all_files : list string)
  : Dict.t string :=
  let bates_counter := start_value self in
  fold_left
    (fun d '(i, fname) =>
       Dict.set d fname (get_bates (prefix self) (bates_counter + i) default_ndigit))
    (enumerate all_files) [].

(** The closure [get_bates_for_file]; [bates_counter] is the local of
    [process_files] it captures, [self.prefix] is read at the call. *)
Definition get_bates_for_file (self : Creator) (bates_assignments : Dict.t string)
    (bates_counter : Z) (fname : string) : string :=
  Dict.get_default bates_assignments fname
    (get_bates (prefix self) bates_counter default_ndigit).

(** A prefix that [replace] takes off a Bates number without touching
    the number: empty, or starting with a character that is neither a
    digit nor a minus sign. *)
Definition numeric_char (c : ascii) : bool := PyStr.is_digit c || Ascii.eqb c "-".

Definition plain_prefix (p : string) : bool :=
  match p with
  | EmptyString => true
  | String c _ => negb (numeric_char c)
  end.

(* ================================================================== *)
(** ** hashlib.md5 (RFC 1321) on byte strings *)

Module Md5.

Definition w32 (x : Z) : Z := x mod 4294967296.

Definition not32 (x : Z) : Z := Z.lxor x 4294967295.

Definition rotl (x c : Z) : Z :=
  w32 (Z.lor (Z.shiftl x c) (Z.shiftr x (32 - c))).

Definition K : list Z :=
  [3614090360; 3905402710; 606105819; 3250441966;
   4118548399; 1200080426; 2821735955; 4249261313;
   1770035416; 2336552879; 4294925233; 2304563134;
   1804603682; 4254626195; 2792965006; 1236535329;
   4129170786; 3225465664; 643717713; 3921069994;
   3593408605; 38016083; 3634488961; 3889429448;
   568446438; 3275163606; 4107603335; 1163531501;
   2850285829; 4243563512; 1735328473; 2368359562;
   4294588738; 2272392833; 1839030562; 4259657740;
   2763975236; 1272893353; 4139469664; 3200236656;
   681279174; 3936430074; 3572445317; 76029189;
   3654602809; 3873151461; 530742520; 3299628645;
   4096336452; 1126891415; 2878612391; 4237533241;
   1700485571; 2399980690; 4293915773; 2240044497;
   1873313359; 4264355552; 2734768916; 1309151649;
   4149444226; 3174756917; 718787259; 3951481745].

Definition S : list Z :=
  [7; 12; 17; 22; 7; 12; 17; 22; 7; 12; 17; 22; 7; 12; 17; 22;
   5; 9; 14; 20; 5; 9; 14; 20; 5; 9; 14; 20; 5; 9; 14; 20;
   4; 11; 16; 23; 4; 11; 16; 23; 4; 11; 16; 23; 4; 11; 16; 23;
   6; 10; 15; 21; 6; 10; 15; 21; 6; 10; 15; 21; 6; 10; 15; 21].

Fixpoint le_bytes (n : nat) (x : Z) : list Z :=
  match n with
  | O => []
  | Datatypes.S k => x mod 256 :: le_bytes k (x / 256)
  end.

Fixpoint le_word (bs : list Z) : Z :=
  match bs with
  | [] => 0
  | b :: r => b + 256 * le_word r
  end.

(** The message followed by 0x80, zeros up to 56 mod 64 and the bit
    length in eight little-endian bytes. *)
Definition pad (msg : list Z) : list Z :=
  let m1 := (msg ++ [128])%list in
  let z := (56 - Z.of_nat (List.length m1)) mod 64 in
  (m1 ++ repeat 0 (Z.to_nat z) ++ le_bytes 8 (8 * Z.of_nat (List.length msg)))%list.

Fixpoint groups (fuel n : nat) (bs : list Z) : list (list Z) :=
  match fuel, bs with
  | O, _ | _, [] => []
  | Datatypes.S f, _ => firstn n bs :: groups f n (skipn n bs)
  end.

Definition words (block : list Z) : list Z :=
  map le_word (groups 16 4 block).

Definition step (M : list Z) (st : Z * Z * Z * Z) (i : nat) : Z * Z * Z * Z :=
  let '(A, B, C, D) := st in
  let j := Z.of_nat i in
  let '(F, g) :=
    if j <? 16 then (Z.lor (Z.land B C) (Z.land (not32 B) D), j)
    else if j <? 32 then (Z.lor (Z.land D B) (Z.land (not32 D) C), (5 * j + 1) mod 16)
    else if j <? 48 then (Z.lxor (Z.lxor B C) D, (3 * j + 5) mod 16)
    else (Z.lxor C (Z.lor B (not32 D)), (7 * j) mod 16) in
  let F' := w32 (F + A + nth i K 0 + nth (Z.to_nat g) M 0) in
  (D, w32 (B + rotl F' (nth i S 0)), B, C).

Definition block_step (h : Z * Z * Z * Z) (block : list Z) : Z * Z * Z * Z :=
  let '(a0, b0, c0, d0) := h in
  let '(A, B, C, D) := fold_left (step (words block)) (seq 0 64) h in
  (w32 (a0 + A), w32 (b0 + B), w32 (c0 + C), w32 (d0 + D)).

(** [hashlib.md5(msg).digest()] *)
Definition digest (msg : list Z) : list Z :=
  let p := pad msg in
  let '(a, b, c, d) :=
    fold_left block_step (groups (List.length p) 64 p)
              (1732584193, 4023233417, 2562383102, 271733878) in
  (le_bytes 4 a ++ le_bytes 4 b ++ le_bytes 4 c ++ le_bytes 4 d)%list.

Fixpoint hex (bs : list Z) : string :=
  match bs with
  | [] => ""
  | b :: r => String (PyStr.digit_char_hex (b / 16))
                     (String (PyStr.digit_char_hex (b mod 16)) (hex r))
  end.

(** [hashlib.md5(msg).hexdigest()] *)
Definition hexdigest (msg : list Z) : string := hex (digest msg).

End Md5.

(** [s.encode()]: UTF-8, one byte below 128 and two bytes from 128 to
    255. *)
Fixpoint encode (s : string) : list Z :=
  match s with
  | EmptyString => []
  | String c r =>
      let n := PyStr.code c in
      if n <? 128 then n :: encode r
      else (192 + n / 64) :: (128 + n mod 64) :: encode r
  end.

(* ================================================================== *)
(** ** The regular expressions of the program

    [re.match] for the patterns that occur: a sequence of one-character
    classes, capture groups that are alternations of such sequences, and
    a final [$].  Alternatives are tried in order and a later failure
    comes back to the next alternative, as the backtracking matcher
    does. *)

Module Re.

Definition cls : Type := ascii -> bool.

Inductive item : Type :=
| Lit (c : cls)
| Group (alts : list (list cls))
| Dollar.

Definition ch (c : ascii) : cls := fun x => Ascii.eqb x c.

(** A literal letter under [re.IGNORECASE]. *)
Definition ci (c : ascii) : cls :=
  fun x => Ascii.eqb (PyStr.lower_char x) (PyStr.lower_char c).

Definition rng (a b : ascii) : cls :=
  fun x => (PyStr.code a <=? PyStr.code x) && (PyStr.code x <=? PyStr.code b).

(** [\d]: below 256 the decimal digits are 0-9. *)
Definition d : cls := PyStr.is_digit.

Fixpoint match_seq (cs : list cls) (s : string) : option (string * string) :=
  match cs with
  | [] => Some ("", s)
  | c :: cs' =>
      match s with
      | String x r =>
          if c x then
            match match_seq cs' r with
            | Some (m, rest) => Some (String x m, rest)
            | None => None
            end
          else None
      | EmptyString => None
      end
  end.

Fixpoint first_some {A B : Type} (f : A -> option B) (l : list A) : option B :=
  match l with
  | [] => None
  | a :: r => match f a with Some b => Some b | None => first_some f r end
  end.

(** The captured groups in order and the text left after the match. *)
Fixpoint match_items (p : list item) (s : string) : option (list string * string) :=
  match p with
  | [] => Some ([], s)
  | Lit c :: p' =>
      match s with
      | String x r => if c x then match_items p' r else None
      | EmptyString => None
      end
  | Group alts :: p' =>
      first_some
        (fun alt =>
           match match_seq alt s with
           | Some (m, rest) =>
               match match_items p' rest with
               | Some (caps, tail) => Some (m :: caps, tail)
               | None => None
               end
           | None => None
           end)
        alts
  | Dollar :: p' =>
      if String.eqb s "" || String.eqb s (String "010" "")
      then match_items p' s else None
  end.

End Re.

(* ================================================================== *)
(** ** datetime.strptime and strftime *)

Module DateTime.
Import Re.

Record t : Type := {
  year : Z; month : Z; day : Z; hour : Z; minute : Z; second : Z
}.

(** The pattern [_strptime] builds for ["%Y-%m-%dT%H:%M:%SZ"]; it is
    compiled with [IGNORECASE]. *)
Definition iso_pattern : list item :=
  [ Group [[d; d; d; d]];
    Lit (ch "-");
    Group [[ch "1"; rng "0" "2"]; [ch "0"; rng "1" "9"]; [rng "1" "9"]];
    Lit (ch "-");
    Group [[ch "3"; rng "0" "1"]; [rng "1" "2"; d]; [ch "0"; rng "1" "9"];
           [rng "1" "9"]; [ch " "; rng "1" "9"]];
    Lit (ci "T");
    Group [[ch "2"; rng "0" "3"]; [rng "0" "1"; d]; [d]];
    Lit (ch ":");
    Group [[rng "0" "5"; d]; [d]];
    Lit (ch ":");
    Group [[ch "6"; rng "0" "1"]; [rng "0" "5"; d]; [d]];
    Lit (ci "Z") ].

Definition is_leap (y : Z) : bool :=
  ((y mod 4 =? 0) && negb (y mod 100 =? 0)) || (y mod 400 =? 0).

Definition days_in_month (y m : Z) : Z :=
  if m =? 2 then (if is_leap y then 29 else 28)
  else if (m =? 4) || (m =? 6) || (m =? 9) || (m =? 11) then 30
  else 31.

(** The range checks of the [date] and [datetime] constructors. *)
Definition valid (x : t) : bool :=
  (1 <=? year x) && (year x <=? 9999)
  && (1 <=? month x) && (month x <=? 12)
  && (1 <=? day x) && (day x <=? days_in_month (year x) (month x))
  && (0 <=? hour x) && (hour x <=? 23)
  && (0 <=? minute x) && (minute x <=? 59)
  && (0 <=? second x) && (second x <=? 59).

(** [datetime.strptime(s, "%Y-%m-%dT%H:%M:%SZ")]; [None] is ValueError:
    no match, text left over, or a field out of range. *)
Definition strptime_iso (s : string) : option t :=
  match match_items iso_pattern s with
  | Some ([gY; gm; gd; gH; gM; gS], "") =>
      match PyStr.int gY, PyStr.int gm, PyStr.int gd,
            PyStr.int gH, PyStr.int gM, PyStr.int gS with
      | Some y, Some mo, Some da, Some h, Some mi, Some se =>
          let x := {| year := y; month := mo; day := da;
                      hour := h; minute := mi; second := se |} in
          if valid x then Some x else None
      | _, _, _, _, _, _ => None
      end
  | _ => None
  end.

(** [strftime('%m/%d/%Y')]; the C library pads month and day to two
    digits and prints the year as it is. *)
Definition strftime_mdY (x : t) : string :=
  PyStr.format_0d 2 (month x) ++ "/" ++ PyStr.format_0d 2 (day x) ++ "/"
  ++ PyStr.str_int (year x).

(** [strftime('%H:%M:%S')] *)
Definition strftime_HMS (x : t) : string :=
  PyStr.format_0d 2 (hour x) ++ ":" ++ PyStr.format_0d 2 (minute x) ++ ":"
  ++ PyStr.format_0d 2 (second x).

End DateTime.

(** The text both converters hand to [strptime]; [None] is an exception
    raised on the way (a list whose first element is missing, an empty
    string indexed at [-1]).  The argument is truthy and not [None]. *)
Definition date_text (orig_date : value) : option string :=
  match (match orig_date with
         | VList (x :: _) => Some x
         | VStr s => Some s
         | _ => None
         end) with
  | None => None
  | Some s0 =>
      let s1 :=
        if PyStr.contains "." s0
        then let bad := PyStr.slice s0 (PyStr.find s0 ".") (-1) in
             PyStr.replace s0 bad ""
        else s0 in
      match PyStr.last_char s1 with
      | None => None
      | Some c =>
          let s2 := if Ascii.eqb c "Z" then s1 else s1 ++ "Z" in
          Some (PyStr.replace s2 "0000000" "")
      end
  end.

(** [convert_date_safe]: [VNone] for a falsy argument and for every
    exception. *)
Definition convert_date_safe (orig_date : value) : value :=
  if negb (truthy orig_date) then VNone
  else match date_text orig_date with
       | None => VNone
       | Some s =>
           match DateTime.strptime_iso s with
           | Some x => VStr (DateTime.strftime_mdY x)
           | None => VNone
           end
       end.

(** [convert_time_safe] *)
Definition convert_time_safe (orig_date : value) : value :=
  if negb (truthy orig_date) then VNone
  else match date_text orig_date with
       | None => VNone
       | Some s =>
           match DateTime.strptime_iso s with
           | Some x => VStr (DateTime.strftime_HMS x)
           | None => VNone
           end
       end.

(* ================================================================== *)
(** ** Exceptions over the shared object

    A method that mutates [self] and may raise: the state it leaves is
    kept when it raises, as the lists and dictionaries of [self] are
    shared and not rolled back. *)

Module Exc.

Definition M (A : Type) : Type := Creator -> Creator * option A.

Definition ret {A : Type} (a : A) : M A := fun st => (st, Some a).

Definition raise {A : Type} : M A := fun st => (st, None).

Definition bind {A B : Type} (m : M A) (k : A -> M B) : M B :=
  fun st => match m st with
            | (st', Some a) => k a st'
            | (st', None) => (st', None)
            end.

(** A pure step that may raise. *)
Definition lift {A : Type} (o : option A) : M A := fun st => (st, o).

(** A step that raises unless [b]. *)
Definition guard (b : bool) : M unit := fun st => (st, if b then Some tt else None).

Definition get : M Creator := fun st => (st, Some st).

Definition modify (f : Creator -> Creator) : M unit := fun st => (f st, Some tt).

(** [try: m  except Exception: pass] for a body without a result. *)
Definition try_except (m : M unit) : M unit :=
  fun st => (fst (m st), Some tt).

(** [for x in l: body(x)]; an exception leaves the loop. *)
Fixpoint for_each {X : Type} (l : list X) (body : X -> M unit) : M unit :=
  match l with
  | [] => ret tt
  | x :: r => bind (body x) (fun _ => for_each r body)
  end.

End Exc.

Notation "x <- m ;; k" := (Exc.bind m (fun x => k))
  (at level 61, m at next level, right associativity).
Notation "m ;;; k" := (Exc.bind m (fun _ => k))
  (at level 61, right associativity).

(* ================================================================== *)
(** ** The collaborators *)

(** A raster page image; only its identity matters here. *)
Inductive image : Type := Image (id : Z).

(** What Tika returns: both keys are always there, either may be
    [None]. *)
Record parsed : Type := {
  metadata : option (Dict.t mvalue);
  content : option string
}.

(** [processing_settings]; a missing key is [None]. *)
Record ProcessingConfig : Type := {
  max_file_timeout : option Z;
  max_total_timeout : option Z;
  max_workers : option Z;
  pdf_dpi : option Z;
  pdf_chunk_size : option Z;
  image_compression : option Z
}.

Definition or_default (o : option Z) (dflt : Z) : Z :=
  match o with Some v => v | None => dflt end.

(** The world outside the program.  A function into [option] raises
    when it returns [None]; a function into [bool] raises when it
    returns [false]. *)
Record Env : Type := {
  (** [glob.glob(os.path.join(indir, '**'), recursive=True)] *)
  glob : string -> list string;
  isfile : string -> bool;
  isdir : string -> bool;
  (** the bytes of a file, for [open(path, 'rb')] *)
  read_bytes : string -> option (list Z);
  (** the built-in [hash] on strings, fixed for one process *)
  hash : string -> Z;
  (** [parser.from_file(fname, requestOptions={'timeout': t})] *)
  from_file : string -> Z -> option parsed;
  (** [len(PdfReader(path, strict).pages)] *)
  pdf_reader : string -> bool -> option Z;
  (** writing pages [start_page, end_page) of a PDF to a buffer *)
  pdf_write : string -> Z -> Z -> bool;
  (** [parser.from_buffer] on that buffer *)
  from_buffer : string -> Z -> Z -> Z -> option parsed;
  (** [pdf2image.convert_from_path(path, dpi, first_page, last_page)] *)
  convert_from_path : string -> Z -> Z -> Z -> option (list image);
  (** array conversion, [os.makedirs] and [cv2.imwrite] of one page *)
  imwrite : string -> image -> Z -> bool;
  (** [Image.open(path).n_frames] *)
  tiff_n_frames : string -> option Z;
  (** [img.seek(i)] and the frame it selects *)
  tiff_seek : string -> Z -> option image;
  (** [os.makedirs] and [shutil.copy2(src, dst)] *)
  copy2 : string -> string -> bool;
  (** [os.makedirs] and writing the text file *)
  write_text : string -> string -> bool;
  (** [as_completed(..., timeout=max_total_timeout)] raises its
      TimeoutError: the tasks did not all complete in time *)
  timed_out : bool
}.

(** [range(start, stop, step)]; [None] is the ValueError of a zero
    step. *)
Definition py_range (start stop step : Z) : option (list Z) :=
  if step =? 0 then None
  else
    let n := if 0 <? step then (stop - start + step - 1) / step
             else (start - stop - step - 1) / (- step) in
    Some (map (fun i => start + Z.of_nat i * step) (seq 0 (Z.to_nat n))).

(* ================================================================== *)
(** ** Classification of a file *)

(** [x in [a, b, ...]] for strings. *)
Definition in_list (x : string) (l : list string) : bool :=
  existsb (String.eqb x) l.

(** [determine_document_type] *)
Definition determine_document_type (file_path : string) : string :=
  let filename := PyStr.lower (Path.basename file_path) in
  let file_ext := PyStr.lower (snd (Path.splitext filename)) in
  if in_list file_ext [".msg"; ".eml"; ".pst"] then "Email"
  else if in_list file_ext [".doc"; ".docx"] then "Word Document"
  else if in_list file_ext [".xls"; ".xlsx"] then "Spreadsheet"
  else if in_list file_ext [".ppt"; ".pptx"] then "Presentation"
  else if String.eqb file_ext ".pdf" then "PDF Document"
  else if in_list file_ext [".jpg"; ".jpeg"; ".png"; ".tif"; ".tiff"; ".bmp"]
       then "Image"
  else if in_list file_ext [".txt"; ".rtf"] then "Text Document"
  else if in_list file_ext [".zip"; ".rar"; ".7z"] then "Archive"
  else "Unknown".

(** [sub in content] where [content] is a metadata value: a substring
    test on a string, a membership test on a list. *)
Definition in_mvalue (sub : string) (m : mvalue) : bool :=
  match m with
  | MStr s => PyStr.contains sub s
  | MList l => in_list sub l
  end.

(** [determine_redaction_type] *)
Definition determine_redaction_type (file_path : string)
    (metadata : Dict.t mvalue) : string :=
  let filename := PyStr.lower (Path.basename file_path) in
  if PyStr.contains "redacted" filename then "Redacted"
  else if PyStr.contains "privileged" filename then "Privileged"
  else if PyStr.contains "confidential" filename then "Confidential"
  else
    let content := Dict.get_default metadata "content" (MStr "") in
    if in_mvalue "[REDACTED]" content || in_mvalue "***" content
    then "Redacted" else "None".

Fixpoint count_digits (s : string) : nat :=
  match s with
  | String c r => if PyStr.is_digit c then S (count_digits r) else O
  | EmptyString => O
  end.

(** The length of the match of [[vV]ersion?\d*|rev\d*|v\d*] at the
    start of [s], if there is one. *)
Definition version_match (s : string) : option nat :=
  match s with
  | String c r =>
      if (Ascii.eqb c "v" || Ascii.eqb c "V") && String.prefix "ersio" r then
        let r' := PyStr.drop 5 r in
        let n := if String.prefix "n" r' then 1%nat else 0%nat in
        Some (6 + n + count_digits (PyStr.drop n r'))%nat
      else if String.prefix "rev" s then
        Some (3 + count_digits (PyStr.drop 3 s))%nat
      else if Ascii.eqb c "v" then Some (1 + count_digits r)%nat
      else None
  | EmptyString => None
  end.

(** [re.sub(r'[vV]ersion?\d*|rev\d*|v\d*', '', s)] *)
Fixpoint sub_version (skip : nat) (s : string) : string :=
  match s with
  | EmptyString => ""
  | String c r =>
      match skip with
      | S k => sub_version k r
      | O => match version_match s with
             | Some n => sub_version (n - 1) r
             | None => String c (sub_version 0 r)
             end
      end
  end.

(** [self.document_families]: the identifier of [key], created from
    the counter the first time the key is seen. *)
Definition family_of (key : string) : Exc.M value :=
  self <- Exc.get ;;
  match Dict.get (document_families self) key with
  | Some n => Exc.ret (VInt n)
  | None =>
      let n := family_counter self in
      Exc.modify (new_family key n) ;;;
      Exc.ret (VInt n)
  end.

Definition first_piece (s sep : string) : string :=
  match PyStr.split s sep with
  | Some (x :: _) => x
  | _ => ""
  end.

(** [identify_document_family]; a list-valued thread id is unhashable
    and raises TypeError at the dictionary. *)
Definition identify_document_family (file_path : string)
    (metadata : Dict.t mvalue) : Exc.M value :=
  let filename := PyStr.lower (Path.basename file_path) in
  let attachment_or_version : Exc.M value :=
    if PyStr.contains "attachment" filename || PyStr.contains "att" filename then
      let parent_name :=
        if PyStr.contains "_" filename then first_piece filename "_"
        else first_piece filename "." in
      family_of parent_name
    else if existsb (fun pattern => PyStr.contains pattern filename)
                    ["v"; "version"; "rev"; "revision"] then
      family_of (sub_version 0 filename)
    else Exc.ret VNone in
  if existsb (fun ext => PyStr.contains ext filename) [".msg"; ".eml"; ".pst"] then
    let thread_id :=
      Dict.get_default metadata "Thread-Index"
        (Dict.get_default metadata "Message-ID" (MStr "")) in
    if mtruthy thread_id then
      match thread_id with
      | MStr key => family_of key
      | MList _ => Exc.raise
      end
    else attachment_or_version
  else attachment_or_version.

(* ================================================================== *)
(** ** Text extraction of a PDF in chunks *)

(** One chunk of [chunk_pdf_and_parse]: the accumulator holds
    [first_metadata] and [combined_content]; [None] is an exception
    that leaves the method. *)
Definition parse_chunk (env : Env) (pdf_path : string) (num_pages timeout : Z)
    (acc : option (option (Dict.t mvalue) * list string)) (start_page : Z)
  : option (option (Dict.t mvalue) * list string) :=
  match acc with
  | None => None
  | Some (first_metadata, combined_content) =>
      let end_page := Z.min (start_page + 10) num_pages in
      if negb (pdf_write env pdf_path start_page end_page) then acc
      else
        match from_buffer env pdf_path start_page end_page timeout with
        | None => acc
        | Some p =>
            match (match first_metadata with
                   | Some m => Some (Some m)
                   | None =>
                       match metadata p with
                       | Some m =>
                           Some (Some (Dict.set m "xmpTPg:NPages"
                                                (MStr (PyStr.str_int num_pages))))
                       | None => None
                       end
                   end),
                  content p with
            | Some fm, Some c =>
                Some (fm, (combined_content ++ [PyStr.lstrip_space c])%list)
            | _, _ => None
            end
        end
  end.

(** [chunk_pdf_and_parse(pdf_path)]: [None] is an exception,
    [Some None] the value [None] returned when the reader fails. *)
Definition chunk_pdf_and_parse (env : Env) (pdf_path : string)
  : option (option parsed) :=
  let timeout := 300 in
  match pdf_reader env pdf_path false with
  | None => Some None
  | Some num_pages =>
      match py_range 0 num_pages 10 with
      | None => None
      | Some starts =>
          match fold_left (parse_chunk env pdf_path num_pages timeout) starts
                          (Some (None, [])) with
          | Some (first_metadata, combined_content) =>
              Some (Some {| metadata := first_metadata;
                            content := Some (PyStr.join "" combined_content) |})
          | None => None
          end
      end
  end.

(* ================================================================== *)
(** ** Page expansion *)

Definition page_entry (page_bates volume_name : string) (first : bool)
    (total : Z) : opt_entry :=
  {| bates := page_bates;
     volume := volume_name;
     path := Path.join volume_name ["IMAGES"; "0000"; page_bates ++ ".tiff"];
     first_page := if first then "Y" else "";
     npages := if first then VInt total else VStr "" |}.

(** The body shared by the two page loops: the page's Bates number, the
    entry appended to [self.opt_data], then the image written. *)
Definition expand_page (env : Env) (base_bates outdir volume_name : string)
    (total page_num : Z) (img : image) (compression : Z) : Exc.M unit :=
  self <- Exc.get ;;
  n <- Exc.lift (bates_number (prefix self) base_bates) ;;
  let page_bates := get_bates (prefix self) (n + page_num) default_ndigit in
  Exc.modify (append_opt (page_entry page_bates volume_name (page_num =? 0) total)) ;;;
  let dname := Path.join outdir [volume_name; "IMAGES"; "0000"] in
  Exc.guard (imwrite env (Path.join dname [page_bates ++ ".tiff"]) img compression).

(** [_process_pdf_pages] *)
Definition _process_pdf_pages (env : Env)
    (pdf_path base_bates outdir volume_name : string)
    (processing_config : ProcessingConfig) : Exc.M unit :=
  Exc.try_except
    (let dpi := or_default (pdf_dpi processing_config) 150 in
     let chunk_size := or_default (pdf_chunk_size processing_config) 5 in
     total_pages <- Exc.lift (pdf_reader env pdf_path true) ;;
     chunks <- Exc.lift (py_range 0 total_pages chunk_size) ;;
     Exc.for_each chunks (fun chunk_start =>
       let chunk_end := Z.min (chunk_start + chunk_size) total_pages in
       page_imgs <- Exc.lift (convert_from_path env pdf_path dpi
                                                (chunk_start + 1) chunk_end) ;;
       Exc.for_each (enumerate page_imgs) (fun '(i, page_img) =>
         let page_num := chunk_start + i in
         let compression := or_default (image_compression processing_config) 6 in
         expand_page env base_bates outdir volume_name total_pages page_num
                     page_img compression))).

(** [_process_tiff_pages] *)
Definition _process_tiff_pages (env : Env)
    (tiff_path base_bates outdir volume_name : string) : Exc.M unit :=
  Exc.try_except
    (n_frames <- Exc.lift (tiff_n_frames env tiff_path) ;;
     frames <- Exc.lift (py_range 0 n_frames 1) ;;
     Exc.for_each frames (fun i =>
       img <- Exc.lift (tiff_seek env tiff_path i) ;;
       expand_page env base_bates outdir volume_name n_frames i img 6)).

(* ================================================================== *)
(** ** One file *)

(** [get_enhanced_metadata_mapping] *)
Definition get_enhanced_metadata_mapping : Dict.t (Dict.t string) :=
  [ ("title", [("pdf", "title"); ("docx", "title"); ("pptx", "title");
               ("msg", "Subject"); ("eml", "Subject")]);
    ("DateCreated", [("pdf", "Creation-Date"); ("docx", "Creation-Date");
                     ("pptx", "Creation-Date"); ("msg", "Date"); ("eml", "Date")]);
    ("TimeCreated", [("pdf", "Creation-Date"); ("docx", "Creation-Date");
                     ("pptx", "Creation-Date"); ("msg", "Date"); ("eml", "Date")]);
    ("DateLastModified", [("pdf", "Last-Modified"); ("docx", "Last-Modified");
                          ("pptx", "Last-Modified"); ("msg", "Date"); ("eml", "Date")]);
    ("TimeLastModified", [("pdf", "Last-Modified"); ("docx", "Last-Modified");
                          ("pptx", "Last-Modified"); ("msg", "Date"); ("eml", "Date")]);
    ("last_save_date", [("pdf", "Last-Save-Date"); ("docx", "Last-Save-Date")]);
    ("Author", [("pdf", "meta:author"); ("pptx", "dc:title"); ("docx", "author");
                ("msg", "From"); ("eml", "From")]);
    ("Subject", [("pdf", "Subject"); ("docx", "Subject"); ("pptx", "Subject");
                 ("msg", "Subject"); ("eml", "Subject")]);
    ("From", [("msg", "From"); ("eml", "From"); ("pst", "From")]);
    ("To", [("msg", "To"); ("eml", "To"); ("pst", "To")]);
    ("CC", [("msg", "CC"); ("eml", "CC"); ("pst", "CC")]);
    ("BCC", [("msg", "BCC"); ("eml", "BCC"); ("pst", "BCC")]);
    ("DateSent", [("msg", "Date"); ("eml", "Date"); ("pst", "Date")]);
    ("TimeSent", [("msg", "Date"); ("eml", "Date"); ("pst", "Date")]);
    ("DateReceived", [("msg", "Date"); ("eml", "Date"); ("pst", "Date")]);
    ("TimeReceived", [("msg", "Date"); ("eml", "Date"); ("pst", "Date")]);
    ("Message-ID", [("msg", "Message-ID"); ("eml", "Message-ID");
                    ("pst", "Message-ID")]);
    ("Thread-Index", [("msg", "Thread-Index"); ("eml", "Thread-Index");
                      ("pst", "Thread-Index")]);
    ("Foreign Language", [("default", "Foreign Language")]);
    ("Page Count", [("pdf", "xmpTPg:NPages"); ("docx", "Page Count");
                    ("pptx", "Slide Count")]);
    ("charsperpage", [("pdf", "pdf:charsPerPage")]);
    ("FileName", [("pdf", "resourceName"); ("docx", "resourceName")]);
    ("charcount", [("docx", "Character Count")]);
    ("Confidentiality", [("default", "Confidentiality")]);
    ("Privilege", [("default", "Privilege")]);
    ("RedactionType", [("default", "RedactionType")]) ].

(** What a task returns. *)
Inductive failure : Type := pdf_parse_failed | parse_error | exception.

Inductive task_result : Type :=
| Skipped
| Failed (reason : failure)
| Success (bates : string).

(** The locals of [process_files] that [process_single_file] closes
    over. *)
Record Closure : Type := {
  outdir : string;
  volume_name : string;
  processing_config : ProcessingConfig;
  bates_assignments_of : Dict.t string;
  bates_counter : Z;
  metadata_kws : Dict.t (Dict.t string)
}.

(** [metadata.get(metadata_kws[field].get(FileExtension, None), None)] *)
Definition mapped (cl : Closure) (md : Dict.t mvalue) (field FileExtension : string)
  : value :=
  meta_get md (Dict.get (Dict.get_default (metadata_kws cl) field []) FileExtension)
           VNone.

(** The dictionary literal [doc_entry]. *)
Definition doc_entry (self : Creator) (cl : Closure) (fname BegBates ext : string)
    (FileExtension nativedir textdir : string) (md : Dict.t mvalue)
    (datestr timestr : value) (redaction_type doc_type : string)
    (final_family_id : value) : Dict.t value :=
  [ ("BegBates", VStr BegBates);
    ("EndBates", VStr BegBates);
    ("HashValue", VStr (Md5.hexdigest (encode fname)));
    ("FileExtension", VStr (PyStr.slice_from ext 1));
    ("Filename", VStr (Path.basename fname));
    ("NativeLocation", VStr nativedir);
    ("TextLocation", VStr textdir);
    ("BegAttach", VStr "");
    ("EndAttach", VStr "");
    ("Custodian", VStr (Custodian self));
    ("Duplicate Custodian", VStr "");
    ("Original FilePath", VStr "");
    ("Subject", meta_get md (Some "Subject") VNone);
    ("Title", mapped cl md "title" FileExtension);
    ("Author", mapped cl md "Author" FileExtension);
    ("From", mapped cl md "From" FileExtension);
    ("To", mapped cl md "To" FileExtension);
    ("CC", mapped cl md "CC" FileExtension);
    ("BCC", mapped cl md "BCC" FileExtension);
    ("DateSent", mapped cl md "DateSent" FileExtension);
    ("TimeSent", mapped cl md "TimeSent" FileExtension);
    ("DateReceived", mapped cl md "DateReceived" FileExtension);
    ("TimeReceived", mapped cl md "TimeReceived" FileExtension);
    ("DateCreated", datestr);
    ("TimeCreated", timestr);
    ("DateLastModified", meta_get md (Some "Last-Modified") VNone);
    ("Message-ID", mapped cl md "Message-ID" FileExtension);
    ("Thread-Index", mapped cl md "Thread-Index" FileExtension);
    ("Foreign Language", meta_get md (Some "Foreign Language") (VStr ""));
    ("Page Count", mapped cl md "Page Count" FileExtension);
    ("charsperpage", mapped cl md "charsperpage" FileExtension);
    ("charcount", mapped cl md "charcount" FileExtension);
    ("Confidentiality", meta_get md (Some "Confidentiality") (VStr ""));
    ("Privilege", meta_get md (Some "Privilege") (VStr ""));
    ("RedactionType", VStr redaction_type);
    ("DocType", VStr doc_type);
    ("FamilyID", if truthy final_family_id then final_family_id else VStr "");
    ("ParentID", VStr "");
    ("Production Volume", VStr (ProductionVolume self)) ].

(** [process_single_file] from the record on, once the file is parsed;
    every exception of this part reaches the handler of the task. *)
Definition build_and_publish (env : Env) (cl : Closure) (fname BegBates : string)
    (family_id : option string) (p : parsed) : Exc.M task_result :=
  let ext := snd (Path.splitext fname) in
  let file_extension := snd (Path.splitext fname) in
  let FileExtension := PyStr.strip_chars (PyStr.lower file_extension) "." in
  md <- Exc.lift (metadata p) ;;
  let date_created := meta_get md (Some "Creation-Date") VNone in
  let datestr :=
    if is_none date_created then VNone else convert_date_safe date_created in
  let timestr :=
    if is_none date_created then VNone else convert_time_safe date_created in
  let doc_type := determine_document_type fname in
  let redaction_type := determine_redaction_type fname md in
  final_family_id <-
    match family_id with
    | Some k => if negb (String.eqb k "") then Exc.ret (VStr k)
                else identify_document_family fname md
    | None => identify_document_family fname md
    end ;;
  let subdir :=
    if in_list FileExtension ["tif"; "tiff"; "jpg"; "jpeg"; "png"]
    then "IMAGES" else "NATIVES" in
  let nativedir := Path.join (volume_name cl) [subdir; "0000"; BegBates ++ ext] in
  let textdir := Path.join (volume_name cl) ["TEXT"; "0000"; BegBates ++ ".txt"] in
  self <- Exc.get ;;
  let entry := doc_entry self cl fname BegBates ext FileExtension nativedir textdir
                         md datestr timestr redaction_type doc_type
                         final_family_id in
  Exc.guard (copy2 env fname (Path.join (outdir cl) [nativedir])) ;;;
  let text :=
    match content p with
    | Some c => PyStr.strip_chars c (String "010" "")
    | None => "NO TEXT AVAILABLE" ++ String "010" ""
    end in
  Exc.guard (write_text env (Path.join (outdir cl) [textdir]) text) ;;;
  (if String.eqb (PyStr.lower file_extension) ".pdf" then
     _process_pdf_pages env fname BegBates (outdir cl) (volume_name cl)
                        (processing_config cl)
   else if in_list (PyStr.strip_chars (PyStr.lower file_extension) ".")
                   ["tif"; "tiff"] then
     _process_tiff_pages env fname BegBates (outdir cl) (volume_name cl)
   else Exc.ret tt) ;;;
  Exc.modify (append_doc entry) ;;;
  Exc.ret (Success BegBates).

(** [process_single_file(file_info)] with its handler: an exception
    becomes a failed result and leaves [self] as it was when raised. *)
Definition process_single_file (env : Env) (cl : Closure)
    (file_info : string * option string) (self : Creator)
  : Creator * task_result :=
  let '(fname, family_id) := file_info in
  if isdir env fname then (self, Skipped)
  else
    let BegBates :=
      get_bates_for_file self (bates_assignments_of cl) (bates_counter cl) fname in
    let file_extension := snd (Path.splitext fname) in
    let FileExtension := PyStr.strip_chars (PyStr.lower file_extension) "." in
    let after (p : parsed) : Creator * task_result :=
      match build_and_publish env cl fname BegBates family_id p self with
      | (st, Some r) => (st, r)
      | (st, None) => (st, Failed exception)
      end in
    if String.eqb FileExtension "pdf" then
      match chunk_pdf_and_parse env fname with
      | None => (self, Failed exception)
      | Some None => (self, Failed pdf_parse_failed)
      | Some (Some p) => after p
      end
    else
      match from_file env fname (or_default (max_file_timeout (processing_config cl)) 300) with
      | None => (self, Failed parse_error)
      | Some p => after p
      end.

(* ================================================================== *)
(** ** Email families and the run *)

(** [email_families[family_key].append(fname)] on a
    [defaultdict(list)]. *)
Definition family_append (d : Dict.t (list string)) (family_key fname : string)
  : Dict.t (list string) :=
  Dict.set d family_key (Dict.get_default d family_key [] ++ [fname])%list.

(** [hash(m)]: a list is unhashable. *)
Definition hash_mvalue (env : Env) (m : mvalue) : option Z :=
  match m with
  | MStr s => Some (hash env s)
  | MList _ => None
  end.

(** [f"{tag}{h % 10000:04d}"] *)
Definition family_token (tag : string) (h : Z) : string :=
  tag ++ PyStr.format_0d 4 (h mod 10000).

(** The [try] block of [_group_email_files] up to the key; [None] is an
    exception. *)
Definition email_family_key (env : Env) (fname : string) : option string :=
  match from_file env fname 30 with
  | None => None
  | Some p =>
      match metadata p with
      | None => None
      | Some md =>
          let thread_id :=
            Dict.get_default md "Thread-Index"
              (Dict.get_default md "Message-ID" (MStr "")) in
          let subject := Dict.get_default md "Subject" (MStr "") in
          let from_addr := Dict.get_default md "From" (MStr "") in
          if mtruthy thread_id then
            option_map (family_token "EMAIL_THREAD_") (hash_mvalue env thread_id)
          else if mtruthy subject then
            option_map (family_token "EMAIL_SUBJECT_") (hash_mvalue env subject)
          else
            option_map (family_token "EMAIL_FROM_") (hash_mvalue env from_addr)
      end
  end.

(** The key a file is filed under: the one of the [try] block, or the
    one the handler makes from the file name. *)
Definition family_key_of (env : Env) (fname : string) : string :=
  match email_family_key env fname with
  | Some k => k
  | None => family_token "EMAIL_FILE_" (hash env (Path.basename fname))
  end.

Definition is_email (fname : string) : bool :=
  in_list (PyStr.lower (snd (Path.splitext fname))) [".msg"; ".eml"; ".pst"].

(** [_group_email_files] *)
Definition _group_email_files (env : Env) (all_files : list string)
  : Dict.t (list string) :=
  fold_left
    (fun email_families fname =>
       if is_email fname
       then family_append email_families (family_key_of env fname) fname
       else email_families)
    all_files [].

(** The family a file is submitted with: the first key of
    [email_families.items()] whose list has the file. *)
Fixpoint family_id_of (email_families : Dict.t (list string)) (fname : string)
  : option string :=
  match email_families with
  | [] => None
  | (family_key, family_files) :: r =>
      if in_list fname family_files then Some family_key
      else family_id_of r fname
  end.

(** [process_files] up to the executor: the sorted file list, the
    closure of the tasks and the tasks in submission order. *)
Definition prepare (env : Env) (self : Creator) (cfg : ProcessingConfig)
    (input_dir output_dir volume : string)
  : list string * Closure * list (string * option string) :=
  let all_files := collect_files (isfile env) (glob env input_dir) in
  let email_families := _group_email_files env all_files in
  let cl := {| outdir := output_dir;
               volume_name := volume;
               processing_config := cfg;
               bates_assignments_of := bates_assignments self all_files;
               bates_counter := start_value self;
               metadata_kws := get_enhanced_metadata_mapping |} in
  (all_files, cl,
   map (fun fname => (fname, family_id_of email_families fname)) all_files).

(** The worker pool: the tasks take effect on the shared object one
    after the other in some order, the order of completion; [docs] is
    appended to under the lock. *)
Fixpoint run_tasks (env : Env) (cl : Closure)
    (order : list (string * option string)) (self : Creator)
  : Creator * list (string * task_result) :=
  match order with
  | [] => (self, [])
  | file_info :: r =>
      let '(st, res) := process_single_file env cl file_info self in
      let '(st', results) := run_tasks env cl r st in
      (st', (fst file_info, res) :: results)
  end.

(** How a call ends: it returns, or it raises. *)
Inductive ending : Type :=
| Returns
| TimeoutError
| ZeroDivisionError.

(** [process_files], the tasks completing in the order [order]: the
    object when the pool has shut down, which waits for every task, the
    results of the tasks, and how the call ends.  The summary divides
    by the number of files. *)
Definition process_files (env : Env) (self : Creator) (cfg : ProcessingConfig)
    (input_dir output_dir volume : string)
    (order : list (string * option string))
  : Creator * (list (string * task_result) * ending) :=
  let '(all_files, cl, _) := prepare env self cfg input_dir output_dir volume in
  let '(st, results) := run_tasks env cl order self in
  (st, (results,
        match all_files with
        | [] => ZeroDivisionError
        | _ :: _ => if timed_out env then TimeoutError else Returns
        end)).

(* ================================================================== *)
(** ** The output files *)

(** The files written and read back, by path; their bytes. *)
Definition FS : Type := Dict.t (list Z).

(** The codecs modelled for the [encoding] setting; [unknown_codec] is
    a name that no codec has. *)
Inductive codec : Type := utf_8 | latin_1 | us_ascii | unknown_codec.

(** [loadfile_settings]; a missing key is [None]. *)
Record LoadfileConfig : Type := {
  delimiter : option string;
  wrapper : option string;
  encoding : option codec
}.

Fixpoint encode_latin_1 (s : string) : list Z :=
  match s with
  | EmptyString => []
  | String c r => PyStr.code c :: encode_latin_1 r
  end.

Fixpoint encode_ascii (s : string) : option (list Z) :=
  match s with
  | EmptyString => Some []
  | String c r =>
      if PyStr.code c <? 128 then option_map (cons (PyStr.code c)) (encode_ascii r)
      else None
  end.

(** Encoding what is written; [None] is the LookupError of an unknown
    codec or the UnicodeEncodeError of a character the codec does not
    have. *)
Definition encode_with (enc : codec) (s : string) : option (list Z) :=
  match enc with
  | utf_8 => Some (encode s)
  | latin_1 => Some (encode_latin_1 s)
  | us_ascii => encode_ascii s
  | unknown_codec => None
  end.

(** Strict UTF-8 decoding of text whose characters are below 256;
    [None] is UnicodeDecodeError. *)
Fixpoint decode_utf8 (bs : list Z) : option string :=
  match bs with
  | [] => Some ""
  | b :: r =>
      if b <? 128 then
        option_map (String (ascii_of_N (Z.to_N b))) (decode_utf8 r)
      else if (b =? 194) || (b =? 195) then
        match r with
        | c :: r' =>
            if (128 <=? c) && (c <? 192) then
              option_map (String (ascii_of_N (Z.to_N ((b - 192) * 64 + (c - 128)))))
                         (decode_utf8 r')
            else None
        | [] => None
        end
      else None
  end.

(** [f.readline()] of a text file opened with universal newlines. *)
Fixpoint readline (s : string) : string :=
  match s with
  | EmptyString => ""
  | String c r =>
      if Ascii.eqb c "010" || Ascii.eqb c "013" then String "010" ""
      else String c (readline r)
  end.

Definition newline : string := String "010" "".

(** [chr(int(setting, 16))]; [None] is ValueError.  The strings of
    this development hold the characters below 256: for a setting from
    256 up, where [chr] returns a character, [None] stands for a
    character, and a file, that the development does not describe. *)
Definition config_char (setting : option string) (dflt : string) : option ascii :=
  match PyStr.int16 (match setting with Some v => v | None => dflt end) with
  | Some n => PyStr.chr n
  | None => None
  end.

(** The column list of [write_loadfile]. *)
Definition cols : list string :=
  [ "BegBates"; "EndBates"; "HashValue"; "FileExtension"; "Filename";
    "NativeLocation"; "TextLocation";
    "BegAttach"; "EndAttach"; "Custodian"; "Duplicate Custodian";
    "Original FilePath"; "Subject"; "Title";
    "Author"; "From"; "To"; "CC"; "BCC"; "DateSent"; "TimeSent";
    "DateReceived"; "TimeReceived";
    "DateCreated"; "TimeCreated"; "DateLastModified"; "Message-ID";
    "Thread-Index"; "Foreign Language";
    "Page Count"; "charsperpage"; "charcount"; "Confidentiality"; "Privilege";
    "RedactionType";
    "DocType"; "FamilyID"; "ParentID"; "Production Volume" ].

(** [str(doc.get(c, '')) if doc.get(c, '') is not None else ''] *)
Definition field_text (doc : Dict.t value) (c : string) : string :=
  match Dict.get_default doc c (VStr "") with
  | VNone => ""
  | v => py_str v
  end.

Definition wrapped (wrap : ascii) (s : string) : string :=
  String wrap (s ++ String wrap "").

Definition header_line (delim wrap : ascii) : string :=
  PyStr.join (String delim "") (map (wrapped wrap) cols).

Definition record_line (delim wrap : ascii) (doc : Dict.t value) : string :=
  PyStr.join (String delim "") (map (fun c => wrapped wrap (field_text doc c)) cols).

(** The lines of the loadfile, without their newline. *)
Definition loadfile_lines (self : Creator) (delim wrap : ascii) : list string :=
  header_line delim wrap :: map (record_line delim wrap) (docs self).

Definition loadfile_path (output_dir volume : string) : string :=
  Path.join output_dir [volume; "DATA"; "loadfile.dat"].

(** [write_loadfile]: the file it leaves.  [can_write] says of a path
    whether [codecs.open(path, 'w', ...)] opens it and the writes go
    through; the function does not create the [DATA] directory.  [None]
    is an exception: a setting that is not a character (see
    [config_char] for the characters from 256 up), a file that cannot
    be written, an encoding that does not exist or does not have a
    character of the text. *)
Definition write_loadfile (can_write : string -> bool) (self : Creator)
    (loadfile_config : LoadfileConfig)
    (output_dir volume : string) (fs : FS) : option FS :=
  match config_char (delimiter loadfile_config) "0x14",
        config_char (wrapper loadfile_config) "0xFE" with
  | Some delim, Some wrap =>
      let enc := match encoding loadfile_config with
                 | Some e => e
                 | None => utf_8
                 end in
      let text :=
        String.concat "" (map (fun l => l ++ newline) (loadfile_lines self delim wrap)) in
      if can_write (loadfile_path output_dir volume) then
        match encode_with enc text with
        | Some bytes => Some (Dict.set fs (loadfile_path output_dir volume) bytes)
        | None => None
        end
      else None
  | _, _ => None
  end.

(** One line of [write_opt_file]. *)
Definition opt_line (opt : opt_entry) : string :=
  bates opt ++ "," ++ volume opt ++ "," ++ path opt ++ "," ++ first_page opt
  ++ ",," ++ py_str (npages opt) ++ newline.

(** [write_opt_file]: the file it leaves, written in the encoding [enc]
    of the platform; [can_write] says of a path whether [os.makedirs]
    of its directory, [open(path, 'w')] and the writes go through.
    [None] is an exception. *)
Definition write_opt_file (can_write : string -> bool) (enc : codec)
    (self : Creator) (output_dir volume : string) (fs : FS) : option FS :=
  let opt_file := Path.join output_dir [volume; "DATA"; volume ++ ".opt"] in
  if can_write opt_file then
    match encode_with enc (String.concat "" (map opt_line (opt_data self))) with
    | Some bytes => Some (Dict.set fs opt_file bytes)
    | None => None
    end
  else None.

(* ================================================================== *)
(** ** run_data_integrity_tests *)

Inductive verdict : Type :=
| PASS
| FAIL_format       (* "Loadfile format may be incorrect" *)
| FAIL_reading      (* "Error reading loadfile" *)
| FAIL_not_found    (* "Loadfile not found" *)
| FAIL_dates.       (* "Invalid date formats" *)

(** Test 4, loadfile format: what it prints. *)
Definition test_loadfile_format (output_dir volume : string) (fs : FS) : verdict :=
  match Dict.get fs (loadfile_path output_dir volume) with
  | Some bytes =>
      match decode_utf8 bytes with
      | Some text =>
          let header := readline text in
          if PyStr.contains (String "020" "") header
             && PyStr.contains (String "254" "") header
          then PASS else FAIL_format
      | None => FAIL_reading
      end
  | None => FAIL_not_found
  end.

(** [^\d{1,2}/\d{1,2}/\d{4}$] *)
Definition date_pattern : list Re.item :=
  [ Re.Group [[Re.d; Re.d]; [Re.d]]; Re.Lit (Re.ch "/");
    Re.Group [[Re.d; Re.d]; [Re.d]]; Re.Lit (Re.ch "/");
    Re.Lit Re.d; Re.Lit Re.d; Re.Lit Re.d; Re.Lit Re.d; Re.Dollar ].

Definition is_mdY (s : string) : bool :=
  match Re.match_items date_pattern s with
  | Some _ => true
  | None => false
  end.

Definition date_fields : list string :=
  ["DateCreated"; "DateLastModified"; "DateSent"; "DateReceived"].

(** The body of the two loops of Test 6 for one record and one field:
    is the field reported as invalid? *)
Definition invalid_date (doc : Dict.t value) (field : string) : bool :=
  let v := Dict.get_default doc field VNone in
  truthy v
  && negb (match v with VStr "" => true | _ => false end)
  && negb (is_mdY (py_str v)).

(** Test 6, date format validation. *)
Definition test_date_formats (self : Creator) : verdict :=
  if existsb (fun doc => existsb (invalid_date doc) date_fields) (docs self)
  then FAIL_dates else PASS.

(** A list is unhashable. *)
Definition hashable (v : value) : bool :=
  match v with VList _ => false | _ => true end.

(** What a test prints. *)
Inductive outcome : Type := Pass | Fail.

Fixpoint list_eqb {A : Type} (eqb : A -> A -> bool) (l m : list A) : bool :=
  match l, m with
  | [], [] => true
  | x :: l', y :: m' => eqb x y && list_eqb eqb l' m'
  | _, _ => false
  end.

(** [a == b] for the values of a record; values of different types are
    different. *)
Definition value_eqb (a b : value) : bool :=
  match a, b with
  | VNone, VNone => true
  | VStr s, VStr t => String.eqb s t
  | VInt n, VInt m => n =? m
  | VList l, VList m => list_eqb String.eqb l m
  | _, _ => false
  end.

(** The elements of [set(l)]: one of each. *)
Fixpoint distinct (l : list value) : list value :=
  match l with
  | [] => []
  | v :: r => if existsb (value_eqb v) r then distinct r else v :: distinct r
  end.

(** [len(set(l))]; [None] is the TypeError of an unhashable element. *)
Definition len_set (l : list value) : option nat :=
  if forallb hashable l then Some (List.length (distinct l)) else None.

(** [[f(x) for x in l]] where [f] may raise. *)
Fixpoint comprehension {A B : Type} (f : A -> option B) (l : list A)
  : option (list B) :=
  match l with
  | [] => Some []
  | x :: r =>
      match f x with
      | Some y => option_map (cons y) (comprehension f r)
      | None => None
      end
  end.

(** Test 1, Bates numbers are unique; [None] is the KeyError of a record
    without the field. *)
Definition test_bates_unique (self : Creator) : option outcome :=
  match comprehension (fun doc => Dict.get doc "BegBates") (docs self) with
  | Some bates_numbers =>
      match len_set bates_numbers with
      | Some n => Some (if Nat.eqb (List.length bates_numbers) n then Pass else Fail)
      | None => None
      end
  | None => None
  end.

Definition required_fields : list string :=
  ["BegBates"; "EndBates"; "NativeLocation"; "TextLocation"; "Filename";
   "FileExtension"; "HashValue"].

(** The list [missing_fields] of Test 2. *)
Definition missing_in (records : list (Dict.t value)) : list string :=
  flat_map
    (fun doc =>
       flat_map
         (fun field =>
            match Dict.get doc field with
            | None | Some VNone =>
                [py_str (Dict.get_default doc "Filename" (VStr "Unknown"))
                 ++ ": " ++ field]
            | Some _ => []
            end)
         required_fields)
    records.

Definition missing_fields (self : Creator) : list string := missing_in (docs self).

(** Test 2, required fields are present. *)
Definition test_required_fields (self : Creator) : outcome :=
  match missing_fields self with [] => Pass | _ => Fail end.

(** The list [family_ids] of Test 5. *)
Definition family_ids (self : Creator) : option (list value) :=
  option_map (filter truthy)
    (comprehension (fun doc => Dict.get doc "FamilyID") (docs self)).

(** Test 5, document family consistency. *)
Definition test_family_consistency (self : Creator) : option outcome :=
  match family_ids self with
  | Some ids =>
      match len_set ids with
      | Some n =>
          Some (if Nat.eqb (List.length ids) n || Nat.eqb n 0 then Pass else Fail)
      | None => None
      end
  | None => None
  end.


(* ================================================================== *)
(** ** Bates stamps *)

(** The [bates_stamping] settings the stamping reads; a missing key is
    [None]. *)
Record BatesConfig : Type := {
  font_size : option Z;
  margin : option Z;
  position : option string;
  contrast_threshold : option Z;
  text_color_light : option (list Z);
  text_color_dark : option (list Z);
  shadow : option bool;
  shadow_offset : option (list Z);
  shadow_color : option (list Z);
  add_border : option bool;
  border_width : option Z;
  border_color : option (list Z);
  supported_formats : option (list string)
}.

(** A font: the built-in default font of [ImageFont.load_default()],
    which has no size, or the face of a font file at a size. *)
Inductive font : Type :=
| DefaultFont
| TrueType (font_path : string) (size : Z).

(** [draw.text((x, y), text, fill=fill, font=font)] *)
Inductive draw_op : Type :=
| DrawText (x y : Z) (text : string) (fill : list Z) (f : font).

Definition op_text (o : draw_op) : string := let 'DrawText _ _ t _ _ := o in t.
Definition op_font (o : draw_op) : font := let 'DrawText _ _ _ _ f := o in f.

(** The imaging library and the files under the images directory. *)
Record Canvas : Type := {
  (** [Image.open(path).convert("RGB").size]; [None] raises *)
  image_size : string -> option (Z * Z);
  (** [self.config_manager.find_available_font()] *)
  find_available_font : option string;
  (** does [ImageFont.truetype(font_path, font_size)] load the font? *)
  truetype : string -> Z -> bool;
  (** [font.getsize(text)]; [None] is the AttributeError of a font
      without [getsize] *)
  getsize : font -> string -> option (Z * Z);
  (** is the mean colour of the box [(x0, y0, x1, y1)] of the image
      below the threshold? *)
  mean_below : string -> Z * Z * Z * Z -> Z -> bool;
  (** [img.save(path)] after the drawing; [false] raises *)
  save : string -> list draw_op -> bool;
  (** [os.path.exists] *)
  path_exists : string -> bool;
  (** [os.path.isdir] *)
  is_directory : string -> bool;
  (** [glob.glob(os.path.join(images_dir, "**", "*"), recursive=True)] *)
  images_below : string -> list string
}.

Definition min_font_size : Z := 8.

(** The font one turn of the search loads: the default font when no
    font file was found or when loading it raises. *)
Definition load_font (cv : Canvas) (size : Z) : font :=
  match find_available_font cv with
  | None => DefaultFont
  | Some font_path =>
      if truetype cv font_path size then TrueType font_path size
      else DefaultFont
  end.

(** The measure of the text in the font of a turn, with the estimate of
    the handler. *)
Definition text_size (cv : Canvas) (size : Z) (bates_text : string) : Z * Z :=
  match getsize cv (load_font cv size) bates_text with
  | Some wh => wh
  | None => (PyStr.len bates_text * size / 2, size)
  end.

(** The test that ends the search. *)
Definition fits (cv : Canvas) (bates_text : string) (w h margin size : Z) : bool :=
  let '(text_w, text_h) := text_size cv size bates_text in
  (text_w <=? w - 2 * margin) && (text_h <=? h - 2 * margin).

(** The [while ... else] loop that looks for a font size: the size it
    breaks at, [None] when it ends without [break].  [fuel] bounds the
    iterations. *)
Fixpoint fit_font (cv : Canvas) (bates_text : string) (w h margin : Z)
    (fuel : nat) (size : Z) : option Z :=
  match fuel with
  | O => None
  | S k =>
      if size <? min_font_size then None
      else if fits cv bates_text w h margin size then Some size
      else fit_font cv bates_text w h margin k (size - 1)
  end.

(** The corner of the text for a [position] setting. *)
Definition stamp_position (position : string) (margin w h text_w text_h : Z)
  : Z * Z :=
  let '(text_x, text_y) :=
    if String.eqb position "bottom-right" then
      (w - text_w - margin, h - text_h - margin)
    else if String.eqb position "top-right" then (w - text_w - margin, margin)
    else if String.eqb position "bottom-left" then (margin, h - text_h - margin)
    else if String.eqb position "top-left" then (margin, margin)
    else if String.eqb position "center" then
      ((w - text_w) / 2, (h - text_h) / 2)
    else (w - text_w - margin, h - text_h - margin) in
  (Z.max margin text_x, Z.max margin text_y).

(** The box sampled for the contrast. *)
Definition sample_box (w h text_w text_h text_x text_y : Z) : Z * Z * Z * Z :=
  let sample_x := Z.max 0 (Z.min text_x (w - text_w)) in
  let sample_y := Z.max 0 (Z.min text_y (h - text_h)) in
  (sample_x, sample_y, sample_x + text_w, sample_y + text_h).

Inductive stamp_result : Type :=
| StampRaised
| StampSkipped
| Stamped (ops : list draw_op).

(** [d.get(key, dflt)] *)
Definition or_else {A : Type} (o : option A) (dflt : A) : A :=
  match o with Some v => v | None => dflt end.

(** The border: the text at every offset of the square but the
    centre. *)
Definition border_ops (border_width text_x text_y : Z) (bates_text : string)
    (fill : list Z) (f : font) : list draw_op :=
  let offsets := or_else (py_range (- border_width) (border_width + 1) 1) [] in
  flat_map
    (fun dx =>
       flat_map
         (fun dy =>
            if negb (dx =? 0) || negb (dy =? 0)
            then [DrawText (text_x + dx) (text_y + dy) bates_text fill f]
            else [])
         offsets)
    offsets.

(** [add_bates_stamp_with_config] *)
Definition add_bates_stamp_with_config (cv : Canvas) (bates_config : BatesConfig)
    (img_path bates_text : string) : stamp_result :=
  match font_size bates_config, image_size cv img_path with
  | Some size0, Some (w, h) =>
      if size0 <? min_font_size then StampSkipped
      else
        match margin bates_config with
        | None => StampRaised
        | Some m =>
            match fit_font cv bates_text w h m (Z.to_nat (size0 - 7)) size0 with
            | None => StampSkipped
            | Some size =>
                let '(text_w, text_h) := text_size cv size bates_text in
                let '(text_x, text_y) :=
                  stamp_position (or_else (position bates_config) "bottom-right")
                                 m w h text_w text_h in
                let box := sample_box w h text_w text_h text_x text_y in
                let text_color :=
                  match contrast_threshold bates_config with
                  | None => None
                  | Some t =>
                      if mean_below cv img_path box t
                      then text_color_light bates_config
                      else text_color_dark bates_config
                  end in
                let shadow_ops :=
                  if or_else (shadow bates_config) false then
                    let off := or_else (shadow_offset bates_config) [2; 2] in
                    match nth_error off 0, nth_error off 1 with
                    | Some ox, Some oy =>
                        Some [DrawText (text_x + ox) (text_y + oy) bates_text
                                (or_else (shadow_color bates_config) [0; 0; 0])
                                (load_font cv size)]
                    | _, _ => None
                    end
                  else Some [] in
                let border :=
                  if or_else (add_border bates_config) false then
                    border_ops (or_else (border_width bates_config) 2)
                               text_x text_y bates_text
                               (or_else (border_color bates_config) [255; 255; 255])
                               (load_font cv size)
                  else [] in
                match text_color, shadow_ops with
                | Some fill, Some sh =>
                    let ops :=
                      (sh ++ border
                       ++ [DrawText text_x text_y bates_text fill
                                    (load_font cv size)])%list in
                    if save cv img_path ops then Stamped ops else StampRaised
                | _, _ => StampRaised
                end
            end
        end
  | _, _ => StampRaised
  end.

Definition default_formats : list string :=
  ["jpg"; "jpeg"; "tiff"; "tif"; "png"; "bmp"].

(** The extension and the stamp text [apply_bates_stamps] reads off the
    path of an image. *)
Definition stamp_ext (img_file : string) : string :=
  PyStr.lower (PyStr.strip_chars (snd (Path.splitext img_file)) ".").

Definition stamp_name (img_file : string) : string :=
  Path.basename (fst (Path.splitext img_file)).

Definition is_raised (r : stamp_result) : bool :=
  match r with StampRaised => true | _ => false end.

(** One call of [add_bates_stamp_with_config]: the image, the text and
    how the call ended. *)
Definition stamp_call : Type := string * string * stamp_result.

(** One turn of the loop of [apply_bates_stamps] over the calls made
    and the two counters. *)
Definition stamp_step (cv : Canvas) (bates_config : BatesConfig)
    (st : list stamp_call * Z * Z) (img_file : string)
  : list stamp_call * Z * Z :=
  let '(calls, processed_count, skipped_count) := st in
  if is_directory cv img_file then st
  else
    let ext := stamp_ext img_file in
    let name := stamp_name img_file in
    if in_list ext (or_else (supported_formats bates_config) default_formats)
    then
      let r := add_bates_stamp_with_config cv bates_config img_file name in
      if is_raised r
      then ((calls ++ [(img_file, name, r)])%list, processed_count, skipped_count + 1)
      else ((calls ++ [(img_file, name, r)])%list, processed_count + 1, skipped_count)
    else st.

(** [apply_bates_stamps]: the calls of [add_bates_stamp_with_config] it
    makes and the two counts it prints; [None] when there is no images
    directory. *)
Definition apply_bates_stamps (cv : Canvas) (bates_config : BatesConfig)
    (output_dir volume_name : string) : option (list stamp_call * Z * Z) :=
  let images_dir := Path.join output_dir [volume_name; "IMAGES"] in
  if negb (path_exists cv images_dir) then None
  else Some (fold_left (stamp_step cv bates_config)
                       (images_below cv images_dir) ([], 0, 0)).

(* ================================================================== *)
(** ** validate_bates_and_pages.py *)

(** What a validation reads: the bytes of the files by path,
    [os.path.exists] and [os.listdir], [None] where it raises. *)
Record Disk : Type := {
  files : FS;
  disk_exists : string -> bool;
  listdir : string -> option (list string)
}.

(** The newline translation of a file opened in text mode: a carriage
    return, alone or before a line feed, is read as a line feed. *)
Fixpoint universal_newlines (after_cr : bool) (s : string) : string :=
  match s with
  | EmptyString => ""
  | String c r =>
      if Ascii.eqb c "013" then String "010" (universal_newlines true r)
      else if Ascii.eqb c "010" && after_cr then universal_newlines false r
      else String c (universal_newlines false r)
  end.

(** [open(path, 'r', encoding='utf-8')] and the text read from it;
    [None] raises. *)
Definition read_text (fs : FS) (path : string) : option string :=
  match Dict.get fs path with
  | Some bytes => option_map (universal_newlines false) (decode_utf8 bytes)
  | None => None
  end.

(** [f.readlines()]: the lines with their line feed; [cur] holds the
    current line reversed. *)
Fixpoint readlines_go (s cur : string) : list string :=
  match s with
  | EmptyString => match cur with EmptyString => [] | _ => [PyStr.rev cur] end
  | String c r =>
      if Ascii.eqb c "010" then PyStr.rev (String c cur) :: readlines_go r ""
      else readlines_go r (String c cur)
  end.

Definition readlines (text : string) : list string := readlines_go text "".

(** The truth value of a [str]. *)
Definition nonempty (s : string) : bool := negb (String.eqb s "").

(** [[line for line in lines[1:] if line.strip()]] *)
Definition data_lines (lines : list string) : list string :=
  filter (fun line => nonempty (PyStr.strip line)) (tl lines).

(** The wrapper character the validations split on. *)
Definition thorn : string := String "254" "".

(** [parts[i]] under a test of [len(parts)] that keeps [i] in range. *)
Definition part (parts : list string) (i : nat) : string := nth i parts "".

(** [parts[i] if len(parts) > i else ''] *)
Definition part_or_empty (parts : list string) (i : nat) : string :=
  if Z.of_nat i <? Z.of_nat (List.length parts) then part parts i else "".

(** [x and x.strip() and x.strip() not in ['', '\x14']] *)
Definition has_value (x : string) : bool :=
  nonempty x && nonempty (PyStr.strip x)
  && negb (in_list (PyStr.strip x) [""; String "020" ""]).

(** The loop of [validate_page_counts] over the data lines: the two
    collections it fills. *)
Definition page_count_step
    (st : Dict.t Z * list (string * string * Z)) (line : string)
  : Dict.t Z * list (string * string * Z) :=
  let '(page_counts, pdf_files) := st in
  match PyStr.split line thorn with
  | Some parts =>
      if 30 <? Z.of_nat (List.length parts) then
        let beg_bates := part parts 1 in
        let filename := part_or_empty parts 5 in
        let file_ext := part_or_empty parts 4 in
        let page_count := part parts 30 in
        if has_value page_count then
          match PyStr.int page_count with
          | Some n =>
              (Dict.set page_counts beg_bates n,
               if String.eqb (PyStr.lower file_ext) "pdf"
               then (pdf_files ++ [(beg_bates, filename, n)])%list
               else pdf_files)
          | None => st
          end
        else st
      else st
  | None => st
  end.

(** Reading a file that is there: does it go through? *)
Definition readable (dk : Disk) (path : string) : bool :=
  if disk_exists dk path
  then match read_text (files dk) path with Some _ => true | None => false end
  else true.

Definition listable (dk : Disk) (path : string) : bool :=
  if disk_exists dk path
  then match listdir dk path with Some _ => true | None => false end
  else true.

(** [validate_page_counts]: its result, [None] when it raises. *)
Definition validate_page_counts (dk : Disk)
    (loadfile_path opt_path images_dir : string) : option bool :=
  match read_text (files dk) loadfile_path with
  | Some text =>
      let '(_, pdf_files) :=
        fold_left page_count_step (data_lines (readlines text)) ([], []) in
      if readable dk opt_path && listable dk images_dir then
        Some (forallb
                (fun '(bates, _, _) =>
                   disk_exists dk (Path.join images_dir [bates ++ ".tiff"]))
                pdf_files)
      else None
  | None => None
  end.

(** The loop of [validate_email_families]: the [defaultdict] of the
    families. *)
Definition email_family_step
    (email_families : Dict.t (list (string * string * string))) (line : string)
  : Dict.t (list (string * string * string)) :=
  match PyStr.split line thorn with
  | Some parts =>
      if 35 <? Z.of_nat (List.length parts) then
        let beg_bates := part parts 1 in
        let family_id := part parts 35 in
        let doc_type := part_or_empty parts 33 in
        let filename := part_or_empty parts 5 in
        if has_value family_id then
          Dict.set email_families (PyStr.strip family_id)
                   (Dict.get_default email_families (PyStr.strip family_id) []
                    ++ [(beg_bates, doc_type, filename)])%list
        else email_families
      else email_families
  | None => email_families
  end.

(** [validate_email_families]: its result, [None] when it raises. *)
Definition validate_email_families (dk : Disk) (loadfile_path : string)
  : option bool :=
  match read_text (files dk) loadfile_path with
  | Some text =>
      let email_families :=
        fold_left email_family_step (data_lines (readlines text)) [] in
      Some (0 <? Z.of_nat (List.length email_families))
  | None => None
  end.

(** The loop of [validate_bates_sequence] over the data lines. *)
Definition bates_step (bates_numbers : list string) (line : string)
  : list string :=
  match PyStr.split line thorn with
  | Some parts =>
      if 5 <? Z.of_nat (List.length parts)
      then (bates_numbers ++ [part parts 1])%list
      else bates_numbers
  | None => bates_numbers
  end.

(** [[int(bates[-8:]) for bates in bates_numbers]]; [None] is the
    ValueError of a number part that is not a number. *)
Fixpoint number_parts (bates_numbers : list string) : option (list Z) :=
  match bates_numbers with
  | [] => Some []
  | bates :: r =>
      match PyStr.int (PyStr.slice_from bates (-8)), number_parts r with
      | Some n, Some ns => Some (n :: ns)
      | _, _ => None
      end
  end.

(** [list.sort()] on integers, as the insertion sort that computes the
    same list. *)
Fixpoint insert_int (x : Z) (l : list Z) : list Z :=
  match l with
  | [] => [x]
  | y :: r => if y <? x then y :: insert_int x r else x :: l
  end.

Fixpoint sort_ints (l : list Z) : list Z :=
  match l with
  | [] => []
  | x :: r => insert_int x (sort_ints r)
  end.

(** The loop that compares each number with the one before it. *)
Fixpoint sequential (bates_nums : list Z) : bool :=
  match bates_nums with
  | a :: (b :: _) as r => (b =? a + 1) && sequential r
  | _ => true
  end.

(** [validate_bates_sequence]: its result, [None] when it raises. *)
Definition validate_bates_sequence (dk : Disk) (loadfile_path : string)
  : option bool :=
  match read_text (files dk) loadfile_path with
  | Some text =>
      let bates_numbers :=
        fold_left bates_step (data_lines (readlines text)) [] in
      match number_parts bates_numbers with
      | Some bates_nums => Some (sequential (sort_ints bates_nums))
      | None => None
      end
  | None => None
  end.

(* ================================================================== *)
(** ** review_workflow.py: the hash of a file *)

(** [_calculate_file_hash]: the MD5 of the bytes of the file; [None]
    when the file cannot be read. *)
Definition _calculate_file_hash (env : Env) (file_path : string) : option string :=
  option_map Md5.hexdigest (read_bytes env file_path).

(* ================================================================== *)
(** ** Vocabulary of the statements *)

(** [doc[k]], [None] for a missing key. *)
Definition field (doc : Dict.t value) (k : string) : value :=
  Dict.get_default doc k VNone.

(** What identifies a published record: its file name and its Bates
    number. *)
Definition record_key (doc : Dict.t value) : value * value :=
  (field doc "Filename", field doc "BegBates").

(** The record key a task publishes, from the result it returns. *)
Definition published (fname : string) (r : task_result) : list (value * value) :=
  match r with
  | Success b => [(VStr (Path.basename fname), VStr b)]
  | _ => []
  end.

(** The record of the file [fname] numbered [B], as far as its
    identifying fields go. *)
Definition record_of (fname B : string) (doc : Dict.t value) : Prop :=
  field doc "BegBates" = VStr B
  /\ field doc "EndBates" = VStr B
  /\ field doc "HashValue" = VStr (Md5.hexdigest (encode fname))
  /\ field doc "Filename" = VStr (Path.basename fname).

(** [a] does not come after [b] in the order of the sort keys. *)
Definition key_le {A : Type} (key : A -> string) (a b : A) : Prop :=
  String.leb (key a) (key b) = true.

(** The integers [a, a+1, ...], [len] of them. *)
Definition zrange (a len : Z) : list Z :=
  map (fun t => a + Z.of_nat t) (seq 0 (Z.to_nat len)).

(** The entry of page [i] of a file whose base number is [n] and that
    has [total] pages. *)
Definition entry (self : Creator) (vol : string) (n total i : Z) : opt_entry :=
  page_entry (get_bates (prefix self) (n + i) default_ndigit) vol (i =? 0) total.

(** The body of the chunk loop of [_process_pdf_pages]. *)
Definition chunk_body (env : Env) (pdf_path base out vol : string)
    (total dpi c compression : Z) (chunk_start : Z) : Exc.M unit :=
  let chunk_end := Z.min (chunk_start + c) total in
  page_imgs <- Exc.lift (convert_from_path env pdf_path dpi
                                           (chunk_start + 1) chunk_end) ;;
  Exc.for_each (enumerate page_imgs) (fun '(i, page_img) =>
    let page_num := chunk_start + i in
    expand_page env base out vol total page_num page_img compression).

(** The starts of [j] chunks of [c] pages from page [a]. *)
Definition chunks (c a : Z) (j : nat) : list Z :=
  map (fun i => a + Z.of_nat i * c) (seq 0 j).

(** The settings of the object, which no step assigns. *)
Definition same_settings (st st' : Creator) : Prop :=
  prefix st' = prefix st /\ start_value st' = start_value st
  /\ ProductionVolume st' = ProductionVolume st
  /\ Custodian st' = Custodian st.

(** The result of a task run alone on [self]. *)
Definition solo (env : Env) (cl : Closure) (self : Creator)
    (file_info : string * option string) : task_result :=
  snd (process_single_file env cl file_info self).

(** The record [process_single_file] builds for the file [fname] numbered
    [B], from the metadata [md] and the family [fam]. *)
Definition record_built (self : Creator) (cl : Closure) (fname B : string)
    (md : Dict.t mvalue) (fam : value) : Dict.t value :=
  let ext := snd (Path.splitext fname) in
  let FileExtension := PyStr.strip_chars (PyStr.lower ext) "." in
  let date_created := meta_get md (Some "Creation-Date") VNone in
  let datestr :=
    if is_none date_created then VNone else convert_date_safe date_created in
  let timestr :=
    if is_none date_created then VNone else convert_time_safe date_created in
  let subdir :=
    if in_list FileExtension ["tif"; "tiff"; "jpg"; "jpeg"; "png"]
    then "IMAGES" else "NATIVES" in
  doc_entry self cl fname B ext FileExtension
    (Path.join (volume_name cl) [subdir; "0000"; B ++ ext])
    (Path.join (volume_name cl) ["TEXT"; "0000"; B ++ ".txt"])
    md datestr timestr (determine_redaction_type fname md)
    (determine_document_type fname) fam.

(** What the parsing step of a task hands on; [None] when the task ends
    there. *)
Definition parsed_for (env : Env) (cl : Closure) (fname : string) : option parsed :=
  let FileExtension :=
    PyStr.strip_chars (PyStr.lower (snd (Path.splitext fname))) "." in
  if String.eqb FileExtension "pdf" then
    match chunk_pdf_and_parse env fname with
    | Some (Some p) => Some p
    | _ => None
    end
  else from_file env fname (or_default (max_file_timeout (processing_config cl)) 300).

(** The family a record carries, given the family the task was
    submitted with: that one when it is not empty, otherwise what
    [identify_document_family] returned, an integer or [None]. *)
Definition family_from (family_id : option string) (fam : value) : Prop :=
  hashable fam = true
  /\ forall k, family_id = Some k -> k <> "" -> fam = VStr k.

(** The record of a successful task. *)
Definition record_for (env : Env) (self : Creator) (cl : Closure)
    (file_info : string * option string) (doc : Dict.t value) : Prop :=
  exists p md fam,
    parsed_for env cl (fst file_info) = Some p
    /\ metadata p = Some md
    /\ family_from (snd file_info) fam
    /\ doc = record_built self cl (fst file_info)
               (get_bates_for_file self (bates_assignments_of cl) (bates_counter cl)
                                   (fst file_info))
               md fam.

Definition succeeded (r : task_result) : bool :=
  match r with Success _ => true | _ => false end.

(** The family table gives every key a number below the counter and no
    two keys the same number. *)
Definition families_ok (st : Creator) : Prop :=
  (forall k n, Dict.get (document_families st) k = Some n -> n < family_counter st)
  /\ (forall k k' n, Dict.get (document_families st) k = Some n ->
        Dict.get (document_families st) k' = Some n -> k = k').

(** What one chunk of [chunk_pdf_and_parse] contributes: the parse of
    its pages when they can be written and parsed. *)
Definition parsed_chunk (env : Env) (pdf_path : string) (num_pages start_page : Z)
  : list parsed :=
  let end_page := Z.min (start_page + 10) num_pages in
  if pdf_write env pdf_path start_page end_page then
    match from_buffer env pdf_path start_page end_page 300 with
    | Some p => [p]
    | None => []
    end
  else [].

(** The chunks that come through, in page order. *)
Definition parsed_chunks (env : Env) (pdf_path : string) (num_pages : Z)
  : list parsed :=
  flat_map (parsed_chunk env pdf_path num_pages)
           (chunks 10 0 (Z.to_nat ((num_pages + 10 - 1) / 10))).

Definition text_of (p : parsed) : string :=
  match content p with Some c => PyStr.lstrip_space c | None => "" end.

(** The metadata [chunk_pdf_and_parse] returns: that of the first chunk
    that came through, with the page count of the reader. *)
Definition first_metadata_of (num_pages : Z) (l : list parsed)
  : option (Dict.t mvalue) :=
  match l with
  | [] => None
  | p :: _ =>
      option_map
        (fun m => Dict.set m "xmpTPg:NPages" (MStr (PyStr.str_int num_pages)))
        (metadata p)
  end.

Definition is_lower_hex (c : ascii) : bool :=
  PyStr.is_digit c || ((97 <=? PyStr.code c) && (PyStr.code c <=? 102)).


(** The chain of tests of [determine_document_type] on the extension. *)
Definition type_of_extension (file_ext : string) : string :=
  if in_list file_ext [".msg"; ".eml"; ".pst"] then "Email"
  else if in_list file_ext [".doc"; ".docx"] then "Word Document"
  else if in_list file_ext [".xls"; ".xlsx"] then "Spreadsheet"
  else if in_list file_ext [".ppt"; ".pptx"] then "Presentation"
  else if String.eqb file_ext ".pdf" then "PDF Document"
  else if in_list file_ext [".jpg"; ".jpeg"; ".png"; ".tif"; ".tiff"; ".bmp"]
       then "Image"
  else if in_list file_ext [".txt"; ".rtf"] then "Text Document"
  else if in_list file_ext [".zip"; ".rar"; ".7z"] then "Archive"
  else "Unknown".

(** The files [apply_bates_stamps] passes on to the stamping. *)
Definition stampable (cv : Canvas) (bates_config : BatesConfig)
    (img_file : string) : bool :=
  negb (is_directory cv img_file)
  && in_list (stamp_ext img_file)
             (or_else (supported_formats bates_config) default_formats).

(** The call made for a file. *)
Definition stamp_call_of (cv : Canvas) (bates_config : BatesConfig)
    (img_file : string) : stamp_call :=
  (img_file, stamp_name img_file,
   add_bates_stamp_with_config cv bates_config img_file (stamp_name img_file)).

(** A text without wrapper character and without line break. *)
Definition clean (s : string) : bool :=
  negb (PyStr.mem_char "254" s) && negb (PyStr.mem_char "010" s)
  && negb (PyStr.mem_char "013" s).

(** The pieces between wrappers of a line of wrapped fields joined by
    [d] and followed by [tail], after the empty piece in front. *)
Fixpoint between (d : string) (vs : list string) (tail : string) : list string :=
  match vs with
  | [] => [tail]
  | v :: r =>
      v :: match r with
           | [] => [tail]
           | _ :: _ => d :: between d r tail
           end
  end.

(** A subject of two lines. *)
Definition two_lines : string := "a" ++ newline ++ "b".

(** The text of the loadfile written with the default characters. *)
Definition written_text (self : Creator) : string :=
  String.concat "" (map (fun l => l ++ newline)
                        (loadfile_lines self "020" "254")).

(** [n] integers in a row from [a]. *)
Definition run_from (a : Z) (n : nat) : list Z :=
  map (fun i => a + Z.of_nat i) (seq 0 n).

(* ================================================================== *)
(** ** A small production volume

    Three input files, a stray archive and a directory; the PDF has
    three pages.  The statements below are exercised on it. *)

Definition demo_metadata : Dict.t mvalue :=
  [ ("Creation-Date", MStr "2021-03-04T05:06:07Z");
    ("Last-Modified", MStr "2021-03-04T05:06:07Z");
    ("Thread-Index", MStr "AdfX0r") ].

Definition demo_env : Env := {|
  glob := fun _ => ["in/c.txt"; "in/b.pdf"; "in/a.eml"; "in/tika.jar"; "in/sub"];
  isfile := fun f => negb (String.eqb f "in/sub");
  isdir := fun f => String.eqb f "in/sub";
  read_bytes := fun _ => Some (encode "hello");
  hash := fun s => 7919 * PyStr.len s;
  from_file := fun _ _ =>
    Some {| metadata := Some demo_metadata; content := Some "text" |};
  pdf_reader := fun _ _ => Some 3;
  pdf_write := fun _ _ _ => true;
  from_buffer := fun _ _ _ _ =>
    Some {| metadata := Some [("Creation-Date", MList ["2020-01-01T10:00:00.123Z"])];
            content := Some "  page text" |};
  convert_from_path := fun _ _ a b =>
    Some (map (fun i => Image (a + Z.of_nat i)) (seq 0 (Z.to_nat (b - a + 1))));
  imwrite := fun _ _ _ => true;
  tiff_n_frames := fun _ => Some 3;
  tiff_seek := fun _ i => Some (Image i);
  copy2 := fun _ _ => true;
  write_text := fun _ _ => true;
  timed_out := false
|}.

Definition demo_config : ProcessingConfig := {|
  max_file_timeout := None;
  max_total_timeout := None;
  max_workers := None;
  pdf_dpi := None;
  pdf_chunk_size := Some 2;
  image_compression := None
|}.

(** The tasks of the small volume, in submission order. *)
Definition demo_tasks : list (string * option string) :=
  snd (prepare demo_env init demo_config "in" "out" "VOL").

(** The object after the run of the small volume. *)
Definition demo_run : Creator :=
  fst (process_files demo_env init demo_config "in" "out" "VOL" demo_tasks).

(** The same world, where rendering the first chunk of a PDF raises and
    so does the text extraction of its first chunk; later chunks are
    fine.  The PDF has fourteen pages. *)
Definition failing_first_chunk : Env := {|
  glob := glob demo_env;
  isfile := isfile demo_env;
  isdir := isdir demo_env;
  read_bytes := read_bytes demo_env;
  hash := hash demo_env;
  from_file := from_file demo_env;
  pdf_reader := fun _ _ => Some 14;
  pdf_write := pdf_write demo_env;
  from_buffer := fun path a b t =>
    if a =? 0 then None else from_buffer demo_env path a b t;
  convert_from_path := fun path dpi a b =>
    if a =? 1 then None else convert_from_path demo_env path dpi a b;
  imwrite := imwrite demo_env;
  tiff_n_frames := tiff_n_frames demo_env;
  tiff_seek := tiff_seek demo_env;
  copy2 := copy2 demo_env;
  write_text := write_text demo_env;
  timed_out := timed_out demo_env
|}.

(** The same world with another listing: two directories, base names
    in both cases, and two files whose base names differ in case only. *)
Definition mixed_env : Env := {|
  glob := fun _ => ["in/z/b.TXT"; "in/C.pdf"; "in/sub/B.txt"; "in/tika.jar";
                    "in/sub"; "in/z"; "in/a.eml"];
  isfile := fun f => negb (String.eqb f "in/sub" || String.eqb f "in/z");
  isdir := fun f => String.eqb f "in/sub" || String.eqb f "in/z";
  read_bytes := read_bytes demo_env;
  hash := hash demo_env;
  from_file := from_file demo_env;
  pdf_reader := pdf_reader demo_env;
  pdf_write := pdf_write demo_env;
  from_buffer := from_buffer demo_env;
  convert_from_path := convert_from_path demo_env;
  imwrite := imwrite demo_env;
  tiff_n_frames := tiff_n_frames demo_env;
  tiff_seek := tiff_seek demo_env;
  copy2 := copy2 demo_env;
  write_text := write_text demo_env;
  timed_out := timed_out demo_env
|}.

(** Loadfile settings: the defaults, and a comma with a vertical bar. *)
Definition default_loadfile_config : LoadfileConfig :=
  {| delimiter := None; wrapper := None; encoding := None |}.

Definition comma_bar_config : LoadfileConfig :=
  {| delimiter := Some "0x2C"; wrapper := Some "0x7C"; encoding := None |}.

Definition mail_env : Env := {|
  glob := fun _ => ["in/a.eml"; "in/notes.txt"; "in/reply.MSG"];
  isfile := isfile demo_env;
  isdir := isdir demo_env;
  read_bytes := read_bytes demo_env;
  hash := hash demo_env;
  from_file := from_file demo_env;
  pdf_reader := pdf_reader demo_env;
  pdf_write := pdf_write demo_env;
  from_buffer := from_buffer demo_env;
  convert_from_path := convert_from_path demo_env;
  imwrite := imwrite demo_env;
  tiff_n_frames := tiff_n_frames demo_env;
  tiff_seek := tiff_seek demo_env;
  copy2 := copy2 demo_env;
  write_text := write_text demo_env;
  timed_out := timed_out demo_env
|}.


Definition mail_tasks : list (string * option string) :=
  snd (prepare mail_env init demo_config "in" "out" "VOL").

Definition textless_env : Env := {|
  glob := glob demo_env;
  isfile := isfile demo_env;
  isdir := isdir demo_env;
  read_bytes := read_bytes demo_env;
  hash := hash demo_env;
  from_file := from_file demo_env;
  pdf_reader := pdf_reader demo_env;
  pdf_write := pdf_write demo_env;
  from_buffer := fun _ _ _ _ => None;
  convert_from_path := convert_from_path demo_env;
  imwrite := imwrite demo_env;
  tiff_n_frames := tiff_n_frames demo_env;
  tiff_seek := tiff_seek demo_env;
  copy2 := copy2 demo_env;
  write_text := write_text demo_env;
  timed_out := timed_out demo_env
|}.

Definition demo_closure : Closure :=
  snd (fst (prepare demo_env init demo_config "in" "out" "VOL")).

Definition latin_1_config : LoadfileConfig :=
  {| delimiter := None; wrapper := None; encoding := Some latin_1 |}.


(** The [bates_stamping] section of [_get_default_config]. *)
Definition default_bates_config : BatesConfig := {|
  font_size := Some 30;
  margin := Some 20;
  position := None;
  contrast_threshold := Some 128;
  text_color_light := Some [255; 255; 255];
  text_color_dark := Some [0; 0; 0];
  shadow := Some false;
  shadow_offset := Some [2; 2];
  shadow_color := Some [0; 0; 0];
  add_border := Some false;
  border_width := Some 2;
  border_color := Some [255; 255; 255];
  supported_formats := Some ["jpg"; "jpeg"; "tiff"; "tif"; "png"; "bmp"]
|}.

(** An images directory with one page image of 200 by 100 pixels, a text
    file and an image that cannot be opened; no font file is found,
    and the default font has no [getsize]. *)
Definition stamp_canvas : Canvas := {|
  image_size := fun p =>
    if String.eqb p "out/VOL/IMAGES/0000/PL_WEATHERFORD00008379.tiff"
    then Some (200, 100) else None;
  find_available_font := None;
  truetype := fun _ _ => true;
  getsize := fun _ _ => None;
  mean_below := fun _ _ _ => true;
  save := fun _ _ => true;
  path_exists := fun _ => true;
  is_directory := fun p => String.eqb p "out/VOL/IMAGES/0000";
  images_below := fun d =>
    if String.eqb d "out/VOL/IMAGES"
    then ["out/VOL/IMAGES/0000";
          "out/VOL/IMAGES/0000/PL_WEATHERFORD00008379.tiff";
          "out/VOL/IMAGES/0000/notes.txt";
          "out/VOL/IMAGES/0000/broken.PNG"]
    else []
|}.

(** The run in which the PDF fails, and the disk after its loadfile was
    written. *)
Definition textless_run : Creator :=
  fst (process_files textless_env init demo_config "in" "out" "VOL" demo_tasks).

Definition textless_disk : Disk := {|
  files := Dict.set [] (loadfile_path "out" "VOL")
                    (encode (written_text textless_run));
  disk_exists := fun _ => false;
  listdir := fun _ => None
|}.

(* ================================================================== *)
(** ** Vocabulary of the proofs *)

(** The value of a run of decimal digits, continuing from [acc]. *)
Fixpoint dec_val (acc : Z) (s : string) : Z :=
  match s with
  | EmptyString => acc
  | String c r => dec_val (10 * acc + (PyStr.code c - 48)) r
  end.

(** The loop of [bates_assignments], from any index and any dictionary. *)
Definition assign_from (self : Creator) (n : nat) (files : list string)
    (d : Dict.t string) : Dict.t string :=
  fold_left
    (fun d '(i, fname) =>
       Dict.set d fname
         (get_bates (prefix self) (start_value self + i) default_ndigit))
    (combine (map Z.of_nat (seq n (List.length files))) files) d.

(** [post m st Q]: the state and the outcome of [m] run from [st]
    satisfy [Q]. *)
Definition post {A : Type} (m : Exc.M A) (st : Creator)
    (Q : Creator -> option A -> Prop) : Prop :=
  Q (fst (m st)) (snd (m st)).

(** What no method of the pipeline changes: the records already
    published and the settings of the object. *)
Definition frame (st st' : Creator) : Prop :=
  docs st' = docs st /\ prefix st' = prefix st
  /\ start_value st' = start_value st
  /\ ProductionVolume st' = ProductionVolume st
  /\ Custodian st' = Custodian st.

(** [m] only touches the page index and the family table. *)
Definition framed {A : Type} (m : Exc.M A) : Prop :=
  forall st, post m st (fun s _ => frame st s).

(** What the publishing part of a task does to the records: nothing
    when it raises, one record of the file when it returns. *)
Definition task_post (fname B : string) (st s : Creator)
    (r : option task_result) : Prop :=
  same_settings st s
  /\ match r with
     | Some (Success b) =>
         b = B /\ exists doc, docs s = (docs st ++ [doc])%list
                              /\ record_of fname B doc
     | _ => docs s = docs st
     end.

(** Run from two states with the same prefix, [m1] and [m2] both raise
    or both return, with results related by [R], and leave states with
    the same prefix. *)
Definition agree {A : Type} (R : A -> A -> Prop) (m1 m2 : Exc.M A) : Prop :=
  forall st1 st2, prefix st1 = prefix st2 ->
    prefix (fst (m1 st1)) = prefix (fst (m2 st2))
    /\ match snd (m1 st1), snd (m2 st2) with
       | Some a, Some b => R a b
       | None, None => True
       | _, _ => False
       end.

(** One step of the loop of [_group_email_files]. *)
Definition group_step (env : Env) (email_families : Dict.t (list string)) (fname : string)
  : Dict.t (list string) :=
  if is_email fname
  then family_append email_families (family_key_of env fname) fname
  else email_families.

(** Every list holds only files of its key. *)
Definition keyed (env : Env) (d : Dict.t (list string)) : Prop :=
  forall k l f, In (k, l) d -> In f l -> family_key_of env f = k.

(** The email file [f] is in the list of its key. *)
Definition filed (env : Env) (d : Dict.t (list string)) (f : string) : Prop :=
  exists l, Dict.get d (family_key_of env f) = Some l /\ In f l.

Definition built_post (cl : Closure) (fname B : string)
    (family_id : option string) (p : parsed)
    (st s : Creator) (r : option task_result) : Prop :=
  match r with
  | Some res =>
      res = Success B
      /\ exists md fam,
           metadata p = Some md
           /\ family_from family_id fam
           /\ docs s = (docs st ++ [record_built st cl fname B md fam])%list
  | None => docs s = docs st
  end.

(** What one call of [identify_document_family] does to the table. *)
Definition numbered (m : Exc.M value) (st : Creator) : Prop :=
  let s := fst (m st) in
  let r := snd (m st) in
  families_ok s
  /\ (forall k n, Dict.get (document_families st) k = Some n ->
        Dict.get (document_families s) k = Some n)
  /\ family_counter st <= family_counter s <= family_counter st + 1
  /\ (forall v, r = Some v ->
        v = VNone /\ s = st
        \/ exists k n, v = VInt n /\ Dict.get (document_families s) k = Some n)
  /\ m s = (s, r).


(** The metadata kept by the chunk loop carry the page count of the
    reader. *)
Definition counted (N : Z) (acc : option (option (Dict.t mvalue) * list string))
  : Prop :=
  forall fm cc m, acc = Some (fm, cc) -> fm = Some m ->
    Dict.get m "xmpTPg:NPages" = Some (MStr (PyStr.str_int N)).

(** A directory part: empty, or ending in a separator. *)
Definition dir_like (d : string) : Prop := d = "" \/ exists d', d = d' ++ "/".

(** Neither a separator nor a dot. *)
Definition no_sep (c : ascii) : bool :=
  negb (Ascii.eqb c "/") && negb (Ascii.eqb c ".").

(* ================================================================== *)
(** * Verification *)

(** ** Strings *)

Module PyStrFacts.
Import PyStr.

Lemma append_nil_r (s : string) : s ++ "" = s.
Proof. induction s as [|c r IH]; simpl; [reflexivity | now rewrite IH]. Qed.

Lemma append_assoc (a b c : string) : (a ++ b) ++ c = a ++ (b ++ c).
Proof. induction a as [|x r IH]; simpl; [reflexivity | now rewrite IH]. Qed.

Lemma append_inv_head (p a b : string) : p ++ a = p ++ b -> a = b.
Proof.
  induction p as [|c r IH]; simpl; intros H; [exact H|].
  injection H as H. now apply IH.
Qed.

Lemma rev_onto_app (s acc : string) : rev_onto s acc = rev s ++ acc.
Proof.
  unfold rev. revert acc.
  induction s as [|c r IH]; intros acc; simpl; [reflexivity|].
  rewrite (IH (String c "")), IH, append_assoc. reflexivity.
Qed.

Lemma rev_cons (c : ascii) (s : string) : rev (String c s) = rev s ++ String c "".
Proof. unfold rev at 1. simpl. apply rev_onto_app. Qed.

Lemma rev_app (a b : string) : rev (a ++ b) = rev b ++ rev a.
Proof.
  induction a as [|c r IH]; simpl.
  - now rewrite append_nil_r.
  - now rewrite !rev_cons, IH, append_assoc.
Qed.

Lemma rev_involutive (s : string) : rev (rev s) = s.
Proof.
  induction s as [|c r IH]; [reflexivity|].
  rewrite rev_cons, rev_app, IH. reflexivity.
Qed.

Lemma all_chars_app (P : ascii -> bool) (a b : string) :
  all_chars P (a ++ b) = all_chars P a && all_chars P b.
Proof.
  induction a as [|c r IH]; simpl; [reflexivity|].
  now rewrite IH, andb_assoc.
Qed.

Lemma all_chars_rev (P : ascii -> bool) (s : string) :
  all_chars P (rev s) = all_chars P s.
Proof.
  induction s as [|c r IH]; [reflexivity|].
  rewrite rev_cons, all_chars_app, IH. simpl.
  rewrite andb_true_r. apply andb_comm.
Qed.

Lemma all_chars_impl (P Q : ascii -> bool) (s : string) :
  (forall c, P c = true -> Q c = true) ->
  all_chars P s = true -> all_chars Q s = true.
Proof.
  intros HPQ. induction s as [|c r IH]; simpl; [trivial|].
  rewrite !andb_true_iff. intros [Hc Hr]. auto.
Qed.

Lemma all_chars_repeat (P : ascii -> bool) (c : ascii) (n : nat) :
  P c = true -> all_chars P (repeat_char c n) = true.
Proof. intros Hc. induction n as [|k IH]; simpl; [reflexivity | now rewrite Hc]. Qed.

Lemma lstrip_space_id (s : string) :
  all_chars (fun c => negb (is_space c)) s = true -> lstrip_space s = s.
Proof.
  destruct s as [|c r]; simpl; [reflexivity|].
  rewrite andb_true_iff, negb_true_iff. intros [-> _]. reflexivity.
Qed.

(** [strip] leaves a string without white space alone. *)
Lemma strip_id (s : string) :
  all_chars (fun c => negb (is_space c)) s = true -> strip s = s.
Proof.
  intros H. unfold strip.
  rewrite (lstrip_space_id s H), lstrip_space_id, rev_involutive; trivial.
  now rewrite all_chars_rev.
Qed.

Lemma lstrip_int_id (s : string) :
  all_chars (fun c => negb (is_int_space c)) s = true -> lstrip_int s = s.
Proof.
  destruct s as [|c r]; simpl; [reflexivity|].
  rewrite andb_true_iff, negb_true_iff. intros [-> _]. reflexivity.
Qed.

(** [int] finds nothing to skip around a text without its white
    space. *)
Lemma strip_int_id (s : string) :
  all_chars (fun c => negb (is_int_space c)) s = true -> strip_int s = s.
Proof.
  intros H. unfold strip_int.
  rewrite (lstrip_int_id s H), lstrip_int_id, rev_involutive; trivial.
  now rewrite all_chars_rev.
Qed.

(** *** Decimal text *)

Lemma dec_val_app (a b : string) (acc : Z) :
  dec_val acc (a ++ b) = dec_val (dec_val acc a) b.
Proof. revert acc. induction a as [|c r IH]; intros acc; simpl; [reflexivity | apply IH]. Qed.

Lemma dec_val_zeros (n : nat) : dec_val 0 (repeat_char "0" n) = 0.
Proof. induction n as [|k IH]; simpl; [reflexivity | exact IH]. Qed.

Lemma digit_char_spec (d : Z) :
  0 <= d < 10 -> is_digit (digit_char d) = true /\ code (digit_char d) - 48 = d.
Proof.
  intros H.
  assert (d = 0 \/ d = 1 \/ d = 2 \/ d = 3 \/ d = 4 \/ d = 5 \/ d = 6
          \/ d = 7 \/ d = 8 \/ d = 9) as Hd by lia.
  repeat (destruct Hd as [-> | Hd]; [split; reflexivity|]).
  subst d. split; reflexivity.
Qed.

Lemma digits_fuel_spec (f : nat) (n : Z) :
  0 <= n < 2 ^ Z.of_nat (S f) ->
  all_chars is_digit (digits_fuel (S f) n) = true
  /\ dec_val 0 (digits_fuel (S f) n) = n
  /\ digits_fuel (S f) n <> "".
Proof.
  revert n. induction f as [|f IH]; intros n Hn;
    cbn [digits_fuel]; destruct (n <? 10) eqn:E.
  - apply Z.ltb_lt in E.
    destruct (digit_char_spec n) as [Hd Hv]; [lia|].
    simpl. rewrite Hd, Hv. repeat split; try lia; discriminate.
  - apply Z.ltb_ge in E. change (2 ^ Z.of_nat 1) with 2 in Hn. lia.
  - apply Z.ltb_lt in E.
    destruct (digit_char_spec n) as [Hd Hv]; [lia|].
    simpl. rewrite Hd, Hv. repeat split; try lia; discriminate.
  - apply Z.ltb_ge in E.
    assert (0 <= n / 10 < 2 ^ Z.of_nat (S f)) as Hq.
    { split; [apply Z.div_pos; lia|].
      rewrite (Nat2Z.inj_succ (S f)), Z.pow_succ_r in Hn by lia.
      apply Z.div_lt_upper_bound; lia. }
    destruct (IH _ Hq) as (Ha & Hv & Hne).
    destruct (digit_char_spec (n mod 10)) as [Hd Hm];
      [apply Z.mod_pos_bound; lia|].
    cbn [digits_fuel] in Ha, Hv, Hne.
    rewrite all_chars_app, dec_val_app, Ha, Hv. cbn [all_chars dec_val].
    rewrite Hd, Hm. repeat split.
    + pose proof (Z.div_mod n 10). lia.
    + destruct (if n / 10 <? 10 then _ else _); [congruence | discriminate].
Qed.

Lemma digits_spec (n : Z) :
  0 <= n ->
  all_chars is_digit (digits n) = true /\ dec_val 0 (digits n) = n
  /\ digits n <> "".
Proof.
  intros Hn. apply digits_fuel_spec. split; [exact Hn|].
  rewrite Nat2Z.inj_succ, Z2Nat.id by apply Z.log2_nonneg.
  destruct (Z.eq_dec n 0) as [-> | Hz]; [reflexivity|].
  apply Z.log2_spec. lia.
Qed.

Lemma digit_val_digit (c : ascii) :
  is_digit c = true -> digit_val c = Some (code c - 48) /\ code c - 48 < 10
                       /\ Ascii.eqb c "_" = false.
Proof.
  unfold is_digit, digit_val. intros H. rewrite H.
  apply andb_true_iff in H as [H1 H2].
  apply Z.leb_le in H1, H2. repeat split; [lia|].
  apply Ascii.eqb_neq. intros ->. cbv in H2. congruence.
Qed.

Lemma int_digits_dec (s : string) (acc : Z) (p q : bool) :
  all_chars is_digit s = true -> s <> "" ->
  int_digits 10 s acc p q = Some (dec_val acc s).
Proof.
  revert acc p q. induction s as [|c r IH]; intros acc p q Ha Hne; [congruence|].
  simpl in Ha. apply andb_true_iff in Ha as [Hc Hr].
  destruct (digit_val_digit c Hc) as (Hv & Hlt & Hu).
  simpl. rewrite Hu, Hv.
  apply Z.ltb_lt in Hlt. rewrite Hlt.
  destruct r as [|c' r']; [reflexivity|].
  apply IH; [exact Hr | discriminate].
Qed.

Lemma digit_not_space (c : ascii) :
  is_digit c = true -> negb (is_int_space c) = true.
Proof.
  unfold is_digit, is_int_space. intros H.
  apply andb_true_iff in H as [H1 H2]. apply Z.leb_le in H1, H2.
  apply negb_true_iff.
  repeat (apply orb_false_iff; split);
    try (apply Z.eqb_neq; lia);
    apply andb_false_iff; right; apply Z.leb_gt; lia.
Qed.

Lemma digit_not_sign (c : ascii) :
  is_digit c = true -> Ascii.eqb c "-" = false /\ Ascii.eqb c "+" = false.
Proof.
  unfold is_digit. intros H.
  apply andb_true_iff in H as [H1 H2]. apply Z.leb_le in H1, H2.
  split; apply Ascii.eqb_neq; intros ->; cbv in H1; congruence.
Qed.

(** A run of digits reads back as its decimal value. *)
Lemma int_of_digits (s : string) :
  all_chars is_digit s = true -> s <> "" -> int s = Some (dec_val 0 s).
Proof.
  intros Ha Hne. unfold int.
  rewrite strip_int_id by (eapply all_chars_impl; [apply digit_not_space | exact Ha]).
  destruct s as [|c r]; [congruence|].
  simpl in Ha. apply andb_true_iff in Ha as [Hc Hr].
  destruct (digit_not_sign c Hc) as [Hm Hp].
  unfold int_signed. rewrite Hm, Hp.
  apply int_digits_dec; [simpl; now rewrite Hc | discriminate].
Qed.

Lemma zfill_digits (w n : Z) :
  0 <= n ->
  all_chars is_digit (zfill w (digits n)) = true
  /\ dec_val 0 (zfill w (digits n)) = n
  /\ zfill w (digits n) <> "".
Proof.
  intros Hn. destruct (digits_spec n Hn) as (Ha & Hv & Hne).
  unfold zfill. rewrite all_chars_app, dec_val_app, dec_val_zeros, Ha, Hv.
  rewrite all_chars_repeat by reflexivity. repeat split.
  destruct (repeat_char "0" _); simpl; [exact Hne | discriminate].
Qed.

(** Reading a formatted integer gives the integer back, whatever the
    width and the sign. *)
Lemma int_format_0d (w v : Z) : int (format_0d w v) = Some v.
Proof.
  unfold format_0d. destruct (v <? 0) eqn:E.
  - apply Z.ltb_lt in E.
    destruct (zfill_digits (w - 1) (- v)) as (Ha & Hv & Hne); [lia|].
    unfold int. rewrite strip_int_id.
    + unfold int_signed. simpl Ascii.eqb. cbv iota.
      rewrite int_digits_dec, Hv by assumption. simpl. f_equal. lia.
    + simpl. eapply all_chars_impl; [apply digit_not_space | exact Ha].
  - apply Z.ltb_ge in E.
    destruct (zfill_digits w v) as (Ha & Hv & Hne); [lia|].
    rewrite int_of_digits, Hv; trivial.
Qed.

Lemma format_0d_inj (w a b : Z) : format_0d w a = format_0d w b -> a = b.
Proof.
  intros H. apply (f_equal int) in H.
  rewrite !int_format_0d in H. congruence.
Qed.

End PyStrFacts.

(** *** replace *)

Module ReplaceFacts.
Import PyStr PyStrFacts.

Lemma prefix_app (p d : string) : String.prefix p (p ++ d) = true.
Proof.
  induction p as [|c r IH]; simpl; [now destruct d|].
  destruct (ascii_dec c c); [exact IH | congruence].
Qed.

Lemma intersperse_empty (s : string) : intersperse_after "" s = s.
Proof. induction s as [|c r IH]; simpl; [reflexivity | now rewrite IH]. Qed.

Lemma replace_go_skip (old new a d : string) :
  replace_go old new (String.length a) (a ++ d) = replace_go old new 0 d.
Proof.
  induction a as [|c r IH]; simpl; [reflexivity | exact IH].
Qed.

Lemma replace_go_absent (c : ascii) (p new d : string) :
  all_chars (fun x => negb (Ascii.eqb x c)) d = true ->
  replace_go (String c p) new 0 d = d.
Proof.
  induction d as [|x r IH]; simpl; [reflexivity|].
  rewrite andb_true_iff, negb_true_iff, Ascii.eqb_neq. intros [Hx Hr].
  destruct (ascii_dec c x) as [E | _]; [congruence|].
  now rewrite IH.
Qed.

(** Taking a plain prefix off a string made of digits and minus signs
    leaves exactly that string. *)
Lemma replace_plain_prefix (p d : string) :
  plain_prefix p = true -> all_chars numeric_char d = true ->
  replace (p ++ d) p "" = d.
Proof.
  intros Hp Hd. destruct p as [|c r]; simpl.
  - apply intersperse_empty.
  - destruct (ascii_dec c c) as [_ | N]; [|congruence].
    rewrite prefix_app, Nat.sub_0_r. simpl.
    rewrite replace_go_skip. apply replace_go_absent.
    simpl in Hp. apply negb_true_iff in Hp.
    eapply all_chars_impl; [|exact Hd].
    intros x Hx. apply negb_true_iff, Ascii.eqb_neq. intros ->. congruence.
Qed.

Lemma format_0d_numeric (w v : Z) : all_chars numeric_char (format_0d w v) = true.
Proof.
  assert (forall c, is_digit c = true -> numeric_char c = true) as Hi
    by (intros c Hc; unfold numeric_char; now rewrite Hc).
  unfold format_0d. destruct (v <? 0) eqn:E.
  - apply Z.ltb_lt in E. simpl.
    destruct (zfill_digits (w - 1) (- v)) as (Ha & _); [lia|].
    eapply all_chars_impl; eauto.
  - apply Z.ltb_ge in E.
    destruct (zfill_digits w v) as (Ha & _); [lia|].
    eapply all_chars_impl; eauto.
Qed.

End ReplaceFacts.

(** ** Bates numbers *)

Lemma get_bates_inj (p : string) (w a b : Z) :
  get_bates p a w = get_bates p b w -> a = b.
Proof.
  unfold get_bates. intros H.
  apply PyStrFacts.append_inv_head in H.
  now apply PyStrFacts.format_0d_inj in H.
Qed.

(** The number the page expanders read back from a Bates number is the
    number it was made from. *)
Lemma bates_number_get_bates (p : string) (v w : Z) :
  plain_prefix p = true -> bates_number p (get_bates p v w) = Some v.
Proof.
  intros Hp. unfold bates_number, get_bates.
  rewrite ReplaceFacts.replace_plain_prefix
    by (trivial; apply ReplaceFacts.format_0d_numeric).
  apply PyStrFacts.int_format_0d.
Qed.

(** ** Dictionaries *)

Module DictFacts.

Lemma get_set_same {V : Type} (d : Dict.t V) (k : string) (v : V) :
  Dict.get (Dict.set d k v) k = Some v.
Proof.
  induction d as [|[k' v'] r IH]; simpl.
  - now rewrite String.eqb_refl.
  - destruct (String.eqb k' k) eqn:E; simpl; rewrite E; [reflexivity | exact IH].
Qed.

Lemma get_set_other {V : Type} (d : Dict.t V) (k k' : string) (v : V) :
  k <> k' -> Dict.get (Dict.set d k v) k' = Dict.get d k'.
Proof.
  intros Hne. induction d as [|[k0 v0] r IH]; simpl.
  - apply String.eqb_neq in Hne. now rewrite Hne.
  - destruct (String.eqb k0 k) eqn:E; simpl.
    + apply String.eqb_eq in E. subst k0.
      apply String.eqb_neq in Hne. now rewrite Hne.
    + now rewrite IH.
Qed.

End DictFacts.

(** ** Sorting *)

Module SortFacts.

Lemma compare_refl (s : string) : String.compare s s = Eq.
Proof.
  induction s as [|c r IH]; simpl; [reflexivity|].
  unfold Ascii.compare. now rewrite N.compare_refl.
Qed.

Lemma compare_trans_le (a b c : string) :
  String.compare a b <> Gt -> String.compare b c <> Gt ->
  String.compare a c <> Gt.
Proof.
  revert b c. induction a as [|x a IH]; intros [|y b] [|z c]; simpl;
    try congruence.
  unfold Ascii.compare.
  destruct (N.compare_spec (N_of_ascii x) (N_of_ascii y)) as [Exy|Lxy|Gxy];
  destruct (N.compare_spec (N_of_ascii y) (N_of_ascii z)) as [Eyz|Lyz|Gyz];
  destruct (N.compare_spec (N_of_ascii x) (N_of_ascii z)) as [Exz|Lxz|Gxz];
    try congruence; try lia; intros; eauto.
Qed.

Lemma leb_iff (s t : string) : String.leb s t = true <-> String.compare s t <> Gt.
Proof. unfold String.leb. destruct (String.compare s t); split; congruence. Qed.

Lemma key_le_trans {A : Type} (key : A -> string) (a b c : A) :
  key_le key a b -> key_le key b c -> key_le key a c.
Proof. unfold key_le. rewrite !leb_iff. apply compare_trans_le. Qed.

Lemma ltb_false_le (s t : string) : String.ltb s t = false -> String.leb t s = true.
Proof.
  unfold String.ltb, String.leb. rewrite (String.compare_antisym t s).
  destruct (String.compare s t); simpl; congruence.
Qed.

Lemma ltb_true_le (s t : string) : String.ltb s t = true -> String.leb s t = true.
Proof.
  unfold String.ltb, String.leb. destruct (String.compare s t); congruence.
Qed.

Section WithKey.
Context {A : Type} (key : A -> string).

Lemma insert_by_perm (x : A) (l : list A) : Permutation (x :: l) (insert_by key x l).
Proof.
  induction l as [|y r IH]; simpl; [reflexivity|].
  destruct (String.ltb (key y) (key x)); [|reflexivity].
  rewrite perm_swap. now constructor.
Qed.

Lemma sort_by_perm (l : list A) : Permutation l (sort_by key l).
Proof.
  induction l as [|x r IH]; simpl; [constructor|].
  rewrite <- insert_by_perm. now constructor.
Qed.

Lemma insert_by_sorted (x : A) (l : list A) :
  StronglySorted (key_le key) l -> StronglySorted (key_le key) (insert_by key x l).
Proof.
  induction 1 as [|y r Hs IH Hall]; simpl.
  - repeat constructor.
  - destruct (String.ltb (key y) (key x)) eqn:E.
    + constructor; [exact IH|].
      apply (Permutation_Forall (insert_by_perm x r)).
      constructor; [now apply ltb_true_le | exact Hall].
    + apply ltb_false_le in E.
      constructor; [now constructor|].
      constructor; [exact E|].
      eapply Forall_impl; [|exact Hall].
      intros z Hz. eapply key_le_trans; eauto.
Qed.

Lemma sort_by_sorted (l : list A) : StronglySorted (key_le key) (sort_by key l).
Proof.
  induction l as [|x r IH]; simpl; [constructor | now apply insert_by_sorted].
Qed.

(** The elements of one key are not reordered. *)
Lemma insert_by_stable (k : string) (x : A) (l : list A) :
  filter (fun y => String.eqb (key y) k) (insert_by key x l)
  = filter (fun y => String.eqb (key y) k) (x :: l).
Proof.
  induction l as [|y r IH]; [reflexivity|]. cbn [insert_by].
  destruct (String.ltb (key y) (key x)) eqn:E; [|reflexivity].
  cbn [filter] in *. rewrite IH.
  destruct (String.eqb (key y) k) eqn:Ey, (String.eqb (key x) k) eqn:Ex;
    try reflexivity.
  apply String.eqb_eq in Ey, Ex. rewrite Ey, Ex in E.
  unfold String.ltb in E. rewrite compare_refl in E. discriminate.
Qed.

Lemma sort_by_stable (k : string) (l : list A) :
  filter (fun y => String.eqb (key y) k) (sort_by key l)
  = filter (fun y => String.eqb (key y) k) l.
Proof.
  induction l as [|x r IH]; [reflexivity|]. cbn [sort_by].
  rewrite insert_by_stable. cbn [filter]. now rewrite IH.
Qed.
End WithKey.

End SortFacts.

(** ** The pre-assignment loop *)

Module AssignFacts.

Lemma bates_assignments_eq (self : Creator) (files : list string) :
  bates_assignments self files = assign_from self 0 files [].
Proof. reflexivity. Qed.

Lemma assign_from_cons (self : Creator) (n : nat) (f : string)
    (r : list string) (d : Dict.t string) :
  assign_from self n (f :: r) d =
  assign_from self (S n) r
    (Dict.set d f (get_bates (prefix self) (start_value self + Z.of_nat n)
                             default_ndigit)).
Proof. reflexivity. Qed.

Lemma assign_from_other (self : Creator) (files : list string) :
  forall (n : nat) (d : Dict.t string) (k : string),
    ~ In k files -> Dict.get (assign_from self n files d) k = Dict.get d k.
Proof.
  induction files as [|f r IH]; intros n d k Hk; [reflexivity|].
  rewrite assign_from_cons, IH by (intros H; apply Hk; now right).
  apply DictFacts.get_set_other. intros ->. apply Hk. now left.
Qed.

Lemma assign_from_nth (self : Creator) (files : list string) :
  NoDup files ->
  forall (n : nat) (d : Dict.t string) (i : nat),
    (i < List.length files)%nat ->
    Dict.get (assign_from self n files d) (nth i files "") =
    Some (get_bates (prefix self) (start_value self + Z.of_nat (n + i))
                    default_ndigit).
Proof.
  induction 1 as [|f r Hf Hr IH]; intros n d i Hi; simpl in Hi; [lia|].
  rewrite assign_from_cons. destruct i as [|j]; simpl nth.
  - rewrite assign_from_other by exact Hf.
    rewrite DictFacts.get_set_same, Nat.add_0_r. reflexivity.
  - rewrite IH by lia. do 3 f_equal. lia.
Qed.

Lemma assigned_nth (self : Creator) (files : list string) (i : nat) :
  NoDup files -> (i < List.length files)%nat ->
  Dict.get (bates_assignments self files) (nth i files "") =
  Some (get_bates (prefix self) (start_value self + Z.of_nat i) default_ndigit).
Proof.
  intros Hn Hi. rewrite bates_assignments_eq.
  now rewrite (assign_from_nth self files Hn 0 [] i Hi).
Qed.

Lemma assigned_inj (self : Creator) (files : list string) (f g : string) :
  NoDup files -> In f files -> In g files ->
  Dict.get (bates_assignments self files) f =
  Dict.get (bates_assignments self files) g -> f = g.
Proof.
  intros Hn Hf Hg.
  destruct (In_nth _ _ "" Hf) as (i & Hi & <-).
  destruct (In_nth _ _ "" Hg) as (j & Hj & <-).
  rewrite !assigned_nth by assumption.
  intros H. injection H as H. apply get_bates_inj in H.
  f_equal. lia.
Qed.

Lemma collect_files_perm (isfile : string -> bool) (listing : list string) :
  Permutation
    (filter (fun fname => isfile fname && negb (PyStr.endswith fname ".jar"))
            listing)
    (collect_files isfile listing).
Proof. apply SortFacts.sort_by_perm. Qed.

Lemma collect_files_nodup (isfile : string -> bool) (listing : list string) :
  NoDup listing -> NoDup (collect_files isfile listing).
Proof.
  intros H. eapply Permutation_NoDup; [apply collect_files_perm|].
  now apply NoDup_filter.
Qed.

End AssignFacts.






(** ** Reasoning about methods that mutate [self] *)

Module ExcFacts.
Import Exc.

Lemma post_bind {A B : Type} (m : M A) (k : A -> M B) (st : Creator)
    (Q : Creator -> option B -> Prop) :
  post m st (fun s r => match r with
                        | Some a => post (k a) s Q
                        | None => Q s None
                        end) ->
  post (bind m k) st Q.
Proof. unfold post, bind. destruct (m st) as [s [a|]]; simpl; trivial. Qed.

Lemma post_conseq {A : Type} (m : M A) (st : Creator)
    (Q Q' : Creator -> option A -> Prop) :
  post m st Q -> (forall s r, Q s r -> Q' s r) -> post m st Q'.
Proof. unfold post. auto. Qed.

Lemma post_try (m : M unit) (st : Creator)
    (Q : Creator -> option unit -> Prop) :
  post m st (fun s _ => Q s (Some tt)) -> post (try_except m) st Q.
Proof. unfold post, try_except. trivial. Qed.

Lemma post_for_each {X : Type} (I : Creator -> Prop) (body : X -> M unit)
    (l : list X) :
  (forall x st, I st -> post (body x) st (fun s _ => I s)) ->
  forall st, I st -> post (for_each l body) st (fun s _ => I s).
Proof.
  intros Hbody. induction l as [|x r IH]; intros st Hst; [exact Hst|].
  cbn [for_each]. apply post_bind.
  eapply post_conseq; [apply (Hbody x st Hst)|].
  intros s [[]|] Hs; [now apply IH | exact Hs].
Qed.

Lemma frame_refl (st : Creator) : frame st st.
Proof. repeat split. Qed.

Lemma frame_trans (a b c : Creator) : frame a b -> frame b c -> frame a c.
Proof. unfold frame. intuition congruence. Qed.

Lemma frame_append_opt (e : opt_entry) (st : Creator) : frame st (append_opt e st).
Proof. repeat split. Qed.

Lemma frame_new_family (k : string) (n : Z) (st : Creator) :
  frame st (new_family k n st).
Proof. repeat split. Qed.

Create HintDb frames.
#[local] Hint Resolve frame_refl frame_append_opt frame_new_family : frames.

Lemma framed_bind {A B : Type} (m : M A) (k : A -> M B) :
  framed m -> (forall a, framed (k a)) -> framed (bind m k).
Proof.
  intros Hm Hk st. apply post_bind.
  eapply post_conseq; [apply Hm|].
  intros s [a|] Hs; [|exact Hs].
  eapply post_conseq; [apply Hk|].
  intros s' r' Hs'. eapply frame_trans; eauto.
Qed.

Lemma framed_ret {A : Type} (a : A) : framed (ret a).
Proof. intros st. apply frame_refl. Qed.

Lemma framed_raise {A : Type} : framed (@raise A).
Proof. intros st. apply frame_refl. Qed.

Lemma framed_lift {A : Type} (o : option A) : framed (lift o).
Proof. intros st. apply frame_refl. Qed.

Lemma framed_guard (b : bool) : framed (guard b).
Proof. intros st. apply frame_refl. Qed.

Lemma framed_get : framed get.
Proof. intros st. apply frame_refl. Qed.

Lemma framed_modify (f : Creator -> Creator) :
  (forall st, frame st (f st)) -> framed (modify f).
Proof. intros Hf st. apply Hf. Qed.

Lemma framed_try (m : M unit) : framed m -> framed (try_except m).
Proof. intros Hm st. apply post_try, Hm. Qed.

Lemma framed_for_each {X : Type} (body : X -> M unit) (l : list X) :
  (forall x, framed (body x)) -> framed (for_each l body).
Proof.
  intros Hbody. induction l as [|x r IH]; [apply framed_ret|].
  cbn [for_each]. apply framed_bind; auto.
Qed.

(** [for_each] leaves the loop at the first exception: nothing after
    the failing element runs. *)
Lemma for_each_stops {X : Type} (body : X -> M unit) (before after : list X)
    (x : X) (st s1 s2 : Creator) :
  for_each before body st = (s1, Some tt) ->
  body x s1 = (s2, None) ->
  for_each (before ++ x :: after)%list body st = (s2, None).
Proof.
  revert st. induction before as [|y r IH]; intros st Hb Hx; cbn [for_each app].
  - injection Hb as ->. unfold bind. now rewrite Hx.
  - cbn [for_each] in Hb. unfold bind in *.
    destruct (body y st) as [s [[]|]]; [now apply IH | discriminate].
Qed.

(** A handler makes its block total. *)
Lemma try_except_returns (m : M unit) (st : Creator) :
  snd (try_except m st) = Some tt.
Proof. reflexivity. Qed.

Ltac framed_step :=
  lazymatch goal with
  | |- framed (ret _) => apply framed_ret
  | |- framed raise => apply framed_raise
  | |- framed (lift _) => apply framed_lift
  | |- framed (guard _) => apply framed_guard
  | |- framed get => apply framed_get
  | |- framed (try_except _) => apply framed_try
  | |- framed (modify _) => apply framed_modify; intros; auto with frames
  | |- framed (for_each _ _) => apply framed_for_each; intros
  | |- framed (bind _ _) => apply framed_bind; [|intros]
  end.

Lemma framed_expand_page (env : Env) (base_bates out vol : string)
    (total page_num : Z) (img : image) (compression : Z) :
  framed (expand_page env base_bates out vol total page_num img compression).
Proof. unfold expand_page. repeat framed_step. Qed.

Lemma framed_pdf_pages (env : Env) (pdf_path base_bates out vol : string)
    (cfg : ProcessingConfig) :
  framed (_process_pdf_pages env pdf_path base_bates out vol cfg).
Proof.
  unfold _process_pdf_pages. repeat framed_step.
  destruct x0 as [i page_img]. apply framed_expand_page.
Qed.

Lemma framed_tiff_pages (env : Env) (tiff_path base_bates out vol : string) :
  framed (_process_tiff_pages env tiff_path base_bates out vol).
Proof.
  unfold _process_tiff_pages. repeat framed_step. apply framed_expand_page.
Qed.

Lemma framed_family_of (key : string) : framed (family_of key).
Proof.
  unfold family_of. apply framed_bind; [apply framed_get|]. intros self.
  destruct (Dict.get (document_families self) key); repeat framed_step.
Qed.

Lemma framed_identify (file_path : string) (md : Dict.t mvalue) :
  framed (identify_document_family file_path md).
Proof.
  unfold identify_document_family.
  repeat match goal with
         | |- framed (if ?b then _ else _) => destruct b
         | |- framed (match ?m with MStr _ => _ | MList _ => _ end) => destruct m
         | |- _ => first [apply framed_family_of | apply framed_raise | apply framed_ret]
         end.
Qed.

End ExcFacts.

(** ** One task *)

Module TaskFacts.
Import Exc ExcFacts.

Lemma doc_entry_record (self : Creator) (cl : Closure)
    (fname B ext FE nd td : string) (md : Dict.t mvalue) (ds ts : value)
    (rt dt : string) (fam : value) :
  record_of fname B (doc_entry self cl fname B ext FE nd td md ds ts rt dt fam).
Proof. repeat split. Qed.

Lemma frame_settings (st s : Creator) : frame st s -> same_settings st s.
Proof. unfold frame, same_settings. tauto. Qed.

Lemma same_settings_refl (st : Creator) : same_settings st st.
Proof. repeat split. Qed.

Lemma same_settings_trans (a b c : Creator) :
  same_settings a b -> same_settings b c -> same_settings a c.
Proof. unfold same_settings. intuition congruence. Qed.

Lemma framed_family_step (fname : string) (md : Dict.t mvalue)
    (family_id : option string) :
  framed (match family_id with
          | Some k => if negb (String.eqb k "") then ret (VStr k)
                      else identify_document_family fname md
          | None => identify_document_family fname md
          end).
Proof.
  destruct family_id as [k|]; [destruct (negb (String.eqb k ""))|];
    first [apply framed_ret | apply framed_identify].
Qed.

Lemma framed_pages_step (env : Env) (cl : Closure) (fname B ext : string) :
  framed (if String.eqb (PyStr.lower ext) ".pdf" then
            _process_pdf_pages env fname B (outdir cl) (volume_name cl)
                               (processing_config cl)
          else if in_list (PyStr.strip_chars (PyStr.lower ext) ".")
                          ["tif"; "tiff"] then
            _process_tiff_pages env fname B (outdir cl) (volume_name cl)
          else ret tt).
Proof.
  destruct (String.eqb _ _); [apply framed_pdf_pages|].
  destruct (in_list _ _); [apply framed_tiff_pages | apply framed_ret].
Qed.

Lemma build_and_publish_post (env : Env) (cl : Closure) (fname B : string)
    (family_id : option string) (p : parsed) (st : Creator) :
  post (build_and_publish env cl fname B family_id p) st (task_post fname B st).
Proof.
  unfold build_and_publish.
  apply post_bind. unfold post at 1, lift. cbn [fst snd].
  destruct (metadata p) as [md|];
    [|split; [apply same_settings_refl | reflexivity]].
  apply post_bind.
  eapply post_conseq; [apply framed_family_step|].
  intros s1 [fam|] F1; cbn beta in F1;
    [|split; [now apply frame_settings | apply F1]].
  apply post_bind. unfold post at 1, get. cbn [fst snd].
  apply post_bind. unfold post at 1, guard. cbn [fst snd].
  destruct (copy2 env _ _);
    [|split; [now apply frame_settings | apply F1]].
  apply post_bind. unfold post at 1, guard. cbn [fst snd].
  destruct (write_text env _ _);
    [|split; [now apply frame_settings | apply F1]].
  apply post_bind.
  eapply post_conseq; [apply framed_pages_step|].
  intros s2 r2 F2; cbn beta in F2.
  pose proof (frame_trans _ _ _ F1 F2) as F.
  destruct r2 as [[]|]; [|split; [now apply frame_settings | apply F]].
  apply post_bind. unfold post at 1, modify. cbn [fst snd].
  unfold post, ret. cbn [fst snd]. split.
  - apply frame_settings in F. exact F.
  - split; [reflexivity|]. eexists. split.
    + cbn [docs append_doc]. destruct F as [-> _]. reflexivity.
    + apply doc_entry_record.
Qed.

(** The same for the whole task, whatever it returns. *)
Lemma process_single_file_post (env : Env) (cl : Closure)
    (fname : string) (family_id : option string) (st : Creator) :
  let B := get_bates_for_file st (bates_assignments_of cl) (bates_counter cl) fname in
  let '(s, r) := process_single_file env cl (fname, family_id) st in
  task_post fname B st s (Some r).
Proof.
  intros B. unfold process_single_file. fold B.
  assert (task_post fname B st st (Some Skipped)) as Hskip
    by (split; [apply same_settings_refl | reflexivity]).
  assert (forall f, task_post fname B st st (Some (Failed f))) as Hfail
    by (intros f; split; [apply same_settings_refl | reflexivity]).
  assert (forall p,
    let '(s, r) :=
      match build_and_publish env cl fname B family_id p st with
      | (s, Some r) => (s, r)
      | (s, None) => (s, Failed exception)
      end in task_post fname B st s (Some r)) as Hafter.
  { intros p. pose proof (build_and_publish_post env cl fname B family_id p st) as H.
    unfold post in H.
    destruct (build_and_publish env cl fname B family_id p st) as [s [r|]];
      cbn [fst snd] in H; [exact H|].
    destruct H as [Hs Hd]. split; assumption. }
  destruct (isdir env fname); [exact Hskip|].
  destruct (String.eqb _ "pdf").
  - destruct (chunk_pdf_and_parse env fname) as [[p|]|]; auto. apply Hafter.
  - destruct (from_file env fname _) as [p|]; auto. apply Hafter.
Qed.

End TaskFacts.

(** ** Two runs side by side *)

Module OrderFacts.
Import Exc ExcFacts TaskFacts.

Lemma agree_bind {A B : Type} (R : A -> A -> Prop) (R' : B -> B -> Prop)
    (m1 m2 : M A) (k1 k2 : A -> M B) :
  agree R m1 m2 -> (forall a b, R a b -> agree R' (k1 a) (k2 b)) ->
  agree R' (bind m1 k1) (bind m2 k2).
Proof.
  intros Hm Hk st1 st2 Hp. unfold bind.
  destruct (Hm st1 st2 Hp) as [Hp' Hr].
  destruct (m1 st1) as [s1 [a|]], (m2 st2) as [s2 [b|]]; cbn [fst snd] in *;
    try contradiction; [|split; trivial].
  now apply Hk.
Qed.

Lemma agree_ret {A : Type} (R : A -> A -> Prop) (a b : A) :
  R a b -> agree R (ret a) (ret b).
Proof. intros H st1 st2 Hp. split; [exact Hp | exact H]. Qed.

Lemma agree_raise {A : Type} (R : A -> A -> Prop) : agree R raise raise.
Proof. intros st1 st2 Hp. split; [exact Hp | exact I]. Qed.

Lemma agree_lift {A : Type} (o : option A) : agree eq (lift o) (lift o).
Proof. intros st1 st2 Hp. split; [exact Hp|]. destruct o; cbn; trivial. Qed.

Lemma agree_guard (b : bool) : agree eq (guard b) (guard b).
Proof. intros st1 st2 Hp. split; [exact Hp|]. destruct b; cbn; trivial. Qed.

Lemma agree_get : agree (fun a b => prefix a = prefix b) get get.
Proof. intros st1 st2 Hp. split; exact Hp. Qed.

Lemma agree_framed {A : Type} (m1 m2 : M A) :
  framed m1 -> framed m2 ->
  (forall st1 st2, snd (m1 st1) <> None /\ snd (m2 st2) <> None) ->
  agree (fun _ _ => True) m1 m2.
Proof.
  intros H1 H2 Hs st1 st2 Hp. split.
  - destruct (H1 st1) as (_ & -> & _), (H2 st2) as (_ & -> & _). exact Hp.
  - destruct (Hs st1 st2) as [N1 N2].
    destruct (snd (m1 st1)), (snd (m2 st2)); try exact I; congruence.
Qed.

Lemma agree_weaken {A : Type} (R R' : A -> A -> Prop) (m1 m2 : M A) :
  (forall a b, R a b -> R' a b) -> agree R m1 m2 -> agree R' m1 m2.
Proof.
  intros HR H st1 st2 Hp. destruct (H st1 st2 Hp) as [Hp' Hr].
  split; [exact Hp'|].
  destruct (snd (m1 st1)), (snd (m2 st2)); auto.
Qed.

Lemma family_of_returns (key : string) (st : Creator) :
  snd (family_of key st) <> None.
Proof.
  unfold family_of, bind, get, modify, ret.
  destruct (Dict.get (document_families st) key); discriminate.
Qed.

Lemma agree_family_of (key : string) :
  agree (fun _ _ => True) (family_of key) (family_of key).
Proof.
  apply agree_framed; try apply framed_family_of.
  intros st1 st2. split; apply family_of_returns.
Qed.

Lemma agree_identify (file_path : string) (md : Dict.t mvalue) :
  agree (fun _ _ => True) (identify_document_family file_path md)
        (identify_document_family file_path md).
Proof.
  unfold identify_document_family.
  repeat match goal with
         | |- agree _ (if ?b then _ else _) _ => destruct b
         | |- agree _ (match ?m with MStr _ => _ | MList _ => _ end) _ => destruct m
         | |- _ => first [ apply agree_family_of | apply agree_raise
                         | apply agree_ret; exact I ]
         end.
Qed.

Lemma agree_unit_framed (m1 m2 : M unit) :
  framed m1 -> framed m2 ->
  (forall st, snd (m1 st) = Some tt) -> (forall st, snd (m2 st) = Some tt) ->
  agree eq m1 m2.
Proof.
  intros F1 F2 S1 S2 st1 st2 Hp. rewrite S1, S2. split; [|reflexivity].
  destruct (F1 st1) as (_ & -> & _), (F2 st2) as (_ & -> & _). exact Hp.
Qed.

Lemma pages_step_returns (env : Env) (cl : Closure) (fname B ext : string)
    (st : Creator) :
  snd ((if String.eqb (PyStr.lower ext) ".pdf" then
          _process_pdf_pages env fname B (outdir cl) (volume_name cl)
                             (processing_config cl)
        else if in_list (PyStr.strip_chars (PyStr.lower ext) ".")
                        ["tif"; "tiff"] then
          _process_tiff_pages env fname B (outdir cl) (volume_name cl)
        else ret tt) st) = Some tt.
Proof.
  destruct (String.eqb _ _); [reflexivity|].
  destruct (in_list _ _); reflexivity.
Qed.

(** The result of the publishing part does not depend on the state it
    starts from. *)
Lemma agree_build_and_publish (env : Env) (cl : Closure) (fname B : string)
    (family_id : option string) (p : parsed) :
  agree eq (build_and_publish env cl fname B family_id p)
           (build_and_publish env cl fname B family_id p).
Proof.
  unfold build_and_publish.
  eapply agree_bind; [apply agree_lift|]. intros md ? <-.
  eapply agree_bind with (R := fun _ _ => True).
  { destruct family_id as [k|]; [destruct (negb (String.eqb k ""))|];
      first [apply agree_ret; exact I | apply agree_identify]. }
  intros fam1 fam2 _.
  eapply agree_bind; [apply agree_get|]. intros self1 self2 Hself.
  eapply agree_bind; [apply agree_guard|]. intros _ _ _.
  eapply agree_bind; [apply agree_guard|]. intros _ _ _.
  eapply agree_bind with (R := eq).
  { apply agree_unit_framed;
      first [apply framed_pages_step | intros; apply pages_step_returns]. }
  intros _ _ _.
  eapply agree_bind with (R := eq).
  { intros st1 st2 Hp. split; [exact Hp | reflexivity]. }
  intros _ _ _. now apply agree_ret.
Qed.

Lemma get_bates_for_file_prefix (st1 st2 : Creator) (m : Dict.t string)
    (c : Z) (fname : string) :
  prefix st1 = prefix st2 ->
  get_bates_for_file st1 m c fname = get_bates_for_file st2 m c fname.
Proof. unfold get_bates_for_file. now intros ->. Qed.

(** So a task returns what it returns when run alone, wherever in the
    order of completion it comes. *)
Lemma process_single_file_result (env : Env) (cl : Closure)
    (fi : string * option string) (st1 st2 : Creator) :
  prefix st1 = prefix st2 ->
  snd (process_single_file env cl fi st1) = snd (process_single_file env cl fi st2).
Proof.
  intros Hp. destruct fi as [fname family_id]. unfold process_single_file.
  rewrite (get_bates_for_file_prefix st1 st2 _ _ _ Hp).
  set (B := get_bates_for_file st2 _ _ fname).
  destruct (isdir env fname); [reflexivity|].
  assert (forall p,
    snd (match build_and_publish env cl fname B family_id p st1 with
         | (s, Some r) => (s, r) | (s, None) => (s, Failed exception) end) =
    snd (match build_and_publish env cl fname B family_id p st2 with
         | (s, Some r) => (s, r) | (s, None) => (s, Failed exception) end))
    as Hafter.
  { intros p.
    destruct (agree_build_and_publish env cl fname B family_id p st1 st2 Hp)
      as [_ H].
    destruct (build_and_publish env cl fname B family_id p st1) as [s1 [r1|]],
             (build_and_publish env cl fname B family_id p st2) as [s2 [r2|]];
      cbn [fst snd] in *; try contradiction; congruence. }
  destruct (String.eqb _ "pdf").
  - destruct (chunk_pdf_and_parse env fname) as [[p|]|]; auto.
  - destruct (from_file env fname _) as [p|]; auto.
Qed.

(** The whole pool, in any order: the settings stay, every task
    returns its solo result, and the records published are those of
    the successful tasks, in the order of completion. *)
Lemma run_tasks_spec (env : Env) (cl : Closure) (self : Creator)
    (order : list (string * option string)) :
  forall st, prefix st = prefix self ->
    let '(s, results) := run_tasks env cl order st in
    same_settings st s
    /\ results = map (fun fi => (fst fi, solo env cl self fi)) order
    /\ exists new,
         docs s = (docs st ++ new)%list
         /\ map record_key new =
            flat_map (fun fi => published (fst fi) (solo env cl self fi)) order
         /\ Forall (fun doc => exists fname B, record_of fname B doc) new.
Proof.
  induction order as [|[fname family_id] rest IH]; intros st Hp; cbn [run_tasks].
  - split; [apply same_settings_refl|]. split; [reflexivity|].
    exists []. rewrite app_nil_r. repeat split. constructor.
  - pose proof (process_single_file_post env cl fname family_id st) as Hpost.
    pose proof (process_single_file_result env cl (fname, family_id) st self Hp)
      as Hres.
    cbv zeta in Hpost.
    destruct (process_single_file env cl (fname, family_id) st) as [s1 r1].
    cbn [snd] in Hres. destruct Hpost as [Hs1 Hd1].
    assert (prefix s1 = prefix self) as Hp1 by (destruct Hs1 as [-> _]; exact Hp).
    specialize (IH s1 Hp1).
    destruct (run_tasks env cl rest s1) as [s2 results].
    destruct IH as (Hs2 & Hr & new & Hnew & Hkeys & Hall).
    split; [eapply same_settings_trans; eauto|].
    split; [cbn [map fst]; unfold solo at 1; rewrite <- Hres, Hr; reflexivity|].
    cbn [flat_map fst]. unfold solo at 1. rewrite <- Hres.
    destruct r1 as [|f|b].
    + exists new. rewrite Hnew, Hd1. auto.
    + exists new. rewrite Hnew, Hd1. auto.
    + destruct Hd1 as (-> & doc & Hdoc & Hrec).
      exists (doc :: new). rewrite Hnew, Hdoc, <- app_assoc. split; [reflexivity|].
      split.
      * cbn [map published app]. rewrite Hkeys. f_equal.
        unfold record_key. destruct Hrec as (-> & _ & _ & ->). reflexivity.
      * constructor; [eauto | exact Hall].
Qed.

End OrderFacts.

(** ** Page expansion *)

Module PageFacts.
Import Exc.

Lemma zrange_nil (a len : Z) : len <= 0 -> zrange a len = [].
Proof.
  intros H. unfold zrange. replace (Z.to_nat len) with 0%nat by lia. reflexivity.
Qed.

Lemma map_seq_from {B : Type} (f : nat -> B) (n : nat) :
  forall a, map f (seq a n) = map (fun t => f (a + t)%nat) (seq 0 n).
Proof.
  revert f. induction n as [|n IH]; intros f a; [reflexivity|].
  cbn [seq map]. rewrite Nat.add_0_r. f_equal.
  rewrite (IH f (S a)), (IH (fun t => f (a + t)%nat) 1%nat).
  apply map_ext. intros t. f_equal. lia.
Qed.

Lemma zrange_app (a l1 l2 : Z) :
  0 <= l1 -> 0 <= l2 ->
  zrange a (l1 + l2) = (zrange a l1 ++ zrange (a + l1) l2)%list.
Proof.
  intros H1 H2. unfold zrange.
  rewrite Z2Nat.inj_add, seq_app, map_app by assumption. f_equal.
  cbn [Nat.add]. rewrite map_seq_from.
  apply map_ext. intros t. lia.
Qed.

Lemma zrange_seq (k : Z) (f : Z -> opt_entry) :
  map f (zrange 0 k) = map (fun i => f (Z.of_nat i)) (seq 0 (Z.to_nat k)).
Proof. unfold zrange. rewrite map_map. reflexivity. Qed.

Section Expansion.
Variable env : Env.
Variable self : Creator.
Variables base out vol : string.
Variables n total : Z.
Hypothesis Hplain : plain_prefix (prefix self) = true.
Hypothesis Hbase : base = get_bates (prefix self) n default_ndigit.
Hypothesis Hwrite : forall p img c, imwrite env p img c = true.

Lemma expand_page_ok (i : Z) (img : image) (c : Z) (st : Creator) :
  prefix st = prefix self ->
  expand_page env base out vol total i img c st
  = (append_opt (entry self vol n total i) st, Some tt).
Proof.
  intros Hp. unfold expand_page, bind, get, lift, modify, guard.
  rewrite Hp, Hbase, bates_number_get_bates by exact Hplain.
  rewrite Hwrite. reflexivity.
Qed.

(** A loop whose body appends the entry of its page appends the
    entries of all its pages, in order. *)
Lemma loop_appends {X : Type} (body : X -> M unit) (page : X -> Z) (l : list X) :
  (forall x st, In x l -> prefix st = prefix self ->
     body x st = (append_opt (entry self vol n total (page x)) st, Some tt)) ->
  forall st, prefix st = prefix self ->
    exists st',
      for_each l body st = (st', Some tt)
      /\ prefix st' = prefix self
      /\ opt_data st'
         = (opt_data st ++ map (entry self vol n total) (map page l))%list.
Proof.
  induction l as [|x r IH]; intros Hbody st Hp.
  - exists st. cbn. now rewrite app_nil_r.
  - cbn [for_each]. unfold bind. rewrite Hbody by (trivial; now left).
    destruct (IH (fun y s Hy => Hbody y s (or_intror Hy))
                 (append_opt (entry self vol n total (page x)) st) Hp)
      as (st' & Hrun & Hp' & Hd).
    exists st'. rewrite Hrun. repeat split; [exact Hp'|].
    rewrite Hd. cbn [opt_data append_opt map]. now rewrite <- app_assoc.
Qed.

(** *** The frames of a TIFF *)

Variable tiff_path : string.
Hypothesis Hseek : forall i, 0 <= i < total -> tiff_seek env tiff_path i <> None.

Lemma tiff_frames_ok (st : Creator) :
  prefix st = prefix self ->
  exists st',
    for_each (zrange 0 total)
      (fun i => img <- lift (tiff_seek env tiff_path i) ;;
                expand_page env base out vol total i img 6) st
    = (st', Some tt)
    /\ prefix st' = prefix self
    /\ opt_data st'
       = (opt_data st ++ map (entry self vol n total) (zrange 0 total))%list.
Proof.
  intros Hp.
  destruct (loop_appends
              (fun i => img <- lift (tiff_seek env tiff_path i) ;;
                        expand_page env base out vol total i img 6)
              (fun i => i) (zrange 0 total)) with (st := st)
    as (st' & Hrun & Hp' & Hd); [|exact Hp|].
  - intros i s Hi Hs. unfold zrange in Hi.
    apply in_map_iff in Hi as (t & <- & Ht). apply in_seq in Ht.
    unfold bind at 1, lift.
    destruct (tiff_seek env tiff_path (0 + Z.of_nat t)) as [img|] eqn:E;
      [now apply expand_page_ok|].
    exfalso. apply (Hseek (0 + Z.of_nat t)); [lia | exact E].
  - exists st'. rewrite map_id in Hd. auto.
Qed.

(** *** The chunks of a PDF *)

Variable pdf_path : string.
Variables dpi c compression : Z.
Hypothesis Hc : 0 < c.

(** Rendering works for the pages up to [bound]. *)
Variable bound : Z.
Hypothesis Hrender :
  forall a b, 1 <= a -> a <= b -> b <= bound ->
    exists imgs, convert_from_path env pdf_path dpi a b = Some imgs
                 /\ Z.of_nat (List.length imgs) = b - a + 1.

Lemma enumerate_pages {A : Type} (a : Z) (l : list A) :
  map (fun x : Z * A => a + fst x) (enumerate l)
  = zrange a (Z.of_nat (List.length l)).
Proof.
  unfold enumerate, zrange. rewrite Nat2Z.id.
  generalize 0%nat. induction l as [|x r IH]; intros o; [reflexivity|].
  cbn [List.length seq map combine fst]. f_equal. apply IH.
Qed.

Lemma chunk_ok (a : Z) (st : Creator) :
  0 <= a -> a < total -> Z.min (a + c) total <= bound ->
  prefix st = prefix self ->
  exists st',
    chunk_body env pdf_path base out vol total dpi c compression a st
    = (st', Some tt)
    /\ prefix st' = prefix self
    /\ opt_data st'
       = (opt_data st
          ++ map (entry self vol n total) (zrange a (Z.min (a + c) total - a)))%list.
Proof.
  intros Ha Hlt Hb Hp. unfold chunk_body.
  destruct (Hrender (a + 1) (Z.min (a + c) total)) as (imgs & Himgs & Hlen);
    try lia.
  unfold bind at 1, lift. rewrite Himgs.
  destruct (loop_appends
              (fun x : Z * image =>
                 let '(i, page_img) := x in
                 expand_page env base out vol total (a + i) page_img compression)
              (fun x => a + fst x) (enumerate imgs)) with (st := st)
    as (st' & Hrun & Hp' & Hd); [|exact Hp|].
  - intros [i img] s _ Hs. now apply expand_page_ok.
  - exists st'. split; [exact Hrun|]. split; [exact Hp'|].
    rewrite Hd, enumerate_pages. do 3 f_equal. lia.
Qed.

Lemma chunks_cons (a : Z) (j : nat) : chunks c a (S j) = a :: chunks c (a + c) j.
Proof.
  unfold chunks. cbn [seq map]. f_equal; [lia|].
  rewrite <- seq_shift, map_map. apply map_ext. intros t. lia.
Qed.

Lemma chunks_app (a : Z) (i j : nat) :
  chunks c a (i + j) = (chunks c a i ++ chunks c (a + Z.of_nat i * c) j)%list.
Proof.
  revert a. induction i as [|i IH]; intros a.
  - cbn [Nat.add chunks seq map app]. unfold chunks. apply map_ext. intros t. lia.
  - cbn [Nat.add]. rewrite !chunks_cons, IH. cbn [app]. do 3 f_equal. lia.
Qed.

Lemma chunk_loop (j : nat) :
  forall a st,
    0 <= a -> prefix st = prefix self ->
    ((0 < j)%nat -> a + (Z.of_nat j - 1) * c < total
                    /\ Z.min (a + Z.of_nat j * c) total <= bound) ->
    exists st',
      for_each (chunks c a j)
               (chunk_body env pdf_path base out vol total dpi c compression) st
      = (st', Some tt)
      /\ prefix st' = prefix self
      /\ opt_data st'
         = (opt_data st
            ++ map (entry self vol n total)
                   (zrange a (Z.min (a + Z.of_nat j * c) total - a)))%list.
Proof.
  induction j as [|j IH]; intros a st Ha Hp Hlast.
  - exists st. cbn [chunks seq map for_each]. split; [reflexivity|].
    split; [exact Hp|]. rewrite zrange_nil by lia. cbn. now rewrite app_nil_r.
  - assert (0 <= Z.of_nat j * c) as Hjc by nia.
    destruct (Hlast ltac:(lia)) as [Hl Hb].
    assert (a < total) as Hlt by nia.
    rewrite chunks_cons. cbn [for_each]. unfold bind at 1.
    destruct (chunk_ok a st Ha Hlt ltac:(nia) Hp) as (s1 & Hrun1 & Hp1 & Hd1).
    rewrite Hrun1.
    destruct (IH (a + c) s1) as (s2 & Hrun2 & Hp2 & Hd2); [lia | exact Hp1 | |].
    { intros Hj. split; [nia|].
      replace (a + c + Z.of_nat j * c) with (a + Z.of_nat (S j) * c) by nia.
      exact Hb. }
    exists s2. split; [exact Hrun2|]. split; [exact Hp2|].
    rewrite Hd2, Hd1, <- app_assoc, <- map_app. do 2 f_equal.
    destruct (Z.le_gt_cases (a + c) total) as [Hfull | Hshort].
    + replace (Z.min (a + c) total - a) with c by lia.
      rewrite <- zrange_app by nia. f_equal. nia.
    + assert (j = 0%nat) as -> by nia.
      rewrite (zrange_nil (a + c)) by lia. rewrite app_nil_r. f_equal. lia.
Qed.

Lemma py_range_chunks :
  py_range 0 total c = Some (chunks c 0 (Z.to_nat ((total + c - 1) / c))).
Proof.
  unfold py_range, chunks.
  replace (c =? 0) with false by (symmetry; apply Z.eqb_neq; lia).
  replace (0 <? c) with true by (symmetry; apply Z.ltb_lt; lia).
  now rewrite Z.sub_0_r.
Qed.

(** When every page renders, the chunks together cover the pages 0 to
    [total - 1]. *)
Lemma all_chunks (st : Creator) :
  total <= bound ->
  prefix st = prefix self ->
  exists st',
    for_each (chunks c 0 (Z.to_nat ((total + c - 1) / c)))
             (chunk_body env pdf_path base out vol total dpi c compression) st
    = (st', Some tt)
    /\ opt_data st'
       = (opt_data st ++ map (entry self vol n total) (zrange 0 total))%list.
Proof.
  intros Hb Hp.
  pose proof (Z.div_mod (total + c - 1) c ltac:(lia)) as Hdm.
  pose proof (Z.mod_pos_bound (total + c - 1) c Hc) as Hmod.
  set (d := (total + c - 1) / c) in *.
  destruct (chunk_loop (Z.to_nat d) 0 st) as (st' & Hrun & _ & Hd);
    [lia | exact Hp | intros Hq; split; [nia | lia] |].
  exists st'. split; [exact Hrun|]. rewrite Hd. do 2 f_equal.
  destruct (Z.le_gt_cases total 0) as [Hle | Hgt].
  - rewrite !zrange_nil; trivial; lia.
  - f_equal. assert (1 <= d) by nia. rewrite Z2Nat.id by lia. nia.
Qed.

(** When the chunk that starts at page [bound] fails to render, the
    loop ends there: the pages before it have their entries, no page
    from [bound] on has one. *)
Lemma chunks_until_failure (j : nat) (st : Creator) :
  bound = Z.of_nat j * c -> bound < total ->
  convert_from_path env pdf_path dpi (bound + 1) (Z.min (bound + c) total) = None ->
  prefix st = prefix self ->
  exists st',
    for_each (chunks c 0 (Z.to_nat ((total + c - 1) / c)))
             (chunk_body env pdf_path base out vol total dpi c compression) st
    = (st', None)
    /\ opt_data st'
       = (opt_data st ++ map (entry self vol n total) (zrange 0 bound))%list.
Proof.
  intros Hj Hlt Hfail Hp.
  pose proof (Z.div_mod (total + c - 1) c ltac:(lia)) as Hdm.
  pose proof (Z.mod_pos_bound (total + c - 1) c Hc) as Hmod.
  set (d := (total + c - 1) / c) in *.
  assert (Z.of_nat j < d) as Hjd by nia.
  replace (Z.to_nat d) with (j + S (Z.to_nat d - j - 1))%nat by lia.
  rewrite chunks_app, chunks_cons.
  destruct (chunk_loop j 0 st) as (s1 & Hrun & _ & Hd);
    [lia | exact Hp | intros Hq; split; nia |].
  exists s1. split.
  - apply (ExcFacts.for_each_stops _ _ _ _ st s1 s1 Hrun).
    unfold chunk_body, bind, lift.
    replace (0 + Z.of_nat j * c) with bound by lia. now rewrite Hfail.
  - rewrite Hd. do 3 f_equal. lia.
Qed.

End Expansion.

Lemma py_range_frames (k : Z) : py_range 0 k 1 = Some (zrange 0 k).
Proof.
  unfold py_range, zrange. cbn [Z.eqb Z.ltb Z.compare].
  rewrite Z.sub_0_r, Z.add_simpl_r, Z.div_1_r. f_equal.
  apply map_ext. intros t. lia.
Qed.

End PageFacts.

(** ** Splitting what was joined *)

Module SplitFacts.
Import PyStr PyStrFacts.

Lemma prefix_one (d c : ascii) (r : string) :
  String.prefix (String d "") (String c r) = Ascii.eqb c d.
Proof.
  cbn [String.prefix]. destruct (ascii_dec d c) as [->|N].
  - rewrite Ascii.eqb_refl. now destruct r.
  - symmetry. apply Ascii.eqb_neq. congruence.
Qed.

Lemma split_go_piece (d : ascii) (f rest cur : string) :
  mem_char d f = false ->
  split_go (String d "") 0 (f ++ rest) cur
  = split_go (String d "") 0 rest (rev_onto f cur).
Proof.
  revert cur. induction f as [|c r IH]; intros cur Hf; [reflexivity|].
  cbn [mem_char] in Hf. apply orb_false_iff in Hf as [Hc Hr].
  cbn [append split_go rev_onto]. rewrite prefix_one, Ascii.eqb_sym, Hc.
  now apply IH.
Qed.

Lemma split_go_sep (d : ascii) (rest cur : string) :
  split_go (String d "") 0 (String d rest) cur
  = rev cur :: split_go (String d "") 0 rest "".
Proof. cbn [split_go]. now rewrite prefix_one, Ascii.eqb_refl. Qed.

(** Splitting what [join] made on a one-character separator gives the
    pieces back, when no piece has the separator in it. *)
Lemma split_join (d : ascii) (f : string) (fs : list string) :
  Forall (fun x => mem_char d x = false) (f :: fs) ->
  split (join (String d "") (f :: fs)) (String d "") = Some (f :: fs).
Proof.
  unfold split, join. intros H. f_equal.
  revert f H. induction fs as [|g gs IH]; intros f H; inversion_clear H as [|? ? Hf Hfs].
  - cbn [concat]. rewrite <- (append_nil_r f) at 1.
    rewrite split_go_piece by exact Hf. cbn [split_go].
    fold (rev f). now rewrite rev_involutive.
  - cbn [concat]. rewrite split_go_piece by exact Hf.
    cbn [append]. rewrite split_go_sep. fold (rev f).
    rewrite rev_involutive. f_equal. now apply IH.
Qed.

Lemma mem_char_app (d : ascii) (a b : string) :
  mem_char d (a ++ b) = mem_char d a || mem_char d b.
Proof.
  induction a as [|c r IH]; [reflexivity|].
  cbn [append mem_char]. now rewrite IH, orb_assoc.
Qed.

Lemma mem_char_wrapped (d w : ascii) (x : string) :
  d <> w -> mem_char d x = false -> mem_char d (wrapped w x) = false.
Proof.
  intros Hdw Hx. unfold wrapped. cbn [mem_char].
  rewrite mem_char_app, Hx. cbn [mem_char].
  apply Ascii.eqb_neq in Hdw. now rewrite Hdw.
Qed.

End SplitFacts.

(** ** Bytes *)

Module CodecFacts.

Lemma code_range (c : ascii) : 0 <= PyStr.code c < 256.
Proof.
  unfold PyStr.code. pose proof (N_ascii_bounded c) as H. lia.
Qed.

Lemma chr_code (c : ascii) : ascii_of_N (Z.to_N (PyStr.code c)) = c.
Proof. unfold PyStr.code. rewrite N2Z.id. apply ascii_N_embedding. Qed.

(** What [encode] writes, strict UTF-8 decoding reads back. *)
Lemma decode_encode (s : string) : decode_utf8 (encode s) = Some s.
Proof.
  induction s as [|c r IH]; [reflexivity|].
  cbn [encode]. pose proof (code_range c) as Hc.
  destruct (PyStr.code c <? 128) eqn:E.
  - cbn [decode_utf8]. rewrite E, IH. cbn. now rewrite chr_code.
  - apply Z.ltb_ge in E. cbn [decode_utf8].
    assert (PyStr.code c / 64 = 2 \/ PyStr.code c / 64 = 3) as Hq.
    { assert (2 <= PyStr.code c / 64) by (apply Z.div_le_lower_bound; lia).
      assert (PyStr.code c / 64 < 4) by (apply Z.div_lt_upper_bound; lia). lia. }
    pose proof (Z.mod_pos_bound (PyStr.code c) 64 ltac:(lia)) as Hm.
    pose proof (Z.div_mod (PyStr.code c) 64 ltac:(lia)) as Hdm.
    replace (192 + PyStr.code c / 64 <? 128) with false by (symmetry; apply Z.ltb_ge; lia).
    replace ((192 + PyStr.code c / 64 =? 194) || (192 + PyStr.code c / 64 =? 195))
      with true
      by (symmetry; apply orb_true_iff; rewrite !Z.eqb_eq; lia).
    replace ((128 <=? 128 + PyStr.code c mod 64) && (128 + PyStr.code c mod 64 <? 192))
      with true
      by (symmetry; apply andb_true_iff; rewrite Z.leb_le, Z.ltb_lt; lia).
    rewrite IH. cbn [option_map]. do 2 f_equal.
    replace ((192 + PyStr.code c / 64 - 192) * 64 + (128 + PyStr.code c mod 64 - 128))
      with (PyStr.code c) by lia.
    apply chr_code.
Qed.

Lemma le_bytes_length (n : nat) (x : Z) : List.length (Md5.le_bytes n x) = n.
Proof. revert x. induction n as [|n IH]; intros x; cbn; [reflexivity | now rewrite IH]. Qed.

Lemma le_bytes_range (n : nat) (x : Z) :
  Forall (fun b => 0 <= b < 256) (Md5.le_bytes n x).
Proof.
  revert x. induction n as [|n IH]; intros x; cbn; constructor; [|apply IH].
  apply Z.mod_pos_bound. lia.
Qed.

Lemma hex_digit (d : Z) : 0 <= d < 16 -> is_lower_hex (PyStr.digit_char_hex d) = true.
Proof.
  intros H.
  assert (d = 0 \/ d = 1 \/ d = 2 \/ d = 3 \/ d = 4 \/ d = 5 \/ d = 6 \/ d = 7
          \/ d = 8 \/ d = 9 \/ d = 10 \/ d = 11 \/ d = 12 \/ d = 13 \/ d = 14
          \/ d = 15) as Hd by lia.
  repeat (destruct Hd as [->|Hd]; [reflexivity|]). now subst.
Qed.

Lemma hex_spec (bs : list Z) :
  Forall (fun b => 0 <= b < 256) bs ->
  String.length (Md5.hex bs) = (2 * List.length bs)%nat
  /\ PyStr.all_chars is_lower_hex (Md5.hex bs) = true.
Proof.
  induction 1 as [|b r Hb _ [IHl IHc]]; [split; reflexivity|].
  cbn [Md5.hex String.length List.length PyStr.all_chars]. split; [lia|].
  rewrite !hex_digit, IHc; [reflexivity | |].
  - apply Z.mod_pos_bound. lia.
  - split; [apply Z.div_pos; lia | apply Z.div_lt_upper_bound; lia].
Qed.

Lemma hexdigest_spec (msg : list Z) :
  String.length (Md5.hexdigest msg) = 32%nat
  /\ PyStr.all_chars is_lower_hex (Md5.hexdigest msg) = true.
Proof.
  unfold Md5.hexdigest, Md5.digest.
  destruct (fold_left Md5.block_step _ _) as [[[a b] c] d].
  assert (Forall (fun b => 0 <= b < 256)
            (Md5.le_bytes 4 a ++ Md5.le_bytes 4 b ++ Md5.le_bytes 4 c
             ++ Md5.le_bytes 4 d)) as Hr
    by (repeat (apply Forall_app; split); apply le_bytes_range).
  destruct (hex_spec _ Hr) as [Hl Hc]. split; [|exact Hc].
  rewrite Hl, !length_app, !le_bytes_length. reflexivity.
Qed.

End CodecFacts.

(** ** Reading back what was written *)

Module ReadbackFacts.
Import PyStr PyStrFacts.

Lemma universal_plain (s : string) :
  mem_char "013" s = false -> universal_newlines false s = s.
Proof.
  induction s as [|c r IH]; [reflexivity|]. cbn [mem_char universal_newlines].
  intros H. apply orb_false_iff in H as [Hc Hr].
  rewrite Ascii.eqb_sym, Hc, andb_false_r. now rewrite IH.
Qed.

Lemma readlines_go_line (l rest cur : string) :
  mem_char "010" l = false ->
  readlines_go (l ++ String "010" rest) cur
  = (rev cur ++ l ++ newline) :: readlines_go rest "".
Proof.
  revert cur. induction l as [|c r IH]; intros cur Hl.
  - cbn [append readlines_go]. change (Ascii.eqb "010" "010") with true.
    cbv iota. now rewrite rev_cons.
  - cbn [mem_char] in Hl. apply orb_false_iff in Hl as [Hc Hr].
    cbn [append readlines_go]. rewrite Ascii.eqb_sym, Hc.
    rewrite (IH _ Hr), rev_cons, append_assoc. reflexivity.
Qed.

Lemma concat_cons (x : string) (xs : list string) :
  String.concat "" (x :: xs) = x ++ String.concat "" xs.
Proof.
  destruct xs as [|y ys]; cbn [concat]; [now rewrite append_nil_r | reflexivity].
Qed.

(** Reading back the lines of a text written line by line. *)
Lemma readlines_written (ls : list string) :
  Forall (fun l => mem_char "010" l = false) ls ->
  readlines (String.concat "" (map (fun l => l ++ newline) ls))
  = map (fun l => l ++ newline) ls.
Proof.
  unfold readlines. induction 1 as [|l r Hl _ IH]; [reflexivity|].
  cbn [map]. rewrite concat_cons, append_assoc. unfold newline at 1.
  cbn [append]. rewrite (readlines_go_line l _ "" Hl). cbn [rev rev_onto append].
  now rewrite IH.
Qed.

Lemma mem_char_concat (c : ascii) (d : string) (l : list string) :
  mem_char c d = false -> Forall (fun x => mem_char c x = false) l ->
  mem_char c (String.concat d l) = false.
Proof.
  intros Hd. induction 1 as [|x r Hx Hr IH]; [reflexivity|].
  destruct r as [|y r']; [exact Hx|].
  change (String.concat d (x :: y :: r'))
    with (x ++ d ++ String.concat d (y :: r')).
  now rewrite !SplitFacts.mem_char_app, Hx, Hd, IH.
Qed.

(** A character that is neither the delimiter nor the wrapper and is in
    no column name and in no field text is in no line. *)
Lemma rows_free (c delim wrap : ascii) (self : Creator) :
  c <> delim -> c <> wrap ->
  forallb (fun x => negb (mem_char c x)) cols = true ->
  (forall doc x, In doc (docs self) -> In x cols ->
     mem_char c (field_text doc x) = false) ->
  Forall (fun l => mem_char c l = false) (loadfile_lines self delim wrap).
Proof.
  intros Hd Hw Hcols Hvals.
  assert (mem_char c (String delim "") = false) as Hsep.
  { cbn [mem_char]. rewrite orb_false_r. now apply Ascii.eqb_neq. }
  rewrite forallb_forall in Hcols.
  unfold loadfile_lines. constructor.
  - unfold header_line, join. apply mem_char_concat; [exact Hsep|].
    apply Forall_map, Forall_forall. intros x Hx.
    apply SplitFacts.mem_char_wrapped; [exact Hw|].
    apply negb_true_iff. now apply Hcols.
  - apply Forall_map, Forall_forall. intros doc Hdoc.
    unfold record_line, join. apply mem_char_concat; [exact Hsep|].
    apply Forall_map, Forall_forall. intros x Hx.
    apply SplitFacts.mem_char_wrapped; [exact Hw|]. now apply Hvals.
Qed.

(** The text written has no carriage return when no line has one. *)
Lemma written_free (ls : list string) :
  Forall (fun l => mem_char "013" l = false) ls ->
  mem_char "013" (String.concat "" (map (fun l => l ++ newline) ls)) = false.
Proof.
  intros H. apply mem_char_concat; [reflexivity|]. apply Forall_map.
  eapply Forall_impl; [|exact H].
  intros l Hl. cbn beta. now rewrite SplitFacts.mem_char_app, Hl.
Qed.

(** What [write_loadfile] leaves when it returns. *)
Lemma written (can_write : string -> bool) (self : Creator)
    (cfg : LoadfileConfig) (out vol : string) (fs fs' : FS) (delim wrap : ascii) :
  config_char (delimiter cfg) "0x14" = Some delim ->
  config_char (wrapper cfg) "0xFE" = Some wrap ->
  write_loadfile can_write self cfg out vol fs = Some fs' ->
  can_write (loadfile_path out vol) = true
  /\ exists bytes,
       encode_with (match encoding cfg with Some e => e | None => utf_8 end)
         (String.concat "" (map (fun l => l ++ newline)
                                (loadfile_lines self delim wrap)))
       = Some bytes
       /\ fs' = Dict.set fs (loadfile_path out vol) bytes.
Proof.
  intros Hd Hw. unfold write_loadfile. rewrite Hd, Hw.
  destruct (can_write (loadfile_path out vol)); [|discriminate].
  destruct (encode_with _ _) as [bytes|]; [|discriminate].
  intros [= <-]. split; [reflexivity|]. now exists bytes.
Qed.

End ReadbackFacts.

(** ** The width of a formatted integer *)

Module WidthFacts.
Import PyStr PyStrFacts.

Lemma length_app (a b : string) :
  String.length (a ++ b) = (String.length a + String.length b)%nat.
Proof. induction a as [|c r IH]; cbn; [reflexivity | now rewrite IH]. Qed.

Lemma repeat_length (c : ascii) (n : nat) : String.length (repeat_char c n) = n.
Proof. induction n as [|n IH]; cbn; [reflexivity | now rewrite IH]. Qed.

(** A run of [len] digits read from [acc] gives a number between
    [acc * 10^len] and [(acc + 1) * 10^len]. *)
Lemma dec_val_bound (s : string) :
  all_chars is_digit s = true ->
  forall acc, 0 <= acc ->
    acc * 10 ^ len s <= dec_val acc s < (acc + 1) * 10 ^ len s.
Proof.
  unfold len. induction s as [|c r IH]; intros Hs acc Hacc.
  - cbn. lia.
  - cbn [all_chars] in Hs. apply andb_prop in Hs as [Hc Hr].
    cbn [dec_val String.length]. rewrite Nat2Z.inj_succ, Z.pow_succ_r by lia.
    assert (0 <= code c - 48 <= 9) as Hd.
    { unfold is_digit in Hc. apply andb_prop in Hc as [H1 H2].
      apply Z.leb_le in H1, H2. lia. }
    specialize (IH Hr (10 * acc + (code c - 48)) ltac:(lia)).
    assert (0 < 10 ^ Z.of_nat (String.length r)) by (apply Z.pow_pos_nonneg; lia).
    nia.
Qed.

Lemma digits_fuel_S (f : nat) (n : Z) :
  digits_fuel (S f) n
  = if n <? 10 then String (digit_char n) ""
    else digits_fuel f (n / 10) ++ String (digit_char (n mod 10)) "".
Proof. reflexivity. Qed.

Lemma digits_fuel_length (f : nat) :
  forall n k, 0 <= n < 10 ^ Z.of_nat (S k) -> n < 2 ^ Z.of_nat (S f) ->
    (String.length (digits_fuel (S f) n) <= S k)%nat.
Proof.
  induction f as [|f IH]; intros n k Hn Hf; rewrite digits_fuel_S;
    destruct (n <? 10) eqn:E; try (cbn [String.length]; lia).
  apply Z.ltb_ge in E.
  destruct k as [|k]; [change (10 ^ Z.of_nat 1) with 10 in Hn; lia|].
  rewrite length_app. cbn [String.length].
  assert (String.length (digits_fuel (S f) (n / 10)) <= S k)%nat; [|lia].
  apply IH.
  - split; [apply Z.div_pos; lia|].
    rewrite (Nat2Z.inj_succ (S k)), Z.pow_succ_r in Hn by lia.
    apply Z.div_lt_upper_bound; lia.
  - rewrite (Nat2Z.inj_succ (S f)), Z.pow_succ_r in Hf by lia.
    apply Z.div_lt_upper_bound; lia.
Qed.

Lemma digits_length_le (n : Z) (k : nat) :
  0 <= n < 10 ^ Z.of_nat (S k) -> (String.length (digits n) <= S k)%nat.
Proof.
  intros Hn. apply digits_fuel_length; [exact Hn|].
  rewrite Nat2Z.inj_succ, Z2Nat.id by apply Z.log2_nonneg.
  destruct (Z.eq_dec n 0) as [-> | Hz]; [reflexivity|].
  apply Z.log2_spec. lia.
Qed.

Lemma digits_length_gt (n : Z) (k : nat) :
  10 ^ Z.of_nat k <= n -> (k < String.length (digits n))%nat.
Proof.
  intros Hn.
  assert (0 <= n) as H0 by (pose proof (Z.pow_pos_nonneg 10 (Z.of_nat k)); lia).
  destruct (digits_spec n H0) as (Ha & Hv & _).
  pose proof (dec_val_bound _ Ha 0 ltac:(lia)) as Hb. rewrite Hv in Hb.
  unfold len in Hb.
  destruct (Nat.lt_ge_cases k (String.length (digits n))) as [|Hle]; [assumption|].
  assert (10 ^ Z.of_nat (String.length (digits n)) <= 10 ^ Z.of_nat k)
    by (apply Z.pow_le_mono_r; lia).
  lia.
Qed.

(** The text of a non-negative integer padded to a width of [S k]: as
    wide as that when the integer has at most [S k] digits, wider when
    it has more. *)
Lemma format_0d_width (k : nat) (v : Z) :
  0 <= v ->
  all_chars is_digit (format_0d (Z.of_nat (S k)) v) = true
  /\ (v < 10 ^ Z.of_nat (S k) ->
      String.length (format_0d (Z.of_nat (S k)) v) = S k)
  /\ (10 ^ Z.of_nat (S k) <= v ->
      (S k < String.length (format_0d (Z.of_nat (S k)) v))%nat).
Proof.
  intros Hv. unfold format_0d.
  replace (v <? 0) with false by (symmetry; apply Z.ltb_ge; lia).
  split; [now apply zfill_digits|].
  unfold zfill, len. rewrite length_app, repeat_length. split.
  - intros Hlt. pose proof (digits_length_le v k ltac:(lia)). lia.
  - intros Hge. pose proof (digits_length_gt v (S k) Hge). lia.
Qed.

End WidthFacts.

(** ** Email families *)

Module FamilyFacts.

Lemma get_in {V : Type} (d : Dict.t V) (k : string) (v : V) :
  Dict.get d k = Some v -> In (k, v) d.
Proof.
  induction d as [|[k' v'] r IH]; cbn [Dict.get]; [discriminate|].
  destruct (String.eqb k' k) eqn:E.
  - apply String.eqb_eq in E. subst k'. intros H. injection H as ->. now left.
  - intros H. right. now apply IH.
Qed.

Lemma in_set {V : Type} (d : Dict.t V) (K k : string) (v x : V) :
  In (k, x) (Dict.set d K v) -> (k = K /\ x = v) \/ In (k, x) d.
Proof.
  induction d as [|[k' v'] r IH]; cbn [Dict.set].
  - intros [H|[]]. injection H as <- <-. now left.
  - destruct (String.eqb k' K) eqn:E.
    + apply String.eqb_eq in E. subst k'.
      intros [H|H]; [injection H as <- <-; now left | right; now right].
    + intros [H|H]; [right; now left|].
      destruct (IH H) as [?|?]; [now left | right; now right].
Qed.

Lemma in_list_iff (x : string) (l : list string) : in_list x l = true <-> In x l.
Proof.
  unfold in_list. rewrite existsb_exists. split.
  - intros (y & Hy & E). apply String.eqb_eq in E. now subst.
  - intros H. exists x. split; [exact H | apply String.eqb_refl].
Qed.

Section Grouping.
Variable env : Env.

Lemma group_step_keyed (d : Dict.t (list string)) (fname : string) :
  keyed env d -> keyed env (group_step env d fname).
Proof.
  intros Hd. unfold group_step. destruct (is_email fname); [|exact Hd].
  intros k l f Hin Hf. unfold family_append in Hin.
  apply in_set in Hin as [[-> ->]|Hin]; [|now apply (Hd k l)].
  apply in_app_or in Hf as [Hf|[<-|[]]]; [|reflexivity].
  unfold Dict.get_default in Hf.
  destruct (Dict.get d (family_key_of env fname)) as [l|] eqn:E; [|destruct Hf].
  apply get_in in E. now apply (Hd _ l).
Qed.

Lemma group_step_filed (d : Dict.t (list string)) (fname f : string) :
  filed env d f -> filed env (group_step env d fname) f.
Proof.
  intros (l & Hl & Hf). unfold group_step.
  destruct (is_email fname); [|now exists l].
  unfold family_append, filed.
  destruct (String.eqb (family_key_of env fname) (family_key_of env f)) eqn:E.
  - apply String.eqb_eq in E. rewrite <- E, DictFacts.get_set_same.
    eexists. split; [reflexivity|]. apply in_or_app. left.
    unfold Dict.get_default. rewrite E, Hl. exact Hf.
  - apply String.eqb_neq in E. rewrite DictFacts.get_set_other by exact E.
    now exists l.
Qed.

Lemma group_step_files (d : Dict.t (list string)) (fname : string) :
  is_email fname = true -> filed env (group_step env d fname) fname.
Proof.
  intros He. unfold group_step, family_append, filed. rewrite He.
  rewrite DictFacts.get_set_same. eexists. split; [reflexivity|].
  apply in_or_app. right. now left.
Qed.

Lemma group_fold (files : list string) :
  forall d, keyed env d ->
    keyed env (fold_left (group_step env) files d)
    /\ (forall f, filed env d f -> filed env (fold_left (group_step env) files d) f)
    /\ (forall f, In f files -> is_email f = true ->
          filed env (fold_left (group_step env) files d) f).
Proof.
  induction files as [|x r IH]; intros d Hd; cbn [fold_left].
  - split; [exact Hd|]. split; [trivial | intros f []].
  - destruct (IH (group_step env d x) (group_step_keyed d x Hd)) as (Hk & Hkeep & Hnew).
    split; [exact Hk|]. split.
    + intros f Hf. apply Hkeep. now apply group_step_filed.
    + intros f [<-|Hf] He; [|now apply Hnew].
      apply Hkeep. now apply group_step_files.
Qed.

Lemma family_id_of_the_key (d : Dict.t (list string)) (f K : string) :
  (forall k l, In (k, l) d -> In f l -> k = K) ->
  (exists l, In (K, l) d /\ In f l) ->
  family_id_of d f = Some K.
Proof.
  induction d as [|[k l] r IH]; intros Huniq (l0 & Hin & Hf); [destruct Hin|].
  cbn [family_id_of]. destruct (in_list f l) eqn:E.
  - apply in_list_iff in E. f_equal. apply (Huniq k l); [now left | exact E].
  - apply IH.
    + intros k' l' H' Hf'. apply (Huniq k' l'); [now right | exact Hf'].
    + destruct Hin as [H|H]; [|now exists l0].
      injection H as -> ->. apply in_list_iff in Hf. congruence.
Qed.

(** Every email file is submitted with the key it is filed under, and
    it is in no list of another key. *)
Lemma grouped (all_files : list string) (f : string) :
  In f all_files -> is_email f = true ->
  family_id_of (_group_email_files env all_files) f = Some (family_key_of env f)
  /\ (forall k l, In (k, l) (_group_email_files env all_files) -> In f l ->
        k = family_key_of env f).
Proof.
  intros Hf He.
  destruct (group_fold all_files []) as (Hk & _ & Hnew); [intros k l x []|].
  change (fold_left (group_step env) all_files []) with (_group_email_files env all_files)
    in Hk, Hnew.
  assert (forall k l, In (k, l) (_group_email_files env all_files) -> In f l ->
            k = family_key_of env f) as Huniq
    by (intros k l Hin Hfl; symmetry; now apply (Hk k l)).
  split; [|exact Huniq].
  apply family_id_of_the_key; [exact Huniq|].
  destruct (Hnew f Hf He) as (l & Hl & Hfl). exists l. split; [|exact Hfl].
  now apply get_in.
Qed.

Lemma thread_key (f t : string) (p : parsed) (md : Dict.t mvalue) :
  from_file env f 30 = Some p -> metadata p = Some md ->
  Dict.get md "Thread-Index" = Some (MStr t) -> t <> "" ->
  family_key_of env f = family_token "EMAIL_THREAD_" (hash env t).
Proof.
  intros Hp Hmd Ht Hne. unfold family_key_of, email_family_key.
  rewrite Hp, Hmd.
  assert (forall dflt, Dict.get_default md "Thread-Index" dflt = MStr t) as Hth
    by (intros dflt; unfold Dict.get_default; now rewrite Ht).
  rewrite !Hth. unfold mtruthy, to_value, truthy.
  apply String.eqb_neq in Hne. rewrite Hne. reflexivity.
Qed.

End Grouping.

End FamilyFacts.

(** The object a call of [process_files] leaves is the one the tasks
    leave. *)
Lemma process_files_state (env : Env) (self : Creator) (cfg : ProcessingConfig)
    (input_dir output_dir volume : string)
    (order : list (string * option string)) :
  fst (process_files env self cfg input_dir output_dir volume order)
  = fst (run_tasks env
           (snd (fst (prepare env self cfg input_dir output_dir volume)))
           order self).
Proof.
  unfold process_files. cbn [prepare fst snd].
  now destruct (run_tasks env _ order self).
Qed.

(* ================================================================== *)
(** * The claims *)

Ltac nodup_strings :=
  repeat constructor; cbn [In]; intuition discriminate.

(** ** C1: the Bates pre-assignment *)

Lemma map_by_index {A B : Type} (f : A -> B) (g : nat -> B) (d : A) (l : list A) :
  (forall i, (i < List.length l)%nat -> f (nth i l d) = g i) ->
  map f l = map g (seq 0 (List.length l)).
Proof.
  revert g. induction l as [|a r IH]; intros g H; [reflexivity|].
  cbn [List.length seq map]. f_equal; [apply (H 0%nat); cbn; lia|].
  rewrite <- seq_shift, map_map. apply IH.
  intros i Hi. apply (H (S i)). cbn. lia.
Qed.

Lemma tasks_files (env : Env) (self : Creator) (cfg : ProcessingConfig)
    (input_dir output_dir volume : string) :
  map fst (snd (prepare env self cfg input_dir output_dir volume)) =
  collect_files (isfile env) (glob env input_dir).
Proof.
  cbn [prepare snd]. rewrite map_map. cbn [fst]. apply map_id.
Qed.

(** C1.  The assignment computed by [process_files] before the pool
    starts is defined on every file of the sorted list and gives the
    [i]-th file the Bates number made from [start + i]; it is
    injective.  The sorted list is the regular files of the listing
    whose name does not end in [.jar], in non-decreasing order of the
    lower-cased base name ([os.path.basename(x).lower()], compared as
    strings), the files of one lower-cased base name staying in the
    order of the listing.  The numbers of the Bates numbers, read back
    the way the page expanders read them, are exactly
    [start, ..., start+N-1] in list order (for a prefix that does not
    itself start with a digit or a minus sign).  Whatever the order in
    which the tasks complete, a task that succeeds reports the number
    assigned to its file, and two orders publish the same
    (file name, Bates number) pairs and return the same results. *)
Theorem bates_preassignment
    (env : Env) (self : Creator) (cfg : ProcessingConfig)
    (input_dir output_dir volume : string) :
  NoDup (glob env input_dir) ->
  let all_files := collect_files (isfile env) (glob env input_dir) in
  let N := List.length all_files in
  let cl := snd (fst (prepare env self cfg input_dir output_dir volume)) in
  let tasks := snd (prepare env self cfg input_dir output_dir volume) in
  let assignments := bates_assignments_of cl in
  Permutation
    (filter (fun fname => isfile env fname && negb (PyStr.endswith fname ".jar"))
            (glob env input_dir))
    all_files
  /\ StronglySorted
       (fun a b => String.leb (PyStr.lower (Path.basename a))
                              (PyStr.lower (Path.basename b)) = true)
       all_files
  /\ (forall k,
        filter (fun f => String.eqb (PyStr.lower (Path.basename f)) k) all_files
        = filter (fun f => String.eqb (PyStr.lower (Path.basename f)) k)
            (filter (fun fname => isfile env fname
                                  && negb (PyStr.endswith fname ".jar"))
                    (glob env input_dir)))
  /\ (forall i, (i < N)%nat ->
        Dict.get assignments (nth i all_files "") =
        Some (get_bates (prefix self) (start_value self + Z.of_nat i) default_ndigit))
  /\ (forall f g, In f all_files -> In g all_files ->
        Dict.get assignments f = Dict.get assignments g -> f = g)
  /\ map (get_bates_for_file self assignments (bates_counter cl)) all_files
     = map (fun i => get_bates (prefix self) (start_value self + Z.of_nat i)
                               default_ndigit)
           (seq 0 N)
  /\ (plain_prefix (prefix self) = true ->
      map (fun f => bates_number (prefix self)
                      (get_bates_for_file self assignments (bates_counter cl) f))
          all_files
      = map (fun i => Some (start_value self + Z.of_nat i)) (seq 0 N))
  /\ (forall order fname b,
        Permutation tasks order ->
        In (fname, Success b) (snd (run_tasks env cl order self)) ->
        Dict.get assignments fname = Some b)
  /\ (forall order1 order2,
        Permutation tasks order1 -> Permutation tasks order2 ->
        Permutation (map record_key (docs (fst (run_tasks env cl order1 self))))
                    (map record_key (docs (fst (run_tasks env cl order2 self))))
        /\ Permutation (snd (run_tasks env cl order1 self))
                       (snd (run_tasks env cl order2 self))).
Proof.
  intros Hnd all_files N cl tasks assignments.
  assert (NoDup all_files) as Hnd' by now apply AssignFacts.collect_files_nodup.
  assert (forall i, (i < N)%nat ->
            Dict.get assignments (nth i all_files "") =
            Some (get_bates (prefix self) (start_value self + Z.of_nat i)
                            default_ndigit)) as Hnth
    by (intros i Hi; now apply AssignFacts.assigned_nth).
  assert (map (get_bates_for_file self assignments (bates_counter cl)) all_files
          = map (fun i => get_bates (prefix self) (start_value self + Z.of_nat i)
                                    default_ndigit) (seq 0 N)) as Hlist.
  { apply (map_by_index _ _ ""). intros i Hi.
    unfold get_bates_for_file, Dict.get_default. now rewrite Hnth. }
  split; [apply AssignFacts.collect_files_perm|].
  split; [exact (SortFacts.sort_by_sorted sort_key _)|].
  split; [intros k; exact (SortFacts.sort_by_stable sort_key k _)|].
  split; [exact Hnth|].
  split; [intros f g; now apply AssignFacts.assigned_inj|].
  split; [exact Hlist|].
  split.
  { intros Hplain.
    rewrite <- (map_map (get_bates_for_file self assignments (bates_counter cl))
                        (bates_number (prefix self))).
    rewrite Hlist, map_map. apply map_ext. intros i.
    now apply bates_number_get_bates. }
  split.
  - intros order fname b Hperm Hin.
    pose proof (OrderFacts.run_tasks_spec env cl self order self eq_refl) as H.
    destruct (run_tasks env cl order self) as [s results].
    destruct H as (_ & -> & _). cbn [snd] in Hin.
    apply in_map_iff in Hin as ([f fam] & Heq & Hfi).
    cbn [fst] in Heq. injection Heq as -> Hsolo.
    assert (In fname all_files) as Hfile.
    { apply (Permutation_in _ (Permutation_sym Hperm)) in Hfi.
      apply (in_map fst) in Hfi. cbn [fst] in Hfi.
      subst tasks. now rewrite tasks_files in Hfi. }
    pose proof (TaskFacts.process_single_file_post env cl fname fam self) as Hpost.
    cbv zeta in Hpost. unfold solo in Hsolo.
    destruct (process_single_file env cl (fname, fam) self) as [s1 r1].
    cbn [snd] in Hsolo. subst r1. destruct Hpost as (_ & -> & _).
    destruct (In_nth _ _ "" Hfile) as (i & Hi & <-).
    unfold get_bates_for_file, Dict.get_default.
    fold assignments. now rewrite Hnth.
  - intros order1 order2 H1 H2.
    assert (Permutation order1 order2) as H12
      by (etransitivity; [symmetry; exact H1 | exact H2]).
    pose proof (OrderFacts.run_tasks_spec env cl self order1 self eq_refl) as R1.
    pose proof (OrderFacts.run_tasks_spec env cl self order2 self eq_refl) as R2.
    destruct (run_tasks env cl order1 self) as [s1 res1].
    destruct (run_tasks env cl order2 self) as [s2 res2].
    cbn [fst snd].
    destruct R1 as (_ & -> & new1 & -> & K1 & _).
    destruct R2 as (_ & -> & new2 & -> & K2 & _).
    split.
    + rewrite !map_app, K1, K2. apply Permutation_app_head.
      now apply Permutation_flat_map.
    + now apply Permutation_map.
Qed.

Lemma bates_preassignment_witness :
  NoDup (glob mixed_env "in")
  /\ collect_files (isfile mixed_env) (glob mixed_env "in")
     = ["in/a.eml"; "in/z/b.TXT"; "in/sub/B.txt"; "in/C.pdf"]
  /\ map (get_bates_for_file init
            (bates_assignments init
               (collect_files (isfile mixed_env) (glob mixed_env "in")))
            (start_value init))
         (collect_files (isfile mixed_env) (glob mixed_env "in"))
     = ["PL_WEATHERFORD00008378"; "PL_WEATHERFORD00008379";
        "PL_WEATHERFORD00008380"; "PL_WEATHERFORD00008381"]
  /\ map (fun f => bates_number (prefix init)
                     (get_bates_for_file init
                        (bates_assignments init
                           (collect_files (isfile mixed_env) (glob mixed_env "in")))
                        (start_value init) f))
         (collect_files (isfile mixed_env) (glob mixed_env "in"))
     = [Some 8378; Some 8379; Some 8380; Some 8381].
Proof.
  assert (NoDup (glob mixed_env "in")) as Hnd by (cbn; nodup_strings).
  split; [exact Hnd|]. split; [vm_compute; reflexivity|].
  destruct (bates_preassignment mixed_env init demo_config "in" "out" "VOL" Hnd)
    as (_ & _ & _ & _ & _ & H & Hread & _).
  split.
  - etransitivity; [exact H | vm_compute; reflexivity].
  - etransitivity; [exact (Hread eq_refl) | vm_compute; reflexivity].
Defined.

(** ** C2: HashValue *)

(** Every record the run publishes carries the MD5 of the path of its
    file: the field is a function of the name alone. *)
Lemma hash_value_of_path
    (env : Env) (self : Creator) (cfg : ProcessingConfig)
    (input_dir output_dir volume : string)
    (order : list (string * option string)) :
  let s := fst (process_files env self cfg input_dir output_dir volume order) in
  exists new,
    docs s = (docs self ++ new)%list
    /\ Forall (fun doc => exists fname,
                 field doc "Filename" = VStr (Path.basename fname)
                 /\ field doc "HashValue" = VStr (Md5.hexdigest (encode fname)))
              new.
Proof.
  rewrite process_files_state. cbn [prepare fst snd].
  match goal with |- context [run_tasks env ?c order self] => set (cl := c) end.
  pose proof (OrderFacts.run_tasks_spec env cl self order self eq_refl) as H.
  destruct (run_tasks env cl order self) as [s results]. cbn [fst].
  destruct H as (_ & _ & new & Hdocs & _ & Hall).
  exists new. split; [exact Hdocs|].
  eapply Forall_impl; [|exact Hall].
  intros doc (fname & B & _ & _ & HH & HF). eauto.
Qed.

(** C2, at the failing input.  In the small volume [in/a.eml] and
    [in/c.txt] hold the same bytes, yet their records carry different
    HashValues, each the MD5 of the path; the MD5 of the bytes, which
    [_calculate_file_hash] computes, is a third value. *)
Theorem hash_value_ignores_contents :
  read_bytes demo_env "in/a.eml" = read_bytes demo_env "in/c.txt"
  /\ map (fun doc => (field doc "Filename", field doc "HashValue")) (docs demo_run)
     = [ (VStr "a.eml", VStr "a6374807d29c3a87f37dc94a78be01a3");
         (VStr "b.pdf", VStr "5169155d850a2237179195b7b7854a0d");
         (VStr "c.txt", VStr "599d6d78df412ee4b30993badf32d278") ]
  /\ Md5.hexdigest (encode "in/a.eml") = "a6374807d29c3a87f37dc94a78be01a3"
  /\ Md5.hexdigest (encode "in/c.txt") = "599d6d78df412ee4b30993badf32d278"
  /\ _calculate_file_hash demo_env "in/a.eml"
     = Some "5d41402abc4b2a76b9719d911017c592"
  /\ _calculate_file_hash demo_env "in/c.txt"
     = Some "5d41402abc4b2a76b9719d911017c592".
Proof. repeat split; vm_compute; reflexivity. Qed.

(** ** C3: the loadfile *)

Lemma field_text_missing (doc : Dict.t value) (c : string) :
  Dict.get doc c = None \/ Dict.get doc c = Some VNone -> field_text doc c = "".
Proof.
  unfold field_text, Dict.get_default. now intros [-> | ->].
Qed.

(** C3, as amended.  When [write_loadfile] writes the file, what it
    writes is the encoding of a text made of the header and of one row
    per record, in the order of the records, each followed by a line
    feed; the header is the 39 column names and a row is the 39 field
    texts of its record in the order of the columns, each enclosed in
    the wrapper, joined by the delimiter; a missing or [None] value
    gives the empty wrapped field.  When neither the delimiter nor the
    wrapper is a line feed or a carriage return and no field text has
    one, cutting the text after its line feeds gives the header line
    and one line per record, and a UTF-8 file reads back as that text.
    When the delimiter is not the wrapper and occurs in no column name
    and in no field text, splitting the header on the delimiter gives
    the 39 wrapped column names in order, and splitting the row of a
    record gives its 39 wrapped field texts in the same order. *)
Theorem loadfile_rows_have_39_wrapped_fields
    (can_write : string -> bool) (self : Creator) (cfg : LoadfileConfig)
    (out vol : string) (fs fs' : FS) (delim wrap : ascii) :
  config_char (delimiter cfg) "0x14" = Some delim ->
  config_char (wrapper cfg) "0xFE" = Some wrap ->
  write_loadfile can_write self cfg out vol fs = Some fs' ->
  let enc := match encoding cfg with Some e => e | None => utf_8 end in
  let field := fun x => String wrap "" ++ x ++ String wrap "" in
  let header := PyStr.join (String delim "") (map field cols) in
  let row := fun doc =>
    PyStr.join (String delim "") (map (fun c => field (field_text doc c)) cols) in
  let rows := header :: map row (docs self) in
  let text := String.concat "" (map (fun l => l ++ newline) rows) in
  List.length cols = 39%nat
  /\ (exists bytes,
        encode_with enc text = Some bytes
        /\ fs' = Dict.set fs (loadfile_path out vol) bytes)
  /\ (forall doc c,
        Dict.get doc c = None \/ Dict.get doc c = Some VNone ->
        field (field_text doc c) = String wrap (String wrap ""))
  /\ (delim <> "010"%char -> delim <> "013"%char ->
      wrap <> "010"%char -> wrap <> "013"%char ->
      (forall doc c, In doc (docs self) -> In c cols ->
         PyStr.mem_char "010" (field_text doc c) = false
         /\ PyStr.mem_char "013" (field_text doc c) = false) ->
      readlines text = map (fun l => l ++ newline) rows
      /\ List.length (readlines text) = S (List.length (docs self))
      /\ (enc = utf_8 -> read_text fs' (loadfile_path out vol) = Some text))
  /\ (delim <> wrap ->
      forallb (fun c => negb (PyStr.mem_char delim c)) cols = true ->
      (forall doc c, In doc (docs self) -> In c cols ->
         PyStr.mem_char delim (field_text doc c) = false) ->
      PyStr.split header (String delim "") = Some (map field cols)
      /\ forall doc, In doc (docs self) ->
           PyStr.split (row doc) (String delim "")
           = Some (map (fun c => field (field_text doc c)) cols)
           /\ List.length (map (fun c => field (field_text doc c)) cols) = 39%nat).
Proof.
  intros Hd Hw Hwrite enc field header row rows text.
  assert (rows = loadfile_lines self delim wrap) as Hrows by reflexivity.
  destruct (ReadbackFacts.written can_write self cfg out vol fs fs' delim wrap
              Hd Hw Hwrite) as (_ & bytes & Hbytes & Hfs).
  split; [reflexivity|]. split; [now exists bytes|]. split.
  { intros doc c H. unfold field. now rewrite (field_text_missing doc c H). }
  split.
  - intros Hdn Hdr Hwn Hwr Hvals.
    assert (forall c, c <> delim -> c <> wrap ->
              forallb (fun x => negb (PyStr.mem_char c x)) cols = true ->
              (forall doc x, In doc (docs self) -> In x cols ->
                 PyStr.mem_char c (field_text doc x) = false) ->
              Forall (fun l => PyStr.mem_char c l = false) rows) as Hfree.
    { intros c H1 H2 H3 H4. rewrite Hrows. now apply ReadbackFacts.rows_free. }
    assert (readlines text = map (fun l => l ++ newline) rows) as Hlines.
    { apply ReadbackFacts.readlines_written.
      apply (Hfree "010"%char); [congruence | congruence | reflexivity |].
      intros doc x Hdoc Hx. apply (Hvals doc x Hdoc Hx). }
    split; [exact Hlines|]. split.
    + rewrite Hlines. unfold rows. cbn [map List.length]. now rewrite !length_map.
    + intros Henc. rewrite Hfs. unfold read_text.
      rewrite DictFacts.get_set_same.
      fold enc in Hbytes. rewrite Henc in Hbytes. injection Hbytes as <-.
      change (String.concat "" (map (fun l => l ++ newline)
                                    (loadfile_lines self delim wrap))) with text.
      rewrite CodecFacts.decode_encode. cbn [option_map]. f_equal.
      apply ReadbackFacts.universal_plain, ReadbackFacts.written_free.
      apply (Hfree "013"%char); [congruence | congruence | reflexivity |].
      intros doc x Hdoc Hx. apply (Hvals doc x Hdoc Hx).
  - intros Hdw Hcols Hvals. split.
    + change (map field cols)
        with (wrapped wrap "BegBates" :: map (wrapped wrap) (tl cols)).
      apply SplitFacts.split_join.
      change (wrapped wrap "BegBates" :: map (wrapped wrap) (tl cols))
        with (map (wrapped wrap) cols).
      apply Forall_map, Forall_forall. intros c Hc.
      apply SplitFacts.mem_char_wrapped; [exact Hdw|].
      rewrite forallb_forall in Hcols. apply negb_true_iff. now apply Hcols.
    + intros doc Hdoc. split; [|now rewrite length_map].
      change (map (fun c => field (field_text doc c)) cols) with
        (wrapped wrap (field_text doc "BegBates")
         :: map (fun c => wrapped wrap (field_text doc c)) (tl cols)).
      apply SplitFacts.split_join.
      change (wrapped wrap (field_text doc "BegBates")
              :: map (fun c => wrapped wrap (field_text doc c)) (tl cols))
        with (map (fun c => wrapped wrap (field_text doc c)) cols).
      apply Forall_map, Forall_forall. intros c Hc.
      apply SplitFacts.mem_char_wrapped; [exact Hdw | now apply Hvals].
Qed.

Lemma loadfile_rows_witness :
  config_char (delimiter default_loadfile_config) "0x14" = Some "020"%char
  /\ config_char (wrapper default_loadfile_config) "0xFE" = Some "254"%char
  /\ (exists fs',
        write_loadfile (fun _ => true) demo_run default_loadfile_config
                       "out" "VOL" [] = Some fs'
        /\ option_map (fun text => List.length (readlines text))
                      (read_text fs' (loadfile_path "out" "VOL"))
           = Some 4%nat)
  /\ map (fun doc => option_map (@List.length string)
                       (PyStr.split (record_line "020" "254" doc)
                                    (String "020" "")))
         (docs demo_run)
     = [Some 39%nat; Some 39%nat; Some 39%nat].
Proof.
  split; [reflexivity|]. split; [reflexivity|].
  assert (forall c : ascii,
            forallb (fun d => forallb (fun k => negb (PyStr.mem_char c (field_text d k)))
                                      cols) (docs demo_run) = true ->
            forall doc x, In doc (docs demo_run) -> In x cols ->
              PyStr.mem_char c (field_text doc x) = false) as Hvals.
  { intros c Hall doc x Hdoc Hx.
    rewrite forallb_forall in Hall. specialize (Hall doc Hdoc).
    rewrite forallb_forall in Hall. apply negb_true_iff. now apply Hall. }
  destruct (write_loadfile (fun _ => true) demo_run default_loadfile_config
                           "out" "VOL" []) as [fs'|] eqn:Hwrite;
    [|vm_compute in Hwrite; discriminate].
  destruct (loadfile_rows_have_39_wrapped_fields (fun _ => true) demo_run
              default_loadfile_config "out" "VOL" [] fs' "020" "254"
              eq_refl eq_refl Hwrite)
    as (_ & _ & _ & Hlines & Hsplit).
  split.
  - exists fs'. split; [reflexivity|].
    destruct Hlines as (_ & Hn & Hread);
      [discriminate | discriminate | discriminate | discriminate | |].
    + intros doc c Hdoc Hc.
      split; [apply (Hvals "010"%char) | apply (Hvals "013"%char)];
        trivial; vm_compute; reflexivity.
    + rewrite (Hread eq_refl). cbn [option_map]. now rewrite Hn.
  - destruct Hsplit as (_ & Hrow);
      [discriminate | vm_compute; reflexivity
      | apply (Hvals "020"%char); vm_compute; reflexivity |].
    assert (forall l,
               (forall doc, In doc l -> In doc (docs demo_run)) ->
               map (fun doc => option_map (@List.length string)
                                 (PyStr.split (record_line "020" "254" doc)
                                              (String "020" ""))) l
               = map (fun _ => Some 39%nat) l) as Hall.
    { intros l Hl. apply map_ext_in. intros doc Hdoc.
      destruct (Hrow doc (Hl doc Hdoc)) as [Hs Hlen].
      change (record_line "020" "254" doc)
        with (PyStr.join (String "020" "")
                (map (fun c => String "254" "" ++ field_text doc c ++ String "254" "")
                     cols)).
      rewrite Hs. cbn [option_map]. now rewrite Hlen. }
    rewrite (Hall (docs demo_run) (fun _ H => H)). vm_compute. reflexivity.
Defined.

(** C3 as stated fails.  The lines the run of the small volume writes
    with the default delimiter split into 39 fields each, not 40; with
    a comma as delimiter, a record whose subject has two commas splits
    into 41 pieces where the header splits into 39; and a record whose
    subject has a line feed is written as two lines, which split into
    13 and 27 pieces. *)
Lemma loadfile_columns_counterexample :
  map (fun line => option_map (@List.length string)
                     (PyStr.split line (String "020" "")))
      (loadfile_lines demo_run "020" "254")
  = [Some 39%nat; Some 39%nat; Some 39%nat; Some 39%nat]
  /\ 39%nat <> 40%nat
  /\ option_map (@List.length string)
       (PyStr.split (header_line "," "|") ",") = Some 39%nat
  /\ option_map (@List.length string)
       (PyStr.split (record_line "," "|" [("Subject", VStr "a, b, c")]) ",")
     = Some 41%nat
  /\ option_map
       (fun fs' =>
          option_map
            (fun text =>
               map (fun line => option_map (@List.length string)
                                  (PyStr.split line (String "020" "")))
                   (readlines text))
            (read_text fs' (loadfile_path "out" "VOL")))
       (write_loadfile (fun _ => true) (append_doc [("Subject", VStr two_lines)] init)
                       default_loadfile_config "out" "VOL" [])
     = Some (Some [Some 39%nat; Some 13%nat; Some 27%nat]).
Proof. repeat split; try (vm_compute; reflexivity). discriminate. Qed.

(** ** C4: page expansion *)

(** C4.  For a PDF and for a multi-frame TIFF of [k] pages whose base
    Bates number was made from the number [n], when every chunk renders
    to the images of its pages and every frame and image can be
    written, page expansion appends to the page index exactly one entry
    per page, in page order.  The entry of page [i] carries the Bates
    number made from [n + i] with the prefix and the padding of the
    base number, and that is the number read back from it; the entry of
    page 0 is flagged Y and holds the page count, every later entry
    leaves both fields blank. *)
Theorem page_expansion_continues_numbering
    (env : Env) (self : Creator) (cfg : ProcessingConfig)
    (pdf_path tiff_path out vol : string) (n k : Z) :
  plain_prefix (prefix self) = true ->
  0 < or_default (pdf_chunk_size cfg) 5 ->
  pdf_reader env pdf_path true = Some k ->
  tiff_n_frames env tiff_path = Some k ->
  (forall a b, 1 <= a -> a <= b -> b <= k ->
     exists imgs,
       convert_from_path env pdf_path (or_default (pdf_dpi cfg) 150) a b = Some imgs
       /\ Z.of_nat (List.length imgs) = b - a + 1) ->
  (forall i, 0 <= i < k -> tiff_seek env tiff_path i <> None) ->
  (forall p img c, imwrite env p img c = true) ->
  let B := get_bates (prefix self) n default_ndigit in
  let pages := map (entry self vol n k) (zrange 0 k) in
  opt_data (fst (_process_pdf_pages env pdf_path B out vol cfg self))
  = (opt_data self ++ pages)%list
  /\ opt_data (fst (_process_tiff_pages env tiff_path B out vol self))
     = (opt_data self ++ pages)%list
  /\ List.length pages = Z.to_nat k
  /\ bates_number (prefix self) B = Some n
  /\ forall i e, nth_error pages i = Some e ->
       bates e = get_bates (prefix self) (n + Z.of_nat i) default_ndigit
       /\ bates_number (prefix self) (bates e) = Some (n + Z.of_nat i)
       /\ volume e = vol
       /\ (i = 0%nat -> first_page e = "Y" /\ npages e = VInt k)
       /\ (i <> 0%nat -> first_page e = "" /\ npages e = VStr "").
Proof.
  intros Hplain Hc Hreader Hframes Hrender Hseek Hwrite B pages.
  split; [|split; [|split; [|split]]].
  - unfold _process_pdf_pages, Exc.try_except. cbn [fst].
    unfold Exc.bind at 1, Exc.lift at 1. rewrite Hreader.
    unfold Exc.bind at 1, Exc.lift at 1.
    rewrite (PageFacts.py_range_chunks k _ Hc).
    destruct (PageFacts.all_chunks env self B out vol n k Hplain eq_refl Hwrite
                pdf_path _ _ (or_default (image_compression cfg) 6) Hc k Hrender
                self (Z.le_refl k) eq_refl) as (st' & Hrun & Hd).
    unfold chunk_body in Hrun. rewrite Hrun. exact Hd.
  - unfold _process_tiff_pages, Exc.try_except. cbn [fst].
    unfold Exc.bind at 1, Exc.lift at 1. rewrite Hframes.
    unfold Exc.bind at 1, Exc.lift at 1. rewrite PageFacts.py_range_frames.
    destruct (PageFacts.tiff_frames_ok env self B out vol n k Hplain eq_refl Hwrite
                tiff_path Hseek self eq_refl) as (st' & Hrun & _ & Hd).
    rewrite Hrun. exact Hd.
  - subst pages. unfold zrange. now rewrite !length_map, length_seq.
  - now apply bates_number_get_bates.
  - intros i e He. subst pages. unfold zrange in He.
    rewrite map_map, nth_error_map in He.
    destruct (nth_error (seq 0 (Z.to_nat k)) i) as [t|] eqn:Et; [|discriminate].
    pose proof (nth_error_Some (seq 0 (Z.to_nat k)) i) as Hlt.
    rewrite Et, length_seq in Hlt.
    assert (i < Z.to_nat k)%nat as Hi by (apply Hlt; discriminate).
    rewrite (nth_error_nth' _ 0%nat) in Et by now rewrite length_seq.
    rewrite seq_nth in Et by exact Hi. injection Et as <-.
    cbn [Nat.add option_map] in He. injection He as <-.
    unfold entry, page_entry. cbn [bates volume first_page npages].
    rewrite ?Z.add_0_l.
    split; [reflexivity|]. split; [now apply bates_number_get_bates|].
    split; [reflexivity|]. split.
    + intros ->. split; reflexivity.
    + intros Hnz. replace (Z.of_nat i =? 0) with false
        by (symmetry; apply Z.eqb_neq; lia).
      split; reflexivity.
Qed.

Lemma page_expansion_witness :
  plain_prefix (prefix init) = true
  /\ 0 < or_default (pdf_chunk_size demo_config) 5
  /\ pdf_reader demo_env "in/b.pdf" true = Some 3
  /\ tiff_n_frames demo_env "in/scan.tif" = Some 3
  /\ map bates
       (opt_data (fst (_process_pdf_pages demo_env "in/b.pdf"
                         (get_bates (prefix init) 8379 default_ndigit)
                         "out" "VOL" demo_config init)))
     = map (fun i => bates (entry init "VOL" 8379 3 i)) [0; 1; 2].
Proof.
  assert (forall a b, 1 <= a -> a <= b -> b <= 3 ->
            exists imgs,
              convert_from_path demo_env "in/b.pdf"
                (or_default (pdf_dpi demo_config) 150) a b = Some imgs
              /\ Z.of_nat (List.length imgs) = b - a + 1) as Hrender.
  { intros a b Ha Hab Hb. eexists. split; [reflexivity|].
    rewrite length_map, length_seq. lia. }
  assert (forall i, 0 <= i < 3 -> tiff_seek demo_env "in/scan.tif" i <> None)
    as Hseek by (intros i _; discriminate).
  repeat (split; [reflexivity|]).
  destruct (page_expansion_continues_numbering demo_env init demo_config
              "in/b.pdf" "in/scan.tif" "out" "VOL" 8379 3
              eq_refl eq_refl eq_refl eq_refl Hrender Hseek
              (fun _ _ _ => eq_refl)) as (H & _).
  now rewrite H.
Defined.

(** ** C5: EndBates *)

Lemma field_text_of_field (doc : Dict.t value) (k v : string) :
  field doc k = VStr v -> field_text doc k = v.
Proof.
  unfold field, field_text, Dict.get_default.
  destruct (Dict.get doc k) as [x|]; [|discriminate].
  now intros ->.
Qed.

(** C5.  Whatever the order of completion, every record the run
    publishes has EndBates equal to BegBates, in the record and in the
    text written for the two columns; the run leaves the records that
    were there before as they were. *)
Theorem end_bates_stays_beg_bates
    (env : Env) (self : Creator) (cfg : ProcessingConfig)
    (input_dir output_dir volume : string)
    (order : list (string * option string)) :
  let s := fst (process_files env self cfg input_dir output_dir volume order) in
  exists new,
    docs s = (docs self ++ new)%list
    /\ Forall (fun doc =>
                 field doc "EndBates" = field doc "BegBates"
                 /\ field_text doc "EndBates" = field_text doc "BegBates"
                 /\ forall delim wrap, exists B rest,
                      map (fun c => wrapped wrap (field_text doc c)) cols
                      = B :: B :: rest
                      /\ record_line delim wrap doc
                         = PyStr.join (String delim "") (B :: B :: rest))
              new.
Proof.
  rewrite process_files_state. cbn [prepare fst snd].
  match goal with |- context [run_tasks env ?c order self] => set (cl := c) end.
  pose proof (OrderFacts.run_tasks_spec env cl self order self eq_refl) as H.
  destruct (run_tasks env cl order self) as [s results]. cbn [fst].
  destruct H as (_ & _ & new & Hdocs & _ & Hall).
  exists new. split; [exact Hdocs|].
  eapply Forall_impl; [|exact Hall].
  intros doc (fname & B & HB & HE & _).
  pose proof (field_text_of_field _ _ _ HB) as TB.
  pose proof (field_text_of_field _ _ _ HE) as TE.
  split; [congruence|]. split; [congruence|].
  intros delim wrap. unfold record_line. cbn [cols map].
  rewrite TB, TE. eexists. eexists. split; reflexivity.
Qed.

(** The three-page PDF of the small volume: three page entries, the
    last one numbered 8381, and a record whose EndBates is still the
    number of its first page. *)
Example three_pages_one_end_bates :
  map bates (opt_data demo_run)
  = ["PL_WEATHERFORD00008379"; "PL_WEATHERFORD00008380"; "PL_WEATHERFORD00008381"]
  /\ map (fun doc => (field doc "Filename", field doc "BegBates", field doc "EndBates"))
         (docs demo_run)
     = [ (VStr "a.eml", VStr "PL_WEATHERFORD00008378", VStr "PL_WEATHERFORD00008378");
         (VStr "b.pdf", VStr "PL_WEATHERFORD00008379", VStr "PL_WEATHERFORD00008379");
         (VStr "c.txt", VStr "PL_WEATHERFORD00008380", VStr "PL_WEATHERFORD00008380") ].
Proof. split; vm_compute; reflexivity. Qed.

(** ** C6: a chunk that fails to render *)

(** Whatever the file: when the chunks before page [bound] render and
    the chunk that starts at page [bound] raises, the page index gets
    the entries of the pages before [bound] and of no later page, as
    the loop over the chunks is inside the one try block of
    [_process_pdf_pages]. *)
Lemma pages_after_a_failed_chunk_are_skipped
    (env : Env) (self : Creator) (cfg : ProcessingConfig)
    (pdf_path out vol : string) (n k : Z) (j : nat) :
  let c := or_default (pdf_chunk_size cfg) 5 in
  let dpi := or_default (pdf_dpi cfg) 150 in
  let bound := Z.of_nat j * c in
  plain_prefix (prefix self) = true ->
  0 < c ->
  pdf_reader env pdf_path true = Some k ->
  bound < k ->
  (forall a b, 1 <= a -> a <= b -> b <= bound ->
     exists imgs,
       convert_from_path env pdf_path dpi a b = Some imgs
       /\ Z.of_nat (List.length imgs) = b - a + 1) ->
  convert_from_path env pdf_path dpi (bound + 1) (Z.min (bound + c) k) = None ->
  (forall p img q, imwrite env p img q = true) ->
  opt_data (fst (_process_pdf_pages env pdf_path
                   (get_bates (prefix self) n default_ndigit) out vol cfg self))
  = (opt_data self ++ map (entry self vol n k) (zrange 0 bound))%list.
Proof.
  intros c dpi bound Hplain Hc Hreader Hlt Hrender Hfail Hwrite.
  subst bound dpi c.
  unfold _process_pdf_pages, Exc.try_except. cbn [fst].
  unfold Exc.bind at 1, Exc.lift at 1. rewrite Hreader.
  unfold Exc.bind at 1, Exc.lift at 1.
  rewrite (PageFacts.py_range_chunks k _ Hc).
  destruct (PageFacts.chunks_until_failure env self _ out vol n k Hplain eq_refl
              Hwrite pdf_path _ _ (or_default (image_compression cfg) 6) Hc
              _ Hrender j self eq_refl Hlt Hfail eq_refl)
    as (st' & Hrun & Hd).
  unfold chunk_body in Hrun. rewrite Hrun. exact Hd.
Qed.

(** C6, at the failing input.  A fourteen-page PDF is rendered in
    chunks of two; rendering the first chunk raises, the second chunk
    would render to two images.  [_process_pdf_pages] leaves the page
    index empty: the pages of every later chunk are skipped too.  The
    text extraction of the same file, whose first chunk fails as well,
    goes on to the second chunk and returns its text. *)
Theorem failed_chunk_ends_page_expansion :
  convert_from_path failing_first_chunk "in/b.pdf" 150 1 2 = None
  /\ convert_from_path failing_first_chunk "in/b.pdf" 150 3 4
     = Some [Image 3; Image 4]
  /\ opt_data (fst (_process_pdf_pages failing_first_chunk "in/b.pdf"
                      "PL_WEATHERFORD00008379" "out" "VOL" demo_config init))
     = []
  /\ from_buffer failing_first_chunk "in/b.pdf" 0 10 300 = None
  /\ option_map (option_map content)
       (chunk_pdf_and_parse failing_first_chunk "in/b.pdf")
     = Some (Some (Some "page text")).
Proof. repeat split; vm_compute; reflexivity. Qed.

(** ** C7: date fields *)

(** C7, at the failing input.  The text file of the small volume has a
    creation date and a modification date in the same ISO form.
    DateCreated went through the converter and has the form
    MM/DD/YYYY; DateLastModified is the raw metadata value, does not
    have that form, and the date test of the validator fails on the
    run.  The converter itself removes a fraction of a second only
    from a string that ends in Z; without the Z one digit of the
    fraction stays and the result is None. *)
Theorem raw_dates_reach_the_record :
  map (fun doc => (field doc "Filename", field doc "DateCreated",
                   field doc "DateLastModified"))
      (docs demo_run)
  = [ (VStr "a.eml", VStr "03/04/2021", VStr "2021-03-04T05:06:07Z");
      (VStr "b.pdf", VStr "01/01/2020", VNone);
      (VStr "c.txt", VStr "03/04/2021", VStr "2021-03-04T05:06:07Z") ]
  /\ convert_date_safe (VStr "2021-03-04T05:06:07Z") = VStr "03/04/2021"
  /\ is_mdY "03/04/2021" = true
  /\ is_mdY "2021-03-04T05:06:07Z" = false
  /\ test_date_formats demo_run = FAIL_dates
  /\ convert_date_safe (VStr "2020-01-01T10:00:00.123Z") = VStr "01/01/2020"
  /\ convert_date_safe (VStr "2020-01-01T10:00:00.123") = VNone.
Proof. repeat split; vm_compute; reflexivity. Qed.

(** ** C8: email families *)




(** ** C9: the loadfile format test *)

(** C9, at the failing input.  With the delimiter set to a comma and
    the wrapper to a vertical bar, [write_loadfile] writes a header
    that contains both, and the format test of the validator reports a
    failure, because it looks for the bytes 0x14 and 0xFE; with the
    default settings the same run passes. *)
Theorem format_test_ignores_settings :
  config_char (delimiter comma_bar_config) "0x14" = Some ","%char
  /\ config_char (wrapper comma_bar_config) "0xFE" = Some "|"%char
  /\ PyStr.contains "," (header_line "," "|") = true
  /\ PyStr.contains "|" (header_line "," "|") = true
  /\ option_map (test_loadfile_format "out" "VOL")
       (write_loadfile (fun _ => true) demo_run comma_bar_config "out" "VOL" [])
     = Some FAIL_format
  /\ option_map (test_loadfile_format "out" "VOL")
       (write_loadfile (fun _ => true) demo_run default_loadfile_config
                       "out" "VOL" [])
     = Some PASS.
Proof. repeat split; vm_compute; reflexivity. Qed.

(** ** C10: the fallback of the per-file lookup *)

(** C10.  For a file name that is not in the precomputed assignment,
    [get_bates_for_file] returns the Bates number made from the counter
    as it was bound before the run, whose number is the start value, at
    whatever point of the run the lookup happens (after any tasks
    [done]); when the run has a file, that is the Bates number the
    assignment already gives to the first file of the sorted list. *)
Theorem fallback_reuses_start_value
    (env : Env) (self : Creator) (cfg : ProcessingConfig)
    (input_dir output_dir volume fname : string)
    (done : list (string * option string)) :
  NoDup (glob env input_dir) ->
  let all_files := collect_files (isfile env) (glob env input_dir) in
  let cl := snd (fst (prepare env self cfg input_dir output_dir volume)) in
  let st := fst (run_tasks env cl done self) in
  let lookup := get_bates_for_file st (bates_assignments_of cl) (bates_counter cl) in
  ~ In fname all_files ->
  bates_counter cl = start_value self
  /\ lookup fname = get_bates (prefix self) (start_value self) default_ndigit
  /\ (plain_prefix (prefix self) = true ->
      bates_number (prefix self) (lookup fname) = Some (start_value self))
  /\ (forall first rest, all_files = first :: rest ->
        Dict.get (bates_assignments_of cl) first = Some (lookup fname)).
Proof.
  intros Hnd all_files cl st lookup Hnot.
  assert (prefix st = prefix self) as Hp.
  { pose proof (OrderFacts.run_tasks_spec env cl self done self eq_refl) as H.
    subst st. destruct (run_tasks env cl done self) as [s results].
    destruct H as ((Hpre & _) & _). exact Hpre. }
  assert (lookup fname = get_bates (prefix self) (start_value self) default_ndigit)
    as Hfall.
  { subst lookup. unfold get_bates_for_file, Dict.get_default.
    cbn [bates_assignments_of cl prepare fst snd bates_counter].
    rewrite AssignFacts.bates_assignments_eq, AssignFacts.assign_from_other by exact Hnot.
    cbn [Dict.get]. now rewrite Hp. }
  split; [reflexivity|]. split; [exact Hfall|]. split.
  - intros Hplain. rewrite Hfall. now apply bates_number_get_bates.
  - intros first rest Hfiles. rewrite Hfall.
    cbn [bates_assignments_of cl prepare fst snd bates_counter].
    fold all_files.
    assert (nth 0 all_files "" = first) as Hfirst by now rewrite Hfiles.
    assert (0 < List.length all_files)%nat as Hlen
      by (rewrite Hfiles; cbn [List.length]; lia).
    pose proof (AssignFacts.assigned_nth self all_files 0
                  (AssignFacts.collect_files_nodup _ _ Hnd) Hlen) as H0.
    rewrite Hfirst in H0. rewrite H0. now rewrite Z.add_0_r.
Qed.

Lemma fallback_reuses_start_value_witness :
  NoDup (glob demo_env "in")
  /\ ~ In "in/zz.doc" (collect_files (isfile demo_env) (glob demo_env "in"))
  /\ Dict.get (bates_assignments init
                 (collect_files (isfile demo_env) (glob demo_env "in")))
              "in/a.eml"
     = Some (get_bates_for_file init
               (bates_assignments init
                  (collect_files (isfile demo_env) (glob demo_env "in")))
               8378 "in/zz.doc").
Proof.
  assert (NoDup (glob demo_env "in")) as Hnd by (cbn; nodup_strings).
  assert (~ In "in/zz.doc" (collect_files (isfile demo_env) (glob demo_env "in")))
    as Hnot by (vm_compute; intuition discriminate).
  split; [exact Hnd|]. split; [exact Hnot|].
  destruct (fallback_reuses_start_value demo_env init demo_config "in" "out" "VOL"
              "in/zz.doc" [] Hnd Hnot) as (_ & _ & _ & H).
  exact (H "in/a.eml" ["in/b.pdf"; "in/c.txt"] eq_refl).
Defined.

(* ================================================================== *)
(** * Further properties *)

Module BuildFacts.
Import Exc ExcFacts TaskFacts.

Lemma doc_entry_settings (st s : Creator) (cl : Closure)
    (fname B ext FE nd td : string) (md : Dict.t mvalue) (ds ts : value)
    (rt dt : string) (fam : value) :
  same_settings st s ->
  doc_entry s cl fname B ext FE nd td md ds ts rt dt fam
  = doc_entry st cl fname B ext FE nd td md ds ts rt dt fam.
Proof. intros (_ & _ & HP & HC). unfold doc_entry. now rewrite HP, HC. Qed.

Lemma record_built_settings (st s : Creator) (cl : Closure) (fname B : string)
    (md : Dict.t mvalue) (fam : value) :
  same_settings st s ->
  record_built s cl fname B md fam = record_built st cl fname B md fam.
Proof. intros H. unfold record_built. now apply doc_entry_settings. Qed.

Lemma family_of_value (key : string) (st : Creator) :
  exists n, snd (family_of key st) = Some (VInt n).
Proof.
  unfold family_of, bind, get, modify, ret.
  destruct (Dict.get _ key) as [n|]; cbn; eauto.
Qed.

Lemma identify_value (file_path : string) (md : Dict.t mvalue) (st : Creator) :
  match snd (identify_document_family file_path md st) with
  | Some v => hashable v = true
  | None => True
  end.
Proof.
  unfold identify_document_family.
  assert (forall key s, match snd (family_of key s) with
                        | Some v => hashable v = true | None => True end) as Hfam
    by (intros key s; destruct (family_of_value key s) as [n ->]; reflexivity).
  repeat match goal with
         | |- context [if ?b then _ else _] => destruct b
         | |- context [match ?m with MStr _ => _ | MList _ => _ end] => destruct m
         end; try apply Hfam; try exact I; reflexivity.
Qed.

(** The family step of a task: it leaves records and settings alone,
    and what it returns is the family of the record. *)
Lemma family_step_post (fname : string) (md : Dict.t mvalue)
    (family_id : option string) (st : Creator) :
  post (match family_id with
        | Some k => if negb (String.eqb k "") then ret (VStr k)
                    else identify_document_family fname md
        | None => identify_document_family fname md
        end) st
       (fun s r => frame st s
                   /\ match r with
                      | Some fam => family_from family_id fam
                      | None => True
                      end).
Proof.
  pose proof (framed_family_step fname md family_id st) as HF.
  unfold post in *. split; [exact HF|]. clear HF.
  pose proof (identify_value fname md st) as Hid.
  destruct family_id as [k|].
  - destruct (String.eqb k "") eqn:Hk; cbn [negb].
    + destruct (snd (identify_document_family fname md st)); [|exact I].
      split; [exact Hid|]. intros k' [= <-] Hne.
      apply String.eqb_eq in Hk. contradiction.
    + cbn. split; [reflexivity|]. now intros k' [= <-] _.
  - destruct (snd (identify_document_family fname md st)); [|exact I].
    split; [exact Hid|]. discriminate.
Qed.

Lemma build_and_publish_appends (env : Env) (cl : Closure) (fname B : string)
    (family_id : option string) (p : parsed) (st : Creator) :
  post (build_and_publish env cl fname B family_id p) st
       (built_post cl fname B family_id p st).
Proof.
  unfold build_and_publish.
  apply post_bind. unfold post at 1, lift. cbn [fst snd].
  destruct (metadata p) as [md|] eqn:Hmd; [|reflexivity].
  apply post_bind.
  eapply post_conseq; [apply family_step_post|].
  intros s1 [fam|] [F1 Hfam]; [|apply F1].
  apply post_bind. unfold post at 1, get. cbn [fst snd].
  apply post_bind. unfold post at 1, guard. cbn [fst snd].
  destruct (copy2 env _ _); [|apply F1].
  apply post_bind. unfold post at 1, guard. cbn [fst snd].
  destruct (write_text env _ _); [|apply F1].
  apply post_bind.
  eapply post_conseq; [apply framed_pages_step|].
  intros s2 r2 F2; cbn beta in F2.
  pose proof (frame_trans _ _ _ F1 F2) as F.
  destruct r2 as [[]|]; [|apply F].
  apply post_bind. unfold post at 1, modify. cbn [fst snd].
  unfold post, ret. cbn [fst snd built_post]. split; [reflexivity|].
  exists md, fam. split; [first [reflexivity | exact Hmd]|]. split; [exact Hfam|].
  cbn [docs append_doc]. destruct F as [-> _]. do 2 f_equal.
  unfold record_built. apply doc_entry_settings. now apply frame_settings.
Qed.

Lemma process_single_file_appends (env : Env) (cl : Closure)
    (fname : string) (family_id : option string) (st : Creator) :
  let B := get_bates_for_file st (bates_assignments_of cl) (bates_counter cl) fname in
  let '(s, r) := process_single_file env cl (fname, family_id) st in
  match r with
  | Success b =>
      b = B
      /\ exists p md fam,
           parsed_for env cl fname = Some p
           /\ metadata p = Some md
           /\ family_from family_id fam
           /\ docs s = (docs st ++ [record_built st cl fname B md fam])%list
  | _ => docs s = docs st
  end.
Proof.
  intros B. unfold process_single_file, parsed_for. fold B.
  assert (forall p,
    let '(s, r) :=
      match build_and_publish env cl fname B family_id p st with
      | (s, Some r) => (s, r)
      | (s, None) => (s, Failed exception)
      end in
    match r with
    | Success b =>
        b = B
        /\ exists md fam,
             metadata p = Some md
             /\ family_from family_id fam
             /\ docs s = (docs st ++ [record_built st cl fname B md fam])%list
    | _ => docs s = docs st
    end) as Hafter.
  { intros p. pose proof (build_and_publish_appends env cl fname B family_id p st) as H.
    unfold post, built_post in H.
    destruct (build_and_publish env cl fname B family_id p st) as [s [r|]];
      cbn [fst snd] in H; [|exact H].
    destruct H as (-> & md & fam & Hmd & Hfam & Hd). split; [reflexivity|]. eauto. }
  destruct (isdir env fname); [reflexivity|].
  destruct (String.eqb _ "pdf").
  - destruct (chunk_pdf_and_parse env fname) as [[p|]|]; try reflexivity.
    specialize (Hafter p).
    destruct (build_and_publish env cl fname B family_id p st) as [s [[| |b]|]];
      try exact Hafter.
    destruct Hafter as (Hb & md & fam & H). split; [exact Hb|]. exists p, md, fam. tauto.
  - destruct (from_file env fname _) as [p|]; try reflexivity.
    specialize (Hafter p).
    destruct (build_and_publish env cl fname B family_id p st) as [s [[| |b]|]];
      try exact Hafter.
    destruct Hafter as (Hb & md & fam & H). split; [exact Hb|]. exists p, md, fam. tauto.
Qed.

(** The records a run adds are those of the tasks that succeed, in the
    order of completion. *)
Lemma run_tasks_records (env : Env) (cl : Closure) (self : Creator)
    (order : list (string * option string)) :
  forall st, same_settings self st ->
    exists new,
      docs (fst (run_tasks env cl order st)) = (docs st ++ new)%list
      /\ Forall2 (record_for env self cl)
                 (filter (fun fi => succeeded (solo env cl self fi)) order) new.
Proof.
  induction order as [|[fname family_id] rest IH]; intros st Hs; cbn [run_tasks].
  - exists []. cbn. rewrite app_nil_r. split; [reflexivity | constructor].
  - assert (prefix st = prefix self) as Hp by (destruct Hs as [-> _]; reflexivity).
    pose proof (process_single_file_appends env cl fname family_id st) as Happ.
    pose proof (process_single_file_post env cl fname family_id st) as Hpost.
    pose proof (OrderFacts.process_single_file_result env cl (fname, family_id)
                  st self Hp) as Hres.
    cbv zeta in Happ, Hpost.
    destruct (process_single_file env cl (fname, family_id) st) as [s1 r1].
    cbn [snd] in Hres. destruct Hpost as [Hs1 _].
    assert (same_settings self s1) as Hs1' by (eapply same_settings_trans; eauto).
    destruct (IH s1 Hs1') as (new & Hnew & Hall).
    destruct (run_tasks env cl rest s1) as [s2 results]. cbn [fst] in *.
    cbn [filter]. unfold solo at 1. rewrite <- Hres.
    destruct r1 as [|f|b]; cbn [succeeded].
    + exists new. rewrite Hnew, Happ. auto.
    + exists new. rewrite Hnew, Happ. auto.
    + destruct Happ as (_ & p & md & fam & Hparse & Hmd & Hfam & Hd).
      exists (record_built st cl fname
                (get_bates_for_file st (bates_assignments_of cl) (bates_counter cl) fname)
                md fam :: new).
      rewrite Hnew, Hd, <- app_assoc. split; [reflexivity|].
      constructor; [|exact Hall]. exists p, md, fam. cbn [fst snd].
      repeat split; try assumption; try apply Hfam.
      rewrite (OrderFacts.get_bates_for_file_prefix st self _ _ _ Hp).
      now apply record_built_settings.
Qed.

End BuildFacts.

Lemma run_records
    (env : Env) (self : Creator) (cfg : ProcessingConfig)
    (input_dir output_dir volume : string)
    (order : list (string * option string)) :
  let cl := snd (fst (prepare env self cfg input_dir output_dir volume)) in
  exists new,
    docs (fst (process_files env self cfg input_dir output_dir volume order))
    = (docs self ++ new)%list
    /\ Forall2 (record_for env self cl)
               (filter (fun fi => succeeded (solo env cl self fi)) order) new.
Proof.
  intros cl. rewrite process_files_state. cbn [prepare fst snd].
  apply (BuildFacts.run_tasks_records env cl self order self).
  apply TaskFacts.same_settings_refl.
Qed.

Module TestFacts.

Lemma list_eqb_eq (l m : list string) : list_eqb String.eqb l m = true <-> l = m.
Proof.
  revert m. induction l as [|x l IH]; intros [|y m]; cbn; split;
    try discriminate; try reflexivity.
  - intros H. apply andb_prop in H as [H1 H2].
    apply String.eqb_eq in H1. apply IH in H2. congruence.
  - intros [= -> ->]. rewrite String.eqb_refl. now apply IH.
Qed.

Lemma value_eqb_eq (a b : value) : value_eqb a b = true <-> a = b.
Proof.
  destruct a, b; cbn; split; try discriminate; try reflexivity.
  - intros H. apply String.eqb_eq in H. congruence.
  - intros [= ->]. apply String.eqb_refl.
  - intros H. apply Z.eqb_eq in H. congruence.
  - intros [= ->]. apply Z.eqb_refl.
  - intros H. apply list_eqb_eq in H. congruence.
  - intros [= ->]. now apply list_eqb_eq.
Qed.

Lemma existsb_value (v : value) (l : list value) :
  existsb (value_eqb v) l = true <-> In v l.
Proof.
  rewrite existsb_exists. split.
  - intros (x & Hin & Heq). apply value_eqb_eq in Heq. now subst.
  - intros Hin. exists v. split; [exact Hin | now apply value_eqb_eq].
Qed.

Lemma distinct_length (l : list value) : (List.length (distinct l) <= List.length l)%nat.
Proof.
  induction l as [|v r IH]; cbn; [lia|].
  destruct (existsb _ r); cbn; lia.
Qed.

(** A list has as many elements as its set exactly when no element
    occurs twice. *)
Lemma distinct_all (l : list value) :
  List.length (distinct l) = List.length l <-> NoDup l.
Proof.
  induction l as [|v r IH]; cbn.
  - split; [constructor | reflexivity].
  - pose proof (distinct_length r) as Hle.
    destruct (existsb (value_eqb v) r) eqn:He.
    + apply existsb_value in He. split; [lia|].
      intros H. inversion H. contradiction.
    + cbn. split.
      * intros H. constructor; [|apply IH; lia].
        intros Hin. apply existsb_value in Hin. congruence.
      * intros H. inversion H; subst. f_equal. now apply IH.
Qed.

Lemma comprehension_map {A B : Type} (f : A -> option B) (g : A -> B) (l : list A) :
  (forall x, In x l -> f x = Some (g x)) -> comprehension f l = Some (map g l).
Proof.
  induction l as [|x r IH]; intros H; cbn; [reflexivity|].
  rewrite (H x) by now left. rewrite IH by (intros y Hy; apply H; now right).
  reflexivity.
Qed.

Lemma missing_in_app (a b : list (Dict.t value)) :
  missing_in (a ++ b) = (missing_in a ++ missing_in b)%list.
Proof. unfold missing_in. apply flat_map_app. Qed.

Lemma missing_in_built (self : Creator) (cl : Closure) (fname B : string)
    (md : Dict.t mvalue) (fam : value) :
  missing_in [record_built self cl fname B md fam] = [].
Proof. reflexivity. Qed.

Lemma distinct_nil (l : list value) : distinct l = [] -> l = [].
Proof.
  induction l as [|v r IH]; [reflexivity|]. cbn.
  destruct (existsb (value_eqb v) r) eqn:He; [|discriminate].
  intros H. rewrite (IH H) in He. discriminate.
Qed.

Lemma family_test_spec (self : Creator) (ids : list value) :
  family_ids self = Some ids ->
  forallb hashable ids = true ->
  (test_family_consistency self = Some Pass <-> NoDup ids)
  /\ (test_family_consistency self = Some Fail <-> ~ NoDup ids).
Proof.
  intros Hids Hhash. unfold test_family_consistency, len_set.
  rewrite Hids, Hhash.
  pose proof (distinct_all ids) as Hall.
  destruct (Nat.eqb (List.length ids) (List.length (distinct ids))) eqn:He; cbn [orb].
  - apply Nat.eqb_eq in He. symmetry in He. apply Hall in He.
    split; split; try discriminate; auto. intros Hn. contradiction.
  - apply Nat.eqb_neq in He.
    destruct (Nat.eqb (List.length (distinct ids)) 0) eqn:H0.
    + apply Nat.eqb_eq, length_zero_iff_nil, distinct_nil in H0. subst ids.
      now cbn in He.
    + assert (~ NoDup ids) as Hn by (intros Hn; apply Hall in Hn; congruence).
      split; split; try discriminate; auto. intros Hn'. contradiction.
Qed.

End TestFacts.

Lemma comprehension_related {A B C : Type} (R : A -> B -> Prop)
    (f : B -> option C) (g : A -> C) (l : list A) (new : list B) :
  Forall2 R l new -> (forall a b, R a b -> f b = Some (g a)) ->
  comprehension f new = Some (map g l).
Proof.
  intros H HR. induction H as [|a b l new Hab _ IH]; cbn; [reflexivity|].
  now rewrite (HR a b Hab), IH.
Qed.

(** Filtering a list keeps its keys distinct. *)
Lemma distinct_keys_filter {X K : Type} (key : X -> K) (keep : X -> bool)
    (xs : list X) :
  NoDup (map key xs) -> NoDup (map key (filter keep xs)).
Proof.
  induction xs as [|x r IH]; cbn; intros H; [constructor|].
  inversion H as [|? ? Hnin Hr]; subst. destruct (keep x); cbn; [|now apply IH].
  constructor; [|now apply IH].
  intros Hin. apply Hnin. apply in_map_iff in Hin as (y & Hy & Hin).
  apply filter_In in Hin as [Hin _]. apply in_map_iff. eauto.
Qed.

(** A function that is injective on the elements of a list without
    repetition maps it to a list without repetition. *)
Lemma distinct_images {X K : Type} (key : X -> K) (xs : list X) :
  NoDup xs ->
  (forall a b, In a xs -> In b xs -> key a = key b -> a = b) ->
  NoDup (map key xs).
Proof.
  induction xs as [|x r IH]; cbn; intros H Hinj; [constructor|].
  inversion H as [|? ? Hnin Hr]; subst. constructor.
  - intros Hin. apply in_map_iff in Hin as (y & Hy & Hin).
    assert (y = x) by (apply Hinj; auto). now subst.
  - apply IH; auto.
Qed.

Lemma lookup_inj (self : Creator) (files : list string) (c : Z) (f g : string) :
  NoDup files -> In f files -> In g files ->
  get_bates_for_file self (bates_assignments self files) c f
  = get_bates_for_file self (bates_assignments self files) c g ->
  f = g.
Proof.
  intros Hnd Hf Hg Heq.
  apply (AssignFacts.assigned_inj self files f g Hnd Hf Hg).
  destruct (In_nth _ _ "" Hf) as (i & Hi & Hfi).
  destruct (In_nth _ _ "" Hg) as (j & Hj & Hgj).
  pose proof (AssignFacts.assigned_nth self files i Hnd Hi) as Hi'.
  pose proof (AssignFacts.assigned_nth self files j Hnd Hj) as Hj'.
  rewrite Hfi in Hi'. rewrite Hgj in Hj'.
  unfold get_bates_for_file, Dict.get_default in Heq.
  rewrite Hi', Hj' in Heq. rewrite Hi', Hj'. now f_equal.
Qed.

Lemma in_two_split {A : Type} (a b : A) (l : list A) :
  In a l -> In b l -> a <> b ->
  exists l1 l2 l3,
    l = (l1 ++ a :: l2 ++ b :: l3)%list \/ l = (l1 ++ b :: l2 ++ a :: l3)%list.
Proof.
  intros Ha Hb Hne.
  destruct (in_split _ _ Ha) as (l1 & l2 & ->).
  apply in_app_or in Hb as [Hb|[Hb|Hb]]; [| congruence |].
  - destruct (in_split _ _ Hb) as (m1 & m2 & ->).
    exists m1, m2, l2. right. now rewrite <- app_assoc.
  - destruct (in_split _ _ Hb) as (m1 & m2 & ->).
    exists l1, m1, m2. now left.
Qed.

Lemma twice_not_nodup {A : Type} (v : A) (l1 l2 l3 : list A) :
  ~ NoDup (l1 ++ v :: l2 ++ v :: l3).
Proof.
  intros H. apply NoDup_remove_2 in H. apply H.
  apply in_or_app. right. apply in_or_app. right. now left.
Qed.

Lemma family_token_truthy (tag : string) (h : Z) :
  tag <> "" -> family_token tag h <> "".
Proof. unfold family_token. destruct tag; [congruence | discriminate]. Qed.

Module FamilyTable.
Import Exc.

Lemma family_of_numbered (key : string) (st : Creator) :
  families_ok st -> numbered (family_of key) st.
Proof.
  intros [Hlt Hinj]. unfold numbered, families_ok, family_of, bind, get, modify, ret.
  cbv beta zeta. cbn [fst snd].
  destruct (Dict.get (document_families st) key) as [n|] eqn:Hget;
    cbv beta zeta; cbn [fst snd].
  - rewrite Hget. split; [split; assumption|]. split; [auto|]. split; [lia|].
    split; [|reflexivity]. intros v [= <-]. right. eauto.
  - unfold new_family. cbn [document_families family_counter].
    rewrite DictFacts.get_set_same.
    assert (forall k m, Dict.get (Dict.set (document_families st) key
                                           (family_counter st)) k = Some m ->
              k = key /\ m = family_counter st
              \/ k <> key /\ Dict.get (document_families st) k = Some m) as Hcases.
    { intros k m H. destruct (string_dec key k) as [<-|Hne].
      - rewrite DictFacts.get_set_same in H. injection H as <-. now left.
      - rewrite DictFacts.get_set_other in H by exact Hne. right. split; congruence. }
    split; [split|split; [|split; [|split]]].
    + intros k m H. apply Hcases in H as [[_ ->]|[_ H]]; [lia|].
      apply Hlt in H. lia.
    + intros k k' m H H'.
      apply Hcases in H as [[-> ->]|[Hk H]];
        apply Hcases in H' as [[-> E]|[Hk' H']]; try reflexivity.
      * apply Hlt in H'. lia.
      * subst m. apply Hlt in H. lia.
      * eapply Hinj; eauto.
    + intros k m H. rewrite DictFacts.get_set_other; [exact H|].
      intros <-. congruence.
    + lia.
    + intros v [= <-]. right. exists key, (family_counter st).
      split; [reflexivity|]. apply DictFacts.get_set_same.
    + reflexivity.
Qed.

Lemma ret_none_numbered (st : Creator) :
  families_ok st -> numbered (ret VNone) st.
Proof.
  intros H. unfold numbered, ret. cbn.
  split; [exact H|]. split; [auto|]. split; [lia|]. split; [|reflexivity].
  intros v [= <-]. now left.
Qed.

Lemma raise_numbered (st : Creator) :
  families_ok st -> numbered raise st.
Proof.
  intros H. unfold numbered, raise. cbn.
  split; [exact H|]. split; [auto|]. split; [lia|]. split; [|reflexivity].
  discriminate.
Qed.

Lemma identify_numbered (file_path : string) (md : Dict.t mvalue) (st : Creator) :
  families_ok st -> numbered (identify_document_family file_path md) st.
Proof.
  intros H. unfold identify_document_family.
  repeat match goal with
         | |- context [if ?b then _ else _] => destruct b
         | |- context [match ?m with MStr _ => _ | MList _ => _ end] => destruct m
         end;
    first [apply family_of_numbered | apply ret_none_numbered | apply raise_numbered];
    exact H.
Qed.

End FamilyTable.

Module ChunkFacts.

Lemma parse_chunk_step (env : Env) (pdf_path : string) (N a : Z)
    (fm : option (Dict.t mvalue)) (cc : list string) :
  Forall (fun p => content p <> None) (parsed_chunk env pdf_path N a) ->
  (fm = None -> Forall (fun p => metadata p <> None) (parsed_chunk env pdf_path N a)) ->
  parse_chunk env pdf_path N 300 (Some (fm, cc)) a
  = Some (match fm with
          | Some m => Some m
          | None => first_metadata_of N (parsed_chunk env pdf_path N a)
          end,
          (cc ++ map text_of (parsed_chunk env pdf_path N a))%list).
Proof.
  unfold parse_chunk, parsed_chunk. intros Hc Hm.
  destruct (pdf_write env pdf_path a (Z.min (a + 10) N)); cbn [negb].
  - destruct (from_buffer env pdf_path a (Z.min (a + 10) N) 300) as [p|].
    + inversion Hc as [|? ? Hcp _]; subst.
      destruct (content p) as [c|] eqn:Ec; [|congruence].
      destruct fm as [m|].
      * cbn. unfold text_of. now rewrite Ec.
      * specialize (Hm eq_refl). inversion Hm as [|? ? Hmp _]; subst.
        destruct (metadata p) as [m|] eqn:Em; [|congruence].
        cbn. unfold text_of. now rewrite Em, Ec.
    + cbn. rewrite app_nil_r. now destruct fm.
  - cbn. rewrite app_nil_r. now destruct fm.
Qed.

Lemma parse_chunks (env : Env) (pdf_path : string) (N : Z) (starts : list Z) :
  forall fm cc,
    Forall (fun p => content p <> None)
           (flat_map (parsed_chunk env pdf_path N) starts) ->
    (fm = None ->
     forall p r, flat_map (parsed_chunk env pdf_path N) starts = p :: r ->
                 metadata p <> None) ->
    fold_left (parse_chunk env pdf_path N 300) starts (Some (fm, cc))
    = Some (match fm with
            | Some m => Some m
            | None => first_metadata_of N (flat_map (parsed_chunk env pdf_path N) starts)
            end,
            (cc ++ map text_of (flat_map (parsed_chunk env pdf_path N) starts))%list).
Proof.
  induction starts as [|a r IH]; intros fm cc Hc Hm; cbn [fold_left flat_map].
  - cbn. rewrite app_nil_r. now destruct fm.
  - apply Forall_app in Hc as [Hc1 Hc2].
    assert (fm = None -> forall p l, parsed_chunk env pdf_path N a = p :: l ->
              metadata p <> None) as Hhead.
    { intros Hfm p l E.
      apply (Hm Hfm p (l ++ flat_map (parsed_chunk env pdf_path N) r)%list).
      cbn [flat_map]. now rewrite E. }
    rewrite parse_chunk_step; [|exact Hc1|].
    + rewrite IH; [| exact Hc2 |].
      * rewrite map_app, app_assoc. f_equal. f_equal.
        destruct fm as [m|]; [reflexivity|].
        destruct (parsed_chunk env pdf_path N a) as [|p l] eqn:E; [reflexivity|].
        cbn. specialize (Hhead eq_refl p l eq_refl).
        destruct (metadata p); [reflexivity | congruence].
      * destruct fm as [m|]; [discriminate|].
        destruct (parsed_chunk env pdf_path N a) as [|p l] eqn:E.
        -- intros _ q r' Hq. apply (Hm eq_refl q r'). cbn [flat_map]. rewrite E. exact Hq.
        -- cbn. specialize (Hhead eq_refl p l eq_refl).
           destruct (metadata p); [discriminate | congruence].
    + intros ->. destruct (parsed_chunk env pdf_path N a) as [|p l] eqn:E;
        [constructor|].
      pose proof (Hhead eq_refl p l eq_refl) as Hp.
      unfold parsed_chunk in E.
      assert (l = []) as ->.
      { destruct (pdf_write _ _ _ _); [|discriminate].
        destruct (from_buffer _ _ _ _ _); [|discriminate]. congruence. }
      constructor; [exact Hp | constructor].
Qed.

Lemma chunk_pdf_and_parse_spec (env : Env) (pdf_path : string) (N : Z) :
  pdf_reader env pdf_path false = Some N ->
  Forall (fun p => content p <> None) (parsed_chunks env pdf_path N) ->
  (forall p r, parsed_chunks env pdf_path N = p :: r -> metadata p <> None) ->
  chunk_pdf_and_parse env pdf_path
  = Some (Some {|
      metadata := first_metadata_of N (parsed_chunks env pdf_path N);
      content := Some (String.concat ""
                         (map text_of (parsed_chunks env pdf_path N))) |}).
Proof.
  intros Hr Hc Hm. unfold chunk_pdf_and_parse. rewrite Hr.
  rewrite (PageFacts.py_range_chunks N 10) by lia.
  fold (parsed_chunks env pdf_path N) in *.
  unfold parsed_chunks in *.
  rewrite parse_chunks; [reflexivity | exact Hc | intros _; exact Hm].
Qed.

(** The family step returns when the thread identifiers of the
    metadata are strings. *)
Lemma family_step_returns (fname : string) (md : Dict.t mvalue)
    (family_id : option string) (st : Creator) :
  (forall l, Dict.get md "Thread-Index" <> Some (MList l)) ->
  (forall l, Dict.get md "Message-ID" <> Some (MList l)) ->
  snd ((match family_id with
        | Some k => if negb (String.eqb k "") then Exc.ret (VStr k)
                    else identify_document_family fname md
        | None => identify_document_family fname md
        end) st) <> None.
Proof.
  intros Ht Hm.
  assert (snd (identify_document_family fname md st) <> None) as Hid.
  { unfold identify_document_family.
    assert (forall l, Dict.get_default md "Thread-Index"
                        (Dict.get_default md "Message-ID" (MStr "")) <> MList l) as Hl.
    { intros l. unfold Dict.get_default.
      destruct (Dict.get md "Thread-Index") as [v|] eqn:E1.
      - intros ->. now apply (Ht l).
      - destruct (Dict.get md "Message-ID") as [v|] eqn:E2; [|discriminate].
        intros ->. now apply (Hm l). }
    repeat match goal with
           | |- context [if ?b then _ else _] => destruct b
           end;
      try apply OrderFacts.family_of_returns; try discriminate.
    destruct (Dict.get_default md "Thread-Index" _) as [k|l] eqn:E;
      [apply OrderFacts.family_of_returns | exfalso; now apply (Hl l)]. }
  destruct family_id as [k|]; [|exact Hid].
  destruct (negb (String.eqb k "")); [discriminate | exact Hid].
Qed.

(** With the native copied and the text written, the publishing part
    returns success, whatever page expansion meets. *)
Lemma build_and_publish_succeeds (env : Env) (cl : Closure) (fname B : string)
    (family_id : option string) (p : parsed) (md : Dict.t mvalue) (st : Creator) :
  metadata p = Some md ->
  (forall l, Dict.get md "Thread-Index" <> Some (MList l)) ->
  (forall l, Dict.get md "Message-ID" <> Some (MList l)) ->
  (forall a b, copy2 env a b = true) ->
  (forall a b, write_text env a b = true) ->
  snd (build_and_publish env cl fname B family_id p st) = Some (Success B).
Proof.
  intros Hmd Ht Hm Hcopy Hwrite. unfold build_and_publish.
  unfold Exc.bind at 1, Exc.lift at 1. rewrite Hmd.
  unfold Exc.bind at 1.
  pose proof (family_step_returns fname md family_id st Ht Hm) as Hfam.
  match goal with
  | |- context [match ?m st with _ => _ end] => destruct (m st) as [s1 [fam|]]
  end; [|now cbn in Hfam].
  unfold Exc.bind at 1, Exc.get at 1.
  unfold Exc.bind at 1, Exc.guard at 1. rewrite Hcopy.
  unfold Exc.bind at 1, Exc.guard at 1. rewrite Hwrite.
  unfold Exc.bind at 1.
  pose proof (OrderFacts.pages_step_returns env cl fname B
                (snd (Path.splitext fname)) s1) as Hpages.
  match goal with
  | |- context [match ?m s1 with _ => _ end] => destruct (m s1) as [s2 [[]|]]
  end; [|discriminate].
  reflexivity.
Qed.

End ChunkFacts.


Module DateFacts.

Lemma two_digits (v : Z) :
  0 <= v < 100 ->
  exists a b, PyStr.format_0d 2 v = String a (String b "")
              /\ PyStr.is_digit a = true /\ PyStr.is_digit b = true.
Proof.
  intros H.
  assert (In v (zrange 0 100)) as Hx.
  { apply in_map_iff. exists (Z.to_nat v). split; [lia|]. apply in_seq. lia. }
  assert (forallb (fun x => match PyStr.format_0d 2 x with
                            | String a (String b "") =>
                                PyStr.is_digit a && PyStr.is_digit b
                            | _ => false
                            end) (zrange 0 100) = true) as Hall
    by (vm_compute; reflexivity).
  rewrite forallb_forall in Hall. specialize (Hall v Hx).
  destruct (PyStr.format_0d 2 v) as [|a [|b [|]]]; try discriminate.
  apply andb_prop in Hall as [Ha Hb]. eauto.
Qed.

Lemma four_digits (v : Z) :
  1000 <= v <= 9999 ->
  exists a b c d, PyStr.str_int v = String a (String b (String c (String d "")))
                  /\ PyStr.is_digit a = true /\ PyStr.is_digit b = true
                  /\ PyStr.is_digit c = true /\ PyStr.is_digit d = true.
Proof.
  intros H.
  assert (In v (zrange 1000 9000)) as Hin.
  { apply in_map_iff. exists (Z.to_nat (v - 1000)). split; [lia|]. apply in_seq. lia. }
  assert (forallb (fun x => match PyStr.str_int x with
                            | String a (String b (String c (String d ""))) =>
                                PyStr.is_digit a && PyStr.is_digit b
                                && PyStr.is_digit c && PyStr.is_digit d
                            | _ => false
                            end) (zrange 1000 9000) = true) as Hall
    by (vm_compute; reflexivity).
  rewrite forallb_forall in Hall. specialize (Hall v Hin).
  destruct (PyStr.str_int v) as [|a [|b [|c [|d [|]]]]]; try discriminate.
  apply andb_prop in Hall as [Hall Hd]. apply andb_prop in Hall as [Hall Hc].
  apply andb_prop in Hall as [Ha Hb]. exists a, b, c, d. auto.
Qed.

Lemma strptime_valid (s : string) (x : DateTime.t) :
  DateTime.strptime_iso s = Some x -> DateTime.valid x = true.
Proof.
  unfold DateTime.strptime_iso.
  repeat match goal with
         | |- context [match ?e with _ => _ end] =>
             lazymatch e with
             | DateTime.valid _ => fail
             | _ => destruct e; try discriminate
             end
         end.
  destruct (DateTime.valid _) eqn:E; [|discriminate].
  now intros [= <-].
Qed.

Lemma valid_ranges (x : DateTime.t) :
  DateTime.valid x = true ->
  1 <= DateTime.year x <= 9999 /\ 1 <= DateTime.month x <= 12
  /\ 1 <= DateTime.day x <= 31 /\ 0 <= DateTime.hour x <= 23
  /\ 0 <= DateTime.minute x <= 59 /\ 0 <= DateTime.second x <= 59.
Proof.
  unfold DateTime.valid. rewrite !andb_true_iff, !Z.leb_le.
  intros H. decompose [and] H. clear H.
  assert (DateTime.days_in_month (DateTime.year x) (DateTime.month x) <= 31).
  { unfold DateTime.days_in_month.
    repeat match goal with |- context [if ?b then _ else _] => destruct b end; lia. }
  lia.
Qed.

Lemma mdY_form (x : DateTime.t) :
  DateTime.valid x = true -> 1000 <= DateTime.year x ->
  is_mdY (DateTime.strftime_mdY x) = true.
Proof.
  intros Hv Hy. apply valid_ranges in Hv as (HY & Hm & Hd & _).
  unfold DateTime.strftime_mdY.
  destruct (two_digits (DateTime.month x) ltac:(lia)) as (a & b & -> & Ha & Hb).
  destruct (two_digits (DateTime.day x) ltac:(lia)) as (c & d & -> & Hc & Hd').
  destruct (four_digits (DateTime.year x) ltac:(lia))
    as (e & f & g & h & -> & He & Hf & Hg & Hh).
  unfold is_mdY, date_pattern.
  change (PyStr.is_digit) with Re.d in *.
  cbn -[Re.d]. rewrite Ha, Hb. cbn -[Re.d].
  rewrite Hc, Hd'. cbn -[Re.d]. rewrite He, Hf, Hg, Hh. reflexivity.
Qed.

Lemma HMS_length (x : DateTime.t) :
  DateTime.valid x = true -> String.length (DateTime.strftime_HMS x) = 8%nat.
Proof.
  intros Hv. apply valid_ranges in Hv as (_ & _ & _ & Hh & Hm & Hs).
  destruct (two_digits (DateTime.hour x) ltac:(lia)) as (a & b & E1 & _).
  destruct (two_digits (DateTime.minute x) ltac:(lia)) as (c & d & E2 & _).
  destruct (two_digits (DateTime.second x) ltac:(lia)) as (e & f & E3 & _).
  unfold DateTime.strftime_HMS. now rewrite E1, E2, E3.
Qed.

End DateFacts.

Module GroupFacts.

Lemma set_append_perm (d : Dict.t (list string)) (k f : string) :
  Permutation (List.concat (map snd (family_append d k f))) (f :: List.concat (map snd d)).
Proof.
  unfold family_append, Dict.get_default.
  induction d as [|[k' v'] r IH]; cbn [Dict.get Dict.set map snd List.concat].
  - cbn. apply Permutation_refl.
  - destruct (String.eqb k' k) eqn:E; cbn [map snd List.concat].
    + rewrite <- app_assoc. cbn [app].
      apply Permutation_sym, Permutation_middle.
    + etransitivity; [apply Permutation_app_head, IH|].
      apply Permutation_sym, Permutation_middle.
Qed.

Lemma set_keys (V : Type) (d : Dict.t V) (k : string) (v : V) :
  NoDup (map fst d) -> NoDup (map fst (Dict.set d k v)).
Proof.
  induction d as [|[k' v'] r IH]; cbn [Dict.set map fst]; intros H.
  - repeat constructor. intros [].
  - inversion H as [|? ? Hnin Hr]; subst.
    destruct (String.eqb k' k) eqn:E; cbn [map fst]; [exact H|].
    constructor; [|now apply IH].
    intros Hin. apply in_map_iff in Hin as ([k2 v2] & Hk & Hin). cbn in Hk. subst k2.
    apply FamilyFacts.in_set in Hin as [[-> _]|Hin].
    + now rewrite String.eqb_refl in E.
    + apply Hnin. apply in_map_iff. exists (k', v2). auto.
Qed.

Lemma set_nonempty (d : Dict.t (list string)) (k f : string) :
  Forall (fun kl => snd kl <> []) d ->
  Forall (fun kl => snd kl <> []) (family_append d k f).
Proof.
  intros H. apply Forall_forall. intros [k' l] Hin.
  apply FamilyFacts.in_set in Hin as [[-> ->]|Hin].
  - cbn. now destruct (Dict.get_default d k []).
  - rewrite Forall_forall in H. now apply (H (k', l)).
Qed.

Lemma groups_accumulate (env : Env) (files : list string) :
  forall d acc,
    Permutation (List.concat (map snd d)) acc ->
    NoDup (map fst d) ->
    Forall (fun kl => snd kl <> []) d ->
    let d' := fold_left (group_step env) files d in
    Permutation (List.concat (map snd d')) (acc ++ filter is_email files)
    /\ NoDup (map fst d')
    /\ Forall (fun kl => snd kl <> []) d'.
Proof.
  induction files as [|f r IH]; intros d acc Hp Hk Hn; cbn [fold_left filter].
  - rewrite app_nil_r. auto.
  - change (group_step env d f)
      with (if is_email f then family_append d (family_key_of env f) f else d).
    destruct (is_email f) eqn:E.
    + specialize (IH (family_append d (family_key_of env f) f) (acc ++ [f])%list).
      rewrite <- app_assoc in IH. cbv zeta in IH. cbn [app] in IH. apply IH.
      * etransitivity; [apply set_append_perm|].
        etransitivity; [apply perm_skip, Hp|].
        apply Permutation_cons_append.
      * now apply set_keys.
      * now apply set_nonempty.
    + now apply IH.
Qed.

Lemma family_id_of_none (d : Dict.t (list string)) (f : string) :
  (forall k l, In (k, l) d -> ~ In f l) -> family_id_of d f = None.
Proof.
  induction d as [|[k l] r IH]; intros H; cbn [family_id_of]; [reflexivity|].
  destruct (in_list f l) eqn:E.
  - apply FamilyFacts.in_list_iff in E. exfalso. apply (H k l); [now left | exact E].
  - apply IH. intros k' l' Hin. apply (H k' l'). now right.
Qed.

End GroupFacts.



(** ** The page count of a PDF *)

Module PageCountFacts.

Lemma parse_chunk_counted (env : Env) (pdf_path : string) (N t a : Z)
    (acc : option (option (Dict.t mvalue) * list string)) :
  counted N acc -> counted N (parse_chunk env pdf_path N t acc a).
Proof.
  intros Hacc. unfold parse_chunk.
  destruct acc as [[fm cc]|]; [|exact Hacc].
  destruct (negb (pdf_write env pdf_path a (Z.min (a + 10) N))); [exact Hacc|].
  destruct (from_buffer env pdf_path a (Z.min (a + 10) N) t) as [p|]; [|exact Hacc].
  destruct fm as [m0|].
  - destruct (content p); [|discriminate].
    intros fm' cc' m [= <- _] [= <-]. now apply (Hacc (Some m0) cc m0).
  - destruct (metadata p) as [m0|]; [|discriminate].
    destruct (content p); [|discriminate].
    intros fm' cc' m [= <- _] [= <-]. apply DictFacts.get_set_same.
Qed.

Lemma fold_counted (env : Env) (pdf_path : string) (N t : Z) (starts : list Z) :
  forall acc, counted N acc ->
    counted N (fold_left (parse_chunk env pdf_path N t) starts acc).
Proof.
  induction starts as [|a r IH]; intros acc H; cbn [fold_left]; [exact H|].
  apply IH. now apply parse_chunk_counted.
Qed.

Lemma chunk_pdf_and_parse_counted (env : Env) (pdf_path : string) (N : Z)
    (p : parsed) (md : Dict.t mvalue) :
  pdf_reader env pdf_path false = Some N ->
  chunk_pdf_and_parse env pdf_path = Some (Some p) ->
  metadata p = Some md ->
  Dict.get md "xmpTPg:NPages" = Some (MStr (PyStr.str_int N)).
Proof.
  intros Hr. unfold chunk_pdf_and_parse. rewrite Hr.
  destruct (py_range 0 N 10) as [starts|]; [|discriminate].
  pose proof (fold_counted env pdf_path N 300 starts (Some (None, []))) as H.
  destruct (fold_left _ starts _) as [[fm cc]|]; [|discriminate].
  intros [= <-] Hmd. cbn in Hmd.
  apply (H ltac:(intros ? ? ? [= <- _]; discriminate) fm cc md eq_refl Hmd).
Qed.

End PageCountFacts.

(** ** Paths *)

Module PathFacts.
Import PyStr PyStrFacts.

Lemma len_app (a b : string) : len (a ++ b) = len a + len b.
Proof. unfold len. rewrite WidthFacts.length_app. lia. Qed.

Lemma len_nonneg (s : string) : 0 <= len s.
Proof. unfold len. lia. Qed.

Lemma drop_app (a b : string) : drop (String.length a) (a ++ b) = b.
Proof. induction a as [|c r IH]; [now destruct b | exact IH]. Qed.

Lemma take_app (a b : string) : take (String.length a) (a ++ b) = a.
Proof.
  induction a as [|c r IH]; [now destruct b|]. cbn. now rewrite IH.
Qed.

Lemma take_all (a : string) : take (String.length a) a = a.
Proof. induction a as [|c r IH]; [reflexivity|]. cbn. now rewrite IH. Qed.

Lemma rfind_from_app (c : ascii) (a b : string) :
  forall i best,
    rfind_char_from c (a ++ b) i best
    = rfind_char_from c b (i + len a) (rfind_char_from c a i best).
Proof.
  unfold len. induction a as [|x r IH]; intros i best; cbn [append rfind_char_from].
  - f_equal. cbn. lia.
  - rewrite IH. f_equal. cbn [String.length]. lia.
Qed.

Lemma rfind_from_absent (c : ascii) (s : string) :
  mem_char c s = false -> forall i best, rfind_char_from c s i best = best.
Proof.
  induction s as [|x r IH]; intros H i best; [reflexivity|].
  cbn [mem_char] in H. apply orb_false_iff in H as [Hx Hr].
  cbn [rfind_char_from]. rewrite Ascii.eqb_sym, Hx. now apply IH.
Qed.

(** The search gives back [best] or an index of the string. *)
Lemma rfind_from_range (c : ascii) (s : string) :
  forall i best,
    rfind_char_from c s i best = best
    \/ i <= rfind_char_from c s i best < i + len s.
Proof.
  unfold len. induction s as [|x r IH]; intros i best; [now left|].
  cbn [rfind_char_from String.length]. rewrite Nat2Z.inj_succ.
  destruct (Ascii.eqb x c).
  - right. destruct (IH (i + 1) i) as [-> | H]; lia.
  - destruct (IH (i + 1) best) as [-> | H]; [now left | right; lia].
Qed.

Lemma rfind_from_present (c : ascii) (s : string) :
  mem_char c s = true ->
  forall i best, i <= rfind_char_from c s i best < i + len s.
Proof.
  unfold len. induction s as [|x r IH]; intros H i best; [discriminate|].
  cbn [mem_char] in H. cbn [rfind_char_from String.length]. rewrite Nat2Z.inj_succ.
  rewrite Ascii.eqb_sym in H. destruct (Ascii.eqb x c); cbn [orb] in H.
  - destruct (rfind_from_range c r (i + 1) i) as [-> | Hr]; unfold len in *; lia.
  - specialize (IH H (i + 1) best). lia.
Qed.

Lemma clamp_inside (i n : Z) : 0 <= i <= n -> clamp i n = i.
Proof. intros H. unfold clamp. replace (i <? 0) with false by (symmetry; apply Z.ltb_ge; lia). lia. Qed.

Lemma slice_from_app (a b : string) : slice_from (a ++ b) (len a) = b.
Proof.
  unfold slice_from. rewrite clamp_inside.
  - unfold len. rewrite Nat2Z.id. apply drop_app.
  - rewrite len_app. pose proof (len_nonneg a). pose proof (len_nonneg b). lia.
Qed.

Lemma slice_prefix (a b : string) : slice (a ++ b) 0 (len a) = a.
Proof.
  unfold slice. pose proof (len_nonneg a). pose proof (len_nonneg b).
  rewrite !clamp_inside by (rewrite len_app; lia).
  cbn [Z.to_nat drop]. rewrite Z.sub_0_r. unfold len. rewrite Nat2Z.id.
  apply take_app.
Qed.

Lemma slice_middle (a b c : string) :
  slice (a ++ b ++ c) (len a) (len a + len b) = b.
Proof.
  unfold slice. pose proof (len_nonneg a). pose proof (len_nonneg b).
  pose proof (len_nonneg c).
  rewrite !clamp_inside by (rewrite !len_app; lia).
  replace (len a + len b - len a) with (len b) by lia.
  unfold len. rewrite !Nat2Z.id, drop_app. apply take_app.
Qed.

(** Every path is a directory part, empty or ending in a slash,
    followed by a last component without a slash. *)
Lemma components (p : string) :
  exists d b,
    p = d ++ b /\ mem_char "/" b = false
    /\ (d = "" \/ exists d', d = d' ++ "/").
Proof.
  induction p as [|c r (d & b & -> & Hb & Hd)].
  - exists "", "". auto.
  - destruct Hd as [-> | (d' & ->)].
    + destruct (Ascii.eqb c "/") eqn:E.
      * apply Ascii.eqb_eq in E. subst c. exists "/", b.
        repeat split; auto. right. now exists "".
      * exists "", (String c b). repeat split; auto.
        cbn [mem_char]. rewrite Ascii.eqb_sym, E. exact Hb.
    + exists (String c d' ++ "/"), b.
      split; [reflexivity|]. split; [exact Hb|]. right. now exists (String c d').
Qed.

Lemma rfind_sep (d b : string) :
  mem_char "/" b = false -> (d = "" \/ exists d', d = d' ++ "/") ->
  rfind_char (d ++ b) "/" = len d - 1.
Proof.
  intros Hb Hd. unfold rfind_char. rewrite rfind_from_app.
  rewrite (rfind_from_absent _ _ Hb).
  destruct Hd as [-> | (d' & ->)]; [reflexivity|].
  rewrite rfind_from_app, len_app. cbn. change (len "/") with 1. lia.
Qed.

Lemma basename_app (d b : string) :
  mem_char "/" b = false -> (d = "" \/ exists d', d = d' ++ "/") ->
  Path.basename (d ++ b) = b.
Proof.
  intros Hb Hd. unfold Path.basename. rewrite (rfind_sep d b Hb Hd).
  replace (len d - 1 + 1) with (len d) by lia. apply slice_from_app.
Qed.

(** The last dot of a directory part that ends in a slash lies before
    the slash. *)
Lemma rfind_dot_dir (d : string) :
  (d = "" \/ exists d', d = d' ++ "/") -> rfind_char d "." <= len d - 1
  /\ (rfind_char d "." = len d - 1 -> d = "").
Proof.
  intros [-> | (d' & ->)]; [cbn; split; [lia | reflexivity]|].
  unfold rfind_char. rewrite rfind_from_app, len_app.
  change (len "/") with 1. cbn [rfind_char_from]. change (Ascii.eqb "/" ".") with false.
  cbv iota. destruct (rfind_from_range "." d' 0 (-1)) as [-> | H];
    pose proof (len_nonneg d'); split; lia.
Qed.

Lemma rfind_from_shift (c : ascii) (s : string) (k : Z) :
  forall i best,
    rfind_char_from c s (i + k) (best + k) = k + rfind_char_from c s i best.
Proof.
  induction s as [|x r IH]; intros i best; cbn [rfind_char_from]; [lia|].
  replace (i + k + 1) with (i + 1 + k) by lia.
  destruct (Ascii.eqb x c); apply IH.
Qed.

Lemma rfind_from_present_shift (c : ascii) (s : string) (k : Z) :
  mem_char c s = true ->
  forall i best best',
    rfind_char_from c s (i + k) best' = k + rfind_char_from c s i best.
Proof.
  induction s as [|x r IH]; intros H i best best'; [discriminate|].
  cbn [mem_char] in H. cbn [rfind_char_from].
  replace (i + k + 1) with (i + 1 + k) by lia.
  rewrite Ascii.eqb_sym in H. destruct (Ascii.eqb x c); cbn [orb] in H.
  - apply rfind_from_shift.
  - now apply IH.
Qed.

Lemma take_drop (n : nat) (s : string) : take n s ++ drop n s = s.
Proof.
  revert s. induction n as [|n IH]; intros [|c r]; cbn; try reflexivity.
  now rewrite IH.
Qed.

Lemma take_length (n : nat) (s : string) :
  (n <= String.length s)%nat -> String.length (take n s) = n.
Proof.
  revert s. induction n as [|n IH]; intros [|c r]; cbn; intros H; try lia.
  rewrite IH; lia.
Qed.

(** [splitext] looks at the last component only. *)
Lemma splitext_app (d b : string) :
  mem_char "/" b = false -> (d = "" \/ exists d', d = d' ++ "/") ->
  Path.splitext (d ++ b) = (d ++ fst (Path.splitext b), snd (Path.splitext b)).
Proof.
  intros Hb Hd. unfold Path.splitext.
  rewrite (rfind_sep d b Hb Hd).
  replace (rfind_char b "/") with (-1)
    by (unfold rfind_char; now rewrite (rfind_from_absent _ _ Hb)).
  pose proof (len_nonneg d) as Hld. pose proof (len_nonneg b) as Hlb.
  destruct (mem_char "." b) eqn:Hdot.
  - pose proof (rfind_from_present "." b Hdot 0 (-1)) as Hk.
    assert (rfind_char (d ++ b) "." = len d + rfind_char b ".") as ->.
    { unfold rfind_char. rewrite rfind_from_app.
      now rewrite (rfind_from_present_shift "." b (len d) Hdot 0 (-1)). }
    fold (rfind_char b ".") in Hk. set (k := rfind_char b ".") in *.
    replace (len d - 1 <? len d + k) with true by (symmetry; apply Z.ltb_lt; lia).
    replace (-1 <? k) with true by (symmetry; apply Z.ltb_lt; lia).
    cbn [andb]. replace (len d - 1 + 1) with (len d) by lia.
    replace (-1 + 1) with 0 by lia.
    pose proof (take_drop (Z.to_nat k) b) as Hsplit.
    assert (len (take (Z.to_nat k) b) = k) as Hlen
      by (unfold len in *; rewrite take_length; lia).
    set (b1 := take (Z.to_nat k) b) in *. set (b2 := drop (Z.to_nat k) b) in *.
    rewrite <- Hsplit. unfold Path.has_non_dot.
    clearbody b1 b2. clear Hsplit. subst k. rewrite <- Hlen.
    rewrite slice_middle, !slice_prefix, !slice_from_app.
    rewrite <- (append_assoc d b1 b2), <- len_app, slice_prefix, slice_from_app.
    destruct (negb (String.eqb (lstrip_chars "." b1) "")); cbn [fst snd];
      [reflexivity | now rewrite append_assoc].
  - assert (rfind_char (d ++ b) "." = rfind_char d ".") as ->
      by (unfold rfind_char; now rewrite rfind_from_app, (rfind_from_absent _ _ Hdot)).
    replace (rfind_char b ".") with (-1)
      by (unfold rfind_char; now rewrite (rfind_from_absent _ _ Hdot)).
    destruct (rfind_dot_dir d Hd) as [Hle _].
    replace (len d - 1 <? rfind_char d ".") with false
      by (symmetry; apply Z.ltb_ge; lia).
    reflexivity.
Qed.

End PathFacts.

(** ** Lower case *)

Module LowerFacts.
Import PyStr PyStrFacts PathFacts.

Lemma lower_char_idem (c : ascii) : lower_char (lower_char c) = lower_char c.
Proof. destruct c as [[] [] [] [] [] [] [] []]; reflexivity. Qed.

Lemma lower_char_sep (c : ascii) :
  Ascii.eqb (lower_char c) "/" = Ascii.eqb c "/"
  /\ Ascii.eqb (lower_char c) "." = Ascii.eqb c ".".
Proof. destruct c as [[] [] [] [] [] [] [] []]; split; reflexivity. Qed.

Lemma lower_idem (s : string) : lower (lower s) = lower s.
Proof.
  induction s as [|c r IH]; [reflexivity|]. cbn. now rewrite lower_char_idem, IH.
Qed.

Lemma lower_app (a b : string) : lower (a ++ b) = lower a ++ lower b.
Proof. induction a as [|c r IH]; [reflexivity|]. cbn. now rewrite IH. Qed.

Lemma lower_length (s : string) : String.length (lower s) = String.length s.
Proof. induction s as [|c r IH]; [reflexivity|]. cbn. now rewrite IH. Qed.

Lemma lower_drop (n : nat) (s : string) : drop n (lower s) = lower (drop n s).
Proof. revert s. induction n as [|n IH]; intros [|c r]; cbn; auto. Qed.

Lemma lower_take (n : nat) (s : string) : take n (lower s) = lower (take n s).
Proof.
  revert s. induction n as [|n IH]; intros [|c r]; cbn; auto. now rewrite IH.
Qed.

Lemma lower_rfind (q : ascii) (s : string) :
  (forall c, Ascii.eqb (lower_char c) q = Ascii.eqb c q) ->
  forall i best, rfind_char_from q (lower s) i best = rfind_char_from q s i best.
Proof.
  intros Hq. induction s as [|c r IH]; intros i best; [reflexivity|].
  cbn [lower rfind_char_from]. now rewrite Hq, IH.
Qed.

Lemma lower_lstrip_dot (s : string) :
  lstrip_chars "." (lower s) = lower (lstrip_chars "." s).
Proof.
  induction s as [|c r IH]; [reflexivity|]. cbn [lower lstrip_chars mem_char].
  destruct (lower_char_sep c) as [_ H]. rewrite H.
  destruct (Ascii.eqb c "."); cbn [orb]; [exact IH | reflexivity].
Qed.

Lemma lower_empty (s : string) : String.eqb (lower s) "" = String.eqb s "".
Proof. now destruct s. Qed.

Lemma lower_slice (s : string) (i j : Z) : slice (lower s) i j = lower (slice s i j).
Proof.
  unfold slice, len. now rewrite lower_length, lower_drop, lower_take.
Qed.

Lemma lower_slice_from (s : string) (i : Z) :
  slice_from (lower s) i = lower (slice_from s i).
Proof. unfold slice_from, len. now rewrite lower_length, lower_drop. Qed.

Lemma lower_basename (p : string) : Path.basename (lower p) = lower (Path.basename p).
Proof.
  unfold Path.basename, rfind_char.
  rewrite lower_rfind by (intros c; apply lower_char_sep).
  apply lower_slice_from.
Qed.

Lemma lower_splitext (p : string) :
  Path.splitext (lower p)
  = (lower (fst (Path.splitext p)), lower (snd (Path.splitext p))).
Proof.
  unfold Path.splitext, rfind_char, Path.has_non_dot.
  rewrite !lower_rfind by (intros c; apply lower_char_sep).
  rewrite lower_slice, lower_lstrip_dot, lower_empty, lower_slice, lower_slice_from.
  now destruct (_ && _).
Qed.

(** The extension [determine_document_type] looks at is the lower-cased
    extension of the path. *)
Lemma type_extension (p : string) :
  lower (snd (Path.splitext (lower (Path.basename p))))
  = lower (snd (Path.splitext p)).
Proof.
  rewrite lower_splitext. cbn [snd]. rewrite lower_idem.
  destruct (components p) as (d & b & -> & Hb & Hd).
  now rewrite (basename_app d b Hb Hd), (splitext_app d b Hb Hd).
Qed.

End LowerFacts.

(** ** Bates stamps *)

Module StampFacts.
Import PyStr PyStrFacts PathFacts.

(** The search ends at the largest size that fits. *)
Lemma fit_font_spec (cv : Canvas) (text : string) (w h m : Z) :
  forall fuel size,
    (Z.to_nat (size - 7) <= fuel)%nat ->
    match fit_font cv text w h m fuel size with
    | Some s =>
        min_font_size <= s <= size
        /\ fits cv text w h m s = true
        /\ forall s', s < s' <= size -> fits cv text w h m s' = false
    | None =>
        forall s', min_font_size <= s' <= size -> fits cv text w h m s' = false
    end.
Proof.
  unfold min_font_size.
  induction fuel as [|k IH]; intros size Hf; cbn [fit_font]; unfold min_font_size.
  - intros s' Hs. lia.
  - destruct (size <? 8) eqn:E8.
    + apply Z.ltb_lt in E8. intros s' Hs. lia.
    + apply Z.ltb_ge in E8.
      destruct (fits cv text w h m size) eqn:Efit.
      * split; [lia|]. split; [exact Efit|]. intros s' Hs. lia.
      * specialize (IH (size - 1) ltac:(lia)).
        destruct (fit_font cv text w h m k (size - 1)) as [s|].
        -- destruct IH as (Hr & Hs & Hmax). split; [lia|]. split; [exact Hs|].
           intros s' Hs'. destruct (Z.eq_dec s' size) as [->|Hne]; [exact Efit|].
           apply Hmax. lia.
        -- intros s' Hs'. destruct (Z.eq_dec s' size) as [->|Hne]; [exact Efit|].
           apply IH. lia.
Qed.


Lemma border_ops_uniform (bw x y : Z) (text : string) (fill : list Z) (f : font) :
  Forall (fun o => op_font o = f /\ op_text o = text)
         (border_ops bw x y text fill f).
Proof.
  unfold border_ops. apply Forall_forall. intros o Ho.
  apply in_flat_map in Ho as (dx & _ & Ho).
  apply in_flat_map in Ho as (dy & _ & Ho).
  destruct (negb (dx =? 0) || negb (dy =? 0)); [|destruct Ho].
  destruct Ho as [<-|[]]. now split.
Qed.

(** What a stamp that was drawn consists of. *)
Lemma stamped_shape (cv : Canvas) (cfg : BatesConfig) (img text : string)
    (size0 m w h : Z) (ops : list draw_op) :
  font_size cfg = Some size0 -> margin cfg = Some m ->
  image_size cv img = Some (w, h) ->
  add_bates_stamp_with_config cv cfg img text = Stamped ops ->
  exists size before fill,
    fit_font cv text w h m (Z.to_nat (size0 - 7)) size0 = Some size
    /\ ops = (before
              ++ [DrawText
                    (fst (stamp_position (or_else (position cfg) "bottom-right")
                            m w h (fst (text_size cv size text))
                            (snd (text_size cv size text))))
                    (snd (stamp_position (or_else (position cfg) "bottom-right")
                            m w h (fst (text_size cv size text))
                            (snd (text_size cv size text))))
                    text fill (load_font cv size)])%list
    /\ Forall (fun o => op_font o = load_font cv size /\ op_text o = text) ops.
Proof.
  intros Hs Hm Hi. unfold add_bates_stamp_with_config. rewrite Hs, Hi, Hm.
  destruct (size0 <? min_font_size); [discriminate|].
  destruct (fit_font cv text w h m (Z.to_nat (size0 - 7)) size0) as [size|];
    [|discriminate].
  destruct (text_size cv size text) as [tw th] eqn:Ets.
  destruct (stamp_position _ m w h tw th) as [x y] eqn:Epos.
  destruct (match contrast_threshold cfg with Some _ => _ | None => _ end)
    as [fill|]; [|discriminate].
  set (border := if or_else (add_border cfg) false then _ else []).
  assert (Forall (fun o => op_font o = load_font cv size /\ op_text o = text)
                 border) as Hb.
  { subst border. destruct (or_else (add_border cfg) false);
      [apply border_ops_uniform | constructor]. }
  destruct (if or_else (shadow cfg) false then _ else Some [])
    as [sh|] eqn:Esh; [|discriminate].
  assert (Forall (fun o => op_font o = load_font cv size /\ op_text o = text)
                 sh) as Hsh.
  { destruct (or_else (shadow cfg) false).
    - destruct (nth_error _ 0); [|discriminate].
      destruct (nth_error _ 1); [|discriminate].
      injection Esh as <-. repeat constructor.
    - injection Esh as <-. constructor. }
  destruct (save cv img _); [|discriminate].
  intros [= <-]. exists size, (sh ++ border)%list, fill.
  split; [reflexivity|]. rewrite Ets. cbn [fst snd]. rewrite Epos. cbn [fst snd].
  split; [apply app_assoc|].
  apply Forall_app. split; [exact Hsh|]. apply Forall_app. split; [exact Hb|].
  repeat constructor.
Qed.

(** *** The name and the extension read off an image path *)

Lemma rfind_last (c : ascii) (s : string) :
  forall i best,
    best < i -> i <= rfind_char_from c s i best ->
    exists a e,
      s = a ++ String c e
      /\ rfind_char_from c s i best = i + len a
      /\ mem_char c e = false.
Proof.
  induction s as [|d r IH]; intros i best Hb Hr; cbn [rfind_char_from] in *.
  - lia.
  - destruct (mem_char c r) eqn:Em.
    + pose proof (rfind_from_present c r Em (i + 1)
                    (if Ascii.eqb d c then i else best)) as Hp.
      destruct (IH (i + 1) (if Ascii.eqb d c then i else best)) as (a & e & -> & Hk & He).
      * destruct (Ascii.eqb d c); lia.
      * lia.
      * exists (String d a), e. split; [reflexivity|]. split; [|exact He].
        rewrite Hk. unfold len. cbn [String.length]. lia.
    + rewrite (rfind_from_absent c r Em) in *.
      destruct (Ascii.eqb d c) eqn:Ed; [|lia].
      apply Ascii.eqb_eq in Ed. subst d. exists "", r.
      split; [reflexivity|]. split; [|exact Em]. unfold len. cbn. lia.
Qed.

(** The extension [os.path.splitext] returns is empty, or a dot
    followed by characters that are neither dots nor separators. *)
Lemma splitext_ext_form (p : string) :
  snd (Path.splitext p) = ""
  \/ exists e,
       snd (Path.splitext p) = String "." e
       /\ mem_char "." e = false /\ mem_char "/" e = false.
Proof.
  unfold Path.splitext.
  destruct ((rfind_char p "/" <? rfind_char p ".") && _) eqn:E; [|now left].
  right. apply andb_prop in E as [E _]. apply Z.ltb_lt in E.
  assert (-1 <= rfind_char p "/") as Hsep.
  { unfold rfind_char. destruct (rfind_from_range "/" p 0 (-1)); lia. }
  destruct (rfind_last "." p 0 (-1) ltac:(lia)) as (a & e & Hp & Hk & He).
  { unfold rfind_char in *. lia. }
  exists e. cbn [snd]. unfold rfind_char at 1. rewrite Hk.
  split; [|split; [exact He|]].
  - rewrite Hp at 1. apply slice_from_app.
  - destruct (mem_char "/" e) eqn:Es; [|reflexivity]. exfalso.
    unfold rfind_char in E. rewrite Hk in E. rewrite Hp in E.
    rewrite rfind_from_app in E. cbn [rfind_char_from] in E.
    pose proof (rfind_from_present "/" e Es (0 + len a + 1)
                  (if Ascii.eqb "." "/" then 0 + len a
                   else rfind_char_from "/" a 0 (-1))) as Hq.
    lia.
Qed.

Lemma splitext_stem_ext (b e : string) :
  mem_char "/" b = false -> mem_char "/" e = false -> mem_char "." e = false ->
  lstrip_chars "." b <> "" ->
  Path.splitext (b ++ String "." e) = (b, String "." e).
Proof.
  intros Hb He Hd Hn. unfold Path.splitext, rfind_char.
  rewrite !rfind_from_app. cbn [rfind_char_from].
  rewrite (rfind_from_absent "/" b Hb), (rfind_from_absent "/" e He),
    (rfind_from_absent "." e Hd).
  change (Ascii.eqb "." "/") with false. change (Ascii.eqb "." ".") with true.
  cbv iota. change (0 + len b) with (len b).
  replace (-1 <? len b) with true
    by (symmetry; apply Z.ltb_lt; pose proof (len_nonneg b); lia).
  unfold Path.has_non_dot. change (-1 + 1) with 0.
  rewrite slice_prefix, slice_from_app.
  destruct (String.eqb (lstrip_chars "." b) "") eqn:E; [|reflexivity].
  now apply String.eqb_eq in E.
Qed.

Lemma endswith_sep (a : string) : endswith a "/" = true -> exists d, a = d ++ "/".
Proof.
  unfold endswith. change (rev "/") with "/".
  destruct (rev a) as [|c r] eqn:E; cbn [String.prefix]; [discriminate|].
  destruct (ascii_dec "/" c) as [<-|]; [|discriminate]. intros _.
  exists (rev r). rewrite <- (rev_involutive a), E. apply rev_cons.
Qed.

Lemma dir_like_app (a d : string) : dir_like a -> dir_like d -> dir_like (a ++ d).
Proof.
  intros Ha [->|(d' & ->)]; [now rewrite append_nil_r|].
  right. exists (a ++ d'). now rewrite append_assoc.
Qed.

(** [os.path.join] leaves a last component that is not absolute at the
    end of the path, after a separator. *)
Lemma join2_tail (a d t : string) :
  dir_like d -> startswith t "/" = false -> t <> "" ->
  exists d', dir_like d' /\ Path.join2 a (d ++ t) = d' ++ t.
Proof.
  intros Hd Ht Hne. unfold Path.join2.
  destruct (startswith (d ++ t) "/"); [now exists d|].
  destruct (String.eqb a "" || endswith a "/") eqn:E.
  - exists (a ++ d). split; [|now rewrite append_assoc].
    apply dir_like_app; [|exact Hd].
    apply orb_prop in E as [E|E].
    + apply String.eqb_eq in E. now left.
    + right. now apply endswith_sep.
  - exists (a ++ "/" ++ d). split; [|now rewrite !append_assoc].
    destruct Hd as [->|(d' & ->)]; right.
    + now exists a.
    + exists (a ++ "/" ++ d'). now rewrite !append_assoc.
Qed.

Lemma join_tail (a : string) (l : list string) (t : string) :
  startswith t "/" = false -> t <> "" ->
  exists d, dir_like d /\ Path.join a (l ++ [t]) = d ++ t.
Proof.
  intros Ht Hne. unfold Path.join. rewrite fold_left_app. cbn [fold_left].
  apply (join2_tail _ "" t); [now left | exact Ht | exact Hne].
Qed.

(** A path that ends in a component [b.e] is read as the name [b] and
    the extension [e]. *)
Lemma stamp_reads (d b e : string) :
  dir_like d ->
  mem_char "/" b = false -> lstrip_chars "." b <> "" ->
  mem_char "/" e = false -> mem_char "." e = false ->
  stamp_name (d ++ b ++ String "." e) = b
  /\ stamp_ext (d ++ b ++ String "." e) = lower (strip_chars (String "." e) ".").
Proof.
  intros Hd Hb Hn He Hdot. unfold stamp_name, stamp_ext.
  assert (mem_char "/" (b ++ String "." e) = false) as Hbe.
  { clear Hn. induction b as [|c r IH]; cbn [append mem_char] in *.
    - exact He.
    - apply orb_false_iff in Hb as [-> Hb]. now apply IH. }
  rewrite (splitext_app d _ Hbe Hd), (splitext_stem_ext b e Hb He Hdot Hn).
  cbn [fst snd]. split; [|reflexivity]. now apply basename_app.
Qed.

Lemma digit_no_sep (c : ascii) : is_digit c = true -> no_sep c = true.
Proof. destruct c as [[] [] [] [] [] [] [] []]; cbn; congruence. Qed.

Lemma no_sep_mem (s : string) :
  all_chars no_sep s = true -> mem_char "/" s = false /\ mem_char "." s = false.
Proof.
  induction s as [|c r IH]; cbn [all_chars mem_char]; [now split|].
  intros H. apply andb_prop in H as [Hc Hr]. destruct (IH Hr) as [-> ->].
  unfold no_sep in Hc. apply andb_prop in Hc as [H1 H2].
  rewrite (Ascii.eqb_sym "/" c), (Ascii.eqb_sym "." c).
  apply negb_true_iff in H1, H2. now rewrite H1, H2.
Qed.

(** The number part of a Bates number has no dot and no separator. *)
Lemma format_0d_plain (w v : Z) :
  all_chars no_sep (format_0d w v) = true /\ format_0d w v <> "".
Proof.
  unfold format_0d. destruct (v <? 0) eqn:E.
  - apply Z.ltb_lt in E.
    destruct (zfill_digits (w - 1) (- v) ltac:(lia)) as (Ha & _ & _).
    split; [|discriminate]. cbn [all_chars].
    now rewrite (all_chars_impl _ _ _ digit_no_sep Ha).
  - apply Z.ltb_ge in E. destruct (zfill_digits w v E) as (Ha & _ & Hn).
    split; [|exact Hn]. exact (all_chars_impl _ _ _ digit_no_sep Ha).
Qed.

Lemma lstrip_app_keeps (a b : string) :
  lstrip_chars "." b <> "" -> lstrip_chars "." (a ++ b) <> "".
Proof.
  intros Hb. induction a as [|c r IH]; [exact Hb|]. cbn [append lstrip_chars].
  destruct (mem_char c "."); [exact IH | discriminate].
Qed.

Lemma lstrip_plain (s : string) :
  all_chars no_sep s = true -> s <> "" -> lstrip_chars "." s <> "".
Proof.
  destruct s as [|c r]; [congruence|]. cbn [all_chars lstrip_chars mem_char].
  intros H _. apply andb_prop in H as [Hc _]. unfold no_sep in Hc.
  apply andb_prop in Hc as [_ Hc]. apply negb_true_iff in Hc. rewrite Hc.
  cbn [orb]. discriminate.
Qed.

Lemma get_bates_plain (p : string) (v : Z) :
  mem_char "/" p = false ->
  mem_char "/" (get_bates p v default_ndigit) = false
  /\ lstrip_chars "." (get_bates p v default_ndigit) <> ""
  /\ get_bates p v default_ndigit <> ""
  /\ forall t, startswith (get_bates p v default_ndigit ++ t) "/" = false.
Proof.
  intros Hp. unfold get_bates.
  destruct (format_0d_plain default_ndigit v) as [Ha Hn].
  destruct (no_sep_mem _ Ha) as [Hs _].
  split; [now rewrite SplitFacts.mem_char_app, Hp, Hs|].
  split; [apply lstrip_app_keeps; now apply lstrip_plain|].
  unfold startswith.
  destruct p as [|c r].
  - destruct (format_0d default_ndigit v) as [|c r]; [congruence|].
    split; [discriminate|]. intros t.
    cbn [append String.prefix]. cbn [mem_char] in Hs.
    apply orb_false_iff in Hs as [Hs _].
    destruct (ascii_dec "/" c) as [<-|]; [discriminate | reflexivity].
  - split; [discriminate|]. intros t.
    cbn [append String.prefix]. cbn [mem_char] in Hp.
    apply orb_false_iff in Hp as [Hp _].
    destruct (ascii_dec "/" c) as [<-|]; [discriminate | reflexivity].
Qed.

Lemma lower_rev (s : string) : lower (rev s) = rev (lower s).
Proof.
  induction s as [|c r IH]; [reflexivity|].
  rewrite rev_cons. cbn [lower]. rewrite rev_cons, LowerFacts.lower_app, IH.
  reflexivity.
Qed.

Lemma lower_strip_dot (s : string) :
  lower (strip_chars s ".") = strip_chars (lower s) ".".
Proof.
  unfold strip_chars, rstrip_chars.
  rewrite lower_rev, <- LowerFacts.lower_lstrip_dot, lower_rev.
  now rewrite <- LowerFacts.lower_lstrip_dot.
Qed.

(** *** The loop of apply_bates_stamps *)

Lemma stamp_step_eq (cv : Canvas) (cfg : BatesConfig)
    (calls : list stamp_call) (p s : Z) (f : string) :
  stamp_step cv cfg (calls, p, s) f
  = if stampable cv cfg f then
      if is_raised (snd (stamp_call_of cv cfg f))
      then ((calls ++ [stamp_call_of cv cfg f])%list, p, s + 1)
      else ((calls ++ [stamp_call_of cv cfg f])%list, p + 1, s)
    else (calls, p, s).
Proof.
  unfold stamp_step, stampable, stamp_call_of. cbn [snd].
  destruct (is_directory cv f); [reflexivity|]. cbn [negb andb].
  now destruct (in_list (stamp_ext f) _).
Qed.

Lemma stamp_fold (cv : Canvas) (cfg : BatesConfig) (l : list string) :
  forall calls p s,
    fold_left (stamp_step cv cfg) l (calls, p, s)
    = ((calls ++ map (stamp_call_of cv cfg) (filter (stampable cv cfg) l))%list,
       p + Z.of_nat (List.length
                       (filter (fun c => negb (is_raised (snd c)))
                               (map (stamp_call_of cv cfg)
                                    (filter (stampable cv cfg) l)))),
       s + Z.of_nat (List.length
                       (filter (fun c => is_raised (snd c))
                               (map (stamp_call_of cv cfg)
                                    (filter (stampable cv cfg) l))))).
Proof.
  induction l as [|f r IH]; intros calls p s; cbn [fold_left filter].
  - cbn. now rewrite app_nil_r, !Z.add_0_r.
  - rewrite stamp_step_eq.
    destruct (stampable cv cfg f); [|apply IH]. cbn [map filter].
    destruct (is_raised (snd (stamp_call_of cv cfg f)));
      cbn [negb]; rewrite IH; cbn [List.length]; rewrite <- app_assoc;
      cbn [app];
      (apply (f_equal2 pair); [apply (f_equal2 pair); [reflexivity|] |]); lia.
Qed.

Lemma stamping_calls (cv : Canvas) (cfg : BatesConfig)
    (output_dir volume_name : string) (calls : list stamp_call) (p s : Z) :
  apply_bates_stamps cv cfg output_dir volume_name = Some (calls, p, s) ->
  calls = map (stamp_call_of cv cfg)
              (filter (stampable cv cfg)
                      (images_below cv (Path.join output_dir
                                                  [volume_name; "IMAGES"]))).
Proof.
  unfold apply_bates_stamps. destruct (negb (path_exists cv _)); [discriminate|].
  rewrite stamp_fold. now intros [= <- _ _].
Qed.

End StampFacts.

(** ** The validations of validate_bates_and_pages.py *)

Module ValidateFacts.
Import PyStr PyStrFacts ReadbackFacts.

(** The pieces of a line of wrapped fields. *)
Lemma split_wrapped (d : string) (v : string) (vs : list string) (tail : string) :
  mem_char "254" d = false -> mem_char "254" tail = false ->
  Forall (fun x => mem_char "254" x = false) (v :: vs) ->
  forall cur,
    split_go thorn 0
             (String.concat d (map (wrapped "254") (v :: vs)) ++ tail) cur
    = rev cur :: between d (v :: vs) tail.
Proof.
  intros Hd Ht H. revert v H.
  induction vs as [|y l IH]; intros v H cur;
    inversion_clear H as [|? ? Hv Hr].
  - cbn [map concat between]. unfold wrapped, thorn. cbn [append].
    rewrite SplitFacts.split_go_sep, append_assoc.
    rewrite (SplitFacts.split_go_piece "254" v _ "" Hv). cbn [append].
    rewrite SplitFacts.split_go_sep. fold (rev v). rewrite rev_involutive.
    rewrite <- (append_nil_r tail) at 1.
    rewrite (SplitFacts.split_go_piece "254" tail "" "" Ht). cbn [split_go].
    fold (rev tail). now rewrite rev_involutive.
  - cbn [map concat between].
    change (map (wrapped "254") (y :: l)) with (map (wrapped "254") (y :: l)).
    unfold wrapped at 1. unfold thorn. cbn [append].
    rewrite SplitFacts.split_go_sep, !append_assoc.
    rewrite (SplitFacts.split_go_piece "254" v _ "" Hv). cbn [append].
    rewrite SplitFacts.split_go_sep. fold (rev v). rewrite rev_involutive.
    rewrite (SplitFacts.split_go_piece "254" d _ "" Hd).
    f_equal. f_equal. fold thorn.
    change (String.concat d (wrapped "254" y :: map (wrapped "254") l))
      with (String.concat d (map (wrapped "254") (y :: l))).
    rewrite (IH y Hr). fold (rev d). now rewrite rev_involutive.
Qed.

Lemma clean_spec (s : string) :
  clean s = true ->
  mem_char "254" s = false /\ mem_char "010" s = false /\ mem_char "013" s = false.
Proof.
  unfold clean. intros H. apply andb_prop in H as [H H3].
  apply andb_prop in H as [H1 H2].
  now rewrite (proj1 (negb_true_iff _) H1), (proj1 (negb_true_iff _) H2),
    (proj1 (negb_true_iff _) H3).
Qed.

Section Written.
Variable doc : Dict.t value.
Hypothesis Hclean : forall c, In c cols -> clean (field_text doc c) = true.

Lemma texts_free (c : ascii) :
  (forall s, clean s = true -> mem_char c s = false) ->
  Forall (fun x => mem_char c x = false) (map (field_text doc) cols).
Proof.
  intros Hc. apply Forall_map, Forall_forall. intros x Hx. apply Hc, Hclean, Hx.
Qed.

(** A record line and its pieces. *)
Lemma record_parts :
  split (record_line "020" "254" doc ++ newline) thorn
  = Some ("" :: between (String "020" "") (map (field_text doc) cols) newline).
Proof.
  unfold split, thorn. f_equal. fold thorn. unfold record_line, join.
  rewrite <- (map_map (field_text doc) (wrapped "254")).
  change (map (field_text doc) cols)
    with (field_text doc "BegBates" :: map (field_text doc) (tl cols)).
  apply (split_wrapped (String "020" "") _ _ newline eq_refl eq_refl).
  change (field_text doc "BegBates" :: map (field_text doc) (tl cols))
    with (map (field_text doc) cols).
  apply texts_free. intros s Hs. apply (clean_spec s Hs).
Qed.

Lemma record_line_free (c : ascii) :
  c <> "254"%char -> mem_char c (String "020" "") = false ->
  (forall s, clean s = true -> mem_char c s = false) ->
  mem_char c (record_line "020" "254" doc) = false.
Proof.
  intros Hw Hd Hc. unfold record_line, join. apply mem_char_concat; [exact Hd|].
  apply Forall_map, Forall_forall. intros x Hx.
  apply SplitFacts.mem_char_wrapped; [exact Hw|]. apply Hc, Hclean, Hx.
Qed.

Lemma page_count_step_record (st : Dict.t Z * list (string * string * Z)) :
  page_count_step st (record_line "020" "254" doc ++ newline) = st.
Proof.
  unfold page_count_step. destruct st as [page_counts pdf_files].
  rewrite record_parts. reflexivity.
Qed.

Lemma email_family_step_record
    (fam : Dict.t (list (string * string * string))) :
  email_family_step fam (record_line "020" "254" doc ++ newline)
  = if has_value (field_text doc "CC")
    then Dict.set fam (strip (field_text doc "CC"))
           (Dict.get_default fam (strip (field_text doc "CC")) []
            ++ [(field_text doc "BegBates", field_text doc "To",
                 field_text doc "HashValue")])%list
    else fam.
Proof.
  unfold email_family_step. rewrite record_parts. reflexivity.
Qed.

End Written.

Lemma mem_char_rev (c : ascii) (s : string) : mem_char c (rev s) = mem_char c s.
Proof.
  induction s as [|x r IH]; [reflexivity|].
  rewrite rev_cons, SplitFacts.mem_char_app, IH. cbn [mem_char].
  now rewrite orb_false_r, orb_comm.
Qed.

Lemma lstrip_space_keeps (s : string) :
  mem_char "254" s = true -> lstrip_space s <> "".
Proof.
  induction s as [|c r IH]; [discriminate|]. cbn [mem_char lstrip_space].
  destruct (is_space c) eqn:Es; [|discriminate].
  destruct (Ascii.eqb "254" c) eqn:E.
  - apply Ascii.eqb_eq in E. subst c. discriminate.
  - exact IH.
Qed.

(** A line with a wrapper in it is not blank. *)
Lemma wrapped_line_kept (s : string) :
  mem_char "254" s = true -> nonempty (strip s) = true.
Proof.
  intros H. unfold nonempty, strip. apply negb_true_iff, String.eqb_neq.
  intros E. apply (f_equal rev) in E. rewrite rev_involutive in E.
  change (rev "") with "" in E. revert E. apply lstrip_space_keeps.
  rewrite mem_char_rev.
  destruct (mem_char "254" (lstrip_space s)) eqn:E; [reflexivity|].
  exfalso. clear -H E. induction s as [|c r IH]; [discriminate|].
  cbn [lstrip_space] in E. destruct (is_space c) eqn:Es; [|congruence].
  cbn [mem_char] in H. destruct (Ascii.eqb "254" c) eqn:Ec.
  + apply Ascii.eqb_eq in Ec. subst c. discriminate.
  + now apply IH.
Qed.

Lemma record_line_wrapped (doc : Dict.t value) :
  mem_char "254" (record_line "020" "254" doc ++ newline) = true.
Proof. reflexivity. Qed.

Lemma written_default (can_write : string -> bool) (self : Creator)
    (cfg : LoadfileConfig) (out vol : string) (fs fs' : FS) :
  delimiter cfg = None -> wrapper cfg = None ->
  encoding cfg = None \/ encoding cfg = Some utf_8 ->
  write_loadfile can_write self cfg out vol fs = Some fs' ->
  Dict.set fs (loadfile_path out vol) (encode (written_text self)) = fs'.
Proof.
  intros Hd Hw He Hwrite.
  destruct (written can_write self cfg out vol fs fs' "020" "254")
    as (_ & bytes & Hb & ->); [now rewrite Hd | now rewrite Hw | exact Hwrite |].
  f_equal. destruct He as [He | He]; rewrite He in Hb; now injection Hb.
Qed.

Lemma written_lines_free (self : Creator) (c : ascii) :
  (forall doc x, In doc (docs self) -> In x cols ->
     clean (field_text doc x) = true) ->
  c <> "254"%char -> mem_char c (String "020" "") = false ->
  mem_char c (header_line "020" "254") = false ->
  (forall s, clean s = true -> mem_char c s = false) ->
  Forall (fun l => mem_char c l = false) (loadfile_lines self "020" "254").
Proof.
  intros Hclean Hc Hcd Hh Hs. unfold loadfile_lines. constructor; [exact Hh|].
  apply Forall_map, Forall_forall. intros doc Hdoc.
  apply record_line_free; auto.
Qed.

Lemma kept_lines (l : list (Dict.t value)) :
  filter (fun line => nonempty (strip line))
         (map (fun doc => record_line "020" "254" doc ++ newline) l)
  = map (fun doc => record_line "020" "254" doc ++ newline) l.
Proof.
  induction l as [|doc r IH]; [reflexivity|]. cbn [map filter].
  rewrite (wrapped_line_kept _ (record_line_wrapped doc)). now rewrite IH.
Qed.

(** What the validations read from a loadfile written with the default
    characters. *)
Lemma written_data_lines (self : Creator) (fs : FS) (p : string) :
  (forall doc c, In doc (docs self) -> In c cols ->
     clean (field_text doc c) = true) ->
  exists text,
    read_text (Dict.set fs p (encode (written_text self))) p = Some text
    /\ data_lines (readlines text)
       = map (fun doc => record_line "020" "254" doc ++ newline) (docs self).
Proof.
  intros Hclean. exists (written_text self). unfold read_text.
  rewrite DictFacts.get_set_same, CodecFacts.decode_encode. cbn [option_map].
  assert (mem_char "013" (written_text self) = false) as Hcr.
  { unfold written_text. apply mem_char_concat; [reflexivity|]. apply Forall_map.
    eapply Forall_impl;
      [|apply (written_lines_free self "013" Hclean);
        [discriminate | reflexivity | reflexivity
        | intros s Hs; apply (clean_spec s Hs)]].
    intros l Hl. cbn beta. now rewrite SplitFacts.mem_char_app, Hl. }
  rewrite (universal_plain _ Hcr). split; [reflexivity|].
  unfold written_text. rewrite readlines_written.
  - unfold loadfile_lines, data_lines. cbn [map tl]. rewrite map_map.
    apply kept_lines.
  - apply (written_lines_free self "010" Hclean);
      [discriminate | reflexivity | reflexivity
      | intros s Hs; apply (clean_spec s Hs)].
Qed.

End ValidateFacts.

(** ** The lines of the .opt file *)

Module OptFacts.
Import PyStr PyStrFacts.

Lemma all_chars_free (P : ascii -> bool) (c : ascii) (s : string) :
  P c = false -> all_chars P s = true -> mem_char c s = false.
Proof.
  intros Hc. induction s as [|x r IH]; [reflexivity|]. cbn [all_chars mem_char].
  intros H. apply andb_prop in H as [Hx Hr]. rewrite (IH Hr), orb_false_r.
  destruct (Ascii.eqb c x) eqn:E; [|reflexivity].
  apply Ascii.eqb_eq in E. subst x. congruence.
Qed.

Lemma zfill_free (w n : Z) : 0 <= n -> mem_char "," (zfill w (digits n)) = false.
Proof.
  intros Hn. destruct (zfill_digits w n Hn) as (Ha & _).
  now apply (all_chars_free is_digit).
Qed.

Lemma format_0d_free (w v : Z) : mem_char "," (format_0d w v) = false.
Proof.
  unfold format_0d. destruct (v <? 0) eqn:E.
  - apply Z.ltb_lt in E. cbn [mem_char]. apply zfill_free. lia.
  - apply Z.ltb_ge in E. now apply zfill_free.
Qed.

Lemma str_int_free (v : Z) : mem_char "," (str_int v) = false.
Proof.
  unfold str_int. destruct (v <? 0) eqn:E.
  - apply Z.ltb_lt in E. cbn [mem_char].
    destruct (digits_spec (- v) ltac:(lia)) as (Ha & _).
    now apply (all_chars_free is_digit).
  - apply Z.ltb_ge in E. destruct (digits_spec v E) as (Ha & _).
    now apply (all_chars_free is_digit).
Qed.

Lemma join2_free (a b : string) :
  mem_char "," a = false -> mem_char "," b = false ->
  mem_char "," (Path.join2 a b) = false.
Proof.
  intros Ha Hb. unfold Path.join2.
  destruct (startswith b "/"); [exact Hb|].
  destruct (String.eqb a "" || endswith a "/");
    now rewrite !SplitFacts.mem_char_app, Ha, ?Hb.
Qed.

(** The line of an entry, cut at its commas. *)
Lemma opt_line_fields (o : opt_entry) :
  Forall (fun x => mem_char "," x = false)
         [bates o; volume o; path o; first_page o; py_str (npages o)] ->
  exists line,
    opt_line o = line ++ newline
    /\ split line ","
       = Some [bates o; volume o; path o; first_page o; ""; py_str (npages o)].
Proof.
  intros H.
  exists (join "," [bates o; volume o; path o; first_page o; ""; py_str (npages o)]).
  split.
  - unfold opt_line, join. cbn [concat]. rewrite !append_assoc. reflexivity.
  - apply SplitFacts.split_join.
    apply Forall_cons_iff in H as [H1 H]. apply Forall_cons_iff in H as [H2 H].
    apply Forall_cons_iff in H as [H3 H]. apply Forall_cons_iff in H as [H4 H].
    apply Forall_cons_iff in H as [H5 _].
    repeat constructor; try assumption; reflexivity.
Qed.

End OptFacts.

(** ** validate_bates_sequence *)

Module SequenceFacts.
Import PyStr PyStrFacts.

Lemma insert_int_perm (x : Z) (l : list Z) : Permutation (insert_int x l) (x :: l).
Proof.
  induction l as [|y r IH]; cbn [insert_int]; [reflexivity|].
  destruct (y <? x); [|reflexivity].
  rewrite IH. apply perm_swap.
Qed.

Lemma sort_ints_perm (l : list Z) : Permutation (sort_ints l) l.
Proof.
  induction l as [|x r IH]; cbn [sort_ints]; [reflexivity|].
  rewrite insert_int_perm. now constructor.
Qed.

Lemma insert_int_sorted (x : Z) (l : list Z) :
  StronglySorted Z.le l -> StronglySorted Z.le (insert_int x l).
Proof.
  induction 1 as [|y r Hr IH Hy]; cbn [insert_int].
  - repeat constructor.
  - destruct (y <? x) eqn:E.
    + apply Z.ltb_lt in E. constructor; [exact IH|].
      apply (Permutation_Forall (Permutation_sym (insert_int_perm x r))).
      constructor; [lia | exact Hy].
    + apply Z.ltb_ge in E. constructor; [now constructor|].
      constructor; [exact E|].
      eapply Forall_impl; [|exact Hy]. intros z Hz. cbn beta in *. lia.
Qed.

Lemma sort_ints_sorted (l : list Z) : StronglySorted Z.le (sort_ints l).
Proof.
  induction l as [|x r IH]; cbn [sort_ints]; [constructor|].
  now apply insert_int_sorted.
Qed.

(** Two sorted lists with the same elements are the same list. *)
Lemma sorted_unique (l1 : list Z) :
  forall l2,
    StronglySorted Z.le l1 -> StronglySorted Z.le l2 -> Permutation l1 l2 ->
    l1 = l2.
Proof.
  induction l1 as [|x r1 IH]; intros l2 H1 H2 Hp.
  - apply Permutation_nil in Hp. now subst.
  - destruct l2 as [|y r2].
    + apply Permutation_sym, Permutation_nil in Hp. discriminate.
    + inversion_clear H1 as [|? ? Hs1 Hx]. inversion_clear H2 as [|? ? Hs2 Hy].
      assert (x = y) as ->.
      { assert (In x (y :: r2)) as Hin1
          by (apply (Permutation_in _ Hp); now left).
        assert (In y (x :: r1)) as Hin2
          by (apply (Permutation_in _ (Permutation_sym Hp)); now left).
        rewrite Forall_forall in Hx, Hy.
        destruct Hin1 as [->|Hin1]; [reflexivity|].
        destruct Hin2 as [->|Hin2]; [reflexivity|].
        specialize (Hx y Hin2). specialize (Hy x Hin1). lia. }
      f_equal. apply IH; try assumption. now apply Permutation_cons_inv in Hp.
Qed.

Lemma run_from_S (a : Z) (n : nat) : run_from a (S n) = a :: run_from (a + 1) n.
Proof.
  unfold run_from. cbn [seq map]. f_equal; [lia|].
  rewrite <- seq_shift, map_map. apply map_ext. intros i. lia.
Qed.

Lemma run_from_sorted (n : nat) : forall a, StronglySorted Z.le (run_from a n).
Proof.
  induction n as [|n IH]; intros a; [constructor|].
  rewrite run_from_S. constructor; [apply IH|].
  unfold run_from. apply Forall_map, Forall_forall. intros i _. lia.
Qed.

Lemma run_from_sequential (n : nat) : forall a, sequential (run_from a n) = true.
Proof.
  induction n as [|n IH]; intros a; [reflexivity|].
  rewrite run_from_S. specialize (IH (a + 1)).
  destruct n as [|n]; [reflexivity|].
  rewrite run_from_S in *. cbn [sequential]. rewrite Z.eqb_refl.
  exact IH.
Qed.

Lemma sequential_run (l : list Z) :
  sequential l = true ->
  match l with
  | [] => True
  | a :: _ => l = run_from a (List.length l)
  end.
Proof.
  induction l as [|a r IH]; [trivial|]. intros H.
  destruct r as [|b r'].
  - unfold run_from. cbn. f_equal. lia.
  - cbn [sequential] in H. apply andb_prop in H as [Hb Hr].
    apply Z.eqb_eq in Hb. specialize (IH Hr). cbn beta iota in IH.
    cbn [List.length]. rewrite run_from_S. f_equal.
    rewrite IH at 1. now rewrite Hb.
Qed.

(** The sorted numbers pass exactly when the numbers are those of a
    run. *)
Lemma sequential_sorted (ns : list Z) :
  sequential (sort_ints ns) = true
  <-> exists a, Permutation ns (run_from a (List.length ns)).
Proof.
  split.
  - intros H. apply sequential_run in H.
    pose proof (sort_ints_perm ns) as Hp.
    destruct (sort_ints ns) as [|a r] eqn:E.
    + apply Permutation_nil in Hp. subst ns. now exists 0.
    + exists a. rewrite <- (Permutation_length Hp).
      rewrite <- H. now apply Permutation_sym.
  - intros (a & Hp).
    rewrite (sorted_unique (sort_ints ns) (run_from a (List.length ns))).
    + apply run_from_sequential.
    + apply sort_ints_sorted.
    + apply run_from_sorted.
    + now rewrite sort_ints_perm.
Qed.

(** The last eight characters of a Bates number below 10^8 read back as
    the number. *)
Lemma number_part (p : string) (n : Z) :
  0 <= n < 10 ^ 8 ->
  int (slice_from (get_bates p n default_ndigit) (-8)) = Some n.
Proof.
  intros Hn. unfold get_bates.
  destruct (WidthFacts.format_0d_width 7 n ltac:(lia)) as (_ & Hlen & _).
  specialize (Hlen ltac:(change (Z.of_nat 8) with 8; lia)).
  change (Z.of_nat 8) with default_ndigit in Hlen.
  unfold slice_from, clamp, len.
  rewrite WidthFacts.length_app, Hlen.
  change (-8 <? 0) with true. cbv iota.
  replace (Z.to_nat _) with (String.length p) by lia.
  rewrite PathFacts.drop_app. apply int_format_0d.
Qed.

Lemma number_parts_read (texts : list string) (ns : list Z) :
  Forall2 (fun t n => 0 <= n < 10 ^ 8
                      /\ exists p, t = get_bates p n default_ndigit) texts ns ->
  number_parts texts = Some ns.
Proof.
  induction 1 as [|t n ts ns' (Hn & p & ->) _ IH]; [reflexivity|].
  cbn [number_parts]. now rewrite (number_part p n Hn), IH.
Qed.

Lemma bates_step_record (doc : Dict.t value) (acc : list string) :
  (forall c, In c cols -> clean (field_text doc c) = true) ->
  bates_step acc (record_line "020" "254" doc ++ newline)
  = (acc ++ [field_text doc "BegBates"])%list.
Proof.
  intros Hc. unfold bates_step. now rewrite (ValidateFacts.record_parts doc Hc).
Qed.

End SequenceFacts.

(** ** run_data_integrity_tests on the records of a run *)

(** X1.  After a run of [process_files] on a creator without records,
    over a listing without repeated paths and whatever the order in
    which the tasks complete, Test 1 of [run_data_integrity_tests]
    passes: no two published records carry the same BegBates. *)
Theorem fresh_run_has_unique_bates
    (env : Env) (self : Creator) (cfg : ProcessingConfig)
    (input_dir output_dir volume : string)
    (order : list (string * option string)) :
  NoDup (glob env input_dir) ->
  docs self = [] ->
  Permutation (snd (prepare env self cfg input_dir output_dir volume)) order ->
  test_bates_unique
    (fst (process_files env self cfg input_dir output_dir volume order))
  = Some Pass.
Proof.
  intros Hnd Hfresh Hperm.
  destruct (run_records env self cfg input_dir output_dir volume order)
    as (new & Hd & Hall).
  set (cl := snd (fst (prepare env self cfg input_dir output_dir volume))) in *.
  set (all_files := collect_files (isfile env) (glob env input_dir)).
  set (B := get_bates_for_file self (bates_assignments_of cl) (bates_counter cl)) in *.
  set (done := filter (fun fi => succeeded (solo env cl self fi)) order) in *.
  assert (NoDup all_files) as Hfiles by now apply AssignFacts.collect_files_nodup.
  assert (Permutation all_files (map fst order)) as Hfst.
  { subst all_files.
    rewrite <- (tasks_files env self cfg input_dir output_dir volume).
    now apply Permutation_map. }
  assert (NoDup (map (fun fi => VStr (B (fst fi))) done)) as Hnodup.
  { rewrite <- (map_map fst (fun f => VStr (B f))).
    apply distinct_images.
    - apply distinct_keys_filter.
      apply (Permutation_NoDup Hfst Hfiles).
    - intros f g Hf Hg [= Heq].
      assert (forall x, In x (map fst done) -> In x all_files) as Hin.
      { intros x Hx. apply (Permutation_in _ (Permutation_sym Hfst)).
        apply in_map_iff in Hx as (fi & <- & Hfi).
        apply filter_In in Hfi as [Hfi _]. now apply in_map. }
      apply (lookup_inj self all_files (bates_counter cl) f g Hfiles);
        [now apply Hin | now apply Hin | exact Heq]. }
  unfold test_bates_unique. rewrite Hd, Hfresh, app_nil_l.
  rewrite (comprehension_related _ _ (fun fi => VStr (B (fst fi))) _ _ Hall)
    by (intros fi doc (p & md & fam & _ & _ & _ & ->); reflexivity).
  unfold len_set.
  assert (forallb hashable (map (fun fi => VStr (B (fst fi))) done) = true) as ->
    by (apply forallb_forall; intros v Hv; apply in_map_iff in Hv as (fi & <- & _);
        reflexivity).
  apply TestFacts.distinct_all in Hnodup. rewrite Hnodup, Nat.eqb_refl. reflexivity.
Qed.

Lemma fresh_run_has_unique_bates_witness :
  NoDup (glob demo_env "in")
  /\ docs init = []
  /\ test_bates_unique demo_run = Some Pass.
Proof.
  assert (NoDup (glob demo_env "in")) as Hnd by (cbn; nodup_strings).
  split; [exact Hnd|]. split; [reflexivity|].
  exact (fresh_run_has_unique_bates demo_env init demo_config "in" "out" "VOL"
           demo_tasks Hnd eq_refl (Permutation_refl _)).
Defined.

(** X2.  A run never adds to the list of missing required fields of
    Test 2: every record it publishes has BegBates, EndBates,
    NativeLocation, TextLocation, Filename, FileExtension and HashValue,
    none of them [None].  On a creator without records Test 2 passes
    after the run. *)
Theorem run_keeps_required_fields
    (env : Env) (self : Creator) (cfg : ProcessingConfig)
    (input_dir output_dir volume : string)
    (order : list (string * option string)) :
  let s := fst (process_files env self cfg input_dir output_dir volume order) in
  missing_fields s = missing_fields self
  /\ (docs self = [] -> test_required_fields s = Pass).
Proof.
  intros s.
  assert (missing_fields s = missing_fields self) as H.
  { destruct (run_records env self cfg input_dir output_dir volume order)
      as (new & Hd & Hall).
    unfold missing_fields. subst s. rewrite Hd, TestFacts.missing_in_app.
    rewrite <- (app_nil_r (missing_in (docs self))) at 2. f_equal.
    clear Hd. induction Hall as [|fi doc l l' (p & md & fam & _ & _ & _ & ->) _ IH]; [reflexivity|].
    change (missing_in (?d :: l')) with (missing_in ([d] ++ l')).
    now rewrite TestFacts.missing_in_app, TestFacts.missing_in_built. }
  split; [exact H|].
  intros Hfresh. unfold test_required_fields. rewrite H.
  unfold missing_fields. now rewrite Hfresh.
Qed.

(** X3.  Test 5 compares the number of non-empty FamilyID values with
    the number of distinct ones: it passes exactly when no two records
    carry the same family, and fails as soon as a family has two
    members. *)
Theorem family_test_rejects_shared_families (self : Creator) (ids : list value) :
  family_ids self = Some ids ->
  forallb hashable ids = true ->
  (test_family_consistency self = Some Pass <-> NoDup ids)
  /\ (test_family_consistency self = Some Fail <-> ~ NoDup ids).
Proof. apply TestFacts.family_test_spec. Qed.

Lemma family_test_witness :
  family_ids demo_run = Some [VStr "EMAIL_THREAD_7514"]
  /\ test_family_consistency demo_run = Some Pass.
Proof.
  assert (family_ids demo_run = Some [VStr "EMAIL_THREAD_7514"]) as H
    by (vm_compute; reflexivity).
  split; [exact H|].
  apply (family_test_rejects_shared_families demo_run _ H eq_refl).
  repeat constructor. intros [].
Defined.

(** X4.  Two different email files of the run whose metadata is
    extracted and carries the same Thread-Index, a non-empty string,
    are submitted with the same thread family; when the tasks of both
    succeed, on a creator without records and whatever the order in
    which the tasks complete, their records carry that family and
    Test 5 of [run_data_integrity_tests] fails on the run. *)
Theorem thread_family_fails_family_test
    (env : Env) (self : Creator) (cfg : ProcessingConfig)
    (input_dir output_dir volume : string)
    (order : list (string * option string))
    (f g t : string) (pf pg : parsed) (mf mg : Dict.t mvalue) :
  let all_files := collect_files (isfile env) (glob env input_dir) in
  let cl := snd (fst (prepare env self cfg input_dir output_dir volume)) in
  let tasks := snd (prepare env self cfg input_dir output_dir volume) in
  let key := family_token "EMAIL_THREAD_" (hash env t) in
  docs self = [] ->
  Permutation tasks order ->
  In f all_files -> In g all_files -> f <> g ->
  is_email f = true -> is_email g = true ->
  from_file env f 30 = Some pf -> metadata pf = Some mf ->
  from_file env g 30 = Some pg -> metadata pg = Some mg ->
  Dict.get mf "Thread-Index" = Some (MStr t) ->
  Dict.get mg "Thread-Index" = Some (MStr t) ->
  t <> "" ->
  succeeded (solo env cl self (f, Some key)) = true ->
  succeeded (solo env cl self (g, Some key)) = true ->
  In (f, Some key) tasks /\ In (g, Some key) tasks
  /\ test_family_consistency
       (fst (process_files env self cfg input_dir output_dir volume order))
     = Some Fail.
Proof.
  intros all_files cl tasks key Hfresh Hperm Hf Hg Hne Hef Heg Hpf Hmf Hpg Hmg
         Htf Htg Ht Hsf Hsg.
  assert (In (f, Some key) tasks /\ In (g, Some key) tasks) as [Hinf Hing].
  { subst tasks. cbn [prepare snd]. fold all_files. split; apply in_map_iff.
    - exists f. split; [|exact Hf]. f_equal.
      destruct (FamilyFacts.grouped env all_files f Hf Hef) as [-> _]. f_equal.
      exact (FamilyFacts.thread_key env f t pf mf Hpf Hmf Htf Ht).
    - exists g. split; [|exact Hg]. f_equal.
      destruct (FamilyFacts.grouped env all_files g Hg Heg) as [-> _]. f_equal.
      exact (FamilyFacts.thread_key env g t pg mg Hpg Hmg Htg Ht). }
  split; [exact Hinf|]. split; [exact Hing|].
  destruct (run_records env self cfg input_dir output_dir volume order)
    as (new & Hd & Hall).
  fold cl in Hall.
  set (done := filter (fun fi => succeeded (solo env cl self fi)) order) in *.
  set (FID := fun doc : Dict.t value => field doc "FamilyID").
  assert (forall fi doc, record_for env self cl fi doc ->
            Dict.get doc "FamilyID" = Some (FID doc) /\ hashable (FID doc) = true
            /\ (snd fi = Some key -> FID doc = VStr key)) as Hrec.
  { intros fi doc (p & md & fam & _ & _ & [Hh Hk] & ->).
    split; [reflexivity|]. unfold FID, field. cbn. split.
    - destruct (truthy fam); [exact Hh | reflexivity].
    - intros Hfi. rewrite (Hk key Hfi) by now apply family_token_truthy.
      cbn. destruct (String.eqb key "") eqn:E; [|reflexivity].
      apply String.eqb_eq in E. now apply family_token_truthy in E. }
  assert (family_ids (fst (process_files env self cfg input_dir output_dir volume order))
          = Some (filter truthy (map FID new))) as Hids.
  { unfold family_ids. rewrite Hd, Hfresh, app_nil_l.
    rewrite (TestFacts.comprehension_map _ FID); [reflexivity|].
    intros doc Hin. clear - Hall Hin Hrec.
    induction Hall as [|fi d l l' Hr _ IH]; [contradiction|].
    destruct Hin as [<-|Hin]; [apply (Hrec fi d Hr) | now apply IH]. }
  apply (TestFacts.family_test_spec _ _ Hids).
  - apply forallb_forall. intros v Hv. apply filter_In in Hv as [Hv _].
    apply in_map_iff in Hv as (doc & <- & Hin). clear - Hall Hin Hrec.
    induction Hall as [|fi d l l' Hr _ IH]; [contradiction|].
    destruct Hin as [<-|Hin]; [apply (Hrec fi d Hr) | now apply IH].
  - assert (In (f, Some key) done /\ In (g, Some key) done) as [Hdf Hdg].
    { split; apply filter_In; split; try assumption;
        eapply Permutation_in; eauto. }
    assert ((f, Some key) <> (g, Some key)) as Hne' by congruence.
    assert (truthy (VStr key) = true) as Htr.
    { cbn. destruct (String.eqb key "") eqn:E; [|reflexivity].
      apply String.eqb_eq in E. now apply family_token_truthy in E. }
    assert (forall a b l1 l2 l3, snd a = Some key -> snd b = Some key ->
              done = (l1 ++ a :: l2 ++ b :: l3)%list ->
              ~ NoDup (filter truthy (map FID new))) as Hsplit.
    { intros a b l1 l2 l3 Ha Hb Heq. rewrite Heq in Hall.
      apply Forall2_app_inv_l in Hall as (n1 & r1 & _ & H1 & ->).
      inversion H1 as [|? da ? r2 Hda H2]; subst.
      apply Forall2_app_inv_l in H2 as (n2 & r3 & _ & H3 & ->).
      inversion H3 as [|? db ? n3 Hdb _]; subst.
      destruct (Hrec _ _ Hda) as (_ & _ & Ea). destruct (Hrec _ _ Hdb) as (_ & _ & Eb).
      rewrite map_app, filter_app. cbn [map filter].
      rewrite (Ea Ha), Htr, map_app, filter_app. cbn [map filter].
      rewrite (Eb Hb), Htr. apply twice_not_nodup. }
    destruct (in_two_split _ _ _ Hdf Hdg Hne') as (l1 & l2 & l3 & [Heq|Heq]);
      eapply Hsplit; try exact Heq; reflexivity.
Qed.

Lemma thread_family_witness :
  docs init = []
  /\ is_email "in/a.eml" = true /\ is_email "in/reply.MSG" = true
  /\ Dict.get demo_metadata "Thread-Index" = Some (MStr "AdfX0r")
  /\ test_family_consistency
       (fst (process_files mail_env init demo_config "in" "out" "VOL" mail_tasks))
     = Some Fail.
Proof.
  split; [reflexivity|]. split; [reflexivity|]. split; [reflexivity|].
  split; [reflexivity|].
  refine (proj2 (proj2
    (thread_family_fails_family_test mail_env init demo_config "in" "out" "VOL"
       mail_tasks "in/a.eml" "in/reply.MSG" "AdfX0r"
       {| metadata := Some demo_metadata; content := Some "text" |}
       {| metadata := Some demo_metadata; content := Some "text" |}
       demo_metadata demo_metadata
       eq_refl (Permutation_refl _) _ _ _ eq_refl eq_refl eq_refl eq_refl
       eq_refl eq_refl eq_refl eq_refl _ _ _))).
  - vm_compute. auto.
  - vm_compute. auto.
  - discriminate.
  - discriminate.
  - vm_compute. reflexivity.
  - vm_compute. reflexivity.
Defined.

(** ** identify_document_family *)

(** X5.  On a family table whose numbers are below the counter and
    different for different keys, [identify_document_family] keeps such
    a table, never renumbers a key, moves the counter by at most one,
    returns [None] without touching the object or the number the table
    now holds for some key, and returns the same again, leaving the
    object as it is, when it is called a second time on the same
    file. *)
Theorem family_numbers_are_stable
    (file_path : string) (md : Dict.t mvalue) (st : Creator) :
  families_ok st ->
  let s := fst (identify_document_family file_path md st) in
  let r := snd (identify_document_family file_path md st) in
  families_ok s
  /\ (forall k n, Dict.get (document_families st) k = Some n ->
        Dict.get (document_families s) k = Some n)
  /\ family_counter st <= family_counter s <= family_counter st + 1
  /\ (forall v, r = Some v ->
        v = VNone /\ s = st
        \/ exists k n, v = VInt n /\ Dict.get (document_families s) k = Some n)
  /\ identify_document_family file_path md s = (s, r).
Proof. apply FamilyTable.identify_numbered. Qed.

Lemma family_numbers_witness :
  families_ok init
  /\ snd (identify_document_family "in/draft_v2.docx" [] init) = Some (VInt 1)
  /\ identify_document_family "in/draft_v2.docx" []
       (fst (identify_document_family "in/draft_v2.docx" [] init))
     = (fst (identify_document_family "in/draft_v2.docx" [] init), Some (VInt 1)).
Proof.
  assert (families_ok init) as H by (split; cbn; discriminate).
  split; [exact H|]. split; [reflexivity|].
  exact (proj2 (proj2 (proj2 (proj2
    (family_numbers_are_stable "in/draft_v2.docx" [] init H))))).
Defined.

(** ** chunk_pdf_and_parse and the task of a PDF *)

(** X6.  When the reader opens the PDF, every chunk that could be
    written and parsed has a content that is not [None], and the first
    of them has metadata that are not [None], [chunk_pdf_and_parse]
    returns the text of those chunks, each stripped of leading white
    space, joined in page order; a chunk that fails is left out and
    the others are kept.  The metadata are those of the first chunk
    that came through, with [xmpTPg:NPages] set to the page count of
    the reader. *)
Theorem pdf_text_skips_failed_chunks (env : Env) (pdf_path : string) (N : Z) :
  pdf_reader env pdf_path false = Some N ->
  Forall (fun p => content p <> None) (parsed_chunks env pdf_path N) ->
  (forall p r, parsed_chunks env pdf_path N = p :: r -> metadata p <> None) ->
  chunk_pdf_and_parse env pdf_path
  = Some (Some {|
      metadata := first_metadata_of N (parsed_chunks env pdf_path N);
      content := Some (String.concat ""
                         (map text_of (parsed_chunks env pdf_path N))) |}).
Proof. apply ChunkFacts.chunk_pdf_and_parse_spec. Qed.

Lemma pdf_text_witness :
  pdf_reader failing_first_chunk "in/b.pdf" false = Some 14
  /\ List.length (parsed_chunks failing_first_chunk "in/b.pdf" 14) = 1%nat
  /\ option_map (option_map content)
       (chunk_pdf_and_parse failing_first_chunk "in/b.pdf")
     = Some (Some (Some "page text")).
Proof.
  split; [reflexivity|]. split; [reflexivity|].
  rewrite (pdf_text_skips_failed_chunks failing_first_chunk "in/b.pdf" 14 eq_refl).
  - reflexivity.
  - repeat constructor; discriminate.
  - intros p r [= <- _]. discriminate.
Defined.

(** X7.  A PDF the reader cannot open ends its task with
    [pdf_parse_failed]; a PDF of which no chunk comes through (among
    them the PDF without pages) ends it with an exception, as the
    metadata are [None].  Neither publishes a record nor changes the
    object. *)
Theorem pdf_without_text_publishes_nothing
    (env : Env) (cl : Closure) (fname : string) (family_id : option string)
    (self : Creator) :
  isdir env fname = false ->
  PyStr.strip_chars (PyStr.lower (snd (Path.splitext fname))) "." = "pdf" ->
  (pdf_reader env fname false = None ->
   process_single_file env cl (fname, family_id) self
   = (self, Failed pdf_parse_failed))
  /\ (forall N, pdf_reader env fname false = Some N ->
        parsed_chunks env fname N = [] ->
        process_single_file env cl (fname, family_id) self
        = (self, Failed exception)).
Proof.
  intros Hdir Hext. unfold process_single_file. rewrite Hdir, Hext. cbn [String.eqb].
  change (String.eqb "pdf" "pdf") with true. cbv iota.
  split.
  - intros Hr. unfold chunk_pdf_and_parse. now rewrite Hr.
  - intros N Hr Hnone.
    rewrite (ChunkFacts.chunk_pdf_and_parse_spec env fname N Hr);
      rewrite Hnone; [reflexivity | constructor | discriminate].
Qed.

(** X8.  Once a file is parsed with metadata whose thread identifiers
    are strings, and the native copy and the text file can be written,
    its task returns success with the Bates number of the lookup and
    publishes exactly one record, whatever happens while its pages are
    rendered: the errors of page expansion are caught there. *)
Theorem rendering_errors_do_not_fail_the_file
    (env : Env) (cl : Closure) (fname : string) (family_id : option string)
    (self : Creator) (p : parsed) (md : Dict.t mvalue) :
  isdir env fname = false ->
  parsed_for env cl fname = Some p ->
  metadata p = Some md ->
  (forall l, Dict.get md "Thread-Index" <> Some (MList l)) ->
  (forall l, Dict.get md "Message-ID" <> Some (MList l)) ->
  (forall a b, copy2 env a b = true) ->
  (forall a b, write_text env a b = true) ->
  let B := get_bates_for_file self (bates_assignments_of cl) (bates_counter cl) fname in
  snd (process_single_file env cl (fname, family_id) self) = Success B
  /\ exists fam,
       docs (fst (process_single_file env cl (fname, family_id) self))
       = (docs self ++ [record_built self cl fname B md fam])%list.
Proof.
  intros Hdir Hp Hmd Ht Hm Hcopy Hwrite B.
  pose proof (BuildFacts.process_single_file_appends env cl fname family_id self)
    as Happ.
  cbv zeta in Happ. fold B in Happ.
  assert (snd (process_single_file env cl (fname, family_id) self) = Success B) as Hs.
  { unfold process_single_file. rewrite Hdir. fold B.
    pose proof (ChunkFacts.build_and_publish_succeeds env cl fname B family_id p md
                  self Hmd Ht Hm Hcopy Hwrite) as Hb.
    unfold parsed_for in Hp.
    destruct (String.eqb _ "pdf").
    - destruct (chunk_pdf_and_parse env fname) as [[q|]|]; try discriminate.
      injection Hp as ->.
      destruct (build_and_publish env cl fname B family_id p self) as [s [r|]];
        cbn in Hb; [now injection Hb as -> | discriminate].
    - rewrite Hp.
      destruct (build_and_publish env cl fname B family_id p self) as [s [r|]];
        cbn in Hb; [now injection Hb as -> | discriminate]. }
  split; [exact Hs|].
  destruct (process_single_file env cl (fname, family_id) self) as [s r].
  cbn [fst snd] in *. subst r.
  destruct Happ as (_ & p' & md' & fam & Hp' & Hmd' & _ & Hd).
  exists fam. rewrite Hd. do 3 f_equal. congruence.
Qed.

Lemma pdf_without_text_witness :
  isdir textless_env "in/b.pdf" = false
  /\ pdf_reader textless_env "in/b.pdf" false = Some 3
  /\ parsed_chunks textless_env "in/b.pdf" 3 = []
  /\ process_single_file textless_env demo_closure ("in/b.pdf", None) init
     = (init, Failed exception).
Proof.
  split; [reflexivity|]. split; [reflexivity|]. split; [reflexivity|].
  exact (proj2 (pdf_without_text_publishes_nothing textless_env demo_closure
                  "in/b.pdf" None init eq_refl eq_refl) 3 eq_refl eq_refl).
Defined.

Lemma rendering_errors_witness :
  isdir failing_first_chunk "in/b.pdf" = false
  /\ convert_from_path failing_first_chunk "in/b.pdf" 150 1 2 = None
  /\ opt_data (fst (process_single_file failing_first_chunk demo_closure
                      ("in/b.pdf", None) init)) = []
  /\ snd (process_single_file failing_first_chunk demo_closure ("in/b.pdf", None) init)
     = Success "PL_WEATHERFORD00008379".
Proof.
  split; [reflexivity|]. split; [reflexivity|]. split; [vm_compute; reflexivity|].
  refine (proj1 (rendering_errors_do_not_fail_the_file failing_first_chunk demo_closure
            "in/b.pdf" None init
            {| metadata := Some [("Creation-Date", MList ["2020-01-01T10:00:00.123Z"]);
                                 ("xmpTPg:NPages", MStr "14")];
               content := Some "page text" |}
            _ eq_refl _ eq_refl _ _ _ _)).
  - vm_compute. reflexivity.
  - intros l. discriminate.
  - intros l. discriminate.
  - reflexivity.
  - reflexivity.
Defined.

(** ** Bates numbers of pages and of files *)

(** X9.  The second page of a PDF of two pages or more gets the Bates
    number that the pre-assignment gave to the next file of the sorted
    list: page numbers continue from the number of the file, while
    files are numbered one apart. *)
Theorem page_numbers_run_into_the_next_file
    (env : Env) (self : Creator) (cfg : ProcessingConfig)
    (input_dir output_dir volume : string) (i : nat) (k : Z) :
  let all_files := collect_files (isfile env) (glob env input_dir) in
  let cl := snd (fst (prepare env self cfg input_dir output_dir volume)) in
  let pdf_path := nth i all_files "" in
  let next := nth (S i) all_files "" in
  let B := get_bates_for_file self (bates_assignments_of cl) (bates_counter cl) in
  NoDup (glob env input_dir) ->
  (S i < List.length all_files)%nat ->
  plain_prefix (prefix self) = true ->
  0 < or_default (pdf_chunk_size cfg) 5 ->
  pdf_reader env pdf_path true = Some k ->
  2 <= k ->
  (forall a b, 1 <= a -> a <= b -> b <= k ->
     exists imgs,
       convert_from_path env pdf_path (or_default (pdf_dpi cfg) 150) a b = Some imgs
       /\ Z.of_nat (List.length imgs) = b - a + 1) ->
  (forall p img c, imwrite env p img c = true) ->
  exists e,
    nth_error (opt_data (fst (_process_pdf_pages env pdf_path (B pdf_path)
                                output_dir volume cfg self)))
              (List.length (opt_data self) + 1)
    = Some e
    /\ bates e = B next.
Proof.
  intros all_files cl pdf_path next B Hnd Hi Hplain Hc Hreader Hk Hrender Hwrite.
  assert (NoDup all_files) as Hfiles by now apply AssignFacts.collect_files_nodup.
  assert (forall j, (j < List.length all_files)%nat ->
            B (nth j all_files "")
            = get_bates (prefix self) (start_value self + Z.of_nat j) default_ndigit)
    as HB.
  { intros j Hj. subst B cl. unfold get_bates_for_file, Dict.get_default.
    cbn [prepare fst snd bates_assignments_of]. fold all_files.
    now rewrite (AssignFacts.assigned_nth self all_files j Hfiles Hj). }
  assert (opt_data (fst (_process_pdf_pages env pdf_path (B pdf_path)
                           output_dir volume cfg self))
          = (opt_data self
             ++ map (entry self volume (start_value self + Z.of_nat i) k)
                    (zrange 0 k))%list) as Hpages.
  { subst pdf_path. rewrite HB by lia.
    unfold _process_pdf_pages, Exc.try_except. cbn [fst].
    unfold Exc.bind at 1, Exc.lift at 1. rewrite Hreader.
    unfold Exc.bind at 1, Exc.lift at 1.
    rewrite (PageFacts.py_range_chunks k _ Hc).
    destruct (PageFacts.all_chunks env self _ output_dir volume
                (start_value self + Z.of_nat i) k Hplain eq_refl Hwrite
                (nth i all_files "") _ _ (or_default (image_compression cfg) 6) Hc k
                Hrender self (Z.le_refl k) eq_refl) as (st' & Hrun & Hd).
    unfold chunk_body in Hrun. rewrite Hrun. exact Hd. }
  rewrite Hpages.
  exists (entry self volume (start_value self + Z.of_nat i) k 1).
  split.
  - rewrite nth_error_app2 by lia.
    replace (List.length (opt_data self) + 1 - List.length (opt_data self))%nat
      with 1%nat by lia.
    unfold zrange. replace (Z.to_nat k) with (S (S (Z.to_nat k - 2))) by lia.
    reflexivity.
  - subst next. rewrite HB by lia. unfold entry, page_entry. cbn [bates].
    f_equal. lia.
Qed.

Lemma page_numbers_witness :
  NoDup (glob demo_env "in")
  /\ nth 1 (collect_files (isfile demo_env) (glob demo_env "in")) "" = "in/b.pdf"
  /\ nth 2 (collect_files (isfile demo_env) (glob demo_env "in")) "" = "in/c.txt"
  /\ exists e,
       nth_error (opt_data (fst (_process_pdf_pages demo_env "in/b.pdf"
                                   "PL_WEATHERFORD00008379" "out" "VOL" demo_config
                                   init))) 1 = Some e
       /\ bates e = "PL_WEATHERFORD00008380"
       /\ Dict.get (bates_assignments_of demo_closure) "in/c.txt" = Some (bates e).
Proof.
  assert (NoDup (glob demo_env "in")) as Hnd by (cbn; nodup_strings).
  split; [exact Hnd|]. split; [reflexivity|]. split; [reflexivity|].
  destruct (page_numbers_run_into_the_next_file demo_env init demo_config
              "in" "out" "VOL" 1 3 Hnd) as (e & He & Hb).
  - vm_compute. lia.
  - reflexivity.
  - reflexivity.
  - reflexivity.
  - lia.
  - intros a b Ha Hab Hb. eexists. split; [reflexivity|].
    cbn. rewrite length_map, length_seq. lia.
  - reflexivity.
  - exists e. split; [exact He|]. rewrite Hb. split; reflexivity.
Defined.

(** ** The fields of a record and the loadfile *)

(** X10.  The HashValue of every record a run publishes is a string of 32
    lower-case hexadecimal digits. *)
Theorem hash_value_is_32_hex_digits
    (env : Env) (self : Creator) (cfg : ProcessingConfig)
    (input_dir output_dir volume : string)
    (order : list (string * option string)) :
  exists new,
    docs (fst (process_files env self cfg input_dir output_dir volume order))
    = (docs self ++ new)%list
    /\ Forall (fun doc => exists h,
                 field doc "HashValue" = VStr h
                 /\ String.length h = 32%nat
                 /\ PyStr.all_chars is_lower_hex h = true)
              new.
Proof.
  destruct (run_records env self cfg input_dir output_dir volume order)
    as (new & Hd & Hall).
  exists new. split; [exact Hd|]. clear Hd.
  induction Hall as [|fi doc l l' (p & md & fam & _ & _ & _ & ->) _ IH];
    constructor; [|exact IH].
  exists (Md5.hexdigest (encode (fst fi))). split; [reflexivity|].
  apply CodecFacts.hexdigest_spec.
Qed.

(** X11.  With the delimiter and the wrapper left at their defaults and
    the encoding left at UTF-8, [write_loadfile] raises exactly when
    the file cannot be opened and written; when it returns, the file
    holds the UTF-8 encoding of the text written, decoded as UTF-8 it
    is that text, and Test 4 of [run_data_integrity_tests] passes on
    it, whatever the records. *)
Theorem default_loadfile_passes_format_test
    (can_write : string -> bool) (self : Creator) (cfg : LoadfileConfig)
    (output_dir volume : string) (fs : FS) :
  delimiter cfg = None -> wrapper cfg = None ->
  encoding cfg = None \/ encoding cfg = Some utf_8 ->
  let text :=
    String.concat "" (map (fun l => l ++ newline) (loadfile_lines self "020" "254")) in
  (write_loadfile can_write self cfg output_dir volume fs = None
   <-> can_write (loadfile_path output_dir volume) = false)
  /\ forall fs',
       write_loadfile can_write self cfg output_dir volume fs = Some fs' ->
       fs' = Dict.set fs (loadfile_path output_dir volume) (encode text)
       /\ option_map decode_utf8 (Dict.get fs' (loadfile_path output_dir volume))
          = Some (Some text)
       /\ test_loadfile_format output_dir volume fs' = PASS.
Proof.
  intros Hd Hw He text. unfold write_loadfile. rewrite Hd, Hw.
  change (config_char None "0x14") with (Some "020"%char).
  change (config_char None "0xFE") with (Some "254"%char).
  assert (encode_with (match encoding cfg with Some e => e | None => utf_8 end)
          = fun s => Some (encode s)) as ->
    by (destruct He as [-> | ->]; reflexivity).
  cbv beta zeta. fold text.
  destruct (can_write (loadfile_path output_dir volume)).
  - split; [split; discriminate|].
    intros fs' [= <-]. split; [reflexivity|].
    unfold test_loadfile_format. rewrite DictFacts.get_set_same.
    cbn [option_map]. rewrite CodecFacts.decode_encode. split; [reflexivity|].
    unfold text, loadfile_lines. cbn [map String.concat].
    generalize (map (fun l : string => l ++ newline)
                    (map (record_line "020" "254") (docs self))).
    intros rest. destruct rest as [|x rest]; vm_compute; reflexivity.
  - split; [split; reflexivity|]. discriminate.
Qed.

Lemma default_loadfile_witness :
  delimiter default_loadfile_config = None
  /\ wrapper default_loadfile_config = None
  /\ option_map (test_loadfile_format "out" "VOL")
       (write_loadfile (fun _ => true) demo_run default_loadfile_config
                       "out" "VOL" [])
     = Some PASS
  /\ write_loadfile (fun _ => false) demo_run default_loadfile_config
                    "out" "VOL" [] = None.
Proof.
  split; [reflexivity|]. split; [reflexivity|]. split.
  - destruct (write_loadfile (fun _ => true) demo_run default_loadfile_config
                             "out" "VOL" []) as [fs'|] eqn:Hwrite;
      [|vm_compute in Hwrite; discriminate].
    destruct (default_loadfile_passes_format_test (fun _ => true) demo_run
                default_loadfile_config "out" "VOL" [] eq_refl eq_refl
                (or_introl eq_refl)) as (_ & H).
    destruct (H fs' Hwrite) as (_ & _ & Ht).
    cbn [option_map]. now rewrite Ht.
  - apply (default_loadfile_passes_format_test (fun _ => false) demo_run
             default_loadfile_config "out" "VOL" [] eq_refl eq_refl
             (or_introl eq_refl)).
    reflexivity.
Defined.

(** X12.  With the default wrapper and the encoding set to Latin-1 a
    loadfile that [write_loadfile] can open and write starts with the
    byte 0xFE, which is not UTF-8: Test 4, which opens the file as
    UTF-8, reports an error reading the loadfile. *)
Theorem latin_1_loadfile_fails_format_test
    (can_write : string -> bool) (self : Creator) (cfg : LoadfileConfig)
    (output_dir volume : string) (fs : FS) (delim : ascii) :
  config_char (delimiter cfg) "0x14" = Some delim ->
  wrapper cfg = None ->
  encoding cfg = Some latin_1 ->
  can_write (loadfile_path output_dir volume) = true ->
  option_map (test_loadfile_format output_dir volume)
             (write_loadfile can_write self cfg output_dir volume fs)
  = Some FAIL_reading.
Proof.
  intros Hd Hw He Hcw. unfold write_loadfile. rewrite Hd, Hw, He, Hcw.
  change (config_char None "0xFE") with (Some "254"%char).
  cbn [encode_with option_map]. unfold test_loadfile_format.
  rewrite DictFacts.get_set_same. unfold loadfile_lines. cbn [map].
  generalize (map (fun l : string => l ++ newline)
                  (map (record_line delim "254") (docs self))).
  intros rest. destruct rest as [|x rest]; vm_compute; reflexivity.
Qed.

Lemma latin_1_witness :
  config_char (delimiter latin_1_config) "0x14" = Some "020"%char
  /\ wrapper latin_1_config = None
  /\ encoding latin_1_config = Some latin_1
  /\ option_map (test_loadfile_format "out" "VOL")
       (write_loadfile (fun _ => true) demo_run latin_1_config "out" "VOL" [])
     = Some FAIL_reading.
Proof.
  split; [reflexivity|]. split; [reflexivity|]. split; [reflexivity|].
  exact (latin_1_loadfile_fails_format_test (fun _ => true) demo_run latin_1_config
           "out" "VOL" [] "020" eq_refl eq_refl eq_refl eq_refl).
Defined.

(** ** The date converters *)

(** X13.  [convert_date_safe] and [convert_time_safe] fail together and
    succeed together: either both return [None], or both render one
    valid timestamp, the time as eight characters and the date, for a
    year of four digits, in the form Test 6 accepts. *)
Theorem date_and_time_are_converted_together (v : value) :
  convert_date_safe v = VNone /\ convert_time_safe v = VNone
  \/ exists x,
       DateTime.valid x = true
       /\ convert_date_safe v = VStr (DateTime.strftime_mdY x)
       /\ convert_time_safe v = VStr (DateTime.strftime_HMS x)
       /\ String.length (DateTime.strftime_HMS x) = 8%nat
       /\ (1000 <= DateTime.year x -> is_mdY (DateTime.strftime_mdY x) = true).
Proof.
  unfold convert_date_safe, convert_time_safe.
  destruct (negb (truthy v)); [now left|].
  destruct (date_text v) as [s|]; [|now left].
  destruct (DateTime.strptime_iso s) as [x|] eqn:E; [|now left].
  right. exists x. pose proof (DateFacts.strptime_valid s x E) as Hv.
  repeat split; auto.
  - now apply DateFacts.HMS_length.
  - intros Hy. now apply DateFacts.mdY_form.
Qed.

(** ** _group_email_files *)

(** X14.  The families of [_group_email_files] partition the email files
    of the list: together their lists hold each email file as often as
    the list does and nothing else, no key occurs twice, no family is
    empty.  A file that is not an email is submitted without a family,
    an email file of the list with the key it is filed under. *)
Theorem email_families_partition_the_email_files (env : Env) (all_files : list string) :
  let email_families := _group_email_files env all_files in
  Permutation (List.concat (map snd email_families)) (filter is_email all_files)
  /\ NoDup (map fst email_families)
  /\ Forall (fun kl => snd kl <> []) email_families
  /\ (forall f, is_email f = false -> family_id_of email_families f = None)
  /\ (forall f, In f all_files -> is_email f = true ->
        family_id_of email_families f = Some (family_key_of env f)).
Proof.
  intros email_families.
  destruct (GroupFacts.groups_accumulate env all_files [] [] (Permutation_refl _)
              (NoDup_nil _) (Forall_nil _)) as (Hp & Hk & Hn).
  change (fold_left (group_step env) all_files []) with email_families in *.
  cbn [app] in Hp.
  split; [exact Hp|]. split; [exact Hk|]. split; [exact Hn|]. split.
  - intros f Hf. apply GroupFacts.family_id_of_none. intros k l Hin Hfl.
    assert (In f (List.concat (map snd email_families))) as Hc.
    { apply in_concat. exists l. split; [|exact Hfl].
      apply in_map_iff. exists (k, l). auto. }
    apply (Permutation_in _ Hp), filter_In in Hc as [_ Hc]. congruence.
  - intros f Hf He. now apply FamilyFacts.grouped.
Qed.

(** ** get_bates *)

(** X15.  For a number that is not negative, [get_bates] appends to the
    prefix a run of decimal digits that reads back as the number: eight
    digits up to 99,999,999, more beyond, never fewer and never
    truncated. *)
Theorem bates_numbers_are_eight_digits_wide (p : string) (v : Z) :
  0 <= v ->
  exists d,
    get_bates p v default_ndigit = p ++ d
    /\ PyStr.all_chars PyStr.is_digit d = true
    /\ PyStr.int d = Some v
    /\ (v < 10 ^ 8 -> String.length d = 8%nat)
    /\ (10 ^ 8 <= v -> (8 < String.length d)%nat).
Proof.
  intros Hv. exists (PyStr.format_0d default_ndigit v).
  split; [reflexivity|].
  destruct (WidthFacts.format_0d_width 7 v Hv) as (Ha & Hlt & Hge).
  split; [exact Ha|]. split; [apply PyStrFacts.int_format_0d|].
  split; [exact Hlt | exact Hge].
Qed.

Lemma bates_width_witness :
  0 <= 100000000
  /\ get_bates "PL_WEATHERFORD" 100000000 default_ndigit = "PL_WEATHERFORD100000000"
  /\ exists d, get_bates "PL_WEATHERFORD" 100000000 default_ndigit
               = "PL_WEATHERFORD" ++ d
               /\ (8 < String.length d)%nat.
Proof.
  split; [lia|]. split; [reflexivity|].
  destruct (bates_numbers_are_eight_digits_wide "PL_WEATHERFORD" 100000000 ltac:(lia))
    as (d & Hd & _ & _ & _ & Hw).
  exists d. split; [exact Hd | apply Hw; lia].
Defined.

(** X16.  A family key is its tag followed by exactly four decimal
    digits, the hash modulo 10000; two keys of one tag are equal exactly
    when the hashes agree modulo 10000. *)
Theorem family_keys_keep_four_digits_of_the_hash (tag : string) (h h' : Z) :
  (exists d, family_token tag h = tag ++ d
             /\ String.length d = 4%nat
             /\ PyStr.all_chars PyStr.is_digit d = true
             /\ PyStr.int d = Some (h mod 10000))
  /\ (family_token tag h = family_token tag h' <-> h mod 10000 = h' mod 10000).
Proof.
  split.
  - exists (PyStr.format_0d 4 (h mod 10000)). split; [reflexivity|].
    pose proof (Z.mod_pos_bound h 10000 ltac:(lia)) as Hm.
    destruct (WidthFacts.format_0d_width 3 (h mod 10000) ltac:(lia)) as (Ha & Hlt & _).
    split; [apply Hlt; change (10 ^ Z.of_nat 4) with 10000; lia|].
    split; [exact Ha | apply PyStrFacts.int_format_0d].
  - unfold family_token. split.
    + intros H. apply PyStrFacts.append_inv_head in H.
      now apply PyStrFacts.format_0d_inj in H.
    + now intros ->.
Qed.

(** ** Page Count *)

(** X17.  The record of a PDF that [process_single_file] publishes
    carries as Page Count the decimal text of the number of pages the
    PDF reader counted, whatever the parser reported for the chunks. *)
Theorem pdf_page_count_is_the_readers
    (env : Env) (cl : Closure) (fname : string) (family_id : option string)
    (self s : Creator) (N : Z) (b : string) :
  metadata_kws cl = get_enhanced_metadata_mapping ->
  PyStr.strip_chars (PyStr.lower (snd (Path.splitext fname))) "." = "pdf" ->
  pdf_reader env fname false = Some N ->
  process_single_file env cl (fname, family_id) self = (s, Success b) ->
  exists doc,
    docs s = (docs self ++ [doc])%list
    /\ field doc "BegBates" = VStr b
    /\ field doc "Page Count" = VStr (PyStr.str_int N).
Proof.
  intros Hkws Hext Hr Hrun.
  pose proof (BuildFacts.process_single_file_appends env cl fname family_id self)
    as Happ.
  cbv zeta in Happ. rewrite Hrun in Happ.
  destruct Happ as (-> & p & md & fam & Hp & Hmd & _ & Hd).
  eexists. split; [exact Hd|]. split; [reflexivity|].
  unfold parsed_for in Hp. rewrite Hext in Hp.
  change (String.eqb "pdf" "pdf") with true in Hp. cbv iota in Hp.
  destruct (chunk_pdf_and_parse env fname) as [[q|]|] eqn:Hc; try discriminate.
  injection Hp as ->.
  pose proof (PageCountFacts.chunk_pdf_and_parse_counted env fname N p md Hr Hc Hmd)
    as Hn.
  unfold record_built. rewrite Hext. unfold field, doc_entry, Dict.get_default.
  cbn [Dict.get String.eqb Ascii.eqb Bool.eqb]. cbv iota.
  unfold mapped. rewrite Hkws. cbn. now rewrite Hn.
Qed.

Lemma pdf_page_count_witness :
  pdf_reader demo_env "in/b.pdf" false = Some 3
  /\ exists doc,
       docs (fst (process_single_file demo_env demo_closure ("in/b.pdf", None) init))
       = (docs init ++ [doc])%list
       /\ field doc "BegBates" = VStr "PL_WEATHERFORD00008379"
       /\ field doc "Page Count" = VStr "3".
Proof.
  split; [reflexivity|].
  apply (pdf_page_count_is_the_readers demo_env demo_closure "in/b.pdf" None init
           (fst (process_single_file demo_env demo_closure ("in/b.pdf", None) init))
           3 "PL_WEATHERFORD00008379" eq_refl eq_refl eq_refl).
  vm_compute. reflexivity.
Defined.

(** ** Creation dates *)

(** X18.  In every record a run publishes, DateCreated and TimeCreated
    are both None, or the date and the time of one valid timestamp; for
    a year of at least 1000 such a date is not reported by Test 6. *)
Theorem created_dates_pass_the_date_test
    (env : Env) (self : Creator) (cfg : ProcessingConfig)
    (input_dir output_dir volume : string)
    (order : list (string * option string)) :
  exists new,
    docs (fst (process_files env self cfg input_dir output_dir volume order))
    = (docs self ++ new)%list
    /\ Forall
         (fun doc =>
            field doc "DateCreated" = VNone /\ field doc "TimeCreated" = VNone
            \/ exists x,
                 DateTime.valid x = true
                 /\ field doc "DateCreated" = VStr (DateTime.strftime_mdY x)
                 /\ field doc "TimeCreated" = VStr (DateTime.strftime_HMS x)
                 /\ (1000 <= DateTime.year x ->
                     invalid_date doc "DateCreated" = false))
         new.
Proof.
  destruct (run_records env self cfg input_dir output_dir volume order)
    as (new & Hd & Hall).
  exists new. split; [exact Hd|]. clear Hd.
  induction Hall as [|fi doc l l' (p & md & fam & _ & _ & _ & ->) _ IH];
    constructor; [|exact IH].
  unfold record_built, field, invalid_date, doc_entry, Dict.get_default.
  cbn [Dict.get String.eqb Ascii.eqb Bool.eqb]. cbv iota.
  destruct (is_none (meta_get md (Some "Creation-Date") VNone)); [now left|].
  unfold convert_date_safe, convert_time_safe.
  destruct (negb (truthy _)); [now left|].
  destruct (date_text _) as [s|]; [|now left].
  destruct (DateTime.strptime_iso s) as [x|] eqn:E; [|now left].
  right. exists x. pose proof (DateFacts.strptime_valid s x E) as Hv.
  repeat split; auto.
  intros Hy. cbn [py_str]. rewrite (DateFacts.mdY_form x Hv Hy).
  apply andb_false_r.
Qed.

(** ** What is published *)

(** X19.  When the tasks that complete are among those the run
    prepared, every record it publishes is that of a path of the
    listing of the input directory that is a regular file, is not a
    directory and does not end in .jar, and carries its base name. *)
Theorem only_listed_regular_files_are_published
    (env : Env) (self : Creator) (cfg : ProcessingConfig)
    (input_dir output_dir volume : string)
    (order : list (string * option string)) :
  incl order (snd (prepare env self cfg input_dir output_dir volume)) ->
  exists new,
    docs (fst (process_files env self cfg input_dir output_dir volume order))
    = (docs self ++ new)%list
    /\ Forall
         (fun doc =>
            exists fname,
              In fname (glob env input_dir)
              /\ isfile env fname = true
              /\ isdir env fname = false
              /\ PyStr.endswith fname ".jar" = false
              /\ field doc "Filename" = VStr (Path.basename fname))
         new.
Proof.
  intros Hincl.
  destruct (run_records env self cfg input_dir output_dir volume order)
    as (new & Hd & Hall).
  exists new. split; [exact Hd|]. clear Hd.
  set (cl := snd (fst (prepare env self cfg input_dir output_dir volume))) in *.
  assert (Forall (fun fi => In fi order /\ succeeded (solo env cl self fi) = true)
                 (filter (fun fi => succeeded (solo env cl self fi)) order)) as Hdone
    by (apply Forall_forall; intros fi Hfi; now apply filter_In in Hfi).
  revert Hdone. induction Hall as [|fi doc l l' Hrec _ IH]; intros Hdone;
    constructor; [|apply IH; now inversion Hdone].
  inversion Hdone as [|? ? [Hin Hok] _]; subst.
  destruct Hrec as (p & md & fam & _ & _ & _ & ->).
  exists (fst fi).
  assert (In (fst fi) (collect_files (isfile env) (glob env input_dir))) as Hfile.
  { rewrite <- (tasks_files env self cfg input_dir output_dir volume).
    apply in_map, Hincl, Hin. }
  apply (Permutation_in _ (Permutation_sym
           (AssignFacts.collect_files_perm (isfile env) (glob env input_dir))))
    in Hfile.
  apply filter_In in Hfile as [Hglob Hkeep].
  apply andb_prop in Hkeep as [Hisfile Hjar]. apply negb_true_iff in Hjar.
  repeat split; try assumption.
  unfold solo, process_single_file in Hok. destruct fi as [fname family_id].
  cbn [fst]. destruct (isdir env fname); [discriminate | reflexivity].
Qed.

Lemma only_listed_witness :
  incl demo_tasks (snd (prepare demo_env init demo_config "in" "out" "VOL"))
  /\ map (fun doc => field doc "Filename") (docs demo_run)
     = [VStr "a.eml"; VStr "b.pdf"; VStr "c.txt"]
  /\ exists new,
       docs demo_run = (docs init ++ new)%list
       /\ Forall (fun doc => exists fname,
                    In fname (glob demo_env "in")
                    /\ isfile demo_env fname = true
                    /\ isdir demo_env fname = false
                    /\ PyStr.endswith fname ".jar" = false
                    /\ field doc "Filename" = VStr (Path.basename fname))
                 new.
Proof.
  split; [apply incl_refl|]. split; [vm_compute; reflexivity|].
  exact (only_listed_regular_files_are_published demo_env init demo_config
           "in" "out" "VOL" demo_tasks (incl_refl _)).
Defined.

(** ** determine_document_type *)

(** X20.  The document type is the chain of tests applied to the
    lower-cased extension of the path: it does not change when the path
    is lower-cased, it is Email exactly for the files grouped as emails,
    PDF Document exactly for the extension .pdf in any case, and always
    one of nine labels. *)
Theorem document_type_follows_the_extension (p : string) :
  determine_document_type p
  = type_of_extension (PyStr.lower (snd (Path.splitext p)))
  /\ determine_document_type (PyStr.lower p) = determine_document_type p
  /\ (determine_document_type p = "Email" <-> is_email p = true)
  /\ (determine_document_type p = "PDF Document"
      <-> PyStr.lower (snd (Path.splitext p)) = ".pdf")
  /\ In (determine_document_type p)
        ["Email"; "Word Document"; "Spreadsheet"; "Presentation"; "PDF Document";
         "Image"; "Text Document"; "Archive"; "Unknown"].
Proof.
  assert (forall q, determine_document_type q
                    = type_of_extension (PyStr.lower (snd (Path.splitext q)))) as Hext.
  { intros q. unfold determine_document_type.
    now rewrite LowerFacts.type_extension. }
  split; [apply Hext|]. split.
  { rewrite !Hext, LowerFacts.lower_splitext. cbn [snd].
    now rewrite LowerFacts.lower_idem. }
  rewrite Hext. unfold is_email. generalize (PyStr.lower (snd (Path.splitext p))).
  intros e. unfold type_of_extension.
  destruct (in_list e [".msg"; ".eml"; ".pst"]) eqn:E1.
  { split; [tauto|]. split; [|cbn; tauto].
    split; [discriminate|]. intros ->. discriminate. }
  destruct (in_list e [".doc"; ".docx"]) eqn:E2.
  { split; [split; discriminate|]. split; [|cbn; tauto].
    split; [discriminate|]. intros ->. discriminate. }
  destruct (in_list e [".xls"; ".xlsx"]) eqn:E3.
  { split; [split; discriminate|]. split; [|cbn; tauto].
    split; [discriminate|]. intros ->. discriminate. }
  destruct (in_list e [".ppt"; ".pptx"]) eqn:E4.
  { split; [split; discriminate|]. split; [|cbn; tauto].
    split; [discriminate|]. intros ->. discriminate. }
  destruct (String.eqb e ".pdf") eqn:E5.
  { split; [split; discriminate|]. split; [|cbn; tauto].
    split; [|reflexivity]. intros _. now apply String.eqb_eq. }
  assert (e <> ".pdf") as Hne by (intros ->; discriminate).
  repeat match goal with |- context [if ?b then _ else _] => destruct b end;
    (split; [split; discriminate|]; split; [|cbn; tauto];
     split; [discriminate | intros ->; congruence]).
Qed.

(** ** add_bates_stamp_with_config *)

(** X21.  The search for a font ends at the largest size between 8 and
    the configured size at which the text, measured in the font loaded
    for that size, fits between the margins; the image is left without
    a stamp exactly when no such size fits.  Everything drawn is the
    stamp text in the font loaded for the size found: the face of the
    font file at that size, or the default font when no font file was
    found or loading it raised. *)
Theorem stamp_uses_the_largest_font_that_fits
    (cv : Canvas) (cfg : BatesConfig) (img text : string) (size0 m w h : Z) :
  font_size cfg = Some size0 -> margin cfg = Some m ->
  image_size cv img = Some (w, h) ->
  (add_bates_stamp_with_config cv cfg img text = StampSkipped
   <-> forall s, min_font_size <= s <= size0 -> fits cv text w h m s = false)
  /\ forall ops,
       add_bates_stamp_with_config cv cfg img text = Stamped ops ->
       exists size,
         min_font_size <= size <= size0
         /\ fits cv text w h m size = true
         /\ (forall s, size < s <= size0 -> fits cv text w h m s = false)
         /\ Forall (fun o => op_text o = text /\ op_font o = load_font cv size)
                   ops
         /\ (find_available_font cv = None ->
             Forall (fun o => op_font o = DefaultFont) ops)
         /\ (forall font_path,
               find_available_font cv = Some font_path ->
               Forall (fun o =>
                         op_font o = if truetype cv font_path size
                                     then TrueType font_path size
                                     else DefaultFont) ops).
Proof.
  intros Hs Hm Hi.
  pose proof (StampFacts.fit_font_spec cv text w h m (Z.to_nat (size0 - 7)) size0
                (Nat.le_refl _)) as Hfit.
  split.
  - unfold add_bates_stamp_with_config. rewrite Hs, Hi, Hm.
    destruct (size0 <? min_font_size) eqn:E8.
    { apply Z.ltb_lt in E8. split; [|reflexivity]. intros _ s Hr. lia. }
    destruct (fit_font cv text w h m (Z.to_nat (size0 - 7)) size0) as [size|].
    + destruct Hfit as (Hr & Hok & _). split.
      * destruct (text_size cv size text) as [tw th].
        destruct (stamp_position _ m w h tw th) as [x y].
        destruct (match contrast_threshold cfg with Some _ => _ | None => _ end);
          [|discriminate].
        destruct (if or_else (shadow cfg) false then _ else Some []);
          [|discriminate].
        destruct (save cv img _); discriminate.
      * intros Hno. rewrite (Hno size Hr) in Hok. discriminate.
    + split; [intros _; exact Hfit | reflexivity].
  - intros ops Hops.
    destruct (StampFacts.stamped_shape cv cfg img text size0 m w h ops Hs Hm Hi Hops)
      as (size & before & fill & Hsize & _ & Hall).
    rewrite Hsize in Hfit. destruct Hfit as (Hr & Hok & Hmax).
    exists size. split; [exact Hr|]. split; [exact Hok|]. split; [exact Hmax|].
    split; [|split].
    + eapply Forall_impl; [|exact Hall]. now intros o [H1 H2].
    + intros Hnone. eapply Forall_impl; [|exact Hall]. intros o [H1 _].
      rewrite H1. unfold load_font. now rewrite Hnone.
    + intros font_path Hsome. eapply Forall_impl; [|exact Hall]. intros o [H1 _].
      rewrite H1. unfold load_font. now rewrite Hsome.
Qed.

Lemma largest_font_witness :
  font_size default_bates_config = Some 30
  /\ margin default_bates_config = Some 20
  /\ image_size stamp_canvas "out/VOL/IMAGES/0000/PL_WEATHERFORD00008379.tiff"
     = Some (200, 100)
  /\ add_bates_stamp_with_config stamp_canvas default_bates_config
       "out/VOL/IMAGES/0000/PL_WEATHERFORD00008379.tiff" "PL_WEATHERFORD00008379"
     = Stamped [DrawText 26 66 "PL_WEATHERFORD00008379" [255; 255; 255] DefaultFont]
  /\ exists size,
       min_font_size <= size <= 30
       /\ fits stamp_canvas "PL_WEATHERFORD00008379" 200 100 20 size = true
       /\ (forall s, size < s <= 30 ->
             fits stamp_canvas "PL_WEATHERFORD00008379" 200 100 20 s = false)
       /\ Forall (fun o => op_font o = DefaultFont)
                 [DrawText 26 66 "PL_WEATHERFORD00008379" [255; 255; 255]
                           DefaultFont].
Proof.
  split; [reflexivity|]. split; [reflexivity|]. split; [reflexivity|].
  split; [vm_compute; reflexivity|].
  destruct (proj2 (stamp_uses_the_largest_font_that_fits stamp_canvas
                     default_bates_config
                     "out/VOL/IMAGES/0000/PL_WEATHERFORD00008379.tiff"
                     "PL_WEATHERFORD00008379" 30 20 200 100
                     eq_refl eq_refl eq_refl)
              [DrawText 26 66 "PL_WEATHERFORD00008379" [255; 255; 255] DefaultFont])
    as (size & Hr & Hok & Hmax & _ & Hdefault & _).
  - vm_compute. reflexivity.
  - exists size. split; [exact Hr|]. split; [exact Hok|]. split; [exact Hmax|].
    exact (Hdefault eq_refl).
Defined.



(** ** apply_bates_stamps *)

(** X23.  [apply_bates_stamps] calls the stamping once for every listed
    path that is not a directory and has a supported extension, in the
    order of the listing and with the base name without extension as
    text, and for no other path; the skipped count is the number of
    calls that raised, every other call counts as processed, also one
    that left the image without a stamp. *)
Theorem stamping_visits_each_supported_image_once
    (cv : Canvas) (cfg : BatesConfig) (output_dir volume_name : string)
    (calls : list stamp_call) (processed_count skipped_count : Z) :
  apply_bates_stamps cv cfg output_dir volume_name
  = Some (calls, processed_count, skipped_count) ->
  calls = map (stamp_call_of cv cfg)
              (filter (stampable cv cfg)
                      (images_below cv (Path.join output_dir
                                                  [volume_name; "IMAGES"])))
  /\ skipped_count
     = Z.of_nat (List.length (filter (fun c => is_raised (snd c)) calls))
  /\ processed_count + skipped_count = Z.of_nat (List.length calls).
Proof.
  unfold apply_bates_stamps. destruct (negb (path_exists cv _)); [discriminate|].
  rewrite StampFacts.stamp_fold. cbn [app]. intros [= <- <- <-].
  split; [reflexivity|].
  match goal with
  | |- context [map (stamp_call_of cv cfg) ?l] =>
      generalize (map (stamp_call_of cv cfg) l)
  end.
  intros l. split; [lia|].
  induction l as [|c r IH]; [reflexivity|]. cbn [filter].
  destruct (is_raised (snd c)); cbn [negb List.length]; lia.
Qed.

Lemma stamping_visits_witness :
  apply_bates_stamps stamp_canvas default_bates_config "out" "VOL"
  = Some ([("out/VOL/IMAGES/0000/PL_WEATHERFORD00008379.tiff",
            "PL_WEATHERFORD00008379",
            Stamped [DrawText 26 66 "PL_WEATHERFORD00008379" [255; 255; 255] DefaultFont]);
           ("out/VOL/IMAGES/0000/broken.PNG", "broken", StampRaised)], 1, 1)
  /\ 1 + 1 = Z.of_nat 2.
Proof.
  split; [vm_compute; reflexivity|].
  destruct (stamping_visits_each_supported_image_once stamp_canvas
              default_bates_config "out" "VOL" _ 1 1 eq_refl) as (_ & _ & H).
  exact H.
Defined.

(** X24.  With a prefix without separator and the default formats, every
    image the creator puts under IMAGES that is listed and is not a
    directory is stamped with its own Bates number: the page images of
    PDF and TIFF files, and the copies of native image files. *)
Theorem images_are_stamped_with_their_bates_number
    (cv : Canvas) (cfg : BatesConfig) (outdir volume_name prefix : string)
    (v : Z) (fname img : string)
    (calls : list stamp_call) (processed_count skipped_count : Z) :
  PyStr.mem_char "/" prefix = false ->
  or_else (supported_formats cfg) default_formats = default_formats ->
  img = Path.join (Path.join outdir [volume_name; "IMAGES"; "0000"])
                  [get_bates prefix v default_ndigit ++ ".tiff"]
  \/ in_list (PyStr.strip_chars (PyStr.lower (snd (Path.splitext fname))) ".")
             ["tif"; "tiff"; "jpg"; "jpeg"; "png"] = true
     /\ img = Path.join outdir
                [Path.join volume_name
                   ["IMAGES"; "0000";
                    get_bates prefix v default_ndigit ++ snd (Path.splitext fname)]] ->
  apply_bates_stamps cv cfg outdir volume_name
  = Some (calls, processed_count, skipped_count) ->
  In img (images_below cv (Path.join outdir [volume_name; "IMAGES"])) ->
  is_directory cv img = false ->
  In (img, get_bates prefix v default_ndigit,
      add_bates_stamp_with_config cv cfg img (get_bates prefix v default_ndigit))
     calls.
Proof.
  intros Hp Hfmt Himg Hrun Hin Hdir.
  destruct (StampFacts.get_bates_plain prefix v Hp) as (Hb & Hn & Hne & Hst).
  revert Himg Hb Hn Hne Hst. generalize (get_bates prefix v default_ndigit).
  intros b Himg Hb Hn Hne Hst.
  assert (exists d e,
             dir_like d /\ img = d ++ b ++ String "." e
             /\ PyStr.mem_char "/" e = false /\ PyStr.mem_char "." e = false
             /\ in_list (PyStr.lower (PyStr.strip_chars (String "." e) "."))
                        default_formats = true) as (d & e & Hd & -> & He & Hdot & Hext).
  { assert (forall t, b ++ t <> "") as Hne' by (intros t; now destruct b).
    destruct Himg as [-> | [Hlist ->]].
    - destruct (StampFacts.join_tail
                  (Path.join outdir [volume_name; "IMAGES"; "0000"]) []
                  (b ++ ".tiff") (Hst ".tiff") (Hne' ".tiff")) as (d & Hd & Hj).
      exists d, "tiff". cbn [app] in Hj. rewrite Hj.
      repeat split; try reflexivity. exact Hd.
    - destruct (StampFacts.splitext_ext_form fname) as [He | (e & He & Hdot & Hsep)].
      { rewrite He in Hlist. discriminate. }
      rewrite He in *.
      destruct (StampFacts.join_tail volume_name ["IMAGES"; "0000"]
                  (b ++ String "." e) (Hst _) (Hne' _)) as (d1 & Hd1 & Hj1).
      cbn [app] in Hj1. rewrite Hj1.
      destruct (StampFacts.join2_tail outdir d1 (b ++ String "." e) Hd1 (Hst _)
                  (Hne' _)) as (d & Hd & Hj).
      exists d, e. unfold Path.join at 1. cbn [fold_left]. rewrite Hj.
      repeat split; try assumption.
      rewrite StampFacts.lower_strip_dot.
      generalize dependent (PyStr.strip_chars (PyStr.lower (String "." e)) ".").
      intros x Hlist. unfold in_list in Hlist. cbn [existsb] in Hlist.
      repeat match type of Hlist with
             | (String.eqb x ?y || _) = true =>
                 let E := fresh "E" in
                 destruct (String.eqb x y) eqn:E;
                 [apply String.eqb_eq in E; rewrite E; reflexivity
                 | cbn [orb] in Hlist]
             end.
      discriminate Hlist. }
  destruct (StampFacts.stamp_reads d b e Hd Hb Hn He Hdot) as [Hname Hex].
  rewrite (StampFacts.stamping_calls cv cfg outdir volume_name calls
             processed_count skipped_count Hrun).
  apply in_map_iff. exists (d ++ b ++ String "." e). split.
  - unfold stamp_call_of. now rewrite Hname.
  - apply filter_In. split; [exact Hin|].
    unfold stampable. rewrite Hdir, Hfmt, Hex, Hext. reflexivity.
Qed.

Lemma images_stamped_witness :
  PyStr.mem_char "/" "PL_WEATHERFORD" = false
  /\ In ("out/VOL/IMAGES/0000/PL_WEATHERFORD00008379.tiff",
         "PL_WEATHERFORD00008379",
         Stamped [DrawText 26 66 "PL_WEATHERFORD00008379" [255; 255; 255] DefaultFont])
        [("out/VOL/IMAGES/0000/PL_WEATHERFORD00008379.tiff",
          "PL_WEATHERFORD00008379",
          Stamped [DrawText 26 66 "PL_WEATHERFORD00008379" [255; 255; 255] DefaultFont]);
         ("out/VOL/IMAGES/0000/broken.PNG", "broken", StampRaised)].
Proof.
  split; [reflexivity|].
  apply (images_are_stamped_with_their_bates_number stamp_canvas
           default_bates_config "out" "VOL" "PL_WEATHERFORD" 8379 "in/b.pdf"
           "out/VOL/IMAGES/0000/PL_WEATHERFORD00008379.tiff" _ 1 1
           eq_refl eq_refl (or_introl eq_refl)).
  - vm_compute. reflexivity.
  - vm_compute. tauto.
  - reflexivity.
Defined.

(** ** validate_page_counts *)

(** X25.  On a loadfile written with the default delimiter and wrapper
    whose field texts have no wrapper and no line break,
    [validate_page_counts] never reports a missing page image: when it
    returns, it returns True, whatever images exist.  The piece it reads
    as the page count of a line is a delimiter. *)
Theorem page_count_validation_never_fails
    (can_write : string -> bool)
    (self : Creator) (cfg : LoadfileConfig) (out vol : string) (fs : FS)
    (dk : Disk) (opt_path images_dir : string) :
  delimiter cfg = None -> wrapper cfg = None ->
  encoding cfg = None \/ encoding cfg = Some utf_8 ->
  (forall doc c, In doc (docs self) -> In c cols ->
     clean (field_text doc c) = true) ->
  write_loadfile can_write self cfg out vol fs = Some (files dk) ->
  validate_page_counts dk (loadfile_path out vol) opt_path images_dir
  = (if readable dk opt_path && listable dk images_dir then Some true else None)
  /\ forall doc parts,
       In doc (docs self) ->
       PyStr.split (record_line "020" "254" doc ++ newline) thorn = Some parts ->
       List.length parts = 79%nat
       /\ part parts 30 = String "020" ""
       /\ part parts 1 = field_text doc "BegBates"
       /\ part parts 59 = field_text doc "Page Count".
Proof.
  intros Hd Hw He Hclean Hwrite.
  pose proof (ValidateFacts.written_default can_write self cfg out vol fs (files dk)
                Hd Hw He Hwrite) as Hfiles. split.
  - unfold validate_page_counts. rewrite <- Hfiles.
    destruct (ValidateFacts.written_data_lines self fs (loadfile_path out vol) Hclean)
      as (text & -> & ->).
    assert (forall l st,
               (forall doc, In doc l -> In doc (docs self)) ->
               fold_left page_count_step
                 (map (fun doc => record_line "020" "254" doc ++ newline) l) st
               = st) as Hfold.
    { induction l as [|doc r IH]; intros st Hl; [reflexivity|]. cbn [map fold_left].
      rewrite ValidateFacts.page_count_step_record.
      - apply IH. intros d Hin. apply Hl. now right.
      - intros c Hc. apply Hclean; [apply Hl; now left | exact Hc]. }
    rewrite (Hfold (docs self) _ (fun _ H => H)). reflexivity.
  - intros doc parts Hdoc.
    rewrite (ValidateFacts.record_parts doc (fun c Hc => Hclean doc c Hdoc Hc)).
    intros [= <-]. repeat split.
Qed.

Lemma page_count_validation_witness :
  delimiter default_loadfile_config = None
  /\ wrapper default_loadfile_config = None
  /\ map (fun doc => field_text doc "Page Count") (docs demo_run)
     = [""; "3"; ""]
  /\ forall fs,
       write_loadfile (fun _ => true) demo_run default_loadfile_config "out" "VOL" []
       = Some fs ->
       validate_page_counts
         {| files := fs; disk_exists := fun _ => false; listdir := fun _ => None |}
         (loadfile_path "out" "VOL") "out/VOL/DATA/VOL.opt" "out/VOL/IMAGES/0000"
       = Some true.
Proof.
  split; [reflexivity|]. split; [reflexivity|]. split; [vm_compute; reflexivity|].
  intros fs Hfs.
  apply (page_count_validation_never_fails (fun _ => true) demo_run default_loadfile_config
           "out" "VOL" []
           {| files := fs; disk_exists := fun _ => false; listdir := fun _ => None |}
           "out/VOL/DATA/VOL.opt" "out/VOL/IMAGES/0000" eq_refl eq_refl
           (or_introl eq_refl)).
  - intros doc c Hdoc Hc.
    assert (forallb (fun d => forallb (fun x => clean (field_text d x)) cols)
                    (docs demo_run) = true) as H by (vm_compute; reflexivity).
    rewrite forallb_forall in H. specialize (H doc Hdoc).
    rewrite forallb_forall in H. now apply H.
  - exact Hfs.
Defined.

(** ** validate_email_families *)

(** X26.  On such a loadfile [validate_email_families] returns True
    exactly when some record has a CC text that is not blank: the piece
    it reads as the family of a line is the CC field, and the FamilyID
    field is not read. *)
Theorem family_validation_reads_the_cc_field
    (can_write : string -> bool)
    (self : Creator) (cfg : LoadfileConfig) (out vol : string) (fs : FS)
    (dk : Disk) :
  delimiter cfg = None -> wrapper cfg = None ->
  encoding cfg = None \/ encoding cfg = Some utf_8 ->
  (forall doc c, In doc (docs self) -> In c cols ->
     clean (field_text doc c) = true) ->
  write_loadfile can_write self cfg out vol fs = Some (files dk) ->
  validate_email_families dk (loadfile_path out vol)
  = Some (existsb (fun doc => has_value (field_text doc "CC")) (docs self)).
Proof.
  intros Hd Hw He Hclean Hwrite.
  pose proof (ValidateFacts.written_default can_write self cfg out vol fs (files dk)
                Hd Hw He Hwrite) as Hfiles.
  unfold validate_email_families. rewrite <- Hfiles.
  destruct (ValidateFacts.written_data_lines self fs (loadfile_path out vol) Hclean)
    as (text & -> & ->).
  f_equal.
  assert (forall l fam,
             (forall doc, In doc l -> In doc (docs self)) ->
             (0 <? Z.of_nat (List.length
                               (fold_left email_family_step
                                  (map (fun doc => record_line "020" "254" doc
                                                   ++ newline) l) fam)))
             = (0 <? Z.of_nat (List.length fam))
               || existsb (fun doc => has_value (field_text doc "CC")) l) as Hfold.
  { induction l as [|doc r IH]; intros fam Hl; cbn [map fold_left existsb].
    - now rewrite orb_false_r.
    - rewrite ValidateFacts.email_family_step_record
        by (intros c Hc; apply Hclean; [apply Hl; now left | exact Hc]).
      rewrite IH by (intros d Hin; apply Hl; now right).
      destruct (has_value (field_text doc "CC")); cbn [orb]; [|reflexivity].
      rewrite orb_true_r.
      replace (0 <? Z.of_nat (List.length (Dict.set fam _ _))) with true;
        [reflexivity|].
      symmetry. apply Z.ltb_lt.
      generalize (PyStr.strip (field_text doc "CC")). intros k.
      destruct fam as [|[k' v'] fam']; cbn [Dict.set]; [cbn; lia|].
      destruct (String.eqb k' k); cbn [List.length]; lia. }
  rewrite (Hfold (docs self) [] (fun _ H => H)). reflexivity.
Qed.

Lemma family_validation_witness :
  delimiter default_loadfile_config = None
  /\ wrapper default_loadfile_config = None
  /\ map (fun doc => (field_text doc "FamilyID", field_text doc "CC"))
         (docs demo_run)
     = [("EMAIL_THREAD_7514", ""); ("", ""); ("", "")]
  /\ forall fs,
       write_loadfile (fun _ => true) demo_run default_loadfile_config "out" "VOL" []
       = Some fs ->
       validate_email_families
         {| files := fs; disk_exists := fun _ => false; listdir := fun _ => None |}
         (loadfile_path "out" "VOL")
       = Some false.
Proof.
  split; [reflexivity|]. split; [reflexivity|]. split; [vm_compute; reflexivity|].
  intros fs Hfs.
  apply (family_validation_reads_the_cc_field (fun _ => true) demo_run default_loadfile_config
           "out" "VOL" []
           {| files := fs; disk_exists := fun _ => false; listdir := fun _ => None |}
           eq_refl eq_refl (or_introl eq_refl)).
  - intros doc c Hdoc Hc.
    assert (forallb (fun d => forallb (fun x => clean (field_text d x)) cols)
                    (docs demo_run) = true) as H by (vm_compute; reflexivity).
    rewrite forallb_forall in H. specialize (H doc Hdoc).
    rewrite forallb_forall in H. now apply H.
  - exact Hfs.
Defined.

(** ** The .opt file *)

(** X27.  When neither the prefix nor the volume name has a comma, the
    line [write_opt_file] writes for a page entry that [expand_page]
    appended splits at its commas into six fields: the Bates number,
    the volume, the image path, Y for a first page, an empty field, and
    the page count for a first page. *)
Theorem opt_lines_have_six_fields
    (env : Env) (base_bates outdir volume_name : string) (total page_num : Z)
    (img : image) (compression : Z) (self s : Creator) :
  PyStr.mem_char "," (prefix self) = false ->
  PyStr.mem_char "," volume_name = false ->
  expand_page env base_bates outdir volume_name total page_num img compression self
  = (s, Some tt) ->
  exists o line,
    opt_data s = (opt_data self ++ [o])%list
    /\ opt_line o = line ++ newline
    /\ PyStr.split line ","
       = Some [bates o; volume_name;
               Path.join volume_name ["IMAGES"; "0000"; bates o ++ ".tiff"];
               if page_num =? 0 then "Y" else "";
               "";
               if page_num =? 0 then PyStr.str_int total else ""].
Proof.
  intros Hp Hv. unfold expand_page, Exc.bind, Exc.get, Exc.lift, Exc.modify, Exc.guard.
  destruct (bates_number (prefix self) base_bates) as [n|]; [|discriminate].
  cbn [fst snd].
  destruct (imwrite env _ img compression); [|discriminate].
  intros [= <-]. eexists. cbn [opt_data append_opt].
  set (b := get_bates (prefix self) (n + page_num) default_ndigit).
  assert (PyStr.mem_char "," b = false) as Hb.
  { unfold b, get_bates.
    now rewrite SplitFacts.mem_char_app, Hp, OptFacts.format_0d_free. }
  destruct (OptFacts.opt_line_fields
              (page_entry b volume_name (page_num =? 0) total))
    as (line & Hline & Hsplit).
  { unfold page_entry. cbn [bates volume path first_page npages].
    repeat constructor; try assumption.
    - unfold Path.join. cbn [fold_left].
      repeat apply OptFacts.join2_free; try assumption; try reflexivity.
      now rewrite SplitFacts.mem_char_app, Hb.
    - now destruct (page_num =? 0).
    - destruct (page_num =? 0); [apply OptFacts.str_int_free | reflexivity]. }
  exists line. split; [reflexivity|]. split; [exact Hline|].
  rewrite Hsplit. unfold page_entry. cbn [bates volume path first_page npages].
  now destruct (page_num =? 0).
Qed.

Lemma opt_lines_witness :
  PyStr.mem_char "," (prefix init) = false
  /\ opt_line (page_entry "PL_WEATHERFORD00008379" "VOL" true 3)
     = "PL_WEATHERFORD00008379,VOL,VOL/IMAGES/0000/PL_WEATHERFORD00008379.tiff,Y,,3"
       ++ newline
  /\ exists o line,
       opt_data (fst (expand_page demo_env "PL_WEATHERFORD00008379" "out" "VOL"
                        3 0 (Image 0) 6 init))
       = (opt_data init ++ [o])%list
       /\ opt_line o = line ++ newline
       /\ PyStr.split line ","
          = Some [bates o; "VOL";
                  Path.join "VOL" ["IMAGES"; "0000"; bates o ++ ".tiff"];
                  "Y"; ""; PyStr.str_int 3].
Proof.
  split; [reflexivity|]. split; [reflexivity|].
  apply (opt_lines_have_six_fields demo_env "PL_WEATHERFORD00008379" "out" "VOL"
           3 0 (Image 0) 6 init _ eq_refl eq_refl).
  reflexivity.
Defined.

(** ** validate_bates_sequence *)

(** X28.  On a loadfile written with the default delimiter and wrapper
    whose field texts have no wrapper and no line break and whose
    BegBates are Bates numbers below 10^8, [validate_bates_sequence]
    returns, and it returns True exactly when the numbers, in some
    order, are consecutive integers; the prefixes and the order of the
    lines play no part. *)
Theorem bates_validation_accepts_consecutive_numbers
    (can_write : string -> bool)
    (self : Creator) (cfg : LoadfileConfig) (out vol : string) (fs : FS)
    (dk : Disk) (ns : list Z) :
  delimiter cfg = None -> wrapper cfg = None ->
  encoding cfg = None \/ encoding cfg = Some utf_8 ->
  (forall doc c, In doc (docs self) -> In c cols ->
     clean (field_text doc c) = true) ->
  write_loadfile can_write self cfg out vol fs = Some (files dk) ->
  Forall2 (fun doc n =>
             0 <= n < 10 ^ 8
             /\ exists p, field_text doc "BegBates" = get_bates p n default_ndigit)
          (docs self) ns ->
  exists r,
    validate_bates_sequence dk (loadfile_path out vol) = Some r
    /\ (r = true <-> exists a, Permutation ns (run_from a (List.length ns))).
Proof.
  intros Hd Hw He Hclean Hwrite Hns.
  pose proof (ValidateFacts.written_default can_write self cfg out vol fs (files dk)
                Hd Hw He Hwrite) as Hfiles.
  unfold validate_bates_sequence. rewrite <- Hfiles.
  destruct (ValidateFacts.written_data_lines self fs (loadfile_path out vol) Hclean)
    as (text & -> & ->).
  assert (forall l acc,
             (forall doc, In doc l -> In doc (docs self)) ->
             fold_left bates_step
               (map (fun doc => record_line "020" "254" doc ++ newline) l) acc
             = (acc ++ map (fun doc => field_text doc "BegBates") l)%list) as Hfold.
  { induction l as [|doc r IH]; intros acc Hl; cbn [map fold_left].
    - now rewrite app_nil_r.
    - rewrite SequenceFacts.bates_step_record
        by (intros c Hc; apply Hclean; [apply Hl; now left | exact Hc]).
      rewrite IH by (intros d Hin; apply Hl; now right).
      now rewrite <- app_assoc. }
  rewrite (Hfold (docs self) [] (fun _ H => H)). cbn [app].
  rewrite (SequenceFacts.number_parts_read _ ns).
  - eexists. split; [reflexivity|]. apply SequenceFacts.sequential_sorted.
  - clear -Hns. induction Hns; cbn [map]; constructor; assumption.
Qed.

Lemma bates_validation_witness :
  map (fun doc => field_text doc "BegBates") (docs textless_run)
  = ["PL_WEATHERFORD00008378"; "PL_WEATHERFORD00008380"]
  /\ validate_bates_sequence textless_disk (loadfile_path "out" "VOL") = Some false
  /\ exists r,
       validate_bates_sequence textless_disk (loadfile_path "out" "VOL") = Some r
       /\ (r = true <-> exists a, Permutation [8378; 8380] (run_from a 2)).
Proof.
  split; [vm_compute; reflexivity|]. split; [vm_compute; reflexivity|].
  apply (bates_validation_accepts_consecutive_numbers (fun _ => true) textless_run
           default_loadfile_config "out" "VOL" [] textless_disk [8378; 8380]
           eq_refl eq_refl (or_introl eq_refl)).
  - intros doc c Hdoc Hc.
    assert (forallb (fun d => forallb (fun x => clean (field_text d x)) cols)
                    (docs textless_run) = true) as H by (vm_compute; reflexivity).
    rewrite forallb_forall in H. specialize (H doc Hdoc).
    rewrite forallb_forall in H. now apply H.
  - vm_compute. reflexivity.
  - repeat constructor; try lia; exists "PL_WEATHERFORD"; vm_compute; reflexivity.
Defined.
